(* ===== verification/_CoqProject ===== *)
-Q . S2P
Prelude.v
Fifo.v
RingBuffer.v
CString.v
Scan.v
Cl.v
ClText.v
Runner.v
ProdConsSem.v
ProdConsLive.v
ProdConsMon.v
ProdConsMain.v
Connection.v
Float64.v
Request.v
ClientTable.v
SockServer.v
SockClient.v
ServerTable.v
ServerTurns.v
SockMain.v
ServerLife.v
FileDesc.v
RecordOps.v
Calendar.v
ListFiles.v
ListFilesSpec.v
ForkList.v
ForkListSpec.v
Permits.v
PermitsSpec.v
SigToggle.v
SigCount.v
SigCountSpec.v
Challoc.v
ChallocSpec.v
ChallocBench.v
ShellLine.v
FifoLog.v
FifoNet.v
ShellLimits.v
LimitTests.v
ShellPipe.v
ShellScript.v
Barber.v
BarberSafe.v
BarberLive.v
BarberSysV.v
BarberSysVSpec.v
ShopLife.v
MsgQueue.v
MsgQueueSpec.v
MsgNet.v
MsgNetSpec.v
QueueLife.v
Pgm.v
PgmSpec.v
Filter.v
FilterSpec.v
FilterFile.v
FilterFileSpec.v
FilterMain.v
