(* ===== verification/Prelude.v ===== *)
(** * Verification of the programs of an operating systems laboratory

    The repository holds independent C programs, one directory per exercise
    (src/cwNN/zadM): allocation, files of records, command interpreters,
    message queues, semaphores and shared memory, threads, sockets.  This
    library models them as Rocq functions over explicit state, and as labelled
    steps where processes or threads interleave, and proves what makes them
    correct; where a program does not do what it means to, a theorem shows
    that too.

    ** The model of C

    Integers are [Z] with their width written out ([u8] ... [s64]); [int]
    arithmetic that overflows is undefined ([int_op]).  An array is a list, and
    an access outside it is undefined ([aget], [aset]).  Sequential code is in
    the monad [cm] over a state: it is [Done] with a result, [Exited] with a
    code, [Undef] with the kind of undefined behaviour, or out of fuel
    ([NoFuel]; only loops that are not structural have fuel, and theorems show
    that it is enough).  Concurrent code is a function [label -> state ->
    sres state]: a step, [Blocked], or a [Fault]; [reach] are the states of
    all interleavings.  What is not in the repository (the allocator, the
    operating system, commands that are run) is a parameter of the definitions
    that use it.  The C library's string, number and text input functions
    ([CString], [Float64], parts of [Pgm]) are modelled as far as they are
    called.

    ** The parts, by file

    - [Fifo], [RingBuffer]: cw09/zad1/src/buffer.c.  [Fifo] is the interface
      of a bounded queue (a class of operations with their laws); the ring
      buffer is an instance, and [buffer_is_bounded_queue] is the refinement.
    - [CString], [Scan], [Cl], [ClText]: the text functions, numbers in texts,
      and the configuration reader and line filter of cw09 (cl.c); [ClText]
      shows that a configuration that is written out is read back.
    - [Runner], [ProdConsSem], [ProdConsMon]: cw09 runner.c, main-sem.c and
      main-monitor.c.  [Runner] is what starts, joins and cancels the threads,
      over any two kinds of threads (the classes [Worker] and [WorkerLaws]);
      the other two are its instances, the producers and consumers as program
      counters over semaphores, and over a mutex with conditions, both proved
      against the interface of [Fifo].  Safety, absence of deadlock,
      completeness of the output (up to the lines that are left in the buffer,
      for semaphores), and runs that lose a line or hang.
    - [ProdConsLive], [ProdConsMain]: a bound on the steps of the program with
      semaphores; and both programs from [main] on, with logger.c, the creation
      of the threads and what runs at exit.  Their theorems follow the
      configuration file and the input file to what is printed at exit, with
      the ring buffer for the interface.
    - [Connection], [Request], [Float64]: cw10/zad1 connection.c and request.c:
      the framing of messages over TCP and UDP, the parsing of a request and
      its trip through a message; doubles are 64-bit patterns.
    - [ClientTable], [SockServer], [SockClient], [ServerTable], [ServerTurns]:
      the rest of cw10: server_cllist.c, the turns of the server's threads
      (server_listen.c, server_accept.c, server_pinger.c, server.c), client.c;
      [ServerTable] has the invariant of the table and [ServerTurns] what each
      turn does and that every order of turns is safe.
    - [SockMain], [ServerLife]: the same client and server from [main] on:
      arguments, sockets, addresses, threads, and what runs at exit.  Whatever
      happens to the client it takes leave and closes its socket; the server
      tells its clients that it ends, from every state that its turns reach;
      and a registration is followed from the arguments of the client to the
      table of the server.
    - [FileDesc], [RecordOps]: cw02/zad1 file_desc.c and operations.c, over a
      store of files with offsets: generating, copying and sorting records in
      the two modes.
    - [Calendar], [ListFiles], [ListFilesSpec]: cw02/zad2, the listing of a
      tree of files by date: what is printed, that the walk with opendir and
      the one with nftw agree, and that the condition compares days.
    - [ForkList], [ForkListSpec]: cw03/zad1, the same listing by processes with
      their stacks and buffers of stdout: it ends, leaves no process behind,
      and prints what the sequential one does.
    - [Permits], [PermitsSpec]: cw04/zad2, a parent that permits its children
      to end, by signals: its table is right, and all end unless a request is
      lost, which one theorem shows to happen.
    - [SigToggle], [SigCount], [SigCountSpec]: cw04/zad1 and zad3: a child
      started and stopped by a signal, and signals counted by both sides.
    - [FifoLog], [FifoNet]: cw05/zad2, lines sent through a named pipe:
      [FifoLog] has the texts and their buffers, [FifoNet] the master and the
      slaves as processes, from the making and the opening of the pipe to the
      end of the file.  What is printed is whole and in order, and the theorem
      says who can be missing and who can be left waiting.
    - [Challoc], [ChallocSpec], [ChallocBench]: cw01 challoc.c and the
      benchmark of zad2/src/main.c, over a heap of objects.  A table refines a
      list of optional blocks.
    - [ShellLine], [ShellLimits], [ShellPipe], [ShellScript]: the command
      interpreters of cw03/zad2, cw03/zad3 and cw05/zad1: the parser on the
      bytes of its buffer, limits, pipelines as processes with their ends of
      pipes; [ShellScript] has the command lines and what a whole script does.
    - [LimitTests]: the two programs of cw03/zad3 that try the limits: memory
      is given back or, when it is refused, written to at the null pointer; and
      a count of Pythagorean triples.
    - [Barber], [BarberSafe], [BarberLive]: cw07/zad1, the barber and his
      clients over shared memory and semaphores (POSIX build): safety, who gets
      the haircut; every schedule ends, and with no more clients than seats
      everyone is served; with more there is a deadlock.
    - [BarberSysV], [BarberSysVSpec]: the same loops in the System V build,
      where semaphores are numbered objects: it refines the POSIX build with no
      more clients than seats and removes every semaphore it makes; with more,
      a client removes the semaphore of another.
    - [ShopLife]: the shared object of cw07/zad1 in both builds: how barber and
      clients make, find and remove it, the listener and the signals; what it
      holds when it is made is the state that [Barber] starts from.
    - [MsgQueue], [MsgQueueSpec]: cw06/zad1, the server and the client over
      message queues, in both builds: the table, the answers, the end of the
      server, and where the protocol breaks.
    - [MsgNet], [MsgNetSpec]: the server and any number of its clients together,
      every interleaving of the turns of their loops (POSIX build in the
      theorems): each client is shown the answers to its own commands, in
      order, and everything comes to an end.
    - [QueueLife]: the names of these queues, and that every queue that exists
      is accounted for however servers and clients come and go.
    - [Pgm], [PgmSpec], [Filter], [FilterSpec], [FilterFile],
      [FilterFileSpec]: cw08/zad1, images and their files, the filter of a
      pixel in binary64, the threads that filter an image, which are proved to
      do what one loop does, and to terminate; filters as files of binary32
      numbers, and the command line.
    - [FilterMain]: the parts of cw08/zad1 together, from the files that are
      read to the file that is written.

    The header of each file says which functions its definitions stand for.
    Definitions have the names of the C functions; a loop of a function is a
    definition of its own next to it.

    ** Bounds and fuel

    The loops of the parser of [ShellLine] have as fuel the size of the line
    buffer, and those over a file of commands the length of the file, which
    each read shortens: [interpret_file_terminates] shows that they do not run
    out.  [exec_command] of [ShellPipe] takes one more than the number of
    words.  The configuration reader of [Cl] takes the length of the file, and
    the master of [FifoLog] and the reader of [FilterFile] that of their texts:
    each turn takes something off it, and the theorems have results, so that
    the fuel is enough.  The system of [FifoNet] has no fuel but a bound: each
    piece costs the slave one step and the master two for each of its bytes.
    Bounds of the statements: capacities of the ring buffer up to 2^30 cells,
    images whose pixels are counted in [int], filters of a size below 2^30,
    files of records below 2^61 bytes.

    ** What is not modelled

    The diagnostics of the programs on stderr, but where an event stands for
    them, and progress output; stopwatches and the loading of a library at run
    time; pauses; data races on counters that are only displayed; calls whose
    failure the programs do not notice and that are taken to succeed (each file
    says which); the installation of handlers in the parents of cw04.  The
    buffer of stdout is modelled where processes inherit it ([ForkList]) and
    else not.
    SIGINT is modelled for the client of cw06 alone ([MsgQueue]), left out of
    the composition with its server and of cw09, and modelled for the master
    and the slaves of cw05/zad2 once their handlers are set.  [ProdConsMain]
    lets no thread run before all are created.
    The DEBUG and CLOSE_DIRS builds of the listings are left out.

    This file has the model of C, the rules for total correctness ([wp]) and
    termination ([halts]), rule induction over interleavings, and the lemmas
    and tactics the others share. *)
From stdpp Require Export base tactics list list_numbers numbers gmap strings.
From Stdlib Require Export ZArith Lia.
#[local] Open Scope Z_scope.

(** ** Machine integers *)

Definition u8 (z : Z) : Z := z mod 2 ^ 8.
Definition u16 (z : Z) : Z := z mod 2 ^ 16.
Definition u32 (z : Z) : Z := z mod 2 ^ 32.
Definition u64 (z : Z) : Z := z mod 2 ^ 64.
Definition swrap (w z : Z) : Z := (z + 2 ^ (w - 1)) mod 2 ^ w - 2 ^ (w - 1).
Definition s8 (z : Z) : Z := swrap 8 z.
Definition s32 (z : Z) : Z := swrap 32 z.
Definition s64 (z : Z) : Z := swrap 64 z.
Definition INT_MAX : Z := 2147483647.
Definition INT_MIN : Z := -2147483648.

Lemma swrap_small w z : 0 < w -> - 2 ^ (w - 1) <= z < 2 ^ (w - 1) -> swrap w z = z.
Proof.
  intros Hw Hz. unfold swrap.
  assert (2 ^ w = 2 * 2 ^ (w - 1)) as E.
  { rewrite <- Z.pow_succ_r by lia. f_equal. lia. }
  rewrite Z.mod_small; lia.
Qed.

(** ** Outcomes of C code *)

(** The ways C code leaves the standard. *)
Inductive ub :=
  | UB_bounds    (* access outside an object *)
  | UB_null      (* null pointer dereferenced *)
  | UB_freed     (* access to, or free of, memory that is not allocated *)
  | UB_uninit    (* read of an indeterminate value *)
  | UB_overflow  (* signed arithmetic overflow *)
  | UB_div0      (* division by zero *)
  | UB_stdio     (* stdio stream used in a way ISO C leaves undefined *)
  | UB_thread.   (* a pthread function given something that is no thread *)

#[export] Instance ub_eq_dec : EqDecision ub.
Proof. solve_decision. Defined.

Inductive outcome (S A : Type) : Type :=
  | Done (a : A) (s : S)
  | Exited (code : Z) (s : S)
  | Undef (u : ub)
  | NoFuel.
Arguments Done {S A} a s.
Arguments Exited {S A} code s.
Arguments Undef {S A} u.
Arguments NoFuel {S A}.

(** Code over a state [S]: the state and error monad of the library. *)
Definition cm (S A : Type) : Type := S -> outcome S A.

#[export] Instance cm_ret S : MRet (cm S) := fun A a s => Done a s.
#[export] Instance cm_bind S : MBind (cm S) := fun A B f m s =>
  match m s with
  | Done a s' => f a s'
  | Exited c s' => Exited c s'
  | Undef u => Undef u
  | NoFuel => NoFuel
  end.

Section Primitives.
Context {S : Type}.
Definition get : cm S S := fun s => Done s s.
Definition gets {A} (f : S -> A) : cm S A := fun s => Done (f s) s.
Definition put (s : S) : cm S unit := fun _ => Done tt s.
Definition modify (f : S -> S) : cm S unit := fun s => Done tt (f s).
Definition undef {A} (u : ub) : cm S A := fun _ => Undef u.
Definition exit_ {A} (code : Z) : cm S A := fun s => Exited code s.
Definition nofuel {A} : cm S A := fun _ => NoFuel.
Definition lift {A} (u : ub) (o : option A) : cm S A :=
  match o with Some a => mret a | None => undef u end.
Definition check (b : bool) (u : ub) : cm S unit :=
  if b then mret tt else undef u.

(** [for (i = lo; ...; ++i) body], run [n] times. *)
Fixpoint for_range (n : nat) (i : Z) (body : Z -> cm S unit) : cm S unit :=
  match n with
  | O => mret tt
  | Datatypes.S n' => body i ;; for_range n' (i + 1) body
  end.

(** The same loop, left early with a value when the body gives one. *)
Fixpoint for_until {R} (n : nat) (i : Z) (body : Z -> cm S (option R)) : cm S (option R) :=
  match n with
  | O => mret None
  | Datatypes.S n' =>
      r ← body i;
      match r with
      | Some x => mret (Some x)
      | None => for_until n' (i + 1) body
      end
  end.
End Primitives.

(** The laws of the monad, to take sequences of calls apart. *)
Lemma bind_assoc {S A B C} (m : cm S A) (f : A -> cm S B) (g : B -> cm S C) s :
  ((m ≫= f) ≫= g) s = (m ≫= (fun a => f a ≫= g)) s.
Proof. unfold mbind, cm_bind. by destruct (m s). Qed.

Lemma bind_eq {S A B} (m : cm S A) (f : A -> cm S B) s a s' r :
  m s = Done a s' -> f a s' = r -> (m ≫= f) s = r.
Proof. unfold mbind, cm_bind. by intros ->. Qed.

Lemma bind_undef {S A B} (m : cm S A) (f : A -> cm S B) s u : m s = Undef u -> (m ≫= f) s = Undef u.
Proof. unfold mbind, cm_bind. by intros ->. Qed.

Lemma bind_exited {S A B} (m : cm S A) (f : A -> cm S B) s c s' : m s = Exited c s' -> (m ≫= f) s = Exited c s'.
Proof. unfold mbind, cm_bind. by intros ->. Qed.

(** ** Arrays: a C array is a list, an access outside it is undefined *)

Definition in_range {A} (l : list A) (i : Z) : bool := (0 <=? i) && (i <? Z.of_nat (length l)).
Definition aget {A} (l : list A) (i : Z) : option A :=
  if in_range l i then l !! Z.to_nat i else None.
Definition aset {A} (l : list A) (i : Z) (x : A) : option (list A) :=
  if in_range l i then Some (<[Z.to_nat i := x]> l) else None.

(** [int] arithmetic, undefined on overflow. *)
Definition is_int (z : Z) : bool := (INT_MIN <=? z) && (z <=? INT_MAX).
Definition int_op {S} (z : Z) : cm S Z := if is_int z then mret z else undef UB_overflow.

(** ** Concurrent programs: labelled steps that may block or go wrong *)

Inductive sres (St : Type) : Type :=
  | Step (s : St)
  | Blocked
  | Fault (u : ub).
Arguments Step {St} s.
Arguments Blocked {St}.
Arguments Fault {St} u.

Section Interleave.
Context {St Lbl : Type} (exec : Lbl -> St -> sres St).

Inductive reach (s0 : St) : St -> Prop :=
  | reach_refl : reach s0 s0
  | reach_step l s s' : reach s0 s -> exec l s = Step s' -> reach s0 s'.

(** One schedule, executed. *)
Fixpoint run (ls : list Lbl) (s : St) : option St :=
  match ls with
  | [] => Some s
  | l :: ls' => match exec l s with Step s' => run ls' s' | _ => None end
  end.

Definition stuck (s : St) : Prop := forall l, exec l s = Blocked.
Definition safe (s : St) : Prop := forall l u, exec l s <> Fault u.
End Interleave.

(** Number of elements that satisfy a test. *)
Definition countb {A} (f : A -> bool) (l : list A) : nat := length (List.filter f l).

(** Sum of a quantity over a list. *)
Definition sumz {A} (f : A -> Z) (l : list A) : Z := foldr (fun x acc => f x + acc) 0 l.

(** Little-endian bytes of an integer, and back. *)
Fixpoint le_bytes (n : nat) (z : Z) : list Z :=
  match n with O => [] | S n' => z mod 256 :: le_bytes n' (z / 256) end.
Fixpoint le_val (l : list Z) : Z :=
  match l with [] => 0 | b :: l' => b + 256 * le_val l' end.

Definition is_byte (b : Z) : bool := (0 <=? b) && (b <? 256).

(** [memcpy(&dst[off], src, n)] into an array. *)
Definition overwrite {A} (dst : list A) (off : nat) (src : list A) : list A :=
  take off dst ++ src ++ drop (off + length src) dst.

(** ** Lemmas *)

Lemma length_le_bytes n z : length (le_bytes n z) = n.
Proof. revert z. induction n as [|n IH]; intros z; simpl; [done|]. by rewrite IH. Qed.

Lemma le_val_bytes n z : le_val (le_bytes n z) = z mod 256 ^ Z.of_nat n.
Proof.
  revert z. induction n as [|n IH]; intros z.
  - simpl. by rewrite Z.mod_1_r.
  - cbn [le_bytes le_val]. rewrite IH, Nat2Z.inj_succ, Z.pow_succ_r by lia.
    rewrite Z.rem_mul_r; [lia|lia|]. apply Z.pow_pos_nonneg; lia.
Qed.

Lemma le_val_bytes_small n z : 0 <= z < 256 ^ Z.of_nat n -> le_val (le_bytes n z) = z.
Proof. intros Hz. rewrite le_val_bytes. by apply Z.mod_small. Qed.

Lemma le_bytes_byte n z : Forall (fun b => is_byte b = true) (le_bytes n z).
Proof.
  revert z. induction n as [|n IH]; intros z; simpl; constructor; [|done].
  pose proof (Z.mod_pos_bound z 256). unfold is_byte. lia.
Qed.

Lemma length_overwrite {A} (dst : list A) off src :
  (off + length src <= length dst)%nat -> length (overwrite dst off src) = length dst.
Proof. intros H. unfold overwrite. rewrite !length_app, length_take, length_drop. lia. Qed.

Lemma overwrite_read {A} (dst : list A) off src :
  (off + length src <= length dst)%nat ->
  take (length src) (drop off (overwrite dst off src)) = src.
Proof.
  intros H. unfold overwrite.
  rewrite drop_app_length' by (rewrite length_take; lia).
  by rewrite take_app_length.
Qed.

Lemma overwrite_all {A} (dst src : list A) : length src = length dst -> overwrite dst 0 src = src.
Proof. intros H. unfold overwrite. simpl. rewrite drop_ge by lia. apply app_nil_r. Qed.

Lemma in_range_spec {A} (l : list A) i : in_range l i = true <-> 0 <= i < Z.of_nat (length l).
Proof. unfold in_range. lia. Qed.

Lemma aget_Some {A} (l : list A) i x :
  aget l i = Some x <-> 0 <= i /\ l !! Z.to_nat i = Some x.
Proof.
  unfold aget. destruct (in_range l i) eqn:E.
  - apply in_range_spec in E. split; [intros H; split; [lia|done]|by intros [_ ?]].
  - split; [done|]. intros [Hi Hx]. apply lookup_lt_Some in Hx.
    unfold in_range in E. lia.
Qed.

Lemma aget_nat {A} (l : list A) (n : nat) : aget l (Z.of_nat n) = l !! n.
Proof.
  destruct (l !! n) eqn:E.
  - apply aget_Some. rewrite Nat2Z.id. split; [lia|done].
  - unfold aget, in_range. apply lookup_ge_None in E.
    destruct (_ && _) eqn:Hb; [lia|done].
Qed.

Lemma aget_is_Some {A} (l : list A) i :
  0 <= i < Z.of_nat (length l) -> exists x, aget l i = Some x.
Proof.
  intros Hi. destruct (lookup_lt_is_Some_2 l (Z.to_nat i)) as [x Hx]; [lia|].
  exists x. apply aget_Some. split; [lia|done].
Qed.

Lemma aget_insert_ne {A} (l : list A) k x y : x <> k -> 0 <= k -> aget (<[Z.to_nat k := y]> l) x = aget l x.
Proof.
  intros Hne Hk. unfold aget, in_range. rewrite length_insert. case_match eqn:E; [|done].
  apply list_lookup_insert_ne. lia.
Qed.

Lemma aset_ok {A} (l : list A) i x :
  0 <= i < Z.of_nat (length l) -> aset l i x = Some (<[Z.to_nat i := x]> l).
Proof. intros Hi. unfold aset. apply in_range_spec in Hi. by rewrite Hi. Qed.

Lemma aset_Some {A} (l l' : list A) i x :
  aset l i x = Some l' -> 0 <= i < Z.of_nat (length l) /\ l' = <[Z.to_nat i := x]> l.
Proof.
  unfold aset. destruct (in_range l i) eqn:E; [|done].
  apply in_range_spec in E. by intros [= <-].
Qed.

Lemma int_op_ok {S} (z : Z) (s : S) : INT_MIN <= z <= INT_MAX -> int_op z s = Done z s.
Proof.
  intros Hz. unfold int_op, is_int.
  destruct (_ && _) eqn:E; [done|]. lia.
Qed.

Lemma existsb_insert {A} (f : A -> bool) l i x y : l !! i = Some x -> f y = f x -> existsb f (<[i := y]> l) = existsb f l.
Proof.
  revert i. induction l as [|z l IH]; intros [|i] Hx E; simpl; try done.
  - injection Hx as <-. by rewrite E.
  - by rewrite (IH i).
Qed.

Lemma existsb_lookup {A} (f : A -> bool) l : existsb f l = true <-> exists (i : nat) x, l !! i = Some x /\ f x = true.
Proof.
  rewrite existsb_exists. split.
  - intros (x & [i Hi]%list_elem_of_In%list_elem_of_lookup & Hx). by exists i, x.
  - intros (i & x & Hi & Hx). exists x. split; [|done]. by eapply list_elem_of_In, list_elem_of_lookup_2.
Qed.

Lemma nodup_bound (l : list nat) n : NoDup l -> (forall i, i ∈ l -> (i < n)%nat) -> (length l <= n)%nat.
Proof.
  intros Hn Hl. rewrite <- (length_seq n 0). apply submseteq_length, NoDup_submseteq; [done|].
  intros i Hi%Hl. apply elem_of_seq. lia.
Qed.

Lemma countb_cons {A} (f : A -> bool) x l :
  countb f (x :: l) = ((if f x then 1 else 0) + countb f l)%nat.
Proof. unfold countb. simpl. by destruct (f x). Qed.

Lemma countb_app {A} (f : A -> bool) l1 l2 :
  countb f (l1 ++ l2) = (countb f l1 + countb f l2)%nat.
Proof. unfold countb. by rewrite List.filter_app, length_app. Qed.

Lemma countb_insert {A} (f : A -> bool) l (i : nat) x y :
  l !! i = Some x ->
  (countb f (<[i := y]> l) + (if f x then 1 else 0) =
   countb f l + (if f y then 1 else 0))%nat.
Proof.
  revert i. induction l as [|z l IH]; intros [|i] Hi; simplify_eq/=;
    rewrite !countb_cons.
  - destruct (f x), (f y); lia.
  - specialize (IH i Hi). lia.
Qed.

Lemma countb_pos {A} (f : A -> bool) l (i : nat) x :
  l !! i = Some x -> f x = true -> (0 < countb f l)%nat.
Proof.
  revert i. induction l as [|z l IH]; intros [|i] Hi Hf; simplify_eq/=;
    rewrite !countb_cons.
  - rewrite Hf. lia.
  - specialize (IH i Hi Hf). lia.
Qed.

Lemma countb_pos_ex {A} (f : A -> bool) l :
  (0 < countb f l)%nat -> exists (i : nat) x, l !! i = Some x /\ f x = true.
Proof.
  induction l as [|z l IH]; [cbn; lia|]. rewrite countb_cons.
  destruct (f z) eqn:E.
  - intros _. by exists 0%nat, z.
  - intros H. destruct IH as (i & x & ? & ?); [lia|]. by exists (S i), x.
Qed.

Lemma countb_zero {A} (f : A -> bool) l :
  (forall (i : nat) x, l !! i = Some x -> f x = false) -> countb f l = 0%nat.
Proof.
  intros H. destruct (countb f l) eqn:E; [done|].
  destruct (countb_pos_ex f l) as (i & x & Hi & Hx); [lia|].
  by rewrite (H i x Hi) in Hx.
Qed.

Lemma countb_nil {A} (f : A -> bool) : countb f [] = 0%nat.
Proof. done. Qed.

Lemma countb_le {A} (f : A -> bool) l : (countb f l <= length l)%nat.
Proof. induction l as [|x l IH]; [done|]. rewrite countb_cons. simpl. destruct (f x); lia. Qed.

Lemma countb_map {A B} (f : B -> bool) (g : A -> B) l : countb f (map g l) = countb (fun x => f (g x)) l.
Proof. induction l as [|x l IH]; [done|]. simpl. by rewrite !countb_cons, IH. Qed.

Lemma countb_same {A} (f g : A -> bool) l : Forall (fun x => f x = g x) l -> countb f l = countb g l.
Proof. induction 1 as [|x l E _ IH]; [done|]. by rewrite !countb_cons, E, IH. Qed.

Lemma countb_full {A} (f : A -> bool) l : (forall (i : nat) x, l !! i = Some x -> f x = true) -> countb f l = length l.
Proof.
  induction l as [|x l IH]; intros H; [done|]. rewrite countb_cons, (H 0%nat x) by done.
  rewrite IH; [done|]. intros i y Hy. by apply (H (S i)).
Qed.

Lemma countb_replicate {A} (f : A -> bool) n x :
  countb f (replicate n x) = (if f x then n else 0)%nat.
Proof.
  induction n as [|n IH]; [by destruct (f x)|].
  simpl. rewrite countb_cons, IH. by destruct (f x).
Qed.

Lemma sumz_insert {A} (f : A -> Z) l (i : nat) x y :
  l !! i = Some x -> sumz f (<[i := y]> l) = sumz f l - f x + f y.
Proof.
  revert i. induction l as [|z l IH]; intros [|i] Hi; simplify_eq/=; [lia|].
  rewrite (IH i Hi). lia.
Qed.

Lemma sumz_cons {A} (f : A -> Z) x l : sumz f (x :: l) = f x + sumz f l.
Proof. done. Qed.

Lemma sumz_app {A} (f : A -> Z) l1 l2 : sumz f (l1 ++ l2) = sumz f l1 + sumz f l2.
Proof. unfold sumz. induction l1 as [|x l1 IH]; simpl; [done|]. rewrite IH. lia. Qed.

Lemma sumz_ext {A} (f g : A -> Z) l : (forall x, x ∈ l -> f x = g x) -> sumz f l = sumz g l.
Proof.
  unfold sumz. induction l as [|x l IH]; intros H; simpl; [done|]. rewrite IH; [|intros y Hy; apply H; by right].
  f_equal. apply H. by left.
Qed.

Lemma sumz_plus {A} (f g : A -> Z) l : sumz (fun x => f x + g x) l = sumz f l + sumz g l.
Proof. unfold sumz. induction l as [|x l IH]; simpl; [done|]. rewrite IH. lia. Qed.

Lemma sumz_swap {A B} (f : A -> B -> Z) l1 l2 :
  sumz (fun x => sumz (f x) l2) l1 = sumz (fun y => sumz (fun x => f x y) l1) l2.
Proof.
  induction l1 as [|x l1 IH].
  - induction l2 as [|y l2 IH2]; [done|]. by rewrite sumz_cons, <- IH2.
  - rewrite sumz_cons, IH, <- sumz_plus. done.
Qed.

Lemma sumz_bound {A} (f : A -> Z) b l : (forall x, x ∈ l -> 0 <= f x <= b) -> 0 <= sumz f l <= b * Z.of_nat (length l).
Proof.
  unfold sumz. induction l as [|x l IH]; intros H; simpl; [lia|].
  assert (0 <= f x <= b) by (apply H; left). specialize (IH ltac:(intros y Hy; apply H; by right)). lia.
Qed.

Lemma sumz_nonneg {A} (f : A -> Z) l : (forall x, 0 <= f x) -> 0 <= sumz f l.
Proof. intros Hf. induction l as [|z l IH]; simpl; [lia|]. specialize (Hf z). lia. Qed.

Lemma concat_map_insert {A B} (f : A -> list B) l (i : nat) x y :
  l !! i = Some x ->
  concat (map f (<[i := y]> l)) ++ f x ≡ₚ concat (map f l) ++ f y.
Proof.
  revert i. induction l as [|z l IH]; intros [|i] Hi; simplify_eq/=.
  - rewrite (Permutation_app_comm (f y)), (Permutation_app_comm (f x)).
    rewrite <- !app_assoc. apply Permutation_app_head, Permutation_app_comm.
  - rewrite <- !app_assoc. apply Permutation_app_head, IH, Hi.
Qed.

(** Items that leave the hands of one owner and are put on a pile. *)
Lemma move_to_pile {A B} (f : A -> list B) (xs : list A) (i : nat) x y (pile l all : list B) :
  xs !! i = Some x -> pile ++ concat (map f xs) ≡ₚ all -> f x ≡ₚ l ++ f y ->
  (pile ++ l) ++ concat (map f (<[i := y]> xs)) ≡ₚ all.
Proof.
  intros Hx <- Hd. apply (Permutation_app_inv_r (f x)).
  rewrite <- !app_assoc. apply Permutation_app_head.
  rewrite (concat_map_insert f _ _ _ y Hx), Hd.
  rewrite !app_assoc. apply Permutation_app_tail, Permutation_app_comm.
Qed.

Lemma concat_map_nil {A B} (f : A -> list B) l :
  Forall (fun x => f x = []) l -> concat (map f l) = [].
Proof. induction 1 as [|x l E _ IH]; [done|]. simpl. by rewrite E, IH. Qed.

Lemma filter_snoc_if {A} (f : A -> bool) l o x :
  o = List.filter f l -> (if f x then o ++ [x] else o) = List.filter f (l ++ [x]).
Proof. intros ->. rewrite List.filter_app. simpl. by destruct (f x); rewrite ?app_nil_r. Qed.

Lemma filter_perm {A} (f : A -> bool) l1 l2 :
  l1 ≡ₚ l2 -> List.filter f l1 ≡ₚ List.filter f l2.
Proof.
  induction 1 as [|x l1 l2 _ IH|x y l|l1 l2 l3 _ IH1 _ IH2]; simpl.
  - done.
  - destruct (f x); [by constructor|done].
  - destruct (f x), (f y); try done. constructor.
  - by etrans.
Qed.

(** A counted loop whose body is always defined and keeps [P]. *)
Lemma for_range_inv {S} (P : S -> Prop) (body : Z -> cm S unit) n i s :
  (forall k s, i <= k < i + Z.of_nat n -> P s -> exists s', body k s = Done tt s' /\ P s') ->
  P s -> exists s', for_range n i body s = Done tt s' /\ P s'.
Proof.
  revert i s. induction n as [|n IH]; intros i s Hb HP; [by exists s|].
  destruct (Hb i s) as (s1 & E & HP1); [lia|done|].
  destruct (IH (i + 1) s1) as (s2 & E2 & HP2).
  - intros k s0 Hk. apply Hb. lia.
  - done.
  - exists s2. split; [|done]. simpl. unfold mbind, cm_bind. by rewrite E.
Qed.

(** ** Total correctness

    [wp m Q E s]: run from [s], [m] is defined and terminates; its result and
    state satisfy [Q], or it exits with a code and state that satisfy [E]. *)
Definition wp {S A} (m : cm S A) (Q : A -> S -> Prop) (E : Z -> S -> Prop) (s : S) : Prop :=
  match m s with Done a s' => Q a s' | Exited c s' => E c s' | Undef _ | NoFuel => False end.

Lemma wp_bind {S A B} (m : cm S A) (f : A -> cm S B) Q E s :
  wp m (fun a => wp (f a) Q E) E s -> wp (m ≫= f) Q E s.
Proof. unfold wp, mbind, cm_bind. by destruct (m s). Qed.

Lemma wp_done {S A} (m : cm S A) a s' Q E s : m s = Done a s' -> Q a s' -> wp m Q E s.
Proof. unfold wp. by intros ->. Qed.

Lemma wp_mono {S A} (m : cm S A) (Q Q' : A -> S -> Prop) (E E' : Z -> S -> Prop) s :
  wp m Q E s -> (forall a s', Q a s' -> Q' a s') -> (forall c s', E c s' -> E' c s') -> wp m Q' E' s.
Proof. unfold wp. destruct (m s); eauto. Qed.

(** A loop that passes through given states. *)
Lemma for_range_states {S} (body : Z -> cm S unit) (state : nat -> S) n :
  (forall k, (k < n)%nat -> body (Z.of_nat k) (state k) = Done tt (state (Datatypes.S k))) ->
  for_range n 0 body (state 0%nat) = Done tt (state n).
Proof.
  assert (forall m k, (forall j, (k <= j < k + m)%nat -> body (Z.of_nat j) (state j) = Done tt (state (Datatypes.S j))) ->
    for_range m (Z.of_nat k) body (state k) = Done tt (state (k + m)%nat)) as H.
  { induction m as [|m IH]; intros k Hk; [by rewrite Nat.add_0_r|]. cbn [for_range]. unfold mbind, cm_bind.
    rewrite Hk by lia. replace (Z.of_nat k + 1) with (Z.of_nat (Datatypes.S k)) by lia. rewrite IH by (intros; apply Hk; lia).
    do 2 f_equal. lia. }
  intros Hb. apply (H n 0%nat). intros j Hj. apply Hb. lia.
Qed.

Lemma wp_for_range {S} (P : S -> Prop) E (body : Z -> cm S unit) n i s :
  (forall k s, i <= k < i + Z.of_nat n -> P s -> wp (body k) (fun _ => P) E s) ->
  P s -> wp (for_range n i body) (fun _ => P) E s.
Proof.
  revert i s. induction n as [|n IH]; intros i s Hb HP; [done|].
  simpl. apply wp_bind. eapply wp_mono; [apply Hb; [lia|done]| |done].
  intros [] s' HP'. apply IH; [|done]. intros k s0 Hk. apply Hb. lia.
Qed.

Lemma wp_unit_eq {S} (m : cm S unit) s t :
  wp m (fun _ s' => s' = t) (fun _ _ => False) s -> m s = Done tt t.
Proof. unfold wp. destruct (m s) as [[] s'| | |]; [by intros ->|done..]. Qed.

(** A counted loop with an invariant that depends on the index. *)
Lemma wp_for_range_idx {S} (P : Z -> S -> Prop) E (body : Z -> cm S unit) n i s :
  (forall k s, i <= k < i + Z.of_nat n -> P k s -> wp (body k) (fun _ => P (k + 1)) E s) ->
  P i s -> wp (for_range n i body) (fun _ => P (i + Z.of_nat n)) E s.
Proof.
  revert i s. induction n as [|n IH]; intros i s Hb HP.
  - change (P (i + 0) s). by rewrite Z.add_0_r.
  - cbn [for_range]. apply wp_bind. eapply wp_mono; [apply Hb; [lia|done]| |done].
    intros [] s' HP'. replace (i + Z.of_nat (Datatypes.S n)) with ((i + 1) + Z.of_nat n) by lia.
    apply IH; [|done]. intros k s0 Hk. apply Hb. lia.
Qed.

(** [halts m Q s]: [m] comes to an end (which may be an undefined access), and
    if it is a value it satisfies [Q]. *)
Definition halts {S A} (m : cm S A) (Q : A -> S -> Prop) (s : S) : Prop :=
  match m s with Done a s' => Q a s' | Exited _ _ | Undef _ => True | NoFuel => False end.

Lemma halts_bind {S A B} (m : cm S A) (f : A -> cm S B) Q s :
  halts m (fun a => halts (f a) Q) s -> halts (m ≫= f) Q s.
Proof. unfold halts, mbind, cm_bind. by destruct (m s). Qed.

Lemma halts_mono {S A} (m : cm S A) (Q Q' : A -> S -> Prop) s :
  halts m Q s -> (forall a s', Q a s' -> Q' a s') -> halts m Q' s.
Proof. unfold halts. destruct (m s); eauto. Qed.

Lemma halts_not_nofuel {S A} (m : cm S A) Q s : halts m Q s -> m s <> NoFuel.
Proof. unfold halts. by destruct (m s). Qed.

(** A search loop whose body only looks at the state. *)
Fixpoint first_some {R} (f : Z -> option R) (n : nat) (i : Z) : option R :=
  match n with
  | O => None
  | S n' => match f i with Some r => Some r | None => first_some f n' (i + 1) end
  end.

Lemma for_until_pure {S R} (f : Z -> option R) (body : Z -> cm S (option R)) n i s :
  (forall k, i <= k < i + Z.of_nat n -> body k s = Done (f k) s) ->
  for_until n i body s = Done (first_some f n i) s.
Proof.
  revert i. induction n as [|n IH]; intros i Hb; [done|].
  simpl. unfold mbind, cm_bind. rewrite Hb by lia. destruct (f i); [done|].
  apply IH. intros k Hk. apply Hb. lia.
Qed.

Lemma first_some_Some {R} (f : Z -> option R) n i r :
  first_some f n i = Some r ->
  exists k, i <= k < i + Z.of_nat n /\ f k = Some r /\ forall j, i <= j < k -> f j = None.
Proof.
  revert i. induction n as [|n IH]; intros i H; [done|]. simpl in H.
  destruct (f i) eqn:E; simplify_eq.
  - exists i. split; [lia|]. split; [done|]. intros j Hj. lia.
  - destruct (IH _ H) as (k & Hk & Hf & Hlt). exists k. split; [lia|]. split; [done|].
    intros j Hj. destruct (decide (j = i)) as [->|]; [done|]. apply Hlt. lia.
Qed.

Lemma first_some_None {R} (f : Z -> option R) n i k :
  first_some f n i = None -> i <= k < i + Z.of_nat n -> f k = None.
Proof.
  revert i. induction n as [|n IH]; intros i H Hk; [lia|]. simpl in H.
  destruct (f i) eqn:E; [done|].
  destruct (decide (k = i)) as [->|]; [done|]. apply (IH (i + 1)); [done|lia].
Qed.

Section InterleaveFacts.
Context {St Lbl : Type} (exec : Lbl -> St -> sres St).

(** Rule induction: what holds at the start and is kept by every step
    holds in every reachable state. *)
Lemma reach_inv (P : St -> Prop) s0 s :
  P s0 ->
  (forall l s s', P s -> exec l s = Step s' -> P s') ->
  reach exec s0 s -> P s.
Proof. intros H0 HS. induction 1; eauto. Qed.

Lemma run_reach s0 ls s s' : reach exec s0 s -> run exec ls s = Some s' -> reach exec s0 s'.
Proof.
  revert s. induction ls as [|l ls IH]; intros s Hr Hrun; simplify_eq/=; [done|].
  destruct (exec l s) eqn:E; try done. eapply IH; [|done]. by eapply reach_step.
Qed.

Lemma run_reachable s0 ls s' : run exec ls s0 = Some s' -> reach exec s0 s'.
Proof. apply run_reach, reach_refl. Qed.

Lemma reach_trans s0 s1 s2 : reach exec s0 s1 -> reach exec s1 s2 -> reach exec s0 s2.
Proof. intros H1 H2. induction H2; [done|]. by eapply reach_step. Qed.
End InterleaveFacts.

Lemma list_sum_insert {A} (f : A -> nat) l (i : nat) x y : l !! i = Some x ->
  (list_sum (map f (<[i := y]> l)) + f x = list_sum (map f l) + f y)%nat.
Proof.
  revert i. induction l as [|z l IH]; intros [|i] Hi; simplify_eq/=; [lia|].
  specialize (IH i Hi). lia.
Qed.

(** Positions of a circular buffer. *)
Lemma ring_index_inj cap start i j :
  0 <= start < cap -> 0 <= i < cap -> 0 <= j < cap ->
  (start + i) mod cap = (start + j) mod cap -> i = j.
Proof.
  intros Hs Hi Hj E.
  assert (forall k, 0 <= k < cap ->
    (start + k) mod cap = if start + k <? cap then start + k else start + k - cap) as M.
  { intros k Hk. destruct (Z.ltb_spec (start + k) cap).
    - by rewrite Z.mod_small by lia.
    - rewrite <- (Z.mod_add (start + k) (-1) cap) by lia.
      rewrite Z.mod_small; lia. }
  rewrite !M in E by done.
  destruct (Z.ltb_spec (start + i) cap), (Z.ltb_spec (start + j) cap); lia.
Qed.

Lemma ring_index_range cap k : 0 < cap -> 0 <= k mod cap < cap.
Proof. intros H. by apply Z.mod_pos_bound. Qed.

Lemma ring_index_succ cap start k :
  ((start + 1) mod cap + k) mod cap = (start + (k + 1)) mod cap.
Proof. rewrite Zplus_mod_idemp_l. f_equal. lia. Qed.

(** ** Strings in a buffer of bytes *)

(** The C string at the start of a buffer, if it is terminated. *)
Fixpoint c_string (l : list Z) : option (list Z) :=
  match l with
  | [] => None
  | b :: l' => if b =? 0 then Some [] else s ← c_string l'; Some (b :: s)
  end.

Lemma c_string_prefix l k : l !! k = Some 0 ->
  exists n, c_string l = Some n /\ (length n <= k)%nat.
Proof.
  revert k. induction l as [|b l IH]; intros k Hk; [done|]. simpl.
  destruct (Z.eqb_spec b 0) as [->|Hb]; [exists []; split; [done|simpl; lia]|].
  destruct k as [|k]; simplify_eq/=.
  destruct (IH k Hk) as (n & -> & Hn). exists (b :: n). split; [done|simpl; lia].
Qed.

Lemma c_string_app name r : 0 ∉ name -> c_string (name ++ 0 :: r) = Some name.
Proof.
  induction name as [|b name IH]; [done|]. intros Hn. apply not_elem_of_cons in Hn as [Hb Hn].
  simpl. destruct (Z.eqb_spec b 0); [congruence|]. by rewrite IH.
Qed.

(** ** Automation *)

(** Runs code of the monad symbolically, one layer of plumbing at a time. *)
Ltac cm_run :=
  unfold mbind, cm_bind, mret, cm_ret, get, gets, put, modify, lift, check, undef, exit_ in *;
  simpl in *.

(** The same, in the goal only. *)
Ltac cm_step :=
  unfold mbind, cm_bind, mret, cm_ret, get, gets, put, modify, lift, check, undef, exit_;
  simpl.

(** Discharges an [int] operation whose result is in range. *)
Ltac int_ok := rewrite int_op_ok by (unfold INT_MIN, INT_MAX; simpl; lia); simpl.

(** Splits on an integer test and drops the impossible side. *)
Ltac Zcase x y :=
  first [ destruct (Z.eqb_spec x y) | destruct (Z.ltb_spec x y) | destruct (Z.leb_spec x y) ];
  try lia; simpl.

(** Closes an equation of lists that differ in how [++] and [::] are nested. *)
Ltac list_assoc := repeat first [rewrite <- app_assoc | progress cbn [app]]; reflexivity.

(** The lengths of lists. *)
Create Rewrite HintDb lengths.
#[export] Hint Rewrite @length_app @length_replicate @length_map @length_rev @length_insert length_le_bytes : lengths.

(** Computes lengths of lists and closes the arithmetic goal. *)
Ltac list_len := repeat first [progress autorewrite with lengths | progress cbn [length app]]; lia.

(** Facts that are looked for at the leaves of proofs. *)
Create HintDb model.
#[export] Hint Resolve reach_refl run_reachable le_bytes_byte : model.
