(* ===== verification/Fifo.v ===== *)
(** The interface of a bounded first-in first-out buffer: what the
    producer/consumer programs of cw09 rely on.  [RingBuffer.v] implements it
    for cw09/zad1/src/buffer.c; [ProdConsSem.v] proves its theorems against
    the interface only. *)
From S2P Require Import Prelude.
#[local] Open Scope Z_scope.

(** The operations over a state [S] that stores values of type [A], and the
    abstraction relation: [bf_rep cap q s] when [s] holds the values [q], oldest
    first, and can hold [cap]. *)
Class BoundedFifo (S A : Type) := {
  bf_empty : cm S bool;
  bf_full : cm S bool;
  bf_push : A -> cm S Z;
  bf_pop : cm S (Z * option A);
  bf_rep : Z -> list A -> S -> Prop;
}.

(** The promises: every operation is defined (no undefined behaviour, no
    exit) on a represented state, and does to [q] what it does on a queue.  An
    operation that cannot be done returns -1 and leaves the state alone. *)
Class BoundedFifoLaws (S A : Type) `{BoundedFifo S A} := {
  bf_rep_bound cap q s : bf_rep cap q s -> Z.of_nat (length q) <= cap;
  bf_empty_ok cap q s : bf_rep cap q s -> bf_empty s = Done (bool_decide (q = [])) s;
  bf_full_ok cap q s :
    bf_rep cap q s -> bf_full s = Done (bool_decide (Z.of_nat (length q) = cap)) s;
  bf_push_ok cap q s x :
    bf_rep cap q s -> Z.of_nat (length q) < cap ->
    exists s', bf_push x s = Done 0 s' /\ bf_rep cap (q ++ [x]) s';
  bf_push_full cap q s x :
    bf_rep cap q s -> Z.of_nat (length q) = cap -> bf_push x s = Done (-1) s;
  bf_pop_ok cap x q s :
    bf_rep cap (x :: q) s ->
    exists s', bf_pop s = Done (0, Some x) s' /\ bf_rep cap q s';
  bf_pop_empty cap s : bf_rep cap [] s -> bf_pop s = Done (-1, None) s;
}.

(** The abstract queue, as a reference implementation. *)
Section Queue.
Context {A : Type}.

Inductive fifo_op := OPush (x : A) | OPop | OEmpty | OFull.
Inductive fifo_res := RCode (c : Z) | RPop (c : Z) (x : option A) | RBool (b : bool).

Definition queue_step (cap : Z) (o : fifo_op) (q : list A) : fifo_res * list A :=
  match o with
  | OPush x =>
      if bool_decide (Z.of_nat (length q) = cap) then (RCode (-1), q)
      else (RCode 0, q ++ [x])
  | OPop =>
      match q with [] => (RPop (-1) None, []) | x :: q' => (RPop 0 (Some x), q') end
  | OEmpty => (RBool (bool_decide (q = [])), q)
  | OFull => (RBool (bool_decide (Z.of_nat (length q) = cap)), q)
  end.

Fixpoint queue_run (cap : Z) (os : list fifo_op) (q : list A) : list fifo_res * list A :=
  match os with
  | [] => ([], q)
  | o :: os' =>
      let '(r, q1) := queue_step cap o q in
      let '(rs, q2) := queue_run cap os' q1 in
      (r :: rs, q2)
  end.
End Queue.
Arguments fifo_op A : clear implicits.
Arguments fifo_res A : clear implicits.

Section Client.
Context {S A : Type} `{BF : BoundedFifo S A}.

Definition fifo_step (o : fifo_op A) : cm S (fifo_res A) :=
  match o with
  | OPush x => c ← bf_push x; mret (RCode c)
  | OPop => cx ← bf_pop; mret (RPop cx.1 cx.2)
  | OEmpty => b ← bf_empty; mret (RBool b)
  | OFull => b ← bf_full; mret (RBool b)
  end.

Fixpoint fifo_run (os : list (fifo_op A)) : cm S (list (fifo_res A)) :=
  match os with
  | [] => mret []
  | o :: os' => r ← fifo_step o; rs ← fifo_run os'; mret (r :: rs)
  end.

(** Whatever satisfies the laws behaves, call by call, as the queue. *)
Lemma fifo_step_refines `{!BoundedFifoLaws S A} cap o q s :
  bf_rep cap q s ->
  exists s', fifo_step o s = Done (queue_step cap o q).1 s' /\
             bf_rep cap (queue_step cap o q).2 s'.
Proof.
  intros Hr. pose proof (bf_rep_bound _ _ _ Hr) as Hb.
  destruct o as [x| | |]; cbn -[bf_push bf_pop bf_empty bf_full bf_rep]; unfold mbind, cm_bind, mret, cm_ret.
  - case_bool_decide as Hc.
    + exists s. by rewrite (bf_push_full cap q).
    + destruct (bf_push_ok cap q s x) as (s' & E & Hr'); [done|lia|].
      exists s'. by rewrite E.
  - destruct q as [|x q].
    + exists s. by rewrite (bf_pop_empty cap).
    + destruct (bf_pop_ok cap x q s Hr) as (s' & E & Hr').
      exists s'. by rewrite E.
  - exists s. by rewrite (bf_empty_ok cap q).
  - exists s. by rewrite (bf_full_ok cap q).
Qed.

Lemma fifo_run_refines `{!BoundedFifoLaws S A} cap os q s :
  bf_rep cap q s ->
  exists s', fifo_run os s = Done (queue_run cap os q).1 s' /\
             bf_rep cap (queue_run cap os q).2 s'.
Proof.
  revert q s. induction os as [|o os IH]; intros q s Hr; [by exists s|].
  destruct (fifo_step_refines cap o q s Hr) as (s1 & E1 & Hr1).
  simpl. destruct (queue_step cap o q) as [r q1]. simpl in *.
  destruct (IH q1 s1 Hr1) as (s2 & E2 & Hr2).
  destruct (queue_run cap os q1) as [rs q2]. simpl in *.
  exists s2. split; [|done]. unfold mbind, cm_bind. by rewrite E1, E2.
Qed.
End Client.
