(* ===== verification/RingBuffer.v ===== *)
(** The shared buffer of cw09/zad1/src/buffer.c: a circular array of [char *],
    with the globals of the file as the fields of a record. *)
From S2P Require Import Prelude Fifo.
#[local] Open Scope Z_scope.

Section RingBuffer.
(** The values stored are [char *]; [null] is the pointer [calloc] leaves. *)
Context {A : Type} (null : A).
(** [calloc_ok bytes]: whether [calloc] can serve a request of that size. *)
Context (calloc_ok : Z -> bool).

Record ring := Ring {
  buffer : option (list A);   (* None is the null pointer *)
  buffer_size : Z;
  buffer_start : Z;
  buffer_length : Z;
}.

(** Objects with static storage start as zero. *)
Definition ring_zero : ring := Ring None 0 0 0.

(** [&buffer[index % buffer_size]], as the index of the cell. *)
Definition __buffer_at (index : Z) : cm ring Z :=
  r ← get;
  check (negb (buffer_size r =? 0)) UB_div0 ;;
  mret (Z.rem index (buffer_size r)).

Definition load (p : Z) : cm ring A :=
  r ← get;
  cells ← lift UB_null (buffer r);
  lift UB_bounds (aget cells p).

Definition store (p : Z) (v : A) : cm ring unit :=
  r ← get;
  cells ← lift UB_null (buffer r);
  cells' ← lift UB_bounds (aset cells p v);
  put (Ring (Some cells') (buffer_size r) (buffer_start r) (buffer_length r)).

Definition buffer_init (size : Z) : cm ring Z :=
  r ← get;
  if calloc_ok (8 * u64 size) then
    put (Ring (Some (replicate (Z.to_nat (u64 size)) null)) size 0 0) ;;
    mret 0
  else
    put (Ring None (buffer_size r) (buffer_start r) (buffer_length r)) ;;
    mret (-1).

Definition buffer_empty : cm ring bool :=
  r ← get; mret (buffer_length r =? 0).

Definition buffer_full : cm ring bool :=
  r ← get; mret (buffer_length r =? buffer_size r).

Definition buffer_push (string : A) : cm ring Z :=
  full ← buffer_full;
  if (full : bool) then mret (-1)
  else
    r ← get;
    index ← int_op (buffer_start r + buffer_length r);
    p ← __buffer_at index;
    store p string ;;
    n ← int_op (buffer_length r + 1);
    modify (fun r => Ring (buffer r) (buffer_size r) (buffer_start r) n) ;;
    mret 0.

(** The result and what is stored through [stringp], if anything is. *)
Definition buffer_pop : cm ring (Z * option A) :=
  empty ← buffer_empty;
  if (empty : bool) then mret (-1, None)
  else
    r ← get;
    p ← __buffer_at (buffer_start r);
    v ← load p;
    start ← int_op (buffer_start r + 1);
    start ← __buffer_at start;
    n ← int_op (buffer_length r - 1);
    modify (fun r => Ring (buffer r) (buffer_size r) start n) ;;
    mret (0, Some v).

(** ** Representation invariant *)

Definition ring_cap_max : Z := 1073741824. (* 2 ^ 30 *)

Definition ring_rep (cap : Z) (q : list A) (r : ring) : Prop :=
  exists cells,
    buffer r = Some cells /\
    buffer_size r = cap /\ Z.of_nat (length cells) = cap /\ cap <= ring_cap_max /\
    buffer_length r = Z.of_nat (length q) /\ Z.of_nat (length q) <= cap /\
    0 <= buffer_start r /\ (buffer_start r < cap \/ cap = 0) /\
    forall (k : nat) x, q !! k = Some x ->
      cells !! Z.to_nat ((buffer_start r + Z.of_nat k) mod cap) = Some x.

#[export] Instance ring_fifo : BoundedFifo ring A := {
  bf_empty := buffer_empty;
  bf_full := buffer_full;
  bf_push := buffer_push;
  bf_pop := buffer_pop;
  bf_rep := ring_rep;
}.

(** ** Each operation keeps the representation *)

Lemma buffer_init_rep size :
  0 <= size <= ring_cap_max -> calloc_ok (8 * size) = true ->
  exists r, buffer_init size ring_zero = Done 0 r /\ ring_rep size [] r.
Proof.
  intros Hs Hc. unfold ring_cap_max in Hs.
  assert (u64 size = size) as E by (apply Z.mod_small; lia).
  unfold buffer_init, mbind, cm_bind, get, mret, cm_ret, put.
  rewrite E, Hc. eexists; split; [done|].
  exists (replicate (Z.to_nat size) null). unfold ring_cap_max. simpl.
  rewrite length_replicate. repeat split; try lia. intros k x. by rewrite lookup_nil.
Qed.

Lemma ring_push_rep cap q r x :
  ring_rep cap q r -> Z.of_nat (length q) < cap ->
  exists r', buffer_push x r = Done 0 r' /\ ring_rep cap (q ++ [x]) r'.
Proof.
  intros (cells & Hb & Hsz & Hcl & Hcap & Hlen & Hle & Hst & Hst' & Hk) Hlt.
  unfold ring_cap_max in *. destruct r as [b sz st len]; simpl in *; subst.
  set (p := (st + Z.of_nat (length q)) mod Z.of_nat (length cells)).
  assert (0 <= p < Z.of_nat (length cells)) as Hp by (apply ring_index_range; lia).
  unfold buffer_push, buffer_full, __buffer_at, store. cm_step.
  destruct (Z.eqb_spec (Z.of_nat (length q)) (Z.of_nat (length cells))); [lia|].
  int_ok. cm_step.
  destruct (Z.eqb_spec (Z.of_nat (length cells)) 0); [lia|]. cm_step.
  rewrite Z.rem_mod_nonneg by lia. fold p.
  rewrite aset_ok by done. simpl.
  int_ok.
  eexists. split; [done|].
  exists (<[Z.to_nat p := x]> cells). unfold ring_cap_max. simpl.
  rewrite length_insert, length_app. simpl.
  repeat split; try lia. intros k y Hy.
  apply lookup_snoc_Some in Hy as [[Hkl Hy]|[-> <-]].
  - rewrite list_lookup_insert_ne; [by apply Hk|]. intros E.
    apply Z2Nat.inj in E; [|lia|apply ring_index_range; lia].
    apply ring_index_inj in E; lia.
  - fold p. apply list_lookup_insert_eq. lia.
Qed.

Lemma ring_pop_rep cap x q r :
  ring_rep cap (x :: q) r ->
  exists r', buffer_pop r = Done (0, Some x) r' /\ ring_rep cap q r'.
Proof.
  intros (cells & Hb & Hsz & Hcl & Hcap & Hlen & Hle & Hst & Hst' & Hk).
  unfold ring_cap_max in *. destruct r as [b sz st len]; simpl in *; subst.
  assert (st < Z.of_nat (length cells)) as Hlt by lia.
  unfold buffer_pop, buffer_empty, __buffer_at, load. cm_step.
  destruct (Z.eqb_spec (Z.of_nat (length cells)) 0); [lia|]. cm_step.
  rewrite Z.rem_mod_nonneg by lia.
  assert (aget cells (st mod Z.of_nat (length cells)) = Some x) as ->.
  { apply aget_Some. split; [apply ring_index_range; lia|].
    specialize (Hk 0%nat x eq_refl). by rewrite Z.add_0_r in Hk. }
  cm_step. int_ok. destruct (Z.eqb_spec (Z.of_nat (length cells)) 0); [lia|].
  cm_step. int_ok. rewrite Z.rem_mod_nonneg by lia.
  eexists. split; [done|].
  pose proof (ring_index_range (Z.of_nat (length cells)) (st + 1)).
  exists cells. unfold ring_cap_max. simpl. repeat split; try lia.
  intros k y Hy. rewrite ring_index_succ.
  specialize (Hk (S k) y Hy). rewrite <- Hk. do 3 f_equal. lia.
Qed.

#[export] Instance ring_fifo_laws : BoundedFifoLaws ring A.
Proof.
  split; cbn [bf_rep bf_empty bf_full bf_push bf_pop ring_fifo].
  - intros cap q r (cells & ?). lia.
  - intros cap q r (cells & ? & ? & ? & ? & Hl & ?).
    unfold buffer_empty, mbind, cm_bind, get, mret, cm_ret. rewrite Hl.
    f_equal. destruct q; case_bool_decide; simpl; try done; lia.
  - intros cap q r (cells & ? & Hs & ? & ? & Hl & ?).
    unfold buffer_full, mbind, cm_bind, get, mret, cm_ret. rewrite Hl, Hs.
    f_equal. case_bool_decide; lia.
  - apply ring_push_rep.
  - intros cap q r x (cells & ? & Hs & ? & ? & Hl & ?) Hf.
    unfold buffer_push, buffer_full, mbind, cm_bind, get, mret, cm_ret.
    rewrite Hl, Hs, Hf. by rewrite Z.eqb_refl.
  - apply ring_pop_rep.
  - intros cap r (cells & ? & Hs & ? & ? & Hl & ?).
    unfold buffer_pop, buffer_empty, mbind, cm_bind, get, mret, cm_ret.
    by rewrite Hl.
Qed.

(** C10.  A buffer initialised with a capacity of at most 2^30 cells behaves on
    every sequence of calls as a bounded FIFO queue: the same results, call by
    call, the stored values returned in order of insertion, [-1] with nothing
    changed from a push on a full or a pop on an empty buffer, and no
    undefined behaviour (no access outside the array, no overflow, no division
    by a zero capacity). *)
Theorem buffer_is_bounded_queue (size : Z) (ops : list (fifo_op A))
  (Hsize : 0 <= size <= ring_cap_max) (Hcalloc : calloc_ok (8 * size) = true) :
  exists r r',
    buffer_init size ring_zero = Done 0 r /\
    fifo_run ops r = Done (queue_run size ops []).1 r' /\
    ring_rep size (queue_run size ops []).2 r'.
Proof.
  destruct (buffer_init_rep size Hsize Hcalloc) as (r & Hi & Hr).
  destruct (fifo_run_refines (BF := ring_fifo) size ops [] r Hr) as (r' & Ho & Hr').
  by exists r, r'.
Qed.
End RingBuffer.
Arguments ring A : clear implicits.

Lemma buffer_is_bounded_queue_witness :
  exists r r' : ring Z,
    buffer_init 0 (fun _ => true) 2 ring_zero = Done 0 r /\
    fifo_run [OPush 7; OPush 8; OPush 9; OPop; OPush 9; OFull; OPop; OPop; OPop] r
      = Done [RCode 0; RCode 0; RCode (-1); RPop 0 (Some 7); RCode 0; RBool true;
              RPop 0 (Some 8); RPop 0 (Some 9); RPop (-1) None] r' /\
    ring_rep 2 [] r'.
Proof.
  apply (buffer_is_bounded_queue 0 (fun _ => true) 2
    [OPush 7; OPush 8; OPush 9; OPop; OPush 9; OFull; OPop; OPop; OPop]).
  - unfold ring_cap_max. lia.
  - reflexivity.
Defined.
