(* ===== verification/CString.v ===== *)
(** The parts of the C library for strings and text input that the programs
    call, over Rocq strings (a C string without its terminator): [fgets],
    [strtok], [strcmp], [atoi] and the character tests of the "C" locale. *)
From S2P Require Import Prelude.
From Stdlib Require Import Ascii String.
#[local] Open Scope string_scope.
#[local] Open Scope Z_scope.

Definition NL : ascii := "010"%char.
Definition nl : string := String NL "".

Definition chr (c : ascii) : Z := Z.of_N (N_of_ascii c).

Definition isspace (c : ascii) : bool :=
  let n := chr c in (n =? 32) || ((9 <=? n) && (n <=? 13)).
Definition isdigit (c : ascii) : bool :=
  let n := chr c in (48 <=? n) && (n <=? 57).

Fixpoint has (c : ascii) (s : string) : bool :=
  match s with "" => false | String d s' => Ascii.eqb c d || has c s' end.

Definition strlen (s : string) : Z := Z.of_nat (String.length s).

(** [strcmp(a, b) == 0] *)
Definition streq (a b : string) : bool := String.eqb a b.

Fixpoint skip_while (f : ascii -> bool) (s : string) : string :=
  match s with
  | "" => ""
  | String c s' => if f c then skip_while f s' else s
  end.

(** The longest prefix whose characters fail [f], and what follows it. *)
Fixpoint break_at (f : ascii -> bool) (s : string) : string * string :=
  match s with
  | "" => ("", "")
  | String c s' =>
      if f c then ("", s)
      else let '(a, b) := break_at f s' in (String c a, b)
  end.

Definition str_tail (s : string) : string :=
  match s with "" => "" | String _ s' => s' end.

(** [strtok(s, delim)]: the token, if there is one, and where the next call
    with a null pointer goes on. *)
Definition strtok (s delim : string) : option string * string :=
  let s := skip_while (fun c => has c delim) s in
  match s with
  | "" => (None, "")
  | _ => let '(tok, rest) := break_at (fun c => has c delim) s in (Some tok, str_tail rest)
  end.

(** [fgets(buf, n, fp)] on the rest of a file: at most [n - 1] characters, up
    to and including the first newline; [None] at the end of the file. *)
Fixpoint fgets_go (n : nat) (s : string) : string * string :=
  match n, s with
  | O, _ => ("", s)
  | _, "" => ("", "")
  | S n', String c s' =>
      if Ascii.eqb c NL then (String c "", s')
      else let '(a, b) := fgets_go n' s' in (String c a, b)
  end.

Definition fgets (n : nat) (s : string) : option (string * string) :=
  match s with "" => None | _ => Some (fgets_go (n - 1) s) end.

(** [atoi]: white space, a sign, digits.  A value outside [int] is undefined. *)
Fixpoint digits_val (s : string) (acc : Z) : Z :=
  match s with
  | String c s' => if isdigit c then digits_val s' (10 * acc + (chr c - 48)) else acc
  | "" => acc
  end.

Definition atoi_val (s : string) : Z :=
  match skip_while isspace s with
  | String "-" s' => - digits_val s' 0
  | String "+" s' => digits_val s' 0
  | s' => digits_val s' 0
  end.

Definition atoi {St} (s : string) : cm St Z := int_op (atoi_val s).

(** Bytes of a string, as C stores them in an array. *)
Fixpoint bytes (s : string) : list Z :=
  match s with "" => [] | String c s' => chr c :: bytes s' end.

(** ** Lemmas *)

Lemma fgets_go_le n s a b : fgets_go n s = (a, b) -> (String.length b <= String.length s)%nat.
Proof.
  revert s a b. induction n as [|n IH]; intros [|c s] a b H; simplify_eq/=; try lia.
  destruct (Ascii.eqb c NL); [simplify_eq; simpl; lia|].
  destruct (fgets_go n s) as [a' b'] eqn:E. simplify_eq. apply IH in E. lia.
Qed.

Lemma fgets_shorter n s a b :
  (2 <= n)%nat -> fgets n s = Some (a, b) -> (String.length b < String.length s)%nat.
Proof.
  intros Hn H. destruct s as [|c s]; [done|]. unfold fgets in H.
  destruct n as [|[|n]]; [lia|lia|]. simpl in H.
  destruct (Ascii.eqb c NL); [simplify_eq; simpl; lia|].
  destruct (fgets_go n s) as [a' b'] eqn:E. simplify_eq.
  apply fgets_go_le in E. simpl. lia.
Qed.

Fixpoint str_all (f : ascii -> bool) (s : string) : bool :=
  match s with "" => true | String c s' => f c && str_all f s' end.

(** The first character of a string, if it has one, satisfies [f]. *)
Definition starts (f : ascii -> bool) (s : string) : bool :=
  match s with "" => true | String c _ => f c end.

Definition blanks (n : nat) : string := String.string_of_list_ascii (replicate n " "%char).

Lemma break_at_app f a b :
  str_all (fun c => negb (f c)) a = true -> starts f b = true -> break_at f (a ++ b) = (a, b).
Proof.
  induction a as [|c a IH]; simpl.
  - intros _ Hb. destruct b as [|c b]; [done|]. simpl in *. by rewrite Hb.
  - intros Ha Hb. apply andb_true_iff in Ha as [Hc Ha].
    destruct (f c); [done|]. by rewrite IH.
Qed.

Lemma skip_while_starts f s : starts (fun c => negb (f c)) s = true -> skip_while f s = s.
Proof. destruct s as [|c s]; simpl; [done|]. by destruct (f c). Qed.

Lemma skip_while_blanks f n s :
  f " "%char = true -> skip_while f (blanks n ++ s) = skip_while f s.
Proof. intros Hf. induction n as [|n IH]; [done|]. simpl. by rewrite Hf. Qed.

Lemma str_all_mono (f g : ascii -> bool) s :
  (forall c, f c = true -> g c = true) -> str_all f s = true -> str_all g s = true.
Proof.
  intros Hfg. induction s as [|c s IH]; simpl; [done|].
  rewrite !andb_true_iff. intros [Hc Hs]. split; [by apply Hfg|by apply IH].
Qed.

Lemma str_app_nil_r (s : string) : s ++ "" = s.
Proof. induction s as [|c s IH]; [done|]. exact (f_equal (String c) IH). Qed.

Lemma digit_not_space c : isdigit c = true -> isspace c = false.
Proof. unfold isdigit, isspace. lia. Qed.

Lemma atoi_range {S} s (st : S) z : atoi s st = Done z st -> INT_MIN <= z <= INT_MAX.
Proof. unfold atoi, int_op. destruct (is_int (atoi_val s)) eqn:E; [|done]. intros [= <-]. unfold is_int in E. lia. Qed.
