(* ===== verification/Scan.v ===== *)
(** Numbers in texts: the conversions [%zu] and [%d] of printf and scanf that
    the programs use. *)
From S2P Require Import Prelude CString.
From Stdlib Require Import Ascii String DecimalString DecimalN DecimalPos Decimal.
#[local] Open Scope string_scope.
#[local] Open Scope Z_scope.
Local Abbreviation length := Datatypes.length.

(** [%zu] and [%d] of a number that is not negative. *)
Definition dec (z : Z) : string := NilEmpty.string_of_uint (N.to_uint (Z.to_N z)).

(** [%d] of any [int]. *)
Definition print_int (z : Z) : string := if z <? 0 then String "-"%char (dec (- z)) else dec z.

(** White space in a format. *)
Definition scan_ws (s : string) : string := skip_while isspace s.

(** [%zu] and [%d]: white space, a sign, digits ([None]: no match). *)
Definition scan_num (s : string) : option (Z * string) :=
  let '(neg, s) :=
    match scan_ws s with
    | String "-" t => (true, t) | String "+" t => (false, t) | t => (false, t)
    end in
  let '(ds, r) := break_at (fun c => negb (isdigit c)) s in
  match ds with
  | "" => None
  | _ => Some (if neg then - digits_val ds 0 else digits_val ds 0, r)
  end.

(** ** Lemmas *)

(** The value of a digit that is known. *)
Ltac digit_val :=
  match goal with |- context [isdigit ?c] => change (isdigit c) with true; cbv iota;
    let v := eval vm_compute in (chr c) in change (chr c) with v end.

Lemma digits_val_acc d acc : digits_val (NilEmpty.string_of_uint d) (Zpos acc) = Zpos (Pos.of_uint_acc d acc).
Proof.
  revert acc. induction d; intros acc; [done|..]; cbn [NilEmpty.string_of_uint digits_val Pos.of_uint_acc];
    rewrite <- IHd; digit_val; f_equal; lia.
Qed.

Lemma digits_val_uint d : digits_val (NilEmpty.string_of_uint d) 0 = Z.of_N (Pos.of_uint d).
Proof.
  induction d; [done|..]; cbn [NilEmpty.string_of_uint digits_val Pos.of_uint Z.of_N];
    rewrite <- ?digits_val_acc; digit_val; [exact IHd|done..].
Qed.

Lemma uint_digits d : str_all isdigit (NilEmpty.string_of_uint d) = true.
Proof. induction d; [done|..]; exact IHd. Qed.

Lemma dec_val z : 0 <= z -> digits_val (dec z) 0 = z.
Proof.
  intros Hz. unfold dec. rewrite digits_val_uint. change (Pos.of_uint (N.to_uint (Z.to_N z))) with (N.of_uint (N.to_uint (Z.to_N z))).
  rewrite DecimalN.Unsigned.of_to. lia.
Qed.

Lemma dec_digits z : str_all isdigit (dec z) = true.
Proof. apply uint_digits. Qed.

Lemma dec_cons z : exists c s, dec z = String c s /\ isdigit c = true.
Proof.
  pose proof (dec_digits z) as H. unfold dec in *. destruct (N.to_uint (Z.to_N z)) eqn:E; try (eexists _, _; split; reflexivity).
  exfalso. destruct (Z.to_N z) as [|p]; [done|]. by apply (DecimalPos.Unsigned.to_uint_nonnil p).
Qed.

Lemma digit_cases c : isdigit c = true -> c <> "-"%char /\ c <> "+"%char.
Proof. intros H. split; by intros ->. Qed.

(** [atoi] reads back what [%d] printed. *)
Lemma atoi_print z : atoi_val (print_int z) = z.
Proof.
  unfold print_int. destruct (Z.ltb_spec z 0) as [H|H]; unfold atoi_val.
  - simpl. rewrite dec_val by lia. lia.
  - destruct (dec_cons z) as (c & s & E & Hc). pose proof (dec_val z H) as Hv. rewrite E in *.
    simpl skip_while. rewrite (digit_not_space c Hc). destruct (digit_cases c Hc) as [Hm Hp].
    destruct c as [[] [] [] [] [] [] [] []]; try exact Hv; by vm_compute in Hc.
Qed.

(** A number that is followed by something else is read back. *)
Lemma scan_dec z r : 0 <= z -> starts (fun c => negb (isdigit c)) r = true -> scan_num (dec z ++ r) = Some (z, r).
Proof.
  intros Hz Hr. destruct (dec_cons z) as (c & s & E & Hc).
  assert (break_at (fun c => negb (isdigit c)) (dec z ++ r) = (dec z, r)) as Hb.
  { apply break_at_app; [|done]. eapply str_all_mono; [|apply dec_digits]. by intros d ->. }
  unfold scan_num. assert (scan_ws (dec z ++ r) = dec z ++ r) as ->.
  { rewrite E. unfold scan_ws. simpl. by rewrite (digit_not_space c Hc). }
  assert (forall A (f g h : string -> A), match dec z ++ r with String "-" t => f t | String "+" t => g t | t => h t end = h (dec z ++ r)) as Hm.
  { intros A f g h. rewrite E. destruct c as [[] [] [] [] [] [] [] []]; try done; by vm_compute in Hc. }
  rewrite (Hm _ (fun t => (true, t)) (fun t => (false, t)) (fun t => (false, t))), Hb. rewrite dec_val by done.
  by rewrite E.
Qed.

Lemma skip_while_idem f s : skip_while f (skip_while f s) = skip_while f s.
Proof. induction s as [|c s IH]; [done|]. simpl. destruct (f c) eqn:E; [done|]. simpl. by rewrite E. Qed.

Lemma scan_num_ws s : scan_num (scan_ws s) = scan_num s.
Proof. unfold scan_num, scan_ws. by rewrite skip_while_idem. Qed.

Lemma str_app_assoc (a b c : string) : (a ++ b) ++ c = a ++ (b ++ c).
Proof. induction a as [|x a IH]; [done|]. exact (f_equal (String x) IH). Qed.

