(* ===== verification/Cl.v ===== *)
(** The configuration of the producer/consumer programs:
    cw09/zad1/src/cl.c and cl.h. *)
From S2P Require Import Prelude CString.
From Stdlib Require Import Ascii String.
#[local] Open Scope string_scope.
#[local] Open Scope Z_scope.

Inductive comparison_t := GT | LT | EQ.

(** [struct cl].  The fields that [__cl_read_config] leaves alone hold what
    they held before the call. *)
Record cl := Cl {
  producers : Z;
  consumers : Z;
  buffer_size : Z;
  filename : string;
  line_length : Z;
  cmp : comparison_t;
  time_limit : Z;
  verbose : Z;
  sleep : Z;
}.

Definition set_producers v c := Cl v (consumers c) (buffer_size c) (filename c) (line_length c) (cmp c) (time_limit c) (verbose c) (sleep c).
Definition set_consumers v c := Cl (producers c) v (buffer_size c) (filename c) (line_length c) (cmp c) (time_limit c) (verbose c) (sleep c).
Definition set_buffer_size v c := Cl (producers c) (consumers c) v (filename c) (line_length c) (cmp c) (time_limit c) (verbose c) (sleep c).
Definition set_filename v c := Cl (producers c) (consumers c) (buffer_size c) v (line_length c) (cmp c) (time_limit c) (verbose c) (sleep c).
Definition set_line_length v c := Cl (producers c) (consumers c) (buffer_size c) (filename c) v (cmp c) (time_limit c) (verbose c) (sleep c).
Definition set_cmp v c := Cl (producers c) (consumers c) (buffer_size c) (filename c) (line_length c) v (time_limit c) (verbose c) (sleep c).
Definition set_time_limit v c := Cl (producers c) (consumers c) (buffer_size c) (filename c) (line_length c) (cmp c) v (verbose c) (sleep c).
Definition set_verbose v c := Cl (producers c) (consumers c) (buffer_size c) (filename c) (line_length c) (cmp c) (time_limit c) v (sleep c).
Definition set_sleep v c := Cl (producers c) (consumers c) (buffer_size c) (filename c) (line_length c) (cmp c) (time_limit c) (verbose c) v.

(** [char *trim(char *str)] *)
Definition trim (str : option string) : cm cl (option string) :=
  s ← lift UB_null str;
  mret (strtok (skip_while (Ascii.eqb " ") s) " ").1.

(** A member set from [atoi(value)]. *)
Definition set_int (set : Z -> cl -> cl) (value : option string) : cm cl Z :=
  v ← lift UB_null value;
  n ← atoi v;
  modify (set n) ;;
  mret 0.

(** The member that [name] stands for is set; -1 for a name that is not
    known. *)
Definition cl_set_entry (name : string) (value : option string) : cm cl Z :=
  if streq name "producers" then set_int set_producers value
  else if streq name "consumers" then set_int set_consumers value
  else if streq name "buffer-size" then set_int set_buffer_size value
  else if streq name "file" then
    v ← lift UB_null value;
    check (strlen v <? 256) UB_bounds ;;
    modify (set_filename v) ;;
    mret 0
  else if streq name "time-limit" then set_int set_time_limit value
  else if streq name "verbose" then set_int set_verbose value
  else if streq name "sleep" then set_int set_sleep value
  else if streq name "length" then
    v ← lift UB_null value;
    let '(c, v) :=
      match v with
      | String "<" v' => (LT, v')
      | String ">" v' => (GT, v')
      | _ => (EQ, v)
      end in
    modify (set_cmp c) ;;
    set_int set_line_length (Some v)
  else mret (-1).

(** One line of the file: the body of the loop of [__cl_read_config]. *)
Definition cl_config_line (buf : string) : cm cl Z :=
  if streq buf "" || (match buf with String c _ => Ascii.eqb c NL | _ => false end) then mret 0
  else
    let '(name, rest) := strtok buf "=" in
    let '(value, _) := strtok rest nl in
    name ← trim name;
    value ← trim value;
    name ← lift UB_null name;
    cl_set_entry name value.

(** [while (fgets(buf, buf_s, file) != NULL)], with fuel for the lines. *)
Fixpoint cl_config_lines (fuel : nat) (file : string) : cm cl Z :=
  match fuel with
  | O => nofuel
  | S fuel' =>
      match fgets (Z.to_nat (4 * 1024)) file with
      | None => mret 0
      | Some (buf, rest) =>
          c ← cl_config_line buf;
          if (c : Z) =? 0 then cl_config_lines fuel' rest else mret c
      end
  end.

Definition __cl_read_config (file : string) : cm cl Z :=
  modify (fun c => set_sleep 0 (set_verbose 0 (set_cmp GT (set_line_length (-1) (set_time_limit 0 c))))) ;;
  cl_config_lines (S (String.length file)) file.

(** [cl_initialize]: [stdin] is the standard input and [fopen] gives the
    contents of a file, if it can be opened. *)
Definition cl_initialize (stdin : string) (fopen : string -> option string) (argv : list string)
    : cm cl Z :=
  match argv with
  | [_] => r ← __cl_read_config stdin; mret (if (r : Z) =? 0 then 0 else -1)
  | [_; path] =>
      match fopen path with
      | None => mret (-1)
      | Some input => r ← __cl_read_config input; mret (if (r : Z) =? 0 then 0 else -1)
      end
  | _ => mret (-1)
  end.

Definition cl_shouldprint (cl : cl) (line : string) : bool :=
  match cmp cl with
  | EQ => s32 (strlen line) =? line_length cl
  | LT => s32 (strlen line) <? line_length cl
  | GT => line_length cl <? s32 (strlen line)
  end.

Example config_ex :
  cl_initialize "" (fun _ => Some ("producers=3" ++ nl ++ " consumers = 2" ++ nl ++ nl ++ "length=<10" ++ nl))%string
    ["main"; "c"] (Cl 0 0 0 "" 0 EQ 7 7 7) = Done 0 (Cl 3 2 0 "" 10 LT 0 0 0).
Proof. vm_compute. reflexivity. Qed.
