(* ===== verification/ClText.v ===== *)
(** Configurations as text: what [__cl_read_config] of cw09/zad1/src/cl.c makes
    of a file in the form of cw09/zad1/config1, with every entry given. *)
From S2P Require Import Prelude CString Scan Cl.
From Stdlib Require Import Ascii String DecimalString DecimalFacts DecimalN DecimalPos Decimal.
#[local] Open Scope string_scope.
#[local] Open Scope Z_scope.

(** An entry of the file. *)
Definition entry (name value : string) : string := name ++ " = " ++ value ++ nl.

Definition cmp_sign (c : comparison_t) : string := match c with LT => "<" | GT => ">" | EQ => "" end.

Definition config_text (c : cl) : string :=
  entry "producers" (print_int (producers c)) ++
  entry "consumers" (print_int (consumers c)) ++
  nl ++
  entry "buffer-size" (print_int (buffer_size c)) ++
  entry "file" (filename c) ++
  nl ++
  entry "time-limit" (print_int (time_limit c)) ++
  entry "length" (cmp_sign (cmp c) ++ print_int (line_length c)) ++
  nl ++
  entry "verbose" (print_int (verbose c)) ++
  entry "sleep" (print_int (sleep c)).

(** A character that may be part of a name or a value. *)
Definition plain (c : ascii) : bool := negb (Ascii.eqb c " ") && negb (Ascii.eqb c NL).

Definition word (s : string) : Prop := s <> "" /\ str_all plain s = true.

(** Numbers that are [int]s, and the name of a file that has no blanks and
    fits into [filename]. *)
Record config_ok (c : cl) : Prop := {
  ok_ints : Forall (fun z => INT_MIN <= z <= INT_MAX)
    [producers c; consumers c; buffer_size c; time_limit c; line_length c; verbose c; sleep c];
  ok_name : word (filename c);
  ok_size : strlen (filename c) < 256;
}.

(** ** Lines *)

Lemma str_length_app (a b : string) : String.length (a ++ b) = (String.length a + String.length b)%nat.
Proof. induction a as [|x a IH]; [done|]. simpl. by rewrite IH. Qed.

Lemma str_all_app f a b : str_all f (a ++ b) = str_all f a && str_all f b.
Proof. induction a as [|x a IH]; [done|]. simpl. by rewrite IH, andb_assoc. Qed.

Definition no_nl (c : ascii) : bool := negb (Ascii.eqb c NL).

Lemma fgets_line n l r : str_all no_nl l = true -> (String.length l + 2 <= n)%nat -> fgets n (l ++ nl ++ r) = Some (l ++ nl, r).
Proof.
  intros Hl Hn. unfold fgets. replace (match l ++ nl ++ r with "" => None | _ => Some (fgets_go (n - 1) (l ++ nl ++ r)) end)
    with (Some (fgets_go (n - 1) (l ++ nl ++ r))) by by destruct l.
  f_equal. assert (String.length l + 1 <= n - 1)%nat as Hm by lia. revert Hm. generalize (n - 1)%nat. clear n Hn.
  induction l as [|c l IH]; intros n Hn; destruct n as [|n]; simpl in *; try lia; [done|].
  apply andb_true_iff in Hl as [Hc Hl]. unfold no_nl in Hc. destruct (Ascii.eqb c NL); [done|]. by rewrite IH by (try done; lia).
Qed.

Lemma word_plain s : word s -> str_all no_nl s = true.
Proof. intros [_ H]. eapply str_all_mono; [|done]. intros c. unfold plain, no_nl. by destruct (Ascii.eqb c NL), (Ascii.eqb c " "). Qed.

Lemma has_one c d : has c (String d "") = Ascii.eqb c d.
Proof. simpl. by rewrite orb_false_r. Qed.

Lemma starts_all f s b : s <> "" -> str_all f s = true -> starts f (s ++ b) = true.
Proof. destruct s as [|x s]; [done|]. intros _ H. simpl in H. by apply andb_true_iff in H as [H _]. Qed.

Lemma not_has d s : str_all (fun c => negb (Ascii.eqb c d)) s = true -> str_all (fun c => negb (has c (String d ""))) s = true.
Proof. apply str_all_mono. intros c. by rewrite has_one. Qed.

(** [strtok] with one delimiter, at a text that does not start with it. *)
Lemma strtok_eq a d b : a <> "" -> str_all (fun c => negb (Ascii.eqb c d)) a = true -> starts (Ascii.eqb d) b = true ->
  strtok (a ++ b) (String d "") = (Some a, str_tail b).
Proof.
  intros Ha Hd%not_has Hb. unfold strtok. rewrite skip_while_starts by by apply starts_all.
  destruct (a ++ b) eqn:E; [by destruct a|]. rewrite <- E, break_at_app; [done|done|].
  destruct b as [|x b]; [done|]. apply Ascii.eqb_eq in Hb as <-. unfold starts. rewrite has_one. apply Ascii.eqb_refl.
Qed.

Lemma trim_word n s r c : word s -> starts (Ascii.eqb " ") r = true -> trim (Some (blanks n ++ s ++ r)) c = Done (Some s) c.
Proof.
  intros [Hs Hp] Hr. unfold trim, mbind, cm_bind, lift, mret, cm_ret. rewrite skip_while_blanks by done.
  assert (forall d, d = " "%char -> str_all (fun c => negb (Ascii.eqb c d)) s = true) as Hb.
  { intros d ->. eapply str_all_mono; [|done]. intros x. unfold plain. by destruct (Ascii.eqb x " "). }
  rewrite skip_while_starts; [by rewrite strtok_eq by eauto|]. apply starts_all; [done|].
  eapply str_all_mono; [|by apply (Hb " "%char)]. intros x. by rewrite Ascii.eqb_sym.
Qed.

Lemma config_line_eq name value c :
  word name -> str_all (fun x => negb (Ascii.eqb x "=")) name = true -> word value ->
  cl_config_line (entry name value) c = cl_set_entry name (Some value) c.
Proof.
  intros Hn He Hv. unfold cl_config_line.
  assert (entry name value = (name ++ " ") ++ String "=" (" " ++ value ++ nl)) as E by by (unfold entry; rewrite str_app_assoc).
  assert (strtok (entry name value) "=" = (Some (name ++ " "), " " ++ value ++ nl)) as ->.
  { rewrite E. apply (strtok_eq (name ++ " ") "=" (String "=" (" " ++ value ++ nl))); [by destruct name| |done].
    by rewrite str_all_app, He. }
  assert (strtok (" " ++ value ++ nl) nl = (Some (" " ++ value), "")) as ->.
  { rewrite <- str_app_assoc. apply (strtok_eq (" " ++ value) NL nl); [done| |done]. simpl. by apply word_plain. }
  assert (streq (entry name value) "" || match entry name value with String x _ => Ascii.eqb x NL | "" => false end = false) as ->.
  { destruct Hn as [Hn Hp]. destruct name as [|x name]; [done|]. simpl in Hp. apply andb_true_iff in Hp as [Hp _].
    unfold plain in Hp. apply andb_true_iff in Hp as [_ Hp]. by destruct (Ascii.eqb x NL) eqn:Ex. }
  unfold mbind, cm_bind. rewrite (trim_word 0 name " ") by done.
  pose proof (trim_word 1 value "" c Hv eq_refl) as T. rewrite str_app_nil_r in T.
  change (blanks 1 ++ value) with (" " ++ value) in T. by rewrite T.
Qed.

(** The loop, line by line. *)
Lemma config_lines_entry fuel name value rest c c' :
  word name -> str_all (fun x => negb (Ascii.eqb x "=")) name = true -> word value ->
  (String.length name <= 20)%nat -> (String.length value <= 300)%nat ->
  cl_set_entry name (Some value) c = Done 0 c' ->
  cl_config_lines (S fuel) (entry name value ++ rest) c = cl_config_lines fuel rest c'.
Proof.
  intros Hn He Hv Hl Hl' Hs. cbn [cl_config_lines].
  assert (fgets (Z.to_nat (4 * 1024)) (entry name value ++ rest) = Some (entry name value, rest)) as ->.
  { assert (entry name value = (name ++ " = " ++ value) ++ nl) as -> by by (unfold entry; rewrite !str_app_assoc).
    rewrite (str_app_assoc (name ++ " = " ++ value) nl rest). apply fgets_line.
    - by rewrite !str_all_app, (word_plain name), (word_plain value) by done.
    - rewrite !str_length_app. change (Z.to_nat (4 * 1024)) with 4096%nat. simpl. lia. }
  unfold mbind, cm_bind. by rewrite config_line_eq, Hs by done.
Qed.

Lemma config_lines_blank fuel rest c : cl_config_lines (S fuel) (nl ++ rest) c = cl_config_lines fuel rest c.
Proof. cbn [cl_config_lines]. by change (fgets (Z.to_nat (4 * 1024)) (nl ++ rest)) with (Some (nl, rest)). Qed.

(** ** Entries *)

Lemma digit_plain c : isdigit c = true -> plain c = true.
Proof.
  unfold plain. destruct (Ascii.eqb_spec c " ") as [->|]; [by vm_compute|]. by destruct (Ascii.eqb_spec c NL) as [->|]; [vm_compute|].
Qed.

Lemma dec_word z : word (dec z).
Proof.
  split; [by destruct (dec_cons z) as (c & s & -> & _)|]. eapply str_all_mono; [apply digit_plain|apply dec_digits].
Qed.

Lemma print_word z : word (print_int z).
Proof. unfold print_int. destruct (z <? 0); [|apply dec_word]. split; [done|]. simpl. apply dec_word. Qed.

(** A number below [2^n] has at most [n] digits. *)
Lemma little_double d :
  (nb_digits (Little.double d) <= S (nb_digits d) /\ nb_digits (Little.succ_double d) <= S (nb_digits d))%nat.
Proof. induction d; simpl; lia. Qed.

Lemma little_size p : (nb_digits (Pos.to_little_uint p) <= Pos.size_nat p)%nat.
Proof. induction p as [p IH|p IH|]; simpl; [pose proof (little_double (Pos.to_little_uint p)); lia..|done]. Qed.

Lemma uint_length d : String.length (NilEmpty.string_of_uint d) = nb_digits d.
Proof. induction d; simpl; by rewrite ?IHd. Qed.

Lemma size_nat_size p : Pos.size_nat p = Pos.to_nat (Pos.size p).
Proof. induction p as [p IH|p IH|]; simpl; [by rewrite Pos2Nat.inj_succ, IH..|done]. Qed.

Lemma dec_length z : 0 <= z -> (String.length (dec z) <= S (Z.to_nat (Z.log2 z)))%nat.
Proof.
  intros Hz. unfold dec. rewrite uint_length. destruct z as [|p|p]; [by vm_compute; auto| |lia].
  unfold Z.to_N, N.to_uint, Pos.to_uint. rewrite nb_digits_rev. etransitivity; [apply little_size|].
  destruct p as [p|p|]; simpl; [..|done]; rewrite size_nat_size; lia.
Qed.

Lemma print_length z : INT_MIN <= z <= INT_MAX -> (String.length (print_int z) <= 40)%nat.
Proof.
  intros Hz. assert (forall x, 0 <= x <= 2 ^ 31 -> (String.length (dec x) <= 33)%nat) as H.
  { intros x Hx. etransitivity; [apply dec_length; lia|]. pose proof (Z.log2_le_mono x (2 ^ 31) ltac:(lia)).
    change (Z.log2 (2 ^ 31)) with 31 in *. lia. }
  unfold print_int. unfold INT_MIN, INT_MAX in Hz. destruct (Z.ltb_spec z 0); simpl;
    [specialize (H (- z) ltac:(lia))|specialize (H z ltac:(lia))]; lia.
Qed.

Lemma set_int_print set z c : INT_MIN <= z <= INT_MAX -> set_int set (Some (print_int z)) c = Done 0 (set z c).
Proof.
  intros Hz. unfold set_int, mbind, cm_bind, lift, mret, cm_ret, atoi, modify. by rewrite atoi_print, int_op_ok.
Qed.

(** A number does not start with a sign of comparison. *)
Lemma print_cons z : exists c s, print_int z = String c s /\ c <> "<"%char /\ c <> ">"%char.
Proof.
  unfold print_int. destruct (z <? 0); [by eexists _, _|]. destruct (dec_cons z) as (c & s & -> & Hc).
  exists c, s. split; [done|]. split; by intros ->.
Qed.

Lemma set_length_print k z c : INT_MIN <= z <= INT_MAX ->
  cl_set_entry "length" (Some (cmp_sign k ++ print_int z)) c = Done 0 (set_line_length z (set_cmp k c)).
Proof.
  intros Hz. assert (forall k' v, match cmp_sign k ++ print_int z with
      | String "<" v' => (LT, v') | String ">" v' => (GT, v') | _ => (EQ, cmp_sign k ++ print_int z) end = (k', v) ->
      k' = k /\ v = print_int z) as Hm.
  { intros k' v. destruct k; [by intros [= <- <-]..|]. simpl. destruct (print_cons z) as (x & s & -> & Hl & Hg).
    destruct x as [[] [] [] [] [] [] [] []]; try by intros [= <- <-]. all: exfalso; first [by apply Hl|by apply Hg]. }
  unfold cl_set_entry. cbn [streq String.eqb Ascii.eqb Bool.eqb]. unfold mbind, cm_bind, lift, mret, cm_ret.
  destruct (match cmp_sign k ++ print_int z with
      | String "<" v' => (LT, v') | String ">" v' => (GT, v') | _ => (EQ, cmp_sign k ++ print_int z) end) as [k' v] eqn:E.
  destruct (Hm _ _ eq_refl) as [-> ->]. unfold modify at 1. by rewrite set_int_print.
Qed.

Lemma length_word k z : word (cmp_sign k ++ print_int z).
Proof. destruct k; [..|apply print_word]; (split; [done|]); apply print_word. Qed.

Lemma length_length k z : INT_MIN <= z <= INT_MAX -> (String.length (cmp_sign k ++ print_int z) <= 41)%nat.
Proof. intros Hz%print_length. rewrite str_length_app. destruct k; simpl; lia. Qed.

Lemma str_file_length name value rest : (1 <= String.length (entry name value ++ rest))%nat.
Proof. rewrite str_length_app. unfold entry. rewrite !str_length_app. simpl. lia. Qed.

(** One more line is read. *)
Ltac int_entry set :=
  etransitivity;
  [eapply config_lines_entry;
    [done|done|apply print_word|vm_compute; lia|etransitivity; [by apply print_length|lia]
    |by apply (set_int_print set)]|].

(** The eight entries and the empty lines, with fuel for twelve lines. *)
Lemma config_text_lines n c c0 : config_ok c -> cl_config_lines (12 + n) (config_text c) c0 = Done 0 c.
Proof.
  intros [Hi Hw Hs]. repeat (apply Forall_cons in Hi as [? Hi]). unfold config_text. cbn [Nat.add].
  int_entry set_producers. int_entry set_consumers. rewrite config_lines_blank. int_entry set_buffer_size.
  etransitivity.
  { eapply config_lines_entry; [done|done|done|vm_compute; lia| |].
    - unfold strlen in Hs. simpl. lia.
    - unfold cl_set_entry. cbn [streq String.eqb Ascii.eqb Bool.eqb]. unfold mbind, cm_bind, lift, mret, cm_ret, check, modify.
      by rewrite (proj2 (Z.ltb_lt _ _) Hs). }
  rewrite config_lines_blank. int_entry set_time_limit.
  etransitivity.
  { eapply config_lines_entry; [done|done|apply length_word|vm_compute; lia|etransitivity; [by apply length_length|lia]|by apply set_length_print]. }
  rewrite config_lines_blank. int_entry set_verbose.
  replace (entry "sleep" (print_int (sleep c))) with (entry "sleep" (print_int (sleep c)) ++ "") by apply str_app_nil_r.
  int_entry set_sleep. by destruct c.
Qed.

Lemma read_config_text c c0 : config_ok c -> __cl_read_config (config_text c) c0 = Done 0 c.
Proof.
  intros Hc. unfold __cl_read_config, mbind, cm_bind, modify.
  assert (exists n, S (String.length (config_text c)) = (12 + n)%nat) as [n ->].
  { exists (String.length (config_text c) - 11)%nat. unfold config_text, entry. rewrite !str_length_app. simpl. lia. }
  by apply config_text_lines.
Qed.

(** C40.  A configuration that is written out in the form of config1 is read
    back by [cl_initialize], from a file or from the standard input, whatever
    the structure held before: every number of the range of [int], the length
    with its comparison, and the name of the file. *)
Theorem config_roundtrip c c0 prog path stdin fopen : config_ok c -> fopen path = Some (config_text c) ->
  cl_initialize stdin fopen [prog; path] c0 = Done 0 c /\
  cl_initialize (config_text c) fopen [prog] c0 = Done 0 c.
Proof.
  intros Hc Hf. unfold cl_initialize. rewrite Hf. unfold mbind, cm_bind. by rewrite read_config_text.
Qed.

Example config_roundtrip_witness :
  let c := Cl 3 2 8 "pan-tadeusz.txt" 40 LT 0 1 (-7) in
  let c0 := Cl 0 0 0 "" 0 EQ 7 7 7 in
  cl_initialize "" (fun _ => Some (config_text c)) ["main"; "config1"] c0 = Done 0 c /\
  cl_initialize (config_text c) (fun _ => Some (config_text c)) ["main"] c0 = Done 0 c.
Proof.
  apply config_roundtrip; [|reflexivity]. split.
  - repeat constructor; vm_compute; congruence.
  - split; [discriminate|reflexivity].
  - vm_compute. reflexivity.
Defined.
