(* ===== verification/Runner.v ===== *)
(** The main thread of cw09: [run], [cancel_threads] and [waitfor_threads] of
    cw09/zad1/src/runner.c, over any kind of thread that can be cancelled and
    joined.  The two programs (main-sem.c, main-monitor.c) hand their threads
    to it; so do [ProdConsSem] and [ProdConsMon]. *)
From S2P Require Import Prelude CString Cl.
#[local] Open Scope Z_scope.

(** What [run] needs of a thread: whether [pthread_join] returns, and whether
    [pthread_cancel] has been called on it. *)
Class Worker (T : Type) := {
  w_finished : T -> bool;
  w_cancelled : T -> bool;
  w_cancel : T -> T;
}.

(** A request to cancel is remembered, and does not end the thread by itself. *)
Class WorkerLaws (T : Type) `{Worker T} := {
  w_cancel_cancelled t : w_cancelled (w_cancel t) = true;
  w_cancel_finished t : w_finished (w_cancel t) = w_finished t;
}.

(** Where the main thread is, after the threads are created: the two loops of
    [cancel_threads] and of [waitfor_threads], at index [i]. *)
Inductive mpc :=
  | M_start                    (* if (cl->time_limit != 0) *)
  | M_cancel_producers (i : nat)
  | M_cancel_consumers (i : nat)
  | M_join_producers (i : nat)
  | M_join_consumers (i : nat)
  | M_done.

(** [strtok(line, "\n")] on what [getline] read. *)
Definition strip_line (raw : string) : option string := (strtok raw nl).1.

(** The lines a file yields to a producer, in order. *)
Definition strip_lines (raw : list string) : list string := omap strip_line raw.

Section Runner.
Context {P C : Type} `{Worker P, Worker C}.
(** [cl->time_limit] *)
Context (time_limit : Z).

(** [run(cl, consumer, producer)] after both creation loops, thread by thread. *)
Definition runner (m : mpc) (ps : list P) (cs : list C) : sres (mpc * list P * list C) :=
  match m with
  | M_start =>
      if time_limit =? 0 then Step (M_join_producers 0, ps, cs)
      else Step (M_cancel_producers 0, ps, cs)
  | M_cancel_producers i =>
      match ps !! i with
      | Some p => Step (M_cancel_producers (S i), <[i := w_cancel p]> ps, cs)
      | None => Step (M_cancel_consumers 0, ps, cs)
      end
  | M_cancel_consumers i =>
      match cs !! i with
      | Some c => Step (M_cancel_consumers (S i), ps, <[i := w_cancel c]> cs)
      | None => Step (if time_limit =? 0 then M_join_consumers 0 else M_join_producers 0, ps, cs)
      end
  | M_join_producers i =>
      match ps !! i with
      | Some p => if w_finished p then Step (M_join_producers (S i), ps, cs) else Blocked
      | None => Step (if time_limit =? 0 then M_cancel_consumers 0 else M_join_consumers 0, ps, cs)
      end
  | M_join_consumers i =>
      match cs !! i with
      | Some c => if w_finished c then Step (M_join_consumers (S i), ps, cs) else Blocked
      | None => Step (M_done, ps, cs)
      end
  | M_done => Blocked
  end.

(** ** What the main thread has established *)

Definition all_below {X} (n : nat) (l : list X) (Q : X -> Prop) : Prop :=
  forall j x, (j < n)%nat -> l !! j = Some x -> Q x.

Definition live {T} `{Worker T} (t : T) : Prop := w_cancelled t = false.
Definition cancelled {T} `{Worker T} (t : T) : Prop := w_cancelled t = true.
Definition finished {T} `{Worker T} (t : T) : Prop := w_finished t = true.

(** With a time limit everyone is cancelled first; without one, only the
    consumers, and only when the producers have finished. *)
Definition phase (m : mpc) (ps : list P) (cs : list C) : Prop :=
  let flagged (l : list P) := if time_limit =? 0 then Forall live l else Forall cancelled l in
  match m with
  | M_start => Forall live ps /\ Forall live cs
  | M_cancel_producers i => time_limit <> 0 /\ all_below i ps cancelled /\ Forall live cs
  | M_cancel_consumers i =>
      flagged ps /\ (time_limit = 0 -> Forall finished ps) /\ all_below i cs cancelled
  | M_join_producers i =>
      flagged ps /\ (if time_limit =? 0 then Forall live cs else Forall cancelled cs) /\
      all_below i ps finished
  | M_join_consumers i =>
      flagged ps /\ Forall finished ps /\ Forall cancelled cs /\ all_below i cs finished
  | M_done => flagged ps /\ Forall finished ps /\ Forall cancelled cs /\ Forall finished cs
  end.
End Runner.

(** ** Lemmas *)

Section AllBelow.
Context {X : Type} (Q : X -> Prop).

Lemma all_below_0 (l : list X) : all_below 0 l Q.
Proof. intros j x Hj. lia. Qed.

Lemma all_below_S n (l : list X) x :
  all_below n l Q -> l !! n = Some x -> Q x -> all_below (S n) l Q.
Proof.
  intros Ha Hx HP j y Hj Hy. destruct (decide (j = n)) as [->|]; [by simplify_eq|].
  apply (Ha j); [lia|done].
Qed.

Lemma all_below_all n (l : list X) : all_below n l Q -> l !! n = None -> Forall Q l.
Proof.
  intros Ha Hn. apply lookup_ge_None in Hn. apply Forall_lookup. intros j x Hx.
  apply (Ha j); [|done]. apply lookup_lt_Some in Hx. lia.
Qed.

Lemma all_below_insert n (l : list X) i x y :
  all_below n l Q -> l !! i = Some x -> (Q x -> Q y) -> all_below n (<[i := y]> l) Q.
Proof.
  intros Ha Hx HQ j z Hj Hz. destruct (decide (i = j)) as [->|].
  - rewrite list_lookup_insert_eq in Hz by (by eapply lookup_lt_Some). simplify_eq. eauto.
  - rewrite list_lookup_insert_ne in Hz by done. eauto.
Qed.

Lemma Forall_insert_keep (l : list X) i x y :
  Forall Q l -> l !! i = Some x -> (Q x -> Q y) -> Forall Q (<[i := y]> l).
Proof. intros Ha Hx HQ. apply Forall_insert; [done|]. apply HQ. by eapply Forall_lookup_1. Qed.
End AllBelow.

Section RunnerFacts.
Context {P C : Type} `{WorkerLaws P, WorkerLaws C}.
Context (time_limit : Z).
#[local] Abbreviation runner := (runner time_limit).
#[local] Abbreviation phase := (phase time_limit).

#[local] Ltac keep_phase :=
  destruct_and?; split_and?; eauto using Forall_insert_keep, all_below_insert; try congruence.

(** A thread that is not finished may take a step without disturbing [run]. *)
Lemma phase_prod m (ps : list P) (cs : list C) i p p' :
  phase m ps cs -> ps !! i = Some p -> w_finished p = false -> w_cancelled p' = w_cancelled p ->
  phase m (<[i := p']> ps) cs.
Proof.
  intros Hph Hp Hf Hc.
  assert (finished p -> finished p') by (unfold finished; congruence).
  assert (live p -> live p') by (unfold live; congruence).
  assert (cancelled p -> cancelled p') by (unfold cancelled; congruence).
  unfold phase in *. destruct m, (time_limit =? 0); keep_phase.
Qed.

Lemma phase_cons m (ps : list P) (cs : list C) i c c' :
  phase m ps cs -> cs !! i = Some c -> w_finished c = false -> w_cancelled c' = w_cancelled c ->
  phase m ps (<[i := c']> cs).
Proof.
  intros Hph Hp Hf Hc.
  assert (finished c -> finished c') by (unfold finished; congruence).
  assert (live c -> live c') by (unfold live; congruence).
  assert (cancelled c -> cancelled c') by (unfold cancelled; congruence).
  unfold phase in *. destruct m, (time_limit =? 0); keep_phase.
Qed.

Lemma cancel_next {T} `{WorkerLaws T} i (l : list T) t :
  all_below i l cancelled -> l !! i = Some t -> all_below (S i) (<[i := w_cancel t]> l) cancelled.
Proof.
  intros Ha Ht. eapply all_below_S with (x := w_cancel t).
  - eapply all_below_insert; [done..|]. intros _. apply w_cancel_cancelled.
  - apply list_lookup_insert_eq. by eapply lookup_lt_Some.
  - apply w_cancel_cancelled.
Qed.

Lemma phase_step m (ps : list P) (cs : list C) m' ps' cs' :
  phase m ps cs -> runner m ps cs = Step (m', ps', cs') -> phase m' ps' cs'.
Proof.
  intros Hph Hst. unfold phase, runner in *.
  destruct m as [|i|i|i|i|]; destruct (Z.eqb_spec time_limit 0); destruct_and?; simplify_eq;
    repeat case_match; simplify_eq; try done;
    repeat match goal with
    | Hb : all_below ?i ?l _, E : ?l !! ?i = None |- _ =>
        pose proof (all_below_all _ _ _ Hb E); clear E
    end; split_and?; eauto using all_below_0, all_below_S, cancel_next; done.
Qed.

(** The main thread changes nothing of a thread but its cancellation flag. *)
Lemma runner_changes m (ps : list P) (cs : list C) m' ps' cs' :
  runner m ps cs = Step (m', ps', cs') ->
  (ps' = ps /\ cs' = cs) \/
  (exists i p, ps !! i = Some p /\ ps' = <[i := w_cancel p]> ps /\ cs' = cs) \/
  (exists i c, cs !! i = Some c /\ cs' = <[i := w_cancel c]> cs /\ ps' = ps).
Proof.
  intros Hst. unfold runner in Hst.
  destruct m; repeat case_match; simplify_eq; eauto 7.
Qed.

Lemma runner_no_fault m (ps : list P) (cs : list C) u : runner m ps cs <> Fault u.
Proof. unfold runner. intros Hst. destruct m; repeat case_match; done. Qed.

(** Where it can be blocked. *)
Lemma runner_blocked m (ps : list P) (cs : list C) :
  runner m ps cs = Blocked ->
  m = M_done \/
  (exists i p, m = M_join_producers i /\ ps !! i = Some p /\ w_finished p = false) \/
  (exists i c, m = M_join_consumers i /\ cs !! i = Some c /\ w_finished c = false).
Proof.
  unfold runner. intros Hst. destruct m as [| | |i|i|]; repeat case_match; simplify_eq; eauto 8.
Qed.

(** Without a time limit no producer is ever cancelled. *)
Lemma phase_live m (ps : list P) (cs : list C) :
  time_limit = 0 -> phase m ps cs -> Forall live ps.
Proof.
  intros ->. unfold phase. simpl. destruct m; intros; destruct_and?; done.
Qed.

(** Nor is a consumer, as long as a producer is at work. *)
Lemma phase_live_conss m (ps : list P) (cs : list C) i p :
  time_limit = 0 -> phase m ps cs -> ps !! i = Some p -> w_finished p = false -> Forall live cs.
Proof.
  intros -> Hph Hp Hf.
  assert (~ Forall finished ps) as Hn.
  { intros Ha. pose proof (Forall_lookup_1 _ _ _ _ Ha Hp) as Hx. unfold finished in Hx. congruence. }
  unfold phase in Hph. simpl in Hph. destruct m; destruct_and?; try done. by destruct Hn; auto.
Qed.
End RunnerFacts.
