(* ===== verification/ProdConsSem.v ===== *)
(** The producers and consumers of cw09/zad1/src/main-sem.c with the main
    thread of runner.c ([Runner]), as a system of threads over POSIX semaphores.
    The buffer is any implementation of [BoundedFifo]. *)
From S2P Require Import Prelude Fifo RingBuffer CString Cl Runner.
#[local] Open Scope Z_scope.

(** Where a producer is, named by the call it makes next. *)
Inductive ppc :=
  | P_start     (* usleep; fopen(cl.filename, "r") *)
  | P_getline   (* getline, strtok *)
  | P_lock      (* sem_wait_f(&buffer_mx) *)
  | P_full      (* while (buffer_full()) *)
  | P_unlock0   (* sem_post_f(&buffer_mx) in the loop *)
  | P_wait      (* sem_wait_f(&producer_line) *)
  | P_relock    (* sem_wait_f(&buffer_mx) in the loop *)
  | P_push      (* buffer_push(line) *)
  | P_post      (* sem_post_f(&consumer_line) *)
  | P_unlock    (* sem_post_f(&buffer_mx) *)
  | P_done      (* returned *)
  | P_killed    (* cancelled *)
  | P_killed_mx. (* cancelled while it holds buffer_mx *)

Inductive cpc :=
  | C_start     (* usleep; pthread_setcancelstate(PTHREAD_CANCEL_DISABLE) *)
  | C_lock | C_empty | C_unlock0 | C_wait | C_relock | C_pop | C_post | C_unlock
  | C_print     (* if (cl_shouldprint(&cl, line)) printf; free(line) *)
  | C_killed.   (* cancelled *)

Scheme Boolean Equality for ppc.
Scheme Boolean Equality for cpc.

(** A producer: its program counter, the lines its file still has for
    [getline], the variable [line], and whether it has been cancelled. *)
Record prod_t := Prod { p_pc : ppc; p_file : list string; p_line : string; p_cancel : bool }.
Record cons_t := Cons { c_pc : cpc; c_line : string; c_cancel : bool }.

Definition p_finished (p : prod_t) : bool :=
  match p_pc p with P_done | P_killed | P_killed_mx => true | _ => false end.
Definition c_finished (c : cons_t) : bool :=
  match c_pc c with C_killed => true | _ => false end.

(** Threads as [run] sees them. *)
#[export] Instance prod_worker : Worker prod_t := {
  w_finished := p_finished;
  w_cancelled := p_cancel;
  w_cancel p := Prod (p_pc p) (p_file p) (p_line p) true;
}.
#[export] Instance cons_worker : Worker cons_t := {
  w_finished := c_finished;
  w_cancelled := c_cancel;
  w_cancel c := Cons (c_pc c) (c_line c) true;
}.
#[export] Instance prod_worker_laws : WorkerLaws prod_t.
Proof. by split; intros []. Qed.
#[export] Instance cons_worker_laws : WorkerLaws cons_t.
Proof. by split; intros []. Qed.

(** Threads in the steps of [LProd]/[LCons]/[LMain]; [LKillP]/[LKillC] is a
    pending cancellation that a thread acts on. *)
Inductive pc_label :=
  | LProd (i : nat) | LCons (i : nat) | LMain | LKillP (i : nat) | LKillC (i : nat).

Section ProdCons.
Context {B : Type} `{BF : BoundedFifo B string}.
Context (cl : cl).
(** The lines of [cl.filename], if it can be opened: every producer reads the
    whole file. *)
Context (input : option (list string)).

Record pcst := PcSt {
  buffer_mx : Z;
  producer_line : Z;
  consumer_line : Z;
  buf : B;
  prods : list prod_t;
  conss : list cons_t;
  main : mpc;
  out : list string;       (* what the consumers have printed *)
  pushed : list string;    (* history: the lines pushed, oldest first *)
  popped : list string;    (* history: the lines popped, oldest first *)
  consumed : list string;  (* history: the lines a consumer is done with *)
}.

Definition set_sems mx pl cnl s :=
  PcSt mx pl cnl (buf s) (prods s) (conss s) (main s) (out s) (pushed s) (popped s) (consumed s).
Definition set_prod i p s :=
  PcSt (buffer_mx s) (producer_line s) (consumer_line s) (buf s) (<[i := p]> (prods s))
    (conss s) (main s) (out s) (pushed s) (popped s) (consumed s).
Definition set_cons i c s :=
  PcSt (buffer_mx s) (producer_line s) (consumer_line s) (buf s) (prods s)
    (<[i := c]> (conss s)) (main s) (out s) (pushed s) (popped s) (consumed s).
Definition set_run m ps cs s :=
  PcSt (buffer_mx s) (producer_line s) (consumer_line s) (buf s) ps
    cs m (out s) (pushed s) (popped s) (consumed s).
Definition set_mx d s := set_sems (buffer_mx s + d) (producer_line s) (consumer_line s) s.
Definition set_pl d s := set_sems (buffer_mx s) (producer_line s + d) (consumer_line s) s.
Definition set_cnl d s := set_sems (buffer_mx s) (producer_line s) (consumer_line s + d) s.
Definition do_push b x s :=
  PcSt (buffer_mx s) (producer_line s) (consumer_line s) b (prods s)
    (conss s) (main s) (out s) (pushed s ++ [x]) (popped s) (consumed s).
Definition do_pop b x s :=
  PcSt (buffer_mx s) (producer_line s) (consumer_line s) b (prods s)
    (conss s) (main s) (out s) (pushed s) (popped s ++ [x]) (consumed s).
Definition do_print x s :=
  PcSt (buffer_mx s) (producer_line s) (consumer_line s) (buf s) (prods s) (conss s) (main s)
    (if cl_shouldprint cl x then out s ++ [x] else out s) (pushed s) (popped s)
    (consumed s ++ [x]).

Definition goto_p (p : prod_t) (pc : ppc) : prod_t := Prod pc (p_file p) (p_line p) (p_cancel p).
Definition goto_c (c : cons_t) (pc : cpc) : cons_t := Cons pc (c_line c) (c_cancel c).

(** The result of a call on the buffer. *)
Definition on_buf {A} (o : outcome B A) (k : A -> B -> sres pcst) : sres pcst :=
  match o with Done a b => k a b | Undef u => Fault u | _ => Blocked end.

(** The loop of [producer], one call at a time. *)
Definition producer (i : nat) (p : prod_t) (s : pcst) : sres pcst :=
  match p_pc p with
  | P_start =>
      match input with
      | None => Step (set_prod i (goto_p p P_done) s)
      | Some lines => Step (set_prod i (Prod P_getline lines (p_line p) (p_cancel p)) s)
      end
  | P_getline =>
      match p_file p with
      | [] => Step (set_prod i (goto_p p P_done) s)
      | raw :: file =>
          match strip_line raw with
          | None => Step (set_prod i (Prod P_getline file (p_line p) (p_cancel p)) s)
          | Some line => Step (set_prod i (Prod P_lock file line (p_cancel p)) s)
          end
      end
  | P_lock =>
      if 0 <? buffer_mx s then Step (set_prod i (goto_p p P_full) (set_mx (-1) s)) else Blocked
  | P_full =>
      on_buf (bf_full (buf s)) (fun full _ =>
        Step (set_prod i (goto_p p (if full then P_unlock0 else P_push)) s))
  | P_unlock0 => Step (set_prod i (goto_p p P_wait) (set_mx 1 s))
  | P_wait =>
      if 0 <? producer_line s then Step (set_prod i (goto_p p P_relock) (set_pl (-1) s))
      else Blocked
  | P_relock =>
      if 0 <? buffer_mx s then Step (set_prod i (goto_p p P_full) (set_mx (-1) s)) else Blocked
  | P_push =>
      on_buf (bf_push (p_line p) (buf s)) (fun _ b =>
        Step (set_prod i (goto_p p P_post) (do_push b (p_line p) s)))
  | P_post => Step (set_prod i (goto_p p P_unlock) (set_cnl 1 s))
  | P_unlock => Step (set_prod i (goto_p p P_getline) (set_mx 1 s))
  | P_done | P_killed | P_killed_mx => Blocked
  end.

(** The loop of [consumer]; [buffer_pop] leaves [line] indeterminate when it
    fails. *)
Definition consumer (i : nat) (c : cons_t) (s : pcst) : sres pcst :=
  match c_pc c with
  | C_start => Step (set_cons i (goto_c c C_lock) s)
  | C_lock =>
      if 0 <? buffer_mx s then Step (set_cons i (goto_c c C_empty) (set_mx (-1) s)) else Blocked
  | C_empty =>
      on_buf (bf_empty (buf s)) (fun empty _ =>
        Step (set_cons i (goto_c c (if empty then C_unlock0 else C_pop)) s))
  | C_unlock0 => Step (set_cons i (goto_c c C_wait) (set_mx 1 s))
  | C_wait =>
      if 0 <? consumer_line s then Step (set_cons i (goto_c c C_relock) (set_cnl (-1) s))
      else Blocked
  | C_relock =>
      if 0 <? buffer_mx s then Step (set_cons i (goto_c c C_empty) (set_mx (-1) s)) else Blocked
  | C_pop =>
      on_buf (bf_pop (buf s)) (fun r b =>
        match r with
        | (_, Some line) => Step (set_cons i (Cons C_post line (c_cancel c)) (do_pop b line s))
        | (_, None) => Fault UB_uninit
        end)
  | C_post => Step (set_cons i (goto_c c C_unlock) (set_pl 1 s))
  | C_unlock => Step (set_cons i (goto_c c C_print) (set_mx 1 s))
  | C_print => Step (set_cons i (goto_c c C_lock) (do_print (c_line c) s))
  | C_killed => Blocked
  end.

(** The next call of the main thread, in [run]. *)
Definition run_main (s : pcst) : sres pcst :=
  match runner (time_limit cl) (main s) (prods s) (conss s) with
  | Step (m, ps, cs) => Step (set_run m ps cs s)
  | Blocked => Blocked
  | Fault u => Fault u
  end.

(** A cancelled producer stops at a call that is a cancellation point.  One of
    them, when [cl.verbose] is set, is the message between [sem_post_f] of
    [consumer_line] and of [buffer_mx]. *)
Definition kill_producer (i : nat) (p : prod_t) (s : pcst) : sres pcst :=
  match p_pc p with
  | P_start | P_getline | P_lock | P_wait | P_relock =>
      if p_cancel p then Step (set_prod i (goto_p p P_killed) s) else Blocked
  | P_unlock =>
      if p_cancel p && negb (verbose cl =? 0)
      then Step (set_prod i (goto_p p P_killed_mx) s) else Blocked
  | _ => Blocked
  end.

(** A consumer accepts a cancellation only while it waits for
    [consumer_line], and before it first disables cancellation if it sleeps
    or logs there. *)
Definition kill_consumer (i : nat) (c : cons_t) (s : pcst) : sres pcst :=
  match c_pc c with
  | C_wait => if c_cancel c then Step (set_cons i (goto_c c C_killed) s) else Blocked
  | C_start =>
      if c_cancel c && ((0 <? sleep cl) || negb (verbose cl =? 0))
      then Step (set_cons i (goto_c c C_killed) s) else Blocked
  | _ => Blocked
  end.

Definition pc_exec (l : pc_label) (s : pcst) : sres pcst :=
  match l with
  | LProd i => match prods s !! i with Some p => producer i p s | None => Blocked end
  | LCons i => match conss s !! i with Some c => consumer i c s | None => Blocked end
  | LMain => run_main s
  | LKillP i => match prods s !! i with Some p => kill_producer i p s | None => Blocked end
  | LKillC i => match conss s !! i with Some c => kill_consumer i c s | None => Blocked end
  end.

(** After [sem_init] of the three semaphores and the creation of the threads. *)
Definition pc_init (b : B) : pcst :=
  PcSt 1 0 0 b
    (replicate (Z.to_nat (producers cl)) (Prod P_start [] ""%string false))
    (replicate (Z.to_nat (consumers cl)) (Cons C_start ""%string false))
    M_start [] [] [] [].

(** ** Invariant *)

Definition nP (pc : ppc) (s : pcst) : nat :=
  countb (fun p => ppc_beq (p_pc p) pc) (prods s).
Definition nC (pc : cpc) (s : pcst) : nat :=
  countb (fun c => cpc_beq (c_pc c) pc) (conss s).

(** Threads that own [buffer_mx]. *)
Definition holders (s : pcst) : nat :=
  nP P_full s + nP P_unlock0 s + nP P_push s + nP P_post s + nP P_unlock s + nP P_killed_mx s +
  (nC C_empty s + nC C_unlock0 s + nC C_pop s + nC C_post s + nC C_unlock s).

(** The line a consumer has popped and not yet dealt with. *)
Definition in_hand (c : cons_t) : list string :=
  match c_pc c with C_post | C_unlock | C_print => [c_line c] | _ => [] end.

Record pc_inv (cap : Z) (q : list string) (s : pcst) : Prop := {
  inv_rep : bf_rep cap q (buf s);
  inv_fifo : pushed s = popped s ++ q;
  inv_mutex : buffer_mx s + Z.of_nat (holders s) = 1;
  inv_sems : 0 <= buffer_mx s /\ 0 <= producer_line s /\ 0 <= consumer_line s;
  inv_push : nP P_push s = 0%nat \/ Z.of_nat (length q) < cap;
  inv_pop : nC C_pop s = 0%nat \/ 0 < Z.of_nat (length q);
  inv_ctokens :
    (nC C_unlock0 s + nC C_wait s)%nat = 0%nat \/
    Z.of_nat (length q) <= consumer_line s +
      Z.of_nat (nP P_post s + nC C_relock s + nC C_empty s + nC C_pop s);
  inv_ptokens :
    (nP P_unlock0 s + nP P_wait s)%nat = 0%nat \/
    cap - Z.of_nat (length q) <= producer_line s +
      Z.of_nat (nC C_post s + nP P_relock s + nP P_full s + nP P_push s + nP P_killed s);
  inv_lines : popped s ≡ₚ consumed s ++ concat (map in_hand (conss s));
  inv_out : out s = List.filter (cl_shouldprint cl) (consumed s);
}.

(** ** Counting threads *)

Lemma nP_set i p p' s pc :
  prods s !! i = Some p ->
  (nP pc (set_prod i p' s) + (if ppc_beq (p_pc p) pc then 1 else 0) =
   nP pc s + (if ppc_beq (p_pc p') pc then 1 else 0))%nat.
Proof. intros H. exact (countb_insert _ _ _ _ _ H). Qed.

Lemma nC_set i c c' s pc :
  conss s !! i = Some c ->
  (nC pc (set_cons i c' s) + (if cpc_beq (c_pc c) pc then 1 else 0) =
   nC pc s + (if cpc_beq (c_pc c') pc then 1 else 0))%nat.
Proof. intros H. exact (countb_insert _ _ _ _ _ H). Qed.

Lemma nP_pos i p s : prods s !! i = Some p -> (0 < nP (p_pc p) s)%nat.
Proof. intros H. eapply countb_pos; [done|]. by destruct p as [[]]. Qed.

Lemma nC_pos i c s : conss s !! i = Some c -> (0 < nC (c_pc c) s)%nat.
Proof. intros H. eapply countb_pos; [done|]. by destruct c as [[]]. Qed.

(** Lines move from the history of pops to the consumer's hand, and from
    there to the lines dealt with. *)
Lemma in_hand_set i c c' s dp dc :
  conss s !! i = Some c ->
  popped s ≡ₚ consumed s ++ concat (map in_hand (conss s)) ->
  dp ++ in_hand c ≡ₚ dc ++ in_hand c' ->
  popped s ++ dp ≡ₚ (consumed s ++ dc) ++ concat (map in_hand (<[i := c']> (conss s))).
Proof.
  intros Hc Hl Hd. apply (Permutation_app_inv_r (in_hand c)).
  rewrite <- !app_assoc, Hd, (concat_map_insert _ _ _ _ c' Hc), Hl.
  rewrite <- !app_assoc. apply Permutation_app_head.
  rewrite !app_assoc. apply Permutation_app_tail, Permutation_app_comm.
Qed.

(** How the counts change when thread [i] goes from [p] to [p']. *)
Ltac count_prod Hp p' :=
  let go pc := pose proof (nP_set _ _ p' _ pc Hp) in
  go P_full; go P_unlock0; go P_wait; go P_relock; go P_push; go P_post; go P_unlock; go P_killed;
  go P_killed_mx;
  pose proof (nP_pos _ _ _ Hp).

Ltac count_cons Hc c' :=
  let go pc := pose proof (nC_set _ _ c' _ pc Hc) in
  go C_empty; go C_unlock0; go C_wait; go C_relock; go C_pop; go C_post; go C_unlock;
  pose proof (nC_pos _ _ _ Hc).

Ltac prod_case q Hp p' :=
  count_prod Hp p'; exists q; unfold goto_p, holders, nP, nC in *; simpl in *;
  split; unfold holders, nP, nC in *; simpl in *; rewrite ?length_app in *; simpl in *;
  try done; try lia.

Lemma producer_inv `{!BoundedFifoLaws B string} cap q i p s s' :
  pc_inv cap q s -> prods s !! i = Some p -> producer i p s = Step s' ->
  exists q', pc_inv cap q' s'.
Proof.
  intros [Hr Hf Hm Hs Hpu Hpo Hct Hpt Hl Ho] Hp Hst.
  pose proof (bf_rep_bound _ _ _ Hr) as Hb.
  destruct p as [pc file line cn]. unfold producer in Hst. destruct pc; simpl in Hst.
  - destruct input as [lines|]; simplify_eq.
    + prod_case q Hp (Prod P_getline lines line cn).
    + prod_case q Hp (Prod P_done file line cn).
  - destruct file as [|raw file]; simplify_eq.
    + prod_case q Hp (Prod P_done [] line cn).
    + destruct (strip_line raw) as [l|]; simplify_eq.
      * prod_case q Hp (Prod P_lock file l cn).
      * prod_case q Hp (Prod P_getline file line cn).
  - destruct (Z.ltb_spec 0 (buffer_mx s)); simplify_eq.
    prod_case q Hp (Prod P_full file line cn).
  - rewrite (bf_full_ok _ _ _ Hr) in Hst. simpl in Hst.
    case_bool_decide; simplify_eq.
    + prod_case q Hp (Prod P_unlock0 file line cn).
    + prod_case q Hp (Prod P_push file line cn).
  - simplify_eq. prod_case q Hp (Prod P_wait file line cn).
  - destruct (Z.ltb_spec 0 (producer_line s)); simplify_eq.
    prod_case q Hp (Prod P_relock file line cn).
  - destruct (Z.ltb_spec 0 (buffer_mx s)); simplify_eq.
    prod_case q Hp (Prod P_full file line cn).
  - pose proof (nP_pos _ _ _ Hp) as Hpos. simpl in Hpos.
    destruct (bf_push_ok cap q (buf s) line) as (b' & E & Hr'); [done|lia|].
    rewrite E in Hst. simpl in Hst. simplify_eq.
    prod_case (q ++ [line]) Hp (Prod P_post file line cn).
    by rewrite Hf, app_assoc.
  - simplify_eq. prod_case q Hp (Prod P_unlock file line cn).
  - simplify_eq. prod_case q Hp (Prod P_getline file line cn).
  - done.
  - done.
  - done.
Qed.

Ltac cons_case q Hc c' dp dc :=
  count_cons Hc c'; exists q;
  match goal with Hl : popped _ ≡ₚ _ |- _ =>
    let HL := fresh in
    pose proof (in_hand_set _ _ c' _ dp dc Hc Hl (Permutation_refl _)) as HL;
    rewrite ?app_nil_r in HL end; unfold goto_c, holders, nP, nC in *; simpl in *;
  split; unfold holders, nP, nC in *; simpl in *; rewrite ?length_app in *; simpl in *;
  try done; try lia.

Lemma consumer_inv `{!BoundedFifoLaws B string} cap q i c s s' :
  pc_inv cap q s -> conss s !! i = Some c -> consumer i c s = Step s' ->
  exists q', pc_inv cap q' s'.
Proof.
  intros [Hr Hf Hm Hs Hpu Hpo Hct Hpt Hl Ho] Hc Hst.
  pose proof (bf_rep_bound _ _ _ Hr) as Hb.
  destruct c as [pc line cn]. unfold consumer in Hst. destruct pc; simpl in Hst.
  - simplify_eq. cons_case q Hc (Cons C_lock line cn) (@nil string) (@nil string).
  - destruct (Z.ltb_spec 0 (buffer_mx s)); simplify_eq.
    cons_case q Hc (Cons C_empty line cn) (@nil string) (@nil string).
  - rewrite (bf_empty_ok _ _ _ Hr) in Hst. simpl in Hst.
    case_bool_decide; simplify_eq.
    + cons_case ([] : list string) Hc (Cons C_unlock0 line cn) (@nil string) (@nil string).
    + destruct q as [|x q]; [done|]. cons_case (x :: q) Hc (Cons C_pop line cn) (@nil string) (@nil string).
  - simplify_eq. cons_case q Hc (Cons C_wait line cn) (@nil string) (@nil string).
  - destruct (Z.ltb_spec 0 (consumer_line s)); simplify_eq.
    cons_case q Hc (Cons C_relock line cn) (@nil string) (@nil string).
  - destruct (Z.ltb_spec 0 (buffer_mx s)); simplify_eq.
    cons_case q Hc (Cons C_empty line cn) (@nil string) (@nil string).
  - pose proof (nC_pos _ _ _ Hc) as Hpos. simpl in Hpos.
    destruct q as [|x q]; [simpl in Hpo; lia|].
    destruct (bf_pop_ok cap x q (buf s)) as (b' & E & Hr'); [done|].
    rewrite E in Hst. simpl in Hst. simplify_eq.
    cons_case q Hc (Cons C_post x cn) [x] (@nil string).
    by rewrite Hf, <- app_assoc.
  - simplify_eq. cons_case q Hc (Cons C_unlock line cn) (@nil string) (@nil string).
  - simplify_eq. cons_case q Hc (Cons C_print line cn) (@nil string) (@nil string).
  - simplify_eq. cons_case q Hc (Cons C_lock line cn) (@nil string) [line].
    by apply filter_snoc_if.
  - done.
Qed.
Lemma prod_flag_inv cap q i p s :
  pc_inv cap q s -> prods s !! i = Some p ->
  pc_inv cap q (set_prod i (Prod (p_pc p) (p_file p) (p_line p) true) s).
Proof.
  intros [Hr Hf Hm Hs Hpu Hpo Hct Hpt Hl Ho] Hp.
  assert (forall pc, nP pc (set_prod i (Prod (p_pc p) (p_file p) (p_line p) true) s) = nP pc s) as E.
  { intros pc. pose proof (nP_set _ _ (Prod (p_pc p) (p_file p) (p_line p) true) _ pc Hp) as H.
    simpl in H. lia. }
  split; unfold holders in *; rewrite ?E; done.
Qed.

Lemma cons_flag_inv cap q i c s :
  pc_inv cap q s -> conss s !! i = Some c ->
  pc_inv cap q (set_cons i (Cons (c_pc c) (c_line c) true) s).
Proof.
  intros [Hr Hf Hm Hs Hpu Hpo Hct Hpt Hl Ho] Hc.
  assert (forall pc, nC pc (set_cons i (Cons (c_pc c) (c_line c) true) s) = nC pc s) as E.
  { intros pc. pose proof (nC_set _ _ (Cons (c_pc c) (c_line c) true) _ pc Hc) as H.
    simpl in H. lia. }
  pose proof (in_hand_set _ _ (Cons (c_pc c) (c_line c) true) _ [] [] Hc Hl (Permutation_refl _)) as HL.
  rewrite !app_nil_r in HL.
  split; unfold holders in *; rewrite ?E; done.
Qed.

Lemma main_flag_inv cap q m s : pc_inv cap q s -> pc_inv cap q (set_run m (prods s) (conss s) s).
Proof. by intros [Hr Hf Hm Hs Hpu Hpo Hct Hpt Hl Ho]; split. Qed.

Lemma run_main_inv cap q s s' :
  pc_inv cap q s -> run_main s = Step s' -> pc_inv cap q s'.
Proof.
  intros Hi Hst. unfold run_main in Hst.
  destruct (runner _ _ _ _) as [[[m ps] cs]| |] eqn:E; simplify_eq.
  destruct (runner_changes _ _ _ _ _ _ _ E) as [[-> ->]|[(i & p & Hp & -> & ->)|(i & c & Hc & -> & ->)]].
  - by apply main_flag_inv.
  - apply (main_flag_inv cap q m (set_prod i (w_cancel p) s)). by apply prod_flag_inv.
  - apply (main_flag_inv cap q m (set_cons i (w_cancel c) s)). by apply cons_flag_inv.
Qed.

Lemma kill_producer_inv cap q i p s s' :
  pc_inv cap q s -> prods s !! i = Some p -> kill_producer i p s = Step s' ->
  exists q', pc_inv cap q' s'.
Proof.
  intros [Hr Hf Hm Hs Hpu Hpo Hct Hpt Hl Ho] Hp Hst.
  destruct p as [pc file line cn]. unfold kill_producer in Hst.
  destruct pc; simpl in Hst; try done; destruct cn; simpl in Hst; try case_match; simplify_eq;
    first [ solve [prod_case q Hp (Prod P_killed file line true)]
          | prod_case q Hp (Prod P_killed_mx file line true) ].
Qed.

Lemma kill_consumer_inv cap q i c s s' :
  pc_inv cap q s -> conss s !! i = Some c -> kill_consumer i c s = Step s' ->
  exists q', pc_inv cap q' s'.
Proof.
  intros [Hr Hf Hm Hs Hpu Hpo Hct Hpt Hl Ho] Hc Hst.
  destruct c as [pc line cn]. unfold kill_consumer in Hst.
  destruct pc; simpl in Hst; try done; destruct cn; simpl in Hst; try done;
    try case_match; simplify_eq;
    cons_case q Hc (Cons C_killed line true) (@nil string) (@nil string).
Qed.

Lemma pc_exec_inv `{!BoundedFifoLaws B string} cap l s s' :
  (exists q, pc_inv cap q s) -> pc_exec l s = Step s' -> exists q, pc_inv cap q s'.
Proof.
  intros [q Hi] Hst. destruct l as [i|i| |i|i]; simpl in Hst.
  - destruct (prods s !! i) as [p|] eqn:E; [|done]. by eapply producer_inv.
  - destruct (conss s !! i) as [c|] eqn:E; [|done]. by eapply consumer_inv.
  - exists q. by eapply run_main_inv.
  - destruct (prods s !! i) as [p|] eqn:E; [|done]. by eapply kill_producer_inv.
  - destruct (conss s !! i) as [c|] eqn:E; [|done]. by eapply kill_consumer_inv.
Qed.

Lemma pc_init_inv cap b : bf_rep cap [] b -> 0 <= cap -> pc_inv cap [] (pc_init b).
Proof.
  intros Hr Hc.
  split; unfold holders, nP, nC; simpl; rewrite ?countb_replicate; simpl; try done; try lia.
  induction (Z.to_nat (consumers cl)); simpl; done.
Qed.

Lemma pc_reach_inv `{!BoundedFifoLaws B string} cap b s :
  bf_rep cap [] b -> reach pc_exec (pc_init b) s -> exists q, pc_inv cap q s.
Proof.
  intros Hr. pose proof (bf_rep_bound _ _ _ Hr). simpl in *.
  apply (reach_inv pc_exec (fun s => exists q, pc_inv cap q s)).
  - exists []. by apply pc_init_inv.
  - intros. by eapply pc_exec_inv.
Qed.

(** Under the invariant no thread ever goes wrong. *)
Lemma pc_inv_safe `{!BoundedFifoLaws B string} cap q s : pc_inv cap q s -> safe pc_exec s.
Proof.
  intros [Hr Hf Hm Hs Hpu Hpo Hct Hpt Hl Ho] l u Hst.
  destruct l as [i|i| |i|i]; simpl in Hst.
  - destruct (prods s !! i) as [p|] eqn:E; [|done].
    pose proof (nP_pos _ _ _ E) as Hpos. unfold producer in Hst.
    destruct (p_pc p); repeat case_match; try done; unfold on_buf in Hst.
    + by rewrite (bf_full_ok _ _ _ Hr) in Hst.
    + destruct (bf_push_ok cap q (buf s) (p_line p)) as (b' & E' & Hr'); [done|lia|].
      by rewrite E' in Hst.
  - destruct (conss s !! i) as [c|] eqn:E; [|done].
    pose proof (nC_pos _ _ _ E) as Hpos. unfold consumer in Hst.
    destruct (c_pc c); repeat case_match; try done; unfold on_buf in Hst.
    + by rewrite (bf_empty_ok _ _ _ Hr) in Hst.
    + destruct q as [|x q]; [simpl in Hpo; lia|].
      destruct (bf_pop_ok cap x q (buf s)) as (b' & E' & Hr'); [done|].
      by rewrite E' in Hst.
  - unfold run_main in Hst. destruct (runner _ _ _ _) as [[[m ps] cs]| |u'] eqn:E; try done.
    by apply runner_no_fault in E.
  - destruct (prods s !! i) as [p|]; [|done]. unfold kill_producer in Hst. repeat case_match; done.
  - destruct (conss s !! i) as [c|]; [|done]. unfold kill_consumer in Hst. repeat case_match; done.
Qed.

(** ** What the threads leave behind *)

(** A thread is only killed on request, and only keeps [buffer_mx] with it if
    it was writing a message. *)
Definition prod_ok (p : prod_t) : Prop :=
  match p_pc p with
  | P_killed => cancelled p
  | P_killed_mx => cancelled p /\ verbose cl <> 0
  | _ => True
  end.
Definition cons_ok (c : cons_t) : Prop := finished c -> cancelled c.

Record run_inv (s : pcst) : Prop := {
  run_prods : Forall prod_ok (prods s);
  run_conss : Forall cons_ok (conss s);
  run_nprods : length (prods s) = Z.to_nat (producers cl);
  run_nconss : length (conss s) = Z.to_nat (consumers cl);
  run_phase : phase (time_limit cl) (main s) (prods s) (conss s);
}.

(** What a step of a producer does to the threads. *)
Lemma producer_frame i p s s' :
  producer i p s = Step s' \/ kill_producer i p s = Step s' ->
  conss s' = conss s /\ main s' = main s /\ p_finished p = false /\
  exists p', prods s' = <[i := p']> (prods s) /\ p_cancel p' = p_cancel p /\ prod_ok p'.
Proof.
  intros [Hst|Hst]; unfold producer, kill_producer, on_buf in Hst;
    destruct p as [pc file line []]; destruct pc; simpl in Hst; repeat case_match; simplify_eq;
    (split; [done|]; split; [done|]; split; [done|]; eexists; split; [done|]);
    split; simpl; try done; unfold prod_ok; simpl; repeat case_match; try done; split; [done|lia].
Qed.

Lemma consumer_frame i c s s' :
  consumer i c s = Step s' \/ kill_consumer i c s = Step s' ->
  prods s' = prods s /\ pushed s' = pushed s /\ main s' = main s /\ c_finished c = false /\
  exists c', conss s' = <[i := c']> (conss s) /\ c_cancel c' = c_cancel c /\ cons_ok c'.
Proof.
  intros [Hst|Hst]; unfold consumer, kill_consumer, on_buf in Hst;
    destruct c as [pc line []]; destruct pc; simpl in Hst; repeat case_match; simplify_eq;
    (split; [done|]; split; [done|]; split; [done|]; split; [done|]; eexists; split; [done|]);
    split; simpl; try done; by case_match.
Qed.

Lemma producer_run_inv i p s s' :
  run_inv s -> prods s !! i = Some p -> producer i p s = Step s' \/ kill_producer i p s = Step s' ->
  run_inv s'.
Proof.
  intros [Hps Hcs Hnp Hnc Hph] Hp Hst.
  destruct (producer_frame _ _ _ _ Hst) as (Ec & Em & Hf & p' & Ep & Hk & Ho).
  split; rewrite ?Ec, ?Ep, ?Em, ?length_insert; try done.
  - by apply Forall_insert.
  - by eapply phase_prod.
Qed.

Lemma consumer_run_inv i c s s' :
  run_inv s -> conss s !! i = Some c -> consumer i c s = Step s' \/ kill_consumer i c s = Step s' ->
  run_inv s'.
Proof.
  intros [Hps Hcs Hnp Hnc Hph] Hc Hst.
  destruct (consumer_frame _ _ _ _ Hst) as (Ep & _ & Em & Hf & c' & Ec & Hk & Ho).
  split; rewrite ?Ec, ?Ep, ?Em, ?length_insert; try done.
  - by apply Forall_insert.
  - by eapply phase_cons.
Qed.

Lemma prod_ok_cancel p : prod_ok p -> prod_ok (w_cancel p).
Proof. by destruct p as [[] file line c]; unfold prod_ok, cancelled; simpl; intuition. Qed.

Lemma run_main_run_inv s s' : run_inv s -> run_main s = Step s' -> run_inv s'.
Proof.
  intros [Hps Hcs Hnp Hnc Hph] Hst. unfold run_main in Hst.
  destruct (runner _ _ _ _) as [[[m ps] cs]| |] eqn:E; simplify_eq.
  pose proof (phase_step _ _ _ _ _ _ _ Hph E) as Hph'.
  destruct (runner_changes _ _ _ _ _ _ _ E) as [[-> ->]|[(i & p & Hp & -> & ->)|(i & c & Hc & -> & ->)]];
    split; simpl; rewrite ?length_insert; try done.
  - eapply Forall_insert_keep; [done|done|apply prod_ok_cancel].
  - by apply Forall_insert.
Qed.

Lemma pc_exec_run_inv l s s' : run_inv s -> pc_exec l s = Step s' -> run_inv s'.
Proof.
  intros Hi Hst. destruct l as [i|i| |i|i]; simpl in Hst;
    [destruct (prods s !! i) eqn:E|destruct (conss s !! i) eqn:E| |
     destruct (prods s !! i) eqn:E|destruct (conss s !! i) eqn:E];
    eauto using producer_run_inv, consumer_run_inv, run_main_run_inv; done.
Qed.

Lemma reach_run_inv b s : reach pc_exec (pc_init b) s -> run_inv s.
Proof.
  apply (reach_inv pc_exec run_inv); [|intros; by eapply pc_exec_run_inv].
  split; simpl; rewrite ?length_replicate; try done; try (by apply Forall_replicate).
  split; by apply Forall_replicate.
Qed.

(** Nobody is killed with [buffer_mx] if there is no time limit, or there are
    no messages. *)
Lemma mx_not_lost s : run_inv s -> verbose cl = 0 \/ time_limit cl = 0 -> nP P_killed_mx s = 0%nat.
Proof.
  intros [Hps _ _ _ Hph] Hq. apply countb_zero. intros i p Hp.
  pose proof (Forall_lookup_1 _ _ _ _ Hps Hp) as Hok. unfold prod_ok in Hok.
  destruct p as [[] file line cn]; try done. destruct Hok as [Hc Hv]. destruct Hq as [|Ht]; [done|].
  pose proof (phase_live _ _ _ _ Ht Hph) as Hl.
  by rewrite (Forall_lookup_1 _ _ _ _ Hl Hp) in Hc.
Qed.

(** ** The lines of the input *)

(** The lines a producer has still to push. *)
Definition pending (p : prod_t) : list string :=
  match p_pc p with
  | P_start => match input with Some raw => strip_lines raw | None => [] end
  | P_getline | P_post | P_unlock => strip_lines (p_file p)
  | P_done | P_killed | P_killed_mx => []
  | _ => p_line p :: strip_lines (p_file p)
  end.

Definition all_lines : list string :=
  concat (replicate (Z.to_nat (producers cl))
    (match input with Some raw => strip_lines raw | None => [] end)).

Definition flow_inv (s : pcst) : Prop :=
  pushed s ++ concat (map pending (prods s)) ≡ₚ all_lines.

Lemma pending_set i p p' s (l : list string) :
  prods s !! i = Some p -> flow_inv s -> pending p ≡ₚ l ++ pending p' ->
  (pushed s ++ l) ++ concat (map pending (<[i := p']> (prods s))) ≡ₚ all_lines.
Proof. intros Hp Hi Hd. by eapply move_to_pile. Qed.

Lemma producer_flow i p s s' :
  flow_inv s -> prods s !! i = Some p -> producer i p s = Step s' -> flow_inv s'.
Proof.
  intros Hi Hp Hst.
  assert (exists p' l, prods s' = <[i := p']> (prods s) /\ pushed s' = pushed s ++ l /\
            pending p = l ++ pending p') as (p' & l & Ep & Eq & Hpd).
  { unfold producer, on_buf in Hst. destruct p as [pc file line cn]; destruct pc; simpl in Hst;
      repeat case_match; simplify_eq; (eexists _, []; split; [done|]; split; [by rewrite app_nil_r|])
      || (eexists _, [line]; split; [done|]; split; [done|]);
      unfold pending; simpl; rewrite ?app_nil_r; repeat case_match; simplify_eq; done. }
  unfold flow_inv. rewrite Ep, Eq. eapply pending_set; [done|done|]. by rewrite Hpd.
Qed.

(** As long as there is no time limit no line is given up. *)
Lemma pc_exec_flow l s s' :
  time_limit cl = 0 -> run_inv s -> flow_inv s -> pc_exec l s = Step s' -> flow_inv s'.
Proof.
  intros Ht Hr Hi Hst. destruct l as [i|i| |i|i]; simpl in Hst.
  - destruct (prods s !! i) as [p|] eqn:E; [|done]. by eapply producer_flow.
  - destruct (conss s !! i) as [c|] eqn:E; [|done]. unfold flow_inv.
    by destruct (consumer_frame i c s s') as (-> & -> & _); [left|].
  - unfold run_main in Hst.
    destruct (runner _ _ _ _) as [[[m ps] cs]| |] eqn:E; simplify_eq.
    destruct (runner_changes _ _ _ _ _ _ _ E) as [[-> ->]|[(i & p & Hp & -> & ->)|(i & c & Hc & -> & ->)]];
      try done.
    pose proof (pending_set i p (w_cancel p) s [] Hp Hi) as Hx. rewrite app_nil_r in Hx.
    apply Hx. by destruct p as [[]].
  - destruct (prods s !! i) as [p|] eqn:E; [|done].
    pose proof (Forall_lookup_1 _ _ _ _ (phase_live _ _ _ _ Ht (run_phase _ Hr)) E) as Hc.
    unfold live in Hc. simpl in Hc. unfold kill_producer in Hst. rewrite Hc in Hst.
    by destruct (p_pc p).
  - destruct (conss s !! i) as [c|] eqn:E; [|done]. unfold flow_inv.
    by destruct (consumer_frame i c s s') as (-> & -> & _); [right|].
Qed.

Lemma reach_flow b s : time_limit cl = 0 -> reach pc_exec (pc_init b) s -> flow_inv s.
Proof.
  intros Ht Hs. induction Hs as [|l s s' Hs IH Hst].
  - unfold flow_inv, all_lines. simpl. by rewrite fmap_replicate.
  - eapply pc_exec_flow; [done| |done..]. by eapply reach_run_inv.
Qed.

(** ** Stuck states *)

Lemma ppc_beq_true a b : ppc_beq a b = true -> a = b.
Proof. by destruct a, b. Qed.

Lemma cpc_beq_true a b : cpc_beq a b = true -> a = b.
Proof. by destruct a, b. Qed.

Lemma stuck_nP pc s :
  (forall i p, prods s !! i = Some p -> p_pc p = pc -> producer i p s <> Blocked) ->
  stuck pc_exec s -> nP pc s = 0%nat.
Proof.
  intros Hn Hst. apply countb_zero. intros i p Hp.
  destruct (ppc_beq (p_pc p) pc) eqn:E; [|done].
  apply ppc_beq_true in E. specialize (Hst (LProd i)). simpl in Hst.
  rewrite Hp in Hst. by destruct (Hn i p Hp E).
Qed.

Lemma stuck_nC pc s :
  (forall i c, conss s !! i = Some c -> c_pc c = pc -> consumer i c s <> Blocked) ->
  stuck pc_exec s -> nC pc s = 0%nat.
Proof.
  intros Hn Hst. apply countb_zero. intros i c Hc.
  destruct (cpc_beq (c_pc c) pc) eqn:E; [|done].
  apply cpc_beq_true in E. specialize (Hst (LCons i)). simpl in Hst.
  rewrite Hc in Hst. by destruct (Hn i c Hc E).
Qed.

Lemma stuck_free `{!BoundedFifoLaws B string} cap q s :
  pc_inv cap q s -> stuck pc_exec s -> nP P_killed_mx s = 0%nat -> buffer_mx s = 1.
Proof.
  intros [Hr Hf Hm Hs Hpu Hpo Hct Hpt Hl Ho] Hst Hmx.
  assert (nP P_full s = 0 /\ nP P_unlock0 s = 0 /\ nP P_push s = 0 /\ nP P_post s = 0 /\
          nP P_unlock s = 0)%nat.
  { repeat split; apply stuck_nP; try done; intros i p Hp E; unfold producer; rewrite E; try done.
    - by rewrite (bf_full_ok _ _ _ Hr).
    - pose proof (nP_pos _ _ _ Hp) as Hpos. rewrite E in Hpos.
      destruct (bf_push_ok cap q (buf s) (p_line p)) as (b' & E' & Hr'); [done|lia|].
      by rewrite E'. }
  assert (nC C_empty s = 0 /\ nC C_unlock0 s = 0 /\ nC C_pop s = 0 /\ nC C_post s = 0 /\
          nC C_unlock s = 0)%nat.
  { repeat split; apply stuck_nC; try done; intros i c Hc E; unfold consumer; rewrite E; try done.
    - by rewrite (bf_empty_ok _ _ _ Hr).
    - pose proof (nC_pos _ _ _ Hc) as Hpos. rewrite E in Hpos.
      destruct q as [|x q]; [simpl in Hpo; lia|].
      destruct (bf_pop_ok cap x q (buf s)) as (b' & E' & Hr'); [done|].
      by rewrite E'. }
  unfold holders in Hm. lia.
Qed.

(** In a stuck state a producer waits only for room, a consumer only for
    lines, and those who wait have nothing to take. *)
Lemma stuck_prod `{!BoundedFifoLaws B string} cap q s i p :
  pc_inv cap q s -> stuck pc_exec s -> nP P_killed_mx s = 0%nat -> prods s !! i = Some p ->
  p_pc p = P_done \/ p_pc p = P_killed \/
  (p_pc p = P_wait /\ producer_line s = 0 /\ p_cancel p = false).
Proof.
  intros Hi Hst Hk Hp. pose proof (stuck_free _ _ _ Hi Hst Hk) as Hmx.
  pose proof (Hst (LKillP i)) as Hkill. simpl in Hkill. rewrite Hp in Hkill.
  unfold kill_producer in Hkill. specialize (Hst (LProd i)). simpl in Hst. rewrite Hp in Hst. unfold producer in Hst.
  pose proof (inv_sems _ _ _ Hi).
  destruct (p_pc p) eqn:E; auto; try done; rewrite ?Hmx in Hst; try done.
  - by destruct input.
  - destruct (p_file p) as [|raw file]; [done|]. by destruct (strip_line raw).
  - rewrite (bf_full_ok _ _ _ (inv_rep _ _ _ Hi)) in Hst. done.
  - destruct (Z.ltb_spec 0 (producer_line s)); [done|]. right; right. split; [done|].
    split; [lia|]. by destruct (p_cancel p).
  - pose proof (nP_pos _ _ _ Hp) as Hpos. rewrite E in Hpos.
    destruct (bf_push_ok cap q (buf s) (p_line p)) as (b' & E' & Hr').
    { apply (inv_rep _ _ _ Hi). }
    { destruct (inv_push _ _ _ Hi); lia. }
    by rewrite E' in Hst.
  - pose proof (nP_pos _ _ _ Hp) as Hpos. rewrite E in Hpos. lia.
Qed.

Lemma stuck_cons `{!BoundedFifoLaws B string} cap q s i c :
  pc_inv cap q s -> stuck pc_exec s -> nP P_killed_mx s = 0%nat -> conss s !! i = Some c ->
  c_pc c = C_killed \/ (c_pc c = C_wait /\ consumer_line s = 0 /\ c_cancel c = false).
Proof.
  intros Hi Hst Hk Hc. pose proof (stuck_free _ _ _ Hi Hst Hk) as Hmx.
  pose proof (Hst (LKillC i)) as Hkill. simpl in Hkill. rewrite Hc in Hkill.
  specialize (Hst (LCons i)). simpl in Hst. rewrite Hc in Hst.
  unfold consumer in Hst. unfold kill_consumer in Hkill.
  pose proof (inv_sems _ _ _ Hi).
  destruct (c_pc c) eqn:E; auto; try done; rewrite ?Hmx in Hst; try done.
  - rewrite (bf_empty_ok _ _ _ (inv_rep _ _ _ Hi)) in Hst. done.
  - destruct (Z.ltb_spec 0 (consumer_line s)); [done|]. right. split; [done|].
    split; [lia|]. by destruct (c_cancel c).
  - pose proof (nC_pos _ _ _ Hc) as Hpos. rewrite E in Hpos.
    destruct q as [|x q].
    { destruct (inv_pop _ _ _ Hi) as [?|H0]; [lia|simpl in H0; lia]. }
    destruct (bf_pop_ok cap x q (buf s) (inv_rep _ _ _ Hi)) as (b' & E' & Hr').
    by rewrite E' in Hst.
Qed.

(** A waiting producer means a full buffer, a waiting consumer an empty one. *)
Lemma stuck_wait `{!BoundedFifoLaws B string} cap q s :
  pc_inv cap q s -> stuck pc_exec s -> nP P_killed_mx s = 0%nat -> nP P_killed s = 0%nat ->
  (nP P_wait s = 0%nat \/ producer_line s <> 0 \/ Z.of_nat (length q) = cap) /\
  (nC C_wait s = 0%nat \/ consumer_line s <> 0 \/ q = []).
Proof.
  intros Hi Hst Hkm Hk. pose proof (stuck_free _ _ _ Hi Hst Hkm) as Hmx.
  pose proof (inv_mutex _ _ _ Hi) as Hm. unfold holders in Hm.
  pose proof (bf_rep_bound _ _ _ (inv_rep _ _ _ Hi)).
  assert (nP P_relock s = 0)%nat.
  { apply stuck_nP; [|done]. intros i p Hp E. unfold producer. by rewrite E, Hmx. }
  assert (nC C_relock s = 0)%nat.
  { apply stuck_nC; [|done]. intros i p Hp E. unfold consumer. by rewrite E, Hmx. }
  split.
  - destruct (inv_ptokens _ _ _ Hi); lia.
  - destruct (decide (q = [])) as [|Hq]; [auto|].
    assert (0 < length q)%nat by (destruct q; [done|simpl; lia]).
    destruct (inv_ctokens _ _ _ Hi); lia.
Qed.

(** When no thread can take a step the main thread has returned from [run]:
    those it would wait for have been cancelled, or nobody has been and then a
    producer waits for room in a full buffer while a consumer waits for lines in
    an empty one. *)
Lemma stuck_main `{!BoundedFifoLaws B string} cap q s :
  pc_inv cap q s -> run_inv s -> nP P_killed_mx s = 0%nat -> 0 < cap -> 0 < consumers cl ->
  stuck pc_exec s -> main s = M_done.
Proof.
  intros Hi [Hps Hcs Hnp Hnc Hph] Hmx Hcap Hc Hst.
  pose proof (Hst LMain) as Hmain. simpl in Hmain. unfold run_main in Hmain.
  destruct (runner _ _ _ _) as [[[m ps] cs]| |] eqn:E; try done.
  destruct (runner_blocked _ _ _ _ E) as [|[(i & p & Em & Hp & Hf)|(i & c & Em & Hcc & Hf)]];
    [done|exfalso..]; rewrite Em in Hph; simpl in Hph.
  - destruct Hph as (Hfl & Hcl & _).
    assert (p_pc p = P_wait /\ producer_line s = 0 /\ p_cancel p = false) as (E1 & Hpl & Hnot).
    { simpl in Hf. unfold p_finished in Hf.
      by destruct (stuck_prod cap q s i p Hi Hst Hmx Hp) as [E1|[E1|?]]; [rewrite E1 in Hf..|]. }
    destruct (Z.eqb_spec (time_limit cl) 0) as [Ht|Ht];
      [|pose proof (Forall_lookup_1 _ _ _ _ Hfl Hp) as Hx; unfold cancelled in Hx; simpl in Hx; congruence].
    destruct (lookup_lt_is_Some_2 (conss s) 0) as [c Hcn]; [lia|].
    destruct (stuck_cons cap q s 0 c Hi Hst Hmx Hcn) as [E2|(E2 & Hcn0 & _)].
    { assert (cancelled c) as Hx.
      { apply (Forall_lookup_1 _ _ _ _ Hcs Hcn). unfold finished. simpl. unfold c_finished.
        by rewrite E2. }
      pose proof (Forall_lookup_1 _ _ _ _ Hcl Hcn) as Hy. unfold live in Hy. by rewrite Hx in Hy. }
    pose proof (nP_pos _ _ _ Hp) as Hpp. pose proof (nC_pos _ _ _ Hcn) as Hcp.
    rewrite E1 in Hpp. rewrite E2 in Hcp.
    assert (nP P_killed s = 0%nat) as Hk.
    { apply countb_zero. intros j p' Hj.
      pose proof (Forall_lookup_1 _ _ _ _ Hps Hj) as Hx. unfold prod_ok in Hx.
      pose proof (Forall_lookup_1 _ _ _ _ Hfl Hj) as Hy. unfold live in Hy.
      destruct p' as [[] ? ? ?]; try done. unfold cancelled in Hx. simpl in *. congruence. }
    destruct (stuck_wait cap q s Hi Hst Hmx Hk) as [Hwp Hwc].
    destruct Hwp as [?|[?|Hq]]; [lia|lia|]. destruct Hwc as [?|[?|Hq']]; [lia|lia|].
    subst q. simpl in Hq. lia.
  - destruct Hph as (_ & _ & Hcl & _).
    pose proof (Forall_lookup_1 _ _ _ _ Hcl Hcc) as Hx. unfold cancelled in Hx. simpl in Hx.
    destruct (stuck_cons cap q s i c Hi Hst Hmx Hcc) as [E1|(E1 & _ & Hn)]; [|congruence].
    simpl in Hf. unfold c_finished in Hf. by rewrite E1 in Hf.
Qed.

(** ** Properties *)

(** C1.  In every interleaving of the producers, the consumers, the main
    thread and their cancellations: no call on the buffer is undefined and no
    consumer uses a line it did not get; at most one thread is inside the
    section that [buffer_mx] protects; the buffer holds, in FIFO order, what
    was pushed and not yet popped, never more than its capacity; every popped
    line is in the hand of exactly one consumer or has been dealt with, once;
    and what has been printed is the dealt-with lines that pass
    [cl_shouldprint], in the order they were dealt with. *)
Theorem sem_interleavings_safe `{!BoundedFifoLaws B string} cap b s
  (Hb : bf_rep cap [] b) (Hs : reach pc_exec (pc_init b) s) :
  safe pc_exec s /\ (holders s <= 1)%nat /\
  exists q,
    bf_rep cap q (buf s) /\ Z.of_nat (length q) <= cap /\
    pushed s = popped s ++ q /\
    popped s ≡ₚ consumed s ++ concat (map in_hand (conss s)) /\
    out s = List.filter (cl_shouldprint cl) (consumed s).
Proof.
  destruct (pc_reach_inv cap b s Hb Hs) as [q Hi].
  split; [by eapply pc_inv_safe|]. destruct Hi as [Hr Hf Hm Hsm _ _ _ _ Hl Ho].
  split; [lia|]. exists q. by pose proof (bf_rep_bound _ _ _ Hr).
Qed.

(** Without a time limit, or without messages, and with at least one
    consumer and room for at least one line, the program cannot deadlock: a
    reachable state in which no thread can take a step is one where the main
    thread has returned from [run], with every producer finished (or, with a time
    limit, cancelled) and every consumer cancelled. *)
Theorem sem_no_deadlock `{!BoundedFifoLaws B string} cap b s
  (Hb : bf_rep cap [] b) (Hcap : 0 < cap) (Hq : verbose cl = 0 \/ time_limit cl = 0)
  (Hc : 0 < consumers cl) (Hs : reach pc_exec (pc_init b) s) (Hst : stuck pc_exec s) :
  main s = M_done /\
  Forall (fun p => p_pc p = P_done \/ (time_limit cl <> 0 /\ p_pc p = P_killed)) (prods s) /\
  Forall (fun c => c_pc c = C_killed) (conss s).
Proof.
  destruct (pc_reach_inv cap b s Hb Hs) as [q Hi].
  pose proof (reach_run_inv b s Hs) as Hr. pose proof (mx_not_lost s Hr Hq) as Hmx.
  assert (main s = M_done) as Hm by (by eapply stuck_main).
  split; [done|]. destruct Hr as [Hps _ _ _ Hph]. rewrite Hm in Hph.
  destruct Hph as (Hfl & Hfp & _ & Hfc). split.
  - apply Forall_lookup. intros i p Hp.
    pose proof (Forall_lookup_1 _ _ _ _ Hfp Hp) as Hfin.
    destruct (stuck_prod cap q s i p Hi Hst Hmx Hp) as [E|[E|(E & _)]]; [by left| |].
    + right. split; [|done]. intros Ht. rewrite Ht in Hfl.
      pose proof (Forall_lookup_1 _ _ _ _ Hfl Hp) as Hl.
      pose proof (Forall_lookup_1 _ _ _ _ Hps Hp) as Hok. unfold prod_ok in Hok. rewrite E in Hok.
      unfold cancelled, live in *. simpl in *. congruence.
    + unfold finished in Hfin. simpl in Hfin. unfold p_finished in Hfin. by rewrite E in Hfin.
  - apply (Forall_impl _ _ _ Hfc). intros c. unfold finished. simpl. unfold c_finished.
    by destruct (c_pc c).
Qed.

(** When [run] has returned, without a time limit, the lines of the
    input (once per producer) are, as multisets, those popped and those left
    in the buffer: with an empty buffer the output is exactly the lines that
    pass [cl_shouldprint], and what is missing from it is what was left. *)
Theorem sem_output_complete `{!BoundedFifoLaws B string} cap b s
  (Hb : bf_rep cap [] b) (Ht : time_limit cl = 0)
  (Hs : reach pc_exec (pc_init b) s) (Hdone : main s = M_done) :
  exists left,
    bf_rep cap left (buf s) /\
    out s ++ List.filter (cl_shouldprint cl) left
      ≡ₚ List.filter (cl_shouldprint cl) all_lines.
Proof.
  destruct (pc_reach_inv cap b s Hb Hs) as [q [Hr Hf _ _ _ _ _ _ Hl Ho]].
  pose proof (reach_flow b s Ht Hs) as Hpd. unfold flow_inv in Hpd.
  pose proof (run_phase _ (reach_run_inv b s Hs)) as Hm. rewrite Hdone in Hm.
  destruct Hm as (_ & Hfp & _ & Hfc). exists q. split; [done|].
  assert (concat (map pending (prods s)) = []) as Ep.
  { apply concat_map_nil, (Forall_impl _ _ _ Hfp). intros p Hp.
    unfold finished in Hp. simpl in Hp. unfold p_finished in Hp. unfold pending.
    by destruct (p_pc p). }
  assert (concat (map in_hand (conss s)) = []) as Ec.
  { apply concat_map_nil, (Forall_impl _ _ _ Hfc). intros c Hc.
    unfold finished in Hc. simpl in Hc. unfold c_finished in Hc. unfold in_hand.
    by destruct (c_pc c). }
  rewrite Ep, app_nil_r in Hpd. rewrite Ec, app_nil_r in Hl.
  rewrite Ho, <- List.filter_app. apply filter_perm.
  by rewrite <- Hpd, Hf, Hl.
Qed.
End ProdCons.
Arguments pcst B : clear implicits.

(** ** The programs over the ring buffer *)

Definition demo_cl : Cl.cl := Cl 1 1 1 "input" (-1) GT 0 0 0.

(** The initial state of main-sem for [demo_cl]. *)
Definition demo_ring : ring string := Ring (Some [""%string]) 1 0 0.

(** The schedule of a run that loses its only line: the consumer finds the
    buffer empty and releases [buffer_mx]; the producer then pushes its line and
    ends; main joins it and cancels the consumer, which acts on the cancellation
    when it calls [sem_wait(&consumer_line)]. *)
Definition losing_schedule : list pc_label :=
  [LCons 0; LCons 0; LCons 0; LCons 0;
   LProd 0; LProd 0; LProd 0; LProd 0; LProd 0; LProd 0; LProd 0; LProd 0;
   LMain; LMain; LMain; LMain; LMain; LKillC 0; LMain; LMain].

(** A line can be lost without a time limit: with one producer, one
    consumer and a file of one line that should be printed, there is a run of
    the program that ends normally, with the line still in the buffer and nothing
    printed. *)
Theorem sem_can_lose_a_line :
  exists s,
    reach (pc_exec demo_cl (Some ["hello"%string])) (pc_init demo_cl demo_ring) s /\
    main s = M_done /\ cl_shouldprint demo_cl "hello" = true /\
    pushed s = ["hello"%string] /\ out s = [].
Proof.
  destruct (run (pc_exec demo_cl (Some ["hello"%string])) losing_schedule
              (pc_init demo_cl demo_ring)) as [s|] eqn:E; [|by vm_compute in E].
  exists s. split; [by eapply run_reachable|].
  vm_compute in E. by injection E as <-.
Qed.

(** The configuration with a time limit and messages. *)
Definition timed_cl : Cl.cl := Cl 1 1 1 "input" (-1) GT 1 1 0.

(** The time is up while the producer writes its message about the line it has
    pushed: it is cancelled there and never releases [buffer_mx]. *)
Definition hanging_schedule : list pc_label :=
  [LCons 0; LProd 0; LProd 0; LProd 0; LProd 0; LProd 0; LProd 0;
   LMain; LMain; LMain; LMain; LMain; LKillP 0; LMain; LMain].

(** With a time limit and messages the program can hang: there is a run
    that ends in a state where no thread can take a step and the main thread still
    waits for the consumer, because the only producer was cancelled while it
    held [buffer_mx]. *)
Theorem sem_cancelled_holding_mutex :
  exists s,
    reach (pc_exec timed_cl (Some ["hello"%string])) (pc_init timed_cl demo_ring) s /\
    stuck (pc_exec timed_cl (Some ["hello"%string])) s /\
    main s = M_join_consumers 0 /\ buffer_mx s = 0 /\
    prods s = [Prod P_killed_mx [] "hello" true].
Proof.
  destruct (run (pc_exec timed_cl (Some ["hello"%string])) hanging_schedule
              (pc_init timed_cl demo_ring)) as [s|] eqn:E; [|by vm_compute in E].
  exists s. split; [by eapply run_reachable|].
  vm_compute in E. injection E as <-. split; [|done].
  intros [[|i]|[|i]| |[|i]|[|i]]; by vm_compute.
Qed.

(** ** The theorems at a concrete run *)

(** A complete run: the consumer waits first, then the producer's line wakes
    it; the line is printed and both threads end. *)
Definition demo_schedule : list pc_label :=
  [LCons 0; LCons 0; LCons 0; LCons 0;
   LProd 0; LProd 0; LProd 0; LProd 0; LProd 0; LProd 0; LProd 0; LProd 0;
   LMain; LMain; LMain;
   LCons 0; LCons 0; LCons 0; LCons 0; LCons 0; LCons 0; LCons 0;
   LCons 0; LCons 0; LCons 0;
   LMain; LMain; LKillC 0; LMain; LMain].

Definition demo_input : option (list string) := Some ["hello"%string].
Definition demo_end : pcst (ring string) :=
  match run (pc_exec demo_cl demo_input) demo_schedule (pc_init demo_cl demo_ring) with
  | Some s => s
  | None => pc_init demo_cl demo_ring
  end.

Lemma demo_rep : ring_rep 1 [] demo_ring.
Proof.
  exists [""%string]. unfold ring_cap_max. simpl. repeat split; try lia.
  intros k x. by rewrite lookup_nil.
Qed.

Lemma demo_reach : reach (pc_exec demo_cl demo_input) (pc_init demo_cl demo_ring) demo_end.
Proof. apply (run_reachable _ _ demo_schedule). by vm_compute. Qed.

Lemma demo_stuck : stuck (pc_exec demo_cl demo_input) demo_end.
Proof. intros [[|i]|[|i]| |[|i]|[|i]]; by vm_compute. Qed.

Lemma sem_interleavings_safe_witness :
  safe (pc_exec demo_cl demo_input) demo_end /\ (holders demo_end <= 1)%nat.
Proof.
  destruct (sem_interleavings_safe (BF := ring_fifo) demo_cl demo_input 1 demo_ring demo_end demo_rep demo_reach)
    as (Hsafe & Hh & _).
  exact (conj Hsafe Hh).
Defined.

Lemma sem_no_deadlock_witness : main demo_end = M_done.
Proof.
  apply (sem_no_deadlock (BF := ring_fifo) demo_cl demo_input 1 demo_ring demo_end demo_rep);
    [lia|left; reflexivity|reflexivity|exact demo_reach|exact demo_stuck].
Defined.

Lemma sem_output_complete_witness :
  exists left : list string,
    ring_rep 1 left (buf demo_end) /\
    out demo_end ++ List.filter (cl_shouldprint demo_cl) left ≡ₚ ["hello"%string].
Proof.
  exact (sem_output_complete (BF := ring_fifo) demo_cl demo_input 1 demo_ring demo_end demo_rep
           eq_refl demo_reach eq_refl).
Defined.
