(* ===== verification/ProdConsLive.v ===== *)
(** The program of cw09/zad1/src/main-sem.c always comes to an end: a measure
    of what the threads of [ProdConsSem] have still to do, which every step
    makes smaller, whatever the interleaving, the cancellations and the time
    limit.  (With condition variables, [ProdConsMon], a wait may end by itself
    any number of times.) *)
From S2P Require Import Prelude Fifo RingBuffer CString Cl Runner ProdConsSem.
#[local] Open Scope Z_scope.

Section Live.
Context {B : Type} `{BF : BoundedFifo B string} (cl : cl) (input : option (list string)).

Local Abbreviation exec := (pc_exec cl input).

(** Lines of the file. *)
Definition file_lines : Z := match input with Some l => Z.of_nat (length l) | None => 0 end.

(** The steps a producer has still to make; a line costs up to 22, with what
    it makes others do: 10 for a line in the buffer, 4 for each post. *)
Definition p_rank (p : prod_t) : Z :=
  let n := Z.of_nat (length (p_file p)) in
  match p_pc p with
  | P_start => 22 * file_lines + 3
  | P_getline => 22 * n + 2
  | P_unlock => 22 * n + 3
  | P_post => 22 * n + 8
  | P_push => 22 * n + 19
  | P_wait => 22 * n + 19
  | P_unlock0 => 22 * n + 20
  | P_full => 22 * n + 21
  | P_lock | P_relock => 22 * n + 22
  | P_done | P_killed | P_killed_mx => 0
  end.

Definition c_rank (c : cons_t) : Z :=
  match c_pc c with
  | C_start => 7
  | C_lock | C_relock => 6
  | C_empty => 5
  | C_unlock0 => 4
  | C_wait => 3
  | C_pop => 4
  | C_post => 13
  | C_unlock => 8
  | C_print => 7
  | C_killed => 0
  end.

(** The steps of the main thread, with [P] producers and [C] consumers. *)
Definition m_rank (P C : Z) (m : mpc) : Z :=
  match m with
  | M_start => 2 * P + 2 * C + 6
  | M_cancel_producers i => 2 * P + 2 * C + 5 - Z.of_nat i
  | M_cancel_consumers i => (if time_limit cl =? 0 then 2 * C + 3 else P + 2 * C + 4) - Z.of_nat i
  | M_join_producers i => (if time_limit cl =? 0 then P + 2 * C + 4 else P + C + 3) - Z.of_nat i
  | M_join_consumers i => C + 2 - Z.of_nat i
  | M_done => 0
  end.

Definition work (s : pcst B) : Z :=
  sumz p_rank (prods s) + sumz c_rank (conss s) +
  4 * producer_line s + 4 * consumer_line s +
  10 * (Z.of_nat (length (pushed s)) - Z.of_nat (length (popped s))) +
  m_rank (Z.of_nat (length (prods s))) (Z.of_nat (length (conss s))) (main s).

(** The main thread's loops stay within the arrays. *)
Definition index_ok (s : pcst B) : Prop :=
  match main s with
  | M_cancel_producers i | M_join_producers i => (i <= length (prods s))%nat
  | M_cancel_consumers i | M_join_consumers i => (i <= length (conss s))%nat
  | _ => True
  end.

Lemma p_rank_nonneg p : 0 <= p_rank p.
Proof. unfold p_rank, file_lines. destruct (p_pc p), input; lia. Qed.

Lemma c_rank_nonneg c : 0 <= c_rank c.
Proof. unfold c_rank. destruct (c_pc c); lia. Qed.

Lemma m_rank_nonneg s : index_ok s -> 0 <= m_rank (Z.of_nat (length (prods s))) (Z.of_nat (length (conss s))) (main s).
Proof. unfold index_ok, m_rank. destruct (main s), (time_limit cl =? 0); lia. Qed.

(** Nothing is owed. *)
Lemma work_nonneg cap q s : pc_inv cl cap q s -> index_ok s -> 0 <= work s.
Proof.
  intros Hi Hx. pose proof (m_rank_nonneg s Hx). pose proof (inv_sems _ _ _ _ Hi) as (_ & H1 & H2).
  pose proof (sumz_nonneg p_rank (prods s) p_rank_nonneg). pose proof (sumz_nonneg c_rank (conss s) c_rank_nonneg).
  unfold work. rewrite (inv_fifo _ _ _ _ Hi), length_app. lia.
Qed.

(** A thread that goes on. *)
Lemma work_prod i p p' s : prods s !! i = Some p -> work (set_prod i p' s) = work s - p_rank p + p_rank p'.
Proof. intros Hp. unfold work, set_prod. cbn [prods conss producer_line consumer_line pushed popped main]. rewrite (sumz_insert _ _ _ _ p' Hp), length_insert. lia. Qed.

Lemma work_cons i c c' s : conss s !! i = Some c -> work (set_cons i c' s) = work s - c_rank c + c_rank c'.
Proof. intros Hc. unfold work, set_cons. cbn [prods conss producer_line consumer_line pushed popped main]. rewrite (sumz_insert _ _ _ _ c' Hc), length_insert. lia. Qed.

Lemma work_sems s mx pl cnl : work (set_sems mx pl cnl s) = work s + 4 * (pl - producer_line s) + 4 * (cnl - consumer_line s).
Proof. unfold work, set_sems. cbn [prods conss producer_line consumer_line pushed popped main]. lia. Qed.

Lemma work_push b x s : work (do_push b x s) = work s + 10.
Proof. unfold work, do_push. cbn [prods conss producer_line consumer_line pushed popped main]. rewrite length_app. cbn [length]. lia. Qed.

Lemma work_pop b x s : work (do_pop b x s) = work s - 10.
Proof. unfold work, do_pop. cbn [prods conss producer_line consumer_line pushed popped main]. rewrite length_app. cbn [length]. lia. Qed.

Lemma work_print x s : work (do_print cl x s) = work s.
Proof. done. Qed.

Ltac works := rewrite ?work_push, ?work_pop, ?work_print; unfold set_mx, set_pl, set_cnl; rewrite ?work_sems; cbn [prods conss producer_line consumer_line pushed popped main].

Lemma producer_works i p s s' : prods s !! i = Some p -> producer input i p s = Step s' -> work s' < work s.
Proof.
  intros Hp Hst. destruct p as [pc file line cn]. unfold producer, on_buf in Hst. cbn in Hst.
  destruct pc; cbn in Hst; repeat case_match; simplify_eq; (erewrite work_prod by exact Hp); works;
    unfold p_rank, goto_p, file_lines; cbn [p_pc p_file length];
    repeat match goal with H : input = _ |- _ => rewrite H end; lia.
Qed.

Lemma consumer_works i c s s' : conss s !! i = Some c -> consumer cl i c s = Step s' -> work s' < work s.
Proof.
  intros Hc Hst. destruct c as [pc line cn]. unfold consumer, on_buf in Hst. cbn in Hst.
  destruct pc; cbn in Hst; repeat case_match; simplify_eq; (erewrite work_cons by exact Hc); works;
    unfold c_rank, goto_c; cbn [c_pc]; lia.
Qed.

(** Cancellation ends a thread. *)
Lemma kill_works l s s' :
  match l with LKillP _ | LKillC _ => True | _ => False end -> exec l s = Step s' -> work s' < work s.
Proof.
  intros Hl Hst. destruct l as [i|i| |i|i]; try done; cbn in Hst.
  - destruct (prods s !! i) as [p|] eqn:Hp; [|done]. unfold kill_producer in Hst.
    destruct p as [pc file line cn]. destruct pc; cbn in Hst; repeat case_match; simplify_eq;
      (erewrite work_prod by exact Hp); unfold p_rank, goto_p, file_lines; cbn; repeat case_match; lia.
  - destruct (conss s !! i) as [c|] eqn:Hc; [|done]. unfold kill_consumer in Hst.
    destruct c as [pc line cn]. destruct pc; cbn in Hst; repeat case_match; simplify_eq;
      (erewrite work_cons by exact Hc); unfold c_rank, goto_c; cbn; lia.
Qed.

Lemma run_main_works s s' : index_ok s -> run_main cl s = Step s' -> work s' < work s /\ index_ok s'.
Proof.
  intros Hx Hst. unfold run_main in Hst. destruct (runner _ _ _ _) as [[[m ps] cs]| |] eqn:E; simplify_eq.
  assert (sumz p_rank ps = sumz p_rank (prods s) /\ sumz c_rank cs = sumz c_rank (conss s) /\
    length ps = length (prods s) /\ length cs = length (conss s)) as (E1 & E2 & E3 & E4).
  { destruct (runner_changes _ _ _ _ _ _ _ E) as [[-> ->]|[(i & p & Hp & -> & ->)|(i & c & Hc & -> & ->)]]; [done|..].
    - rewrite (sumz_insert _ _ _ _ _ Hp), length_insert. split; [|done]. change (p_rank (w_cancel p)) with (p_rank p). lia.
    - rewrite (sumz_insert _ _ _ _ _ Hc), length_insert. split; [done|]. split; [|done]. change (c_rank (w_cancel c)) with (c_rank c). lia. }
  unfold work, set_run, index_ok. cbn [prods conss producer_line consumer_line pushed popped main]. rewrite E1, E2, E3, E4.
  unfold index_ok, runner in *. destruct (main s) as [|i|i|i|i|]; unfold m_rank; destruct (Z.eqb_spec (time_limit cl) 0);
    repeat case_match; simplify_eq; rewrite ?length_insert in *;
    repeat match goal with
    | H : _ !! _ = Some _ |- _ => apply lookup_lt_Some in H
    | H : _ !! _ = None |- _ => apply lookup_ge_None in H
    end; split; try done; lia.
Qed.

Lemma exec_works l s s' : index_ok s -> exec l s = Step s' -> work s' < work s /\ index_ok s'.
Proof.
  assert (forall i p, producer input i p s = Step s' \/ kill_producer cl i p s = Step s' -> index_ok s -> index_ok s') as HP.
  { intros i p H. destruct (producer_frame _ _ _ _ _ _ H) as (Ec & Em & _ & p' & Ep & _). unfold index_ok.
    by rewrite Ec, Em, Ep, length_insert. }
  assert (forall i c, consumer cl i c s = Step s' \/ kill_consumer cl i c s = Step s' -> index_ok s -> index_ok s') as HC.
  { intros i c H. destruct (consumer_frame _ _ _ _ _ H) as (Ep & _ & Em & _ & c' & Ec & _). unfold index_ok.
    by rewrite Ec, Em, Ep, length_insert. }
  intros Hx Hst. destruct l as [i|i| |i|i]; [| |by apply run_main_works| |]; split;
    try (by eapply kill_works; [|exact Hst]); cbn in Hst;
    lazymatch type of Hst with match ?x with _ => _ end = _ => destruct x eqn:Hl; [|done] end; eauto using producer_works, consumer_works.
Qed.

Lemma run_works ls s s' : index_ok s -> run exec ls s = Some s' -> Z.of_nat (length ls) + work s' <= work s /\ index_ok s'.
Proof.
  revert s. induction ls as [|l ls IH]; intros s Hx H; simplify_eq/=; [split; [lia|done]|].
  destruct (exec l s) as [s1| |] eqn:E; try done. destruct (exec_works _ _ _ Hx E) as [Hw Hx1].
  destruct (IH s1 Hx1 H) as [? ?]. split; [lia|done].
Qed.

Lemma sumz_replicate {A} (f : A -> Z) n x : sumz f (replicate n x) = Z.of_nat n * f x.
Proof. induction n as [|n IH]; [done|]. cbn [replicate]. rewrite sumz_cons, IH. lia. Qed.

Lemma work_start b : let P := Z.max 0 (producers cl) in let C := Z.max 0 (consumers cl) in
  work (pc_init cl b) = P * (22 * file_lines + 5) + 9 * C + 6.
Proof.
  intros P C. unfold work, pc_init. cbn [prods conss producer_line consumer_line pushed popped main length].
  rewrite !sumz_replicate, !length_replicate. unfold p_rank, c_rank, m_rank. cbn [p_pc c_pc p_file]. nia.
Qed.

(** The program with semaphores comes to its end: whatever the order of
    the steps, the time limit and the cancellations, a run has at most 22 steps
    for each line of each producer, and 5, 9 and 6 for a producer, a consumer
    and the rest.  If moreover there is a consumer and room for a line, and no
    time limit or no messages, then when no thread can go on [run] has returned,
    with the producers finished (or cancelled, at the time limit) and the
    consumers cancelled. *)
Theorem sem_terminates `{!BoundedFifoLaws B string} cap b ls s
  (Hb : bf_rep cap [] b) (Hrun : run exec ls (pc_init cl b) = Some s) :
  Z.of_nat (length ls) <= Z.max 0 (producers cl) * (22 * file_lines + 5) + 9 * Z.max 0 (consumers cl) + 6 /\
  (0 < cap -> verbose cl = 0 \/ time_limit cl = 0 -> 0 < consumers cl -> stuck exec s ->
   main s = M_done /\
   Forall (fun p => p_pc p = P_done \/ (time_limit cl <> 0 /\ p_pc p = P_killed)) (prods s) /\
   Forall (fun c => c_pc c = C_killed) (conss s)).
Proof.
  assert (reach exec (pc_init cl b) s) as Hr by by eapply run_reachable.
  destruct (run_works ls (pc_init cl b) s I Hrun) as [Hw Hx]. rewrite work_start in Hw.
  destruct (pc_reach_inv _ _ cap b s Hb Hr) as [q Hi]. pose proof (work_nonneg cap q s Hi Hx). split; [lia|].
  intros Hcap Hq Hc Hst. by apply (sem_no_deadlock cl input cap b).
Qed.
End Live.

(** The run of [ProdConsSem] again. *)
Lemma demo_run : run (pc_exec demo_cl demo_input) demo_schedule (pc_init demo_cl demo_ring) = Some demo_end.
Proof. vm_compute. reflexivity. Qed.

Lemma sem_terminates_witness :
  Z.of_nat (length demo_schedule) <= 42 /\ main demo_end = M_done.
Proof.
  pose proof (sem_terminates (BF := ring_fifo) demo_cl demo_input 1 demo_ring demo_schedule demo_end demo_rep demo_run) as H.
  split; [exact (proj1 H)|]. apply (proj2 H); [lia|left; reflexivity|reflexivity|exact demo_stuck].
Defined.
