(* ===== verification/ProdConsMon.v ===== *)
(** The producers and consumers of cw09/zad1/src/main-monitor.c, with the main
    thread of runner.c ([Runner]): a monitor of one mutex and two condition
    variables around any implementation of [BoundedFifo].

    [pthread_cond_wait] is three calls: [_cond_wait] releases the mutex and
    starts to wait, [_waiting] lasts until a signal (or nothing at all: POSIX
    lets a wait end by itself), [_relock] takes the mutex again.  A thread
    cancelled while it waits takes the mutex, and releases it in [unlock_mx]. *)
From S2P Require Import Prelude Fifo RingBuffer CString Cl Runner.
#[local] Open Scope Z_scope.

(** Where a producer is, named by the call it makes next. *)
Inductive ppc :=
  | P_start      (* usleep; fopen(cl.filename, "r") *)
  | P_getline    (* sleep; getline, strtok *)
  | P_testcancel (* pthread_testcancel() *)
  | P_lock       (* pthread_mutex_lock(&buffer_mx) *)
  | P_push       (* while (buffer_push(line) != 0) *)
  | P_cond_wait  (* log_producer; pthread_cond_wait(&producer_line, &buffer_mx) *)
  | P_waiting
  | P_relock
  | P_signal     (* log_producer; pthread_cond_signal(&consumer_line) *)
  | P_unlock     (* pthread_mutex_unlock(&buffer_mx) *)
  | P_done       (* returned *)
  | P_cancelled  (* cancelled while waiting: takes the mutex *)
  | P_cleanup    (* unlock_mx *)
  | P_killed     (* cancelled *)
  | P_killed_mx. (* cancelled while it holds buffer_mx *)

Inductive cpc :=
  | C_start      (* usleep; pthread_setcancelstate(PTHREAD_CANCEL_DISABLE) *)
  | C_lock | C_pop | C_cond_wait | C_waiting | C_relock | C_signal | C_unlock
  | C_print      (* if (cl_shouldprint(&cl, line)) printf; sleep; free(line) *)
  | C_cancelled | C_cleanup | C_killed.

Scheme Boolean Equality for ppc.
Scheme Boolean Equality for cpc.
#[export] Instance ppc_eq_dec : EqDecision ppc.
Proof. solve_decision. Defined.

Record prod_t := Prod { p_pc : ppc; p_file : list string; p_line : string; p_cancel : bool }.
Record cons_t := Cons { c_pc : cpc; c_line : string; c_cancel : bool }.

Definition p_finished (p : prod_t) : bool :=
  match p_pc p with P_done | P_killed | P_killed_mx => true | _ => false end.
Definition c_finished (c : cons_t) : bool :=
  match c_pc c with C_killed => true | _ => false end.

#[export] Instance prod_worker : Worker prod_t := {
  w_finished := p_finished;
  w_cancelled := p_cancel;
  w_cancel p := Prod (p_pc p) (p_file p) (p_line p) true;
}.
#[export] Instance cons_worker : Worker cons_t := {
  w_finished := c_finished;
  w_cancelled := c_cancel;
  w_cancel c := Cons (c_pc c) (c_line c) true;
}.
#[export] Instance prod_worker_laws : WorkerLaws prod_t.
Proof. by split; intros []. Qed.
#[export] Instance cons_worker_laws : WorkerLaws cons_t.
Proof. by split; intros []. Qed.

Definition waiting_p (p : prod_t) : bool := ppc_beq (p_pc p) P_waiting.
Definition waiting_c (c : cons_t) : bool := cpc_beq (c_pc c) C_waiting.

(** Thread [i] takes its next step; if that is a signal, it wakes thread [j] of
    those that wait.  [LSpurP]/[LSpurC]: a wait ends without a signal.
    [LKillP]/[LKillC]: a thread acts on its cancellation. *)
Inductive pc_label :=
  | LProd (i j : nat) | LCons (i j : nat) | LMain
  | LKillP (i : nat) | LKillC (i : nat) | LSpurP (i : nat) | LSpurC (i : nat).

Definition spurious (l : pc_label) : bool :=
  match l with LSpurP _ | LSpurC _ => true | _ => false end.

Section Monitor.
Context {B : Type} `{BF : BoundedFifo B string}.
Context (cl : cl).
(** The lines of [cl.filename], if it can be opened. *)
Context (input : option (list string)).

Record pcst := PcSt {
  locked : bool;           (* buffer_mx *)
  buf : B;
  prods : list prod_t;
  conss : list cons_t;
  main : mpc;
  out : list string;       (* what the consumers have printed *)
  pushed : list string;    (* history: the lines pushed, oldest first *)
  popped : list string;    (* history: the lines popped, oldest first *)
  consumed : list string;  (* history: the lines a consumer is done with *)
}.

Definition set_mx l s :=
  PcSt l (buf s) (prods s) (conss s) (main s) (out s) (pushed s) (popped s) (consumed s).
Definition set_prod i p s :=
  PcSt (locked s) (buf s) (<[i := p]> (prods s)) (conss s) (main s) (out s) (pushed s)
    (popped s) (consumed s).
Definition set_cons i c s :=
  PcSt (locked s) (buf s) (prods s) (<[i := c]> (conss s)) (main s) (out s) (pushed s)
    (popped s) (consumed s).
Definition set_run m ps cs s :=
  PcSt (locked s) (buf s) ps cs m (out s) (pushed s) (popped s) (consumed s).
Definition do_push b x s :=
  PcSt (locked s) b (prods s) (conss s) (main s) (out s) (pushed s ++ [x]) (popped s) (consumed s).
Definition do_pop b x s :=
  PcSt (locked s) b (prods s) (conss s) (main s) (out s) (pushed s) (popped s ++ [x]) (consumed s).
Definition do_print x s :=
  PcSt (locked s) (buf s) (prods s) (conss s) (main s)
    (if cl_shouldprint cl x then out s ++ [x] else out s) (pushed s) (popped s)
    (consumed s ++ [x]).

Definition goto_p (p : prod_t) (pc : ppc) : prod_t := Prod pc (p_file p) (p_line p) (p_cancel p).
Definition goto_c (c : cons_t) (pc : cpc) : cons_t := Cons pc (c_line c) (c_cancel c).

(** [pthread_cond_signal]: if threads wait, one of them, [j], goes on. *)
Definition signal_consumer (j : nat) (s : pcst) : sres pcst :=
  if existsb waiting_c (conss s) then
    match conss s !! j with
    | Some c => if waiting_c c then Step (set_cons j (goto_c c C_relock) s) else Blocked
    | None => Blocked
    end
  else Step s.
Definition signal_producer (j : nat) (s : pcst) : sres pcst :=
  if existsb waiting_p (prods s) then
    match prods s !! j with
    | Some p => if waiting_p p then Step (set_prod j (goto_p p P_relock) s) else Blocked
    | None => Blocked
    end
  else Step s.

(** [pthread_mutex_lock], then on to [k]. *)
Definition lock (s : pcst) (k : pcst -> pcst) : sres pcst :=
  if locked s then Blocked else Step (k (set_mx true s)).

(** The result of a call on the buffer. *)
Definition on_buf {A} (o : outcome B A) (k : A -> B -> sres pcst) : sres pcst :=
  match o with Done a b => k a b | Undef u => Fault u | _ => Blocked end.

(** The loop of [producer], one call at a time. *)
Definition producer (i j : nat) (p : prod_t) (s : pcst) : sres pcst :=
  match p_pc p with
  | P_start =>
      match input with
      | None => Step (set_prod i (goto_p p P_done) s)
      | Some lines => Step (set_prod i (Prod P_getline lines (p_line p) (p_cancel p)) s)
      end
  | P_getline =>
      match p_file p with
      | [] => Step (set_prod i (goto_p p P_done) s)
      | raw :: file =>
          match strip_line raw with
          | None => Step (set_prod i (Prod P_getline file (p_line p) (p_cancel p)) s)
          | Some line => Step (set_prod i (Prod P_testcancel file line (p_cancel p)) s)
          end
      end
  | P_testcancel => if p_cancel p then Blocked else Step (set_prod i (goto_p p P_lock) s)
  | P_lock => lock s (set_prod i (goto_p p P_push))
  | P_push =>
      on_buf (bf_push (p_line p) (buf s)) (fun r b =>
        if r =? 0 then Step (set_prod i (goto_p p P_signal) (do_push b (p_line p) s))
        else Step (set_prod i (goto_p p P_cond_wait) s))
  | P_cond_wait => Step (set_prod i (goto_p p P_waiting) (set_mx false s))
  | P_relock => lock s (set_prod i (goto_p p P_push))
  | P_signal => signal_consumer j (set_prod i (goto_p p P_unlock) s)
  | P_unlock => Step (set_prod i (goto_p p P_getline) (set_mx false s))
  | P_cancelled => lock s (set_prod i (goto_p p P_cleanup))
  | P_cleanup => Step (set_prod i (goto_p p P_killed) (set_mx false s))
  | P_waiting | P_done | P_killed | P_killed_mx => Blocked
  end.

(** The loop of [consumer]; [buffer_pop] leaves [line] alone when it fails. *)
Definition consumer (i j : nat) (c : cons_t) (s : pcst) : sres pcst :=
  match c_pc c with
  | C_start => Step (set_cons i (goto_c c C_lock) s)
  | C_lock => lock s (set_cons i (goto_c c C_pop))
  | C_pop =>
      on_buf (bf_pop (buf s)) (fun r b =>
        match r with
        | (code, Some line) =>
            if code =? 0 then Step (set_cons i (Cons C_signal line (c_cancel c)) (do_pop b line s))
            else Fault UB_uninit
        | (code, None) =>
            if code =? 0 then Fault UB_uninit
            else Step (set_cons i (goto_c c C_cond_wait) s)
        end)
  | C_cond_wait => Step (set_cons i (goto_c c C_waiting) (set_mx false s))
  | C_relock => lock s (set_cons i (goto_c c C_pop))
  | C_signal => signal_producer j (set_cons i (goto_c c C_unlock) s)
  | C_unlock => Step (set_cons i (goto_c c C_print) (set_mx false s))
  | C_print => Step (set_cons i (goto_c c C_lock) (do_print (c_line c) s))
  | C_cancelled => lock s (set_cons i (goto_c c C_cleanup))
  | C_cleanup => Step (set_cons i (goto_c c C_killed) (set_mx false s))
  | C_waiting | C_killed => Blocked
  end.

(** The next call of the main thread, in [run]. *)
Definition run_main (s : pcst) : sres pcst :=
  match runner (time_limit cl) (main s) (prods s) (conss s) with
  | Step (m, ps, cs) => Step (set_run m ps cs s)
  | Blocked => Blocked
  | Fault u => Fault u
  end.

(** A cancelled producer stops at a call that is a cancellation point: among
    them, when [cl.verbose] is set, the messages it writes while it holds
    [buffer_mx], which are outside the section with the handler [unlock_mx]. *)
Definition kill_producer (i : nat) (p : prod_t) (s : pcst) : sres pcst :=
  if p_cancel p then
    match p_pc p with
    | P_start | P_getline | P_testcancel => Step (set_prod i (goto_p p P_killed) s)
    | P_waiting => Step (set_prod i (goto_p p P_cancelled) s)
    | P_cond_wait | P_signal =>
        if verbose cl =? 0 then Blocked else Step (set_prod i (goto_p p P_killed_mx) s)
    | _ => Blocked
    end
  else Blocked.

(** A consumer accepts a cancellation only while it waits, and before it first
    disables cancellation if it sleeps or logs there. *)
Definition kill_consumer (i : nat) (c : cons_t) (s : pcst) : sres pcst :=
  if c_cancel c then
    match c_pc c with
    | C_start =>
        if (0 <? sleep cl) || negb (verbose cl =? 0)
        then Step (set_cons i (goto_c c C_killed) s) else Blocked
    | C_waiting => Step (set_cons i (goto_c c C_cancelled) s)
    | _ => Blocked
    end
  else Blocked.

Definition wake_producer (i : nat) (p : prod_t) (s : pcst) : sres pcst :=
  if waiting_p p then Step (set_prod i (goto_p p P_relock) s) else Blocked.
Definition wake_consumer (i : nat) (c : cons_t) (s : pcst) : sres pcst :=
  if waiting_c c then Step (set_cons i (goto_c c C_relock) s) else Blocked.

Definition on_thread {T} (o : option T) (f : T -> sres pcst) : sres pcst :=
  match o with Some t => f t | None => Blocked end.

Definition pc_exec (l : pc_label) (s : pcst) : sres pcst :=
  match l with
  | LProd i j => on_thread (prods s !! i) (fun p => producer i j p s)
  | LCons i j => on_thread (conss s !! i) (fun c => consumer i j c s)
  | LMain => run_main s
  | LKillP i => on_thread (prods s !! i) (fun p => kill_producer i p s)
  | LKillC i => on_thread (conss s !! i) (fun c => kill_consumer i c s)
  | LSpurP i => on_thread (prods s !! i) (fun p => wake_producer i p s)
  | LSpurC i => on_thread (conss s !! i) (fun c => wake_consumer i c s)
  end.

(** After the mutex and the conditions are initialised and the threads created. *)
Definition pc_init (b : B) : pcst :=
  PcSt false b
    (replicate (Z.to_nat (producers cl)) (Prod P_start [] ""%string false))
    (replicate (Z.to_nat (consumers cl)) (Cons C_start ""%string false))
    M_start [] [] [] [].

(** ** Invariant *)

Definition nP (pc : ppc) (s : pcst) : nat := countb (fun p => ppc_beq (p_pc p) pc) (prods s).
Definition nC (pc : cpc) (s : pcst) : nat := countb (fun c => cpc_beq (c_pc c) pc) (conss s).

(** Threads that own [buffer_mx]. *)
Definition holders (s : pcst) : nat :=
  nP P_push s + nP P_cond_wait s + nP P_signal s + nP P_unlock s + nP P_cleanup s +
  nP P_killed_mx s +
  (nC C_pop s + nC C_cond_wait s + nC C_signal s + nC C_unlock s + nC C_cleanup s).

(** The line a consumer has popped and not yet dealt with. *)
Definition in_hand (c : cons_t) : list string :=
  match c_pc c with C_signal | C_unlock | C_print => [c_line c] | _ => [] end.

Record pc_inv (cap : Z) (q : list string) (s : pcst) : Prop := {
  inv_rep : bf_rep cap q (buf s);
  inv_fifo : pushed s = popped s ++ q;
  inv_mutex : holders s = if locked s then 1%nat else 0%nat;
  inv_pfull : nP P_cond_wait s = 0%nat \/ Z.of_nat (length q) = cap;
  inv_cempty : nC C_cond_wait s = 0%nat \/ length q = 0%nat;
  inv_cwoken :
    nC C_waiting s = 0%nat \/
    (length q <= nP P_signal s + nP P_killed_mx s + nC C_relock s + nC C_pop s)%nat;
  inv_pwoken :
    nP P_waiting s = 0%nat \/
    cap - Z.of_nat (length q) <= Z.of_nat (nC C_signal s + nP P_relock s + nP P_push s);
  inv_lines : popped s ≡ₚ consumed s ++ concat (map in_hand (conss s));
  inv_out : out s = List.filter (cl_shouldprint cl) (consumed s);
}.

(** ** Counting threads *)

Lemma mon_nP_set i p p' s pc :
  prods s !! i = Some p ->
  (nP pc (set_prod i p' s) + (if ppc_beq (p_pc p) pc then 1 else 0) =
   nP pc s + (if ppc_beq (p_pc p') pc then 1 else 0))%nat.
Proof. intros H. exact (countb_insert _ _ _ _ _ H). Qed.

Lemma mon_nC_set i c c' s pc :
  conss s !! i = Some c ->
  (nC pc (set_cons i c' s) + (if cpc_beq (c_pc c) pc then 1 else 0) =
   nC pc s + (if cpc_beq (c_pc c') pc then 1 else 0))%nat.
Proof. intros H. exact (countb_insert _ _ _ _ _ H). Qed.

Lemma mon_nP_pos i p s : prods s !! i = Some p -> (0 < nP (p_pc p) s)%nat.
Proof. intros H. eapply countb_pos; [done|]. by destruct p as [[]]. Qed.

Lemma mon_nC_pos i c s : conss s !! i = Some c -> (0 < nC (c_pc c) s)%nat.
Proof. intros H. eapply countb_pos; [done|]. by destruct c as [[]]. Qed.

Lemma mon_in_hand_set i c c' s dp dc :
  conss s !! i = Some c ->
  popped s ≡ₚ consumed s ++ concat (map in_hand (conss s)) ->
  dp ++ in_hand c ≡ₚ dc ++ in_hand c' ->
  popped s ++ dp ≡ₚ (consumed s ++ dc) ++ concat (map in_hand (<[i := c']> (conss s))).
Proof.
  intros Hc Hl Hd. apply (Permutation_app_inv_r (in_hand c)).
  rewrite <- !app_assoc, Hd, (concat_map_insert _ _ _ _ c' Hc), Hl.
  rewrite <- !app_assoc. apply Permutation_app_head.
  rewrite !app_assoc. apply Permutation_app_tail, Permutation_app_comm.
Qed.

(** How the counts change when thread [i] goes from [p] to [p']. *)
Ltac count_prod Hp p' :=
  let go pc := pose proof (mon_nP_set _ _ p' _ pc Hp) in
  go P_push; go P_cond_wait; go P_waiting; go P_relock; go P_signal; go P_unlock; go P_cleanup;
  go P_killed_mx; pose proof (mon_nP_pos _ _ _ Hp).

Ltac count_cons Hc c' :=
  let go pc := pose proof (mon_nC_set _ _ c' _ pc Hc) in
  go C_pop; go C_cond_wait; go C_waiting; go C_relock; go C_signal; go C_unlock; go C_cleanup;
  pose proof (mon_nC_pos _ _ _ Hc).

Ltac inv_counts :=
  unfold goto_p, goto_c, holders, nP, nC in *; simpl in *;
  split; unfold holders, nP, nC in *; simpl in *; rewrite ?length_app in *; simpl in *;
  try done; try (by apply filter_snoc_if); repeat case_match; try done; try lia.

Ltac prod_case q Hp p' := count_prod Hp p'; exists q; inv_counts.

Ltac cons_case q Hc c' dp dc :=
  count_cons Hc c'; exists q;
  match goal with Hl : popped _ ≡ₚ _ |- _ =>
    let HL := fresh in
    pose proof (mon_in_hand_set _ _ c' _ dp dc Hc Hl (Permutation_refl _)) as HL;
    rewrite ?app_nil_r in HL end; inv_counts.

(** Nobody waits, as far as a signal can tell. *)
Lemma no_waiting_c s : existsb waiting_c (conss s) = false -> nC C_waiting s = 0%nat.
Proof.
  intros H. apply countb_zero. intros i c Hc.
  destruct (cpc_beq (c_pc c) C_waiting) eqn:E; [|done].
  rewrite <- H. symmetry. apply existsb_exists. exists c. split; [|done].
  by apply list_elem_of_In, (list_elem_of_lookup_2 _ i).
Qed.

Lemma no_waiting_p s : existsb waiting_p (prods s) = false -> nP P_waiting s = 0%nat.
Proof.
  intros H. apply countb_zero. intros i p Hp.
  destruct (ppc_beq (p_pc p) P_waiting) eqn:E; [|done].
  rewrite <- H. symmetry. apply existsb_exists. exists p. split; [|done].
  by apply list_elem_of_In, (list_elem_of_lookup_2 _ i).
Qed.

Lemma mon_producer_inv `{!BoundedFifoLaws B string} cap q i j p s s' :
  pc_inv cap q s -> prods s !! i = Some p -> producer i j p s = Step s' ->
  exists q', pc_inv cap q' s'.
Proof.
  intros [Hr Hf Hm Hpf Hce Hcw Hpw Hl Ho] Hp Hst.
  pose proof (bf_rep_bound _ _ _ Hr) as Hb.
  destruct p as [pc file line cn]. unfold producer, lock in Hst. destruct pc; simpl in Hst.
  - destruct input as [lines|]; simplify_eq.
    + prod_case q Hp (Prod P_getline lines line cn).
    + prod_case q Hp (Prod P_done file line cn).
  - destruct file as [|raw file]; simplify_eq.
    + prod_case q Hp (Prod P_done [] line cn).
    + destruct (strip_line raw) as [l|]; simplify_eq.
      * prod_case q Hp (Prod P_testcancel file l cn).
      * prod_case q Hp (Prod P_getline file line cn).
  - destruct cn; simplify_eq. prod_case q Hp (Prod P_lock file line false).
  - destruct (locked s) eqn:El; simplify_eq. prod_case q Hp (Prod P_push file line cn).
  - destruct (decide (Z.of_nat (length q) = cap)) as [Hfull|Hroom].
    + rewrite (bf_push_full cap q) in Hst by done. simplify_eq/=.
      prod_case q Hp (Prod P_cond_wait file line cn).
    + destruct (bf_push_ok cap q (buf s) line) as (b' & E & Hr'); [done|lia|].
      rewrite E in Hst. simplify_eq/=.
      prod_case (q ++ [line]) Hp (Prod P_signal file line cn).
      by rewrite Hf, app_assoc.
  - simplify_eq. prod_case q Hp (Prod P_waiting file line cn).
  - done.
  - destruct (locked s) eqn:El; simplify_eq. prod_case q Hp (Prod P_push file line cn).
  - unfold signal_consumer in Hst. simpl in Hst.
    destruct (existsb waiting_c (conss s)) eqn:Ew.
    + destruct (conss s !! j) as [c|] eqn:Ec; [|done].
      destruct (waiting_c c) eqn:Ewc; [|done]. simplify_eq.
      destruct c as [cp x cc]. destruct cp; try done.
      count_prod Hp (Prod P_unlock file line cn).
      cons_case q Ec (Cons C_relock x cc) (@nil string) (@nil string).
    + pose proof (no_waiting_c s Ew). simplify_eq. prod_case q Hp (Prod P_unlock file line cn).
  - simplify_eq. prod_case q Hp (Prod P_getline file line cn).
  - done.
  - destruct (locked s) eqn:El; simplify_eq. prod_case q Hp (Prod P_cleanup file line cn).
  - simplify_eq. prod_case q Hp (Prod P_killed file line cn).
  - done.
  - done.
Qed.

Lemma mon_consumer_inv `{!BoundedFifoLaws B string} cap q i j c s s' :
  pc_inv cap q s -> conss s !! i = Some c -> consumer i j c s = Step s' ->
  exists q', pc_inv cap q' s'.
Proof.
  intros [Hr Hf Hm Hpf Hce Hcw Hpw Hl Ho] Hc Hst.
  pose proof (bf_rep_bound _ _ _ Hr) as Hb.
  destruct c as [pc line cn]. unfold consumer, lock in Hst. destruct pc; simpl in Hst.
  - simplify_eq. cons_case q Hc (Cons C_lock line cn) (@nil string) (@nil string).
  - destruct (locked s) eqn:El; simplify_eq.
    cons_case q Hc (Cons C_pop line cn) (@nil string) (@nil string).
  - destruct q as [|x q].
    + rewrite (bf_pop_empty cap) in Hst by done. simplify_eq/=.
      cons_case ([] : list string) Hc (Cons C_cond_wait line cn) (@nil string) (@nil string).
    + destruct (bf_pop_ok cap x q (buf s)) as (b' & E & Hr'); [done|].
      rewrite E in Hst. simplify_eq/=.
      cons_case q Hc (Cons C_signal x cn) [x] (@nil string).
      by rewrite Hf, <- app_assoc.
  - simplify_eq. cons_case q Hc (Cons C_waiting line cn) (@nil string) (@nil string).
  - done.
  - destruct (locked s) eqn:El; simplify_eq.
    cons_case q Hc (Cons C_pop line cn) (@nil string) (@nil string).
  - unfold signal_producer in Hst. simpl in Hst.
    destruct (existsb waiting_p (prods s)) eqn:Ew.
    + destruct (prods s !! j) as [p|] eqn:Ep; [|done].
      destruct (waiting_p p) eqn:Ewp; [|done]. simplify_eq.
      destruct p as [pp f x pcn]. destruct pp; try done.
      count_prod Ep (Prod P_relock f x pcn).
      cons_case q Hc (Cons C_unlock line cn) (@nil string) (@nil string).
    + pose proof (no_waiting_p s Ew). simplify_eq.
      cons_case q Hc (Cons C_unlock line cn) (@nil string) (@nil string).
  - simplify_eq. cons_case q Hc (Cons C_print line cn) (@nil string) (@nil string).
  - simplify_eq. cons_case q Hc (Cons C_lock line cn) (@nil string) [line].
  - destruct (locked s) eqn:El; simplify_eq.
    cons_case q Hc (Cons C_cleanup line cn) (@nil string) (@nil string).
  - simplify_eq. cons_case q Hc (Cons C_killed line cn) (@nil string) (@nil string).
  - done.
Qed.

Lemma mon_kill_producer_inv cap q i p s s' :
  pc_inv cap q s -> prods s !! i = Some p -> kill_producer i p s = Step s' ->
  exists q', pc_inv cap q' s'.
Proof.
  intros [Hr Hf Hm Hpf Hce Hcw Hpw Hl Ho] Hp Hst.
  destruct p as [pc file line []]; [|done]. unfold kill_producer in Hst.
  destruct pc; simpl in Hst; try case_match; simplify_eq;
    first [ solve [prod_case q Hp (Prod P_killed file line true)]
          | solve [prod_case q Hp (Prod P_killed_mx file line true)]
          | prod_case q Hp (Prod P_cancelled file line true) ].
Qed.

Lemma mon_kill_consumer_inv cap q i c s s' :
  pc_inv cap q s -> conss s !! i = Some c -> kill_consumer i c s = Step s' ->
  exists q', pc_inv cap q' s'.
Proof.
  intros [Hr Hf Hm Hpf Hce Hcw Hpw Hl Ho] Hc Hst.
  destruct c as [pc line []]; [|done]. unfold kill_consumer in Hst.
  destruct pc; simpl in Hst; try case_match; simplify_eq;
    first [ solve [cons_case q Hc (Cons C_killed line true) (@nil string) (@nil string)]
          | cons_case q Hc (Cons C_cancelled line true) (@nil string) (@nil string) ].
Qed.

Lemma wake_producer_inv cap q i p s s' :
  pc_inv cap q s -> prods s !! i = Some p -> wake_producer i p s = Step s' ->
  exists q', pc_inv cap q' s'.
Proof.
  intros [Hr Hf Hm Hpf Hce Hcw Hpw Hl Ho] Hp Hst.
  destruct p as [[] file line cn]; try done. unfold wake_producer in Hst. simplify_eq/=.
  prod_case q Hp (Prod P_relock file line cn).
Qed.

Lemma wake_consumer_inv cap q i c s s' :
  pc_inv cap q s -> conss s !! i = Some c -> wake_consumer i c s = Step s' ->
  exists q', pc_inv cap q' s'.
Proof.
  intros [Hr Hf Hm Hpf Hce Hcw Hpw Hl Ho] Hc Hst.
  destruct c as [[] line cn]; try done. unfold wake_consumer in Hst. simplify_eq/=.
  cons_case q Hc (Cons C_relock line cn) (@nil string) (@nil string).
Qed.

(** A cancellation flag changes nothing the invariant speaks of. *)
Lemma mon_prod_flag_inv cap q i p s :
  pc_inv cap q s -> prods s !! i = Some p -> pc_inv cap q (set_prod i (w_cancel p) s).
Proof.
  intros [Hr Hf Hm Hpf Hce Hcw Hpw Hl Ho] Hp.
  assert (forall pc, nP pc (set_prod i (w_cancel p) s) = nP pc s) as E.
  { intros pc. pose proof (mon_nP_set _ _ (w_cancel p) _ pc Hp) as H.
    change (p_pc (w_cancel p)) with (p_pc p) in H. lia. }
  split; unfold holders in *; rewrite ?E; done.
Qed.

Lemma mon_cons_flag_inv cap q i c s :
  pc_inv cap q s -> conss s !! i = Some c -> pc_inv cap q (set_cons i (w_cancel c) s).
Proof.
  intros [Hr Hf Hm Hpf Hce Hcw Hpw Hl Ho] Hc.
  assert (forall pc, nC pc (set_cons i (w_cancel c) s) = nC pc s) as E.
  { intros pc. pose proof (mon_nC_set _ _ (w_cancel c) _ pc Hc) as H.
    change (c_pc (w_cancel c)) with (c_pc c) in H. lia. }
  pose proof (mon_in_hand_set _ _ (w_cancel c) _ [] [] Hc Hl (Permutation_refl _)) as HL.
  rewrite !app_nil_r in HL.
  split; unfold holders in *; rewrite ?E; done.
Qed.

Lemma mon_main_flag_inv cap q m s : pc_inv cap q s -> pc_inv cap q (set_run m (prods s) (conss s) s).
Proof. by intros [Hr Hf Hm Hpf Hce Hcw Hpw Hl Ho]; split. Qed.

Lemma mon_run_main_inv cap q s s' : pc_inv cap q s -> run_main s = Step s' -> pc_inv cap q s'.
Proof.
  intros Hi Hst. unfold run_main in Hst.
  destruct (runner _ _ _ _) as [[[m ps] cs]| |] eqn:E; simplify_eq.
  destruct (runner_changes _ _ _ _ _ _ _ E) as [[-> ->]|[(i & p & Hp & -> & ->)|(i & c & Hc & -> & ->)]].
  - by apply mon_main_flag_inv.
  - apply (mon_main_flag_inv cap q m (set_prod i (w_cancel p) s)). by apply mon_prod_flag_inv.
  - apply (mon_main_flag_inv cap q m (set_cons i (w_cancel c) s)). by apply mon_cons_flag_inv.
Qed.

Lemma on_thread_Step {T} (l : list T) (i : nat) f s' :
  on_thread (l !! i) f = Step s' -> exists t, l !! i = Some t /\ f t = Step s'.
Proof. destruct (l !! i) as [t|]; [|done]. simpl. eauto. Qed.

Lemma on_thread_Fault {T} (o : option T) (f : T -> sres pcst) u :
  on_thread o f = Fault u -> exists t, o = Some t /\ f t = Fault u.
Proof. destruct o as [t|]; [|done]. simpl. eauto. Qed.

Lemma mon_pc_exec_inv `{!BoundedFifoLaws B string} cap l s s' :
  (exists q, pc_inv cap q s) -> pc_exec l s = Step s' -> exists q, pc_inv cap q s'.
Proof.
  intros [q Hi] Hst.
  destruct l; simpl in Hst; try (apply on_thread_Step in Hst as (t & E & Hst));
    [by eapply mon_producer_inv|by eapply mon_consumer_inv|exists q; by eapply mon_run_main_inv
    |by eapply mon_kill_producer_inv|by eapply mon_kill_consumer_inv|by eapply wake_producer_inv
    |by eapply wake_consumer_inv].
Qed.

Lemma mon_pc_reach_inv `{!BoundedFifoLaws B string} cap b s :
  bf_rep cap [] b -> reach pc_exec (pc_init b) s -> exists q, pc_inv cap q s.
Proof.
  intros Hr. pose proof (bf_rep_bound _ _ _ Hr). simpl in *.
  apply (reach_inv pc_exec (fun s => exists q, pc_inv cap q s)).
  - exists []. split; unfold holders, nP, nC; simpl; rewrite ?countb_replicate; simpl; try done; try lia.
    by induction (Z.to_nat (consumers cl)).
  - intros. by eapply mon_pc_exec_inv.
Qed.

(** Under the invariant no thread ever goes wrong. *)
Lemma mon_pc_inv_safe `{!BoundedFifoLaws B string} cap q s : pc_inv cap q s -> safe pc_exec s.
Proof.
  intros [Hr Hf Hm Hpf Hce Hcw Hpw Hl Ho] l u Hst. pose proof (bf_rep_bound _ _ _ Hr) as Hb.
  clear Hm.
  destruct l as [i j|i j| |i|i|i|i]; simpl in Hst;
    try (apply on_thread_Fault in Hst as (t & E & Hst)).
  - unfold producer, lock, signal_consumer in Hst.
    destruct (p_pc t); repeat case_match; try done; unfold on_buf in Hst.
    destruct (decide (Z.of_nat (length q) = cap)) as [Hfull|Hroom].
    + rewrite (bf_push_full cap q) in Hst by done. done.
    + destruct (bf_push_ok cap q (buf s) (p_line t)) as (b' & E' & Hr'); [done|lia|].
      by rewrite E' in Hst.
  - unfold consumer, lock, signal_producer in Hst.
    destruct (c_pc t); repeat case_match; try done; unfold on_buf in Hst.
    destruct q as [|x q].
    + by rewrite (bf_pop_empty cap) in Hst.
    + destruct (bf_pop_ok cap x q (buf s)) as (b' & E' & Hr'); [done|]. by rewrite E' in Hst.
  - unfold run_main in Hst. destruct (runner _ _ _ _) as [[[m ps] cs]| |u'] eqn:Er; try done.
    by apply runner_no_fault in Er.
  - unfold kill_producer in Hst. repeat case_match; done.
  - unfold kill_consumer in Hst. repeat case_match; done.
  - unfold wake_producer in Hst. repeat case_match; done.
  - unfold wake_consumer in Hst. repeat case_match; done.
Qed.

(** ** What the threads leave behind *)

(** A thread is only killed on request, and only keeps [buffer_mx] with it if
    it was writing a message. *)
Definition prod_ok (p : prod_t) : Prop :=
  match p_pc p with
  | P_cancelled | P_cleanup | P_killed => cancelled p
  | P_killed_mx => cancelled p /\ verbose cl <> 0
  | _ => True
  end.
Definition cons_ok (c : cons_t) : Prop :=
  match c_pc c with C_cancelled | C_cleanup | C_killed => cancelled c | _ => True end.

Record run_inv (s : pcst) : Prop := {
  run_prods : Forall prod_ok (prods s);
  run_conss : Forall cons_ok (conss s);
  run_nconss : length (conss s) = Z.to_nat (consumers cl);
  run_phase : phase (time_limit cl) (main s) (prods s) (conss s);
}.

(** What the steps of other threads than the main one do to a thread: it was
    not finished, its cancellation flag stays, and it is sound. *)
Definition prod_moves (s : pcst) (ps' : list prod_t) : Prop :=
  exists i p p', prods s !! i = Some p /\ ps' = <[i := p']> (prods s) /\
    p_finished p = false /\ p_cancel p' = p_cancel p /\ prod_ok p'.
Definition cons_moves (s : pcst) (cs' : list cons_t) : Prop :=
  exists i c c', conss s !! i = Some c /\ cs' = <[i := c']> (conss s) /\
    c_finished c = false /\ c_cancel c' = c_cancel c /\ cons_ok c'.

Lemma move_prods s ps' : run_inv s -> prod_moves s ps' ->
  Forall prod_ok ps' /\ forall m (cs : list cons_t), phase (time_limit cl) m (prods s) cs -> phase (time_limit cl) m ps' cs.
Proof.
  intros [Hps _ _ _] (i & p & p' & Hp & -> & Hf & Hk & Ho). split; [by apply Forall_insert|].
  intros m cs Hph. by eapply phase_prod.
Qed.

Lemma move_conss s cs' : run_inv s -> cons_moves s cs' ->
  Forall cons_ok cs' /\ length cs' = length (conss s) /\
  forall m (ps : list prod_t), phase (time_limit cl) m ps (conss s) -> phase (time_limit cl) m ps cs'.
Proof.
  intros [_ Hcs _ _] (i & c & c' & Hc & -> & Hf & Hk & Ho). split; [by apply Forall_insert|].
  split; [apply length_insert|]. intros m ps Hph. by eapply phase_cons.
Qed.

Ltac moved i t t' := exists i, t, t'; split; [done|]; split; [done|]; split; [done|]; split; [done|]; done.

Lemma mon_producer_frame i p s s' :
  prods s !! i = Some p ->
  prod_ok p ->
  (exists j, producer i j p s = Step s') \/ kill_producer i p s = Step s' \/ wake_producer i p s = Step s' ->
  main s' = main s /\ prod_moves s (prods s') /\ (conss s' = conss s \/ cons_moves s (conss s')).
Proof.
  intros Hp Hok Hst. destruct p as [pc file line cn].
  assert (forall pc' f l, p_finished (Prod pc file line cn) = false -> prod_ok (Prod pc' f l cn) ->
    prod_moves s (<[i := Prod pc' f l cn]> (prods s))) as Hmv.
  { intros. moved i (Prod pc file line cn) (Prod pc' f l cn). }
  unfold prod_ok, cancelled in Hok, Hmv.
  destruct Hst as [[j Hst]|[Hst|Hst]].
  - unfold producer, lock, signal_consumer, on_buf in Hst.
    destruct pc; simpl in Hst; repeat case_match; simplify_eq; simpl;
      (split; [done|]; split; [by apply Hmv|]); try (by left).
    right. eexists j, _, _. split; [done|]. split; [done|].
    match goal with H : waiting_c ?c = true |- _ => by destruct c as [[]] end.
  - unfold kill_producer in Hst. destruct cn; [|done].
    destruct pc; simpl in Hst; try case_match; simplify_eq; simpl;
      (split; [done|]; split; [apply Hmv; simpl; try done|by left]); simpl in *; split; lia.
  - unfold wake_producer in Hst. destruct pc; simplify_eq/=.
    split; [done|]. split; [by apply Hmv|by left].
Qed.

Lemma mon_consumer_frame i c s s' :
  conss s !! i = Some c ->
  cons_ok c ->
  (exists j, consumer i j c s = Step s') \/ kill_consumer i c s = Step s' \/ wake_consumer i c s = Step s' ->
  main s' = main s /\ cons_moves s (conss s') /\
  (prods s' = prods s \/
   exists k p, prods s !! k = Some p /\ p_pc p = P_waiting /\
     prods s' = <[k := goto_p p P_relock]> (prods s)).
Proof.
  intros Hc Hok Hst. destruct c as [pc line cn].
  assert (forall pc' l, c_finished (Cons pc line cn) = false -> cons_ok (Cons pc' l cn) ->
    cons_moves s (<[i := Cons pc' l cn]> (conss s))) as Hmv.
  { intros. moved i (Cons pc line cn) (Cons pc' l cn). }
  unfold cons_ok, cancelled in Hok, Hmv.
  destruct Hst as [[j Hst]|[Hst|Hst]].
  - unfold consumer, lock, signal_producer, on_buf in Hst.
    destruct pc; simpl in Hst; repeat case_match; simplify_eq; simpl;
      (split; [done|]; split; [by apply Hmv|]); try (by left).
    right. exists j. match goal with H : waiting_p ?p = true |- _ => exists p; by destruct p as [[]] end.
  - unfold kill_consumer in Hst. destruct cn; [|done].
    destruct pc; simpl in Hst; try case_match; simplify_eq; simpl;
      (split; [done|]; split; [by apply Hmv|by left]).
  - unfold wake_consumer in Hst. destruct pc; simplify_eq/=.
    split; [done|]. split; [by apply Hmv|by left].
Qed.

Lemma woken_moves s k p :
  prods s !! k = Some p -> p_pc p = P_waiting ->
  prod_moves s (<[k := goto_p p P_relock]> (prods s)).
Proof. intros Hp E. destruct p as [pc f l cn]. simpl in E. subst pc. by eexists k, _, _. Qed.

Lemma mon_pc_exec_run_inv l s s' : run_inv s -> pc_exec l s = Step s' -> run_inv s'.
Proof.
  intros Hi Hst.
  assert (forall i p, prods s !! i = Some p -> prod_ok p) as Hpok
    by (intros i p; apply Forall_lookup_1, Hi).
  assert (forall i c, conss s !! i = Some c -> cons_ok c) as Hcok
    by (intros i c; apply Forall_lookup_1, Hi).
  assert ((main s' = main s /\ (prods s' = prods s \/ prod_moves s (prods s')) /\
            (conss s' = conss s \/ cons_moves s (conss s'))) \/ run_main s = Step s') as [Hf|Hmain].
  { destruct l as [i j|i j| |i|i|i|i]; simpl in Hst; [| |by right| | | |];
      apply on_thread_Step in Hst as (t & E & Hst); left.
    1, 3, 5: destruct (mon_producer_frame i t s s' E) as (? & ? & ?); eauto.
    all: destruct (mon_consumer_frame i t s s' E) as (? & ? & [?|(? & ? & ? & ? & E')]); eauto;
      rewrite E'; eauto 8 using woken_moves. }
  - destruct Hf as (Em & Hp & Hc).
    assert (Forall prod_ok (prods s') /\
      forall m (cs : list cons_t), phase (time_limit cl) m (prods s) cs -> phase (time_limit cl) m (prods s') cs)
      as [Hp1 Hp2].
    { destruct Hp as [->|Hp]; [split; [apply Hi|done]|by apply move_prods]. }
    assert (Forall cons_ok (conss s') /\ length (conss s') = length (conss s) /\
      forall m (ps : list prod_t), phase (time_limit cl) m ps (conss s) -> phase (time_limit cl) m ps (conss s'))
      as (Hc1 & Hc2 & Hc3).
    { destruct Hc as [->|Hc]; [split; [apply Hi|done]|by apply move_conss]. }
    destruct Hi as [Hps Hcs Hnc Hph]. split; [done|done|congruence|]. rewrite Em. auto.
  - destruct Hi as [Hps Hcs Hnc Hph]. unfold run_main in Hmain.
    destruct (runner _ _ _ _) as [[[m ps] cs]| |] eqn:E; simplify_eq.
    pose proof (phase_step _ _ _ _ _ _ _ Hph E) as Hph'.
    destruct (runner_changes _ _ _ _ _ _ _ E)
      as [[-> ->]|[(i & p & Hp & -> & ->)|(i & c & Hc & -> & ->)]];
      split; simpl; rewrite ?length_insert; try done.
    + apply Forall_insert; [done|]. specialize (Hpok _ _ Hp).
      destruct p as [[]]; unfold prod_ok, cancelled in *; naive_solver.
    + apply Forall_insert; [done|]. by destruct c as [[]].
Qed.

Lemma mon_reach_run_inv b s : reach pc_exec (pc_init b) s -> run_inv s.
Proof.
  apply (reach_inv pc_exec run_inv); [|intros; by eapply mon_pc_exec_run_inv].
  split; simpl; rewrite ?length_replicate; try done; try (by apply Forall_replicate).
  split; by apply Forall_replicate.
Qed.

(** Nobody is killed with [buffer_mx] if there is no time limit, or there are
    no messages. *)
Lemma mon_mx_not_lost s : run_inv s -> verbose cl = 0 \/ time_limit cl = 0 -> nP P_killed_mx s = 0%nat.
Proof.
  intros [Hps _ _ Hph] Hq. apply countb_zero. intros i p Hp.
  pose proof (Forall_lookup_1 _ _ _ _ Hps Hp) as Hok. unfold prod_ok in Hok.
  destruct p as [[] file line cn]; try done. destruct Hok as [Hc Hv]. destruct Hq as [|Ht]; [done|].
  pose proof (phase_live _ _ _ _ Ht Hph) as Hl.
  by rewrite (Forall_lookup_1 _ _ _ _ Hl Hp) in Hc.
Qed.

(** ** Stuck states: only a wait that ends by itself is left *)

Definition stalled (s : pcst) : Prop := forall l, spurious l = false -> pc_exec l s = Blocked.

Lemma signal_c_goes s : exists j, signal_consumer j s <> Blocked.
Proof.
  unfold signal_consumer. destruct (existsb waiting_c (conss s)) eqn:E; [|by exists 0%nat].
  apply existsb_exists in E as (c & Hin & Hw). apply list_elem_of_In, list_elem_of_lookup in Hin as [j Hj].
  exists j. by rewrite Hj, Hw.
Qed.

Lemma signal_p_goes s : exists j, signal_producer j s <> Blocked.
Proof.
  unfold signal_producer. destruct (existsb waiting_p (prods s)) eqn:E; [|by exists 0%nat].
  apply existsb_exists in E as (p & Hin & Hw). apply list_elem_of_In, list_elem_of_lookup in Hin as [j Hj].
  exists j. by rewrite Hj, Hw.
Qed.

(** Who can be stopped, and why. *)
Definition p_stop (mx : bool) (p : prod_t) : Prop :=
  match p_pc p with
  | P_done | P_killed | P_killed_mx => True
  | P_waiting => p_cancel p = false
  | P_lock | P_relock | P_cancelled => mx = true
  | _ => False
  end.
Definition c_stop (mx : bool) (c : cons_t) : Prop :=
  match c_pc c with
  | C_killed => True
  | C_waiting => c_cancel c = false
  | C_lock | C_relock | C_cancelled => mx = true
  | _ => False
  end.

Lemma stalled_prod `{!BoundedFifoLaws B string} cap q s i p :
  bf_rep cap q (buf s) -> stalled s -> prods s !! i = Some p -> p_stop (locked s) p.
Proof.
  intros Hr Hst Hp. pose proof (bf_rep_bound _ _ _ Hr) as Hb.
  pose proof (fun j => Hst (LProd i j) eq_refl) as Hgo. simpl in Hgo. rewrite Hp in Hgo. simpl in Hgo.
  pose proof (Hst (LKillP i) eq_refl) as Hkill. simpl in Hkill. rewrite Hp in Hkill. simpl in Hkill.
  unfold producer, lock, kill_producer in Hgo, Hkill. unfold p_stop.
  destruct p as [[] file line cn]; simpl in *; try done; try (by specialize (Hgo 0%nat); destruct (locked s)).
  - specialize (Hgo 0%nat). by destruct input.
  - specialize (Hgo 0%nat). destruct file as [|raw file]; [done|]. by destruct (strip_line raw).
  - specialize (Hgo 0%nat). by destruct cn.
  - specialize (Hgo 0%nat). destruct (decide (Z.of_nat (length q) = cap)) as [Hfull|Hroom].
    + rewrite (bf_push_full cap q) in Hgo by done. done.
    + destruct (bf_push_ok cap q (buf s) line) as (b' & E' & _); [done|lia|]. by rewrite E' in Hgo.
  - by destruct cn.
  - destruct (signal_c_goes (set_prod i (Prod P_unlock file line cn) s)) as [j Hj]. by destruct Hj.
Qed.

Lemma stalled_cons `{!BoundedFifoLaws B string} cap q s i c :
  bf_rep cap q (buf s) -> stalled s -> conss s !! i = Some c -> c_stop (locked s) c.
Proof.
  intros Hr Hst Hc.
  pose proof (fun j => Hst (LCons i j) eq_refl) as Hgo. simpl in Hgo. rewrite Hc in Hgo. simpl in Hgo.
  pose proof (Hst (LKillC i) eq_refl) as Hkill. simpl in Hkill. rewrite Hc in Hkill. simpl in Hkill.
  unfold consumer, lock, kill_consumer in Hgo, Hkill. unfold c_stop.
  destruct c as [[] line cn]; simpl in *; try done; try (by specialize (Hgo 0%nat); destruct (locked s)).
  - specialize (Hgo 0%nat). destruct q as [|x q].
    + rewrite (bf_pop_empty cap) in Hgo by done. done.
    + destruct (bf_pop_ok cap x q (buf s)) as (b' & E' & _); [done|]. by rewrite E' in Hgo.
  - by destruct cn.
  - destruct (signal_p_goes (set_cons i (Cons C_unlock line cn) s)) as [j Hj]. by destruct Hj.
Qed.

Lemma nP_none pc s :
  (forall i p, prods s !! i = Some p -> p_pc p <> pc) -> nP pc s = 0%nat.
Proof.
  intros H. apply countb_zero. intros i p Hp. specialize (H i p Hp). destruct p as [[]], pc; done.
Qed.
Lemma nC_none pc s :
  (forall i c, conss s !! i = Some c -> c_pc c <> pc) -> nC pc s = 0%nat.
Proof.
  intros H. apply countb_zero. intros i p Hp. specialize (H i p Hp). destruct p as [[]], pc; done.
Qed.

(** When nobody was killed with the mutex it is free, and then whoever is
    stopped has ended or waits for a signal that nobody is about to send. *)
Lemma stalled_free `{!BoundedFifoLaws B string} cap q s :
  pc_inv cap q s -> stalled s -> nP P_killed_mx s = 0%nat ->
  locked s = false /\ nP P_relock s = 0%nat /\ nP P_push s = 0%nat /\ nP P_signal s = 0%nat /\
  nC C_relock s = 0%nat /\ nC C_pop s = 0%nat /\ nC C_signal s = 0%nat.
Proof.
  intros Hi Hst Hk. pose proof (inv_rep _ _ _ Hi) as Hr.
  assert (forall pc, match pc with P_push | P_cond_wait | P_signal | P_unlock | P_cleanup => True
            | P_relock => locked s = false | _ => False end -> nP pc s = 0%nat) as HP.
  { intros pc Hpc. apply nP_none. intros i p Hp E. pose proof (stalled_prod cap q s i p Hr Hst Hp) as H.
    unfold p_stop in H. rewrite E in H. destruct pc; congruence. }
  assert (forall pc, match pc with C_pop | C_cond_wait | C_signal | C_unlock | C_cleanup => True
            | C_relock => locked s = false | _ => False end -> nC pc s = 0%nat) as HC.
  { intros pc Hpc. apply nC_none. intros i c Hc E. pose proof (stalled_cons cap q s i c Hr Hst Hc) as H.
    unfold c_stop in H. rewrite E in H. destruct pc; congruence. }
  pose proof (inv_mutex _ _ _ Hi) as Hm. unfold holders in Hm. rewrite Hk in Hm.
  rewrite !HP, !HC in Hm by done. destruct (locked s); [done|]. split; [done|]. by rewrite !HP, !HC.
Qed.

Lemma stalled_main `{!BoundedFifoLaws B string} cap q s :
  pc_inv cap q s -> run_inv s -> nP P_killed_mx s = 0%nat -> 0 < cap -> 0 < consumers cl ->
  stalled s -> main s = M_done.
Proof.
  intros Hi Hr Hmx Hcap Hc Hst. pose proof (inv_rep _ _ _ Hi) as Hrep.
  destruct (stalled_free _ _ _ Hi Hst Hmx) as (Hl & Hp1 & Hp2 & Hp3 & Hc1 & Hc2 & Hc3).
  destruct Hr as [Hps Hcs Hnc Hph].
  pose proof (Hst LMain eq_refl) as Hmain. simpl in Hmain. unfold run_main in Hmain.
  destruct (runner _ _ _ _) as [[[m ps] cs]| |] eqn:E; try done.
  destruct (runner_blocked _ _ _ _ E) as [|[(i & p & Em & Hp & Hf)|(i & c & Em & Hcc & Hf)]];
    [done|exfalso..]; rewrite Em in Hph; simpl in Hph.
  - destruct Hph as (Hfl & Hcl & _).
    pose proof (stalled_prod cap q s i p Hrep Hst Hp) as Hstop. rewrite Hl in Hstop.
    assert (p_pc p = P_waiting /\ p_cancel p = false) as (E1 & Hnot).
    { unfold p_stop in Hstop. simpl in Hf. unfold p_finished in Hf. by destruct (p_pc p). }
    destruct (Z.eqb_spec (time_limit cl) 0) as [Ht|Ht];
      [|pose proof (Forall_lookup_1 _ _ _ _ Hfl Hp) as Hx; unfold cancelled in Hx; simpl in Hx; congruence].
    destruct (lookup_lt_is_Some_2 (conss s) 0) as [c Hcn]; [lia|].
    pose proof (stalled_cons cap q s 0 c Hrep Hst Hcn) as Hcstop. rewrite Hl in Hcstop.
    assert (c_pc c = C_waiting) as E2.
    { pose proof (Forall_lookup_1 _ _ _ _ Hcs Hcn) as Hx. unfold cons_ok, cancelled in Hx.
      pose proof (Forall_lookup_1 _ _ _ _ Hcl Hcn) as Hy. unfold live in Hy.
      unfold c_stop in Hcstop. destruct c as [[] x cn]; simpl in *; solve [done|congruence]. }
    pose proof (mon_nP_pos _ _ _ Hp) as Hpp. pose proof (mon_nC_pos _ _ _ Hcn) as Hcp.
    rewrite E1 in Hpp. rewrite E2 in Hcp.
    destruct (inv_cwoken _ _ _ Hi); [lia|]. destruct (inv_pwoken _ _ _ Hi); lia.
  - destruct Hph as (_ & _ & Hcl & _).
    pose proof (Forall_lookup_1 _ _ _ _ Hcl Hcc) as Hx. unfold cancelled in Hx. simpl in Hx.
    pose proof (stalled_cons cap q s i c Hrep Hst Hcc) as Hcstop. rewrite Hl in Hcstop.
    unfold c_stop in Hcstop. simpl in Hf. unfold c_finished in Hf.
    destruct c as [[] x cn]; simpl in *; solve [done|congruence].
Qed.

(** ** The lines of the input *)

(** The lines a producer has still to push. *)
Definition pending (p : prod_t) : list string :=
  match p_pc p with
  | P_start => match input with Some raw => strip_lines raw | None => [] end
  | P_getline | P_signal | P_unlock => strip_lines (p_file p)
  | P_done | P_killed | P_killed_mx | P_cancelled | P_cleanup => []
  | _ => p_line p :: strip_lines (p_file p)
  end.

Definition all_lines : list string :=
  concat (replicate (Z.to_nat (producers cl))
    (match input with Some raw => strip_lines raw | None => [] end)).

Definition flow_inv (s : pcst) : Prop :=
  pushed s ++ concat (map pending (prods s)) ≡ₚ all_lines.

Lemma mon_pending_set i p p' s (l : list string) :
  prods s !! i = Some p -> flow_inv s -> pending p ≡ₚ l ++ pending p' ->
  (pushed s ++ l) ++ concat (map pending (<[i := p']> (prods s))) ≡ₚ all_lines.
Proof. intros Hp Hi Hd. by eapply move_to_pile. Qed.

(** Turning a producer to [p'] without a push. *)
Lemma pending_same i p p' s :
  prods s !! i = Some p -> flow_inv s -> pending p' = pending p ->
  pushed s ++ concat (map pending (<[i := p']> (prods s))) ≡ₚ all_lines.
Proof.
  intros Hp Hi E. pose proof (mon_pending_set i p p' s [] Hp Hi) as H. rewrite app_nil_r in H.
  apply H. by rewrite E.
Qed.

Lemma mon_producer_flow i j p s s' :
  flow_inv s -> prods s !! i = Some p -> prod_ok p -> p_cancel p = false ->
  producer i j p s = Step s' -> flow_inv s'.
Proof.
  intros Hi Hp Hok Hcn Hst.
  assert (exists p' l, prods s' = <[i := p']> (prods s) /\ pushed s' = pushed s ++ l /\
            pending p = l ++ pending p') as (p' & l & Ep & Eq & Hpd).
  { unfold producer, lock, signal_consumer, on_buf in Hst.
    destruct p as [pc file line cn]; unfold prod_ok, cancelled in Hok; simpl in *.
    destruct pc; simpl in *; repeat case_match; simplify_eq;
      (eexists _, []; split; [done|]; split; [by rewrite app_nil_r|])
      || (eexists _, [line]; split; [done|]; split; [done|]);
      unfold pending; simpl; rewrite ?app_nil_r; repeat case_match; simplify_eq; try done;
      congruence. }
  unfold flow_inv. rewrite Ep, Eq. eapply mon_pending_set; [done|done|]. by rewrite Hpd.
Qed.

Lemma consumer_pushed i c s s' :
  (exists j, consumer i j c s = Step s') \/ kill_consumer i c s = Step s' \/ wake_consumer i c s = Step s' ->
  pushed s' = pushed s.
Proof.
  intros [[j H]|[H|H]]; unfold consumer, kill_consumer, wake_consumer, on_buf, lock, signal_producer in H;
    repeat case_match; by simplify_eq.
Qed.

(** As long as there is no time limit no line is given up. *)
Lemma mon_pc_exec_flow l s s' :
  time_limit cl = 0 -> run_inv s -> flow_inv s -> pc_exec l s = Step s' -> flow_inv s'.
Proof.
  intros Ht Hr Hi Hst. pose proof (phase_live _ _ _ _ Ht (run_phase _ Hr)) as Hlive.
  destruct l as [i j|i j| |i|i|i|i]; simpl in Hst;
    [| |unfold run_main in Hst;
        destruct (runner _ _ _ _) as [[[m ps] cs]| |] eqn:E; simplify_eq;
        destruct (runner_changes _ _ _ _ _ _ _ E) as [[-> ->]|[(i & p & Hp & -> & ->)|(i & c & Hc & -> & ->)]];
        [done|apply (pending_same i p (w_cancel p) s Hp Hi); by destruct p as [[]]|done]| | | |];
    apply on_thread_Step in Hst as (t & E & Hst).
  1, 3, 5: pose proof (Forall_lookup_1 _ _ _ _ Hlive E) as Hl; unfold live in Hl; simpl in Hl.
  4, 5, 6: destruct (mon_consumer_frame i t s s' E) as (_ & _ & Hps);
    [by eapply Forall_lookup_1; [apply Hr|]|eauto|];
    unfold flow_inv; rewrite (consumer_pushed i t s s') by eauto;
    destruct Hps as [->|(k & p & Hk & Ek & ->)];
    [done|eapply pending_same; [done|done|unfold pending; simpl; by rewrite Ek]].
  - eapply mon_producer_flow; [done|done| |done|done]. eapply Forall_lookup_1; [apply Hr|done].
  - unfold kill_producer in Hst. by rewrite Hl in Hst.
  - unfold wake_producer in Hst. destruct t as [[] f x cn]; simplify_eq/=. by apply (pending_same i _ _ s E Hi).
Qed.

Lemma mon_reach_flow b s : time_limit cl = 0 -> reach pc_exec (pc_init b) s -> flow_inv s.
Proof.
  intros Ht Hs. induction Hs as [|l s s' Hs IH Hst].
  - unfold flow_inv, all_lines. simpl. by rewrite fmap_replicate.
  - eapply mon_pc_exec_flow; [done| |done..]. by eapply mon_reach_run_inv.
Qed.

(** ** Nobody leaves while there are lines *)

(** A consumer that will look at the buffer before it waits. *)
Definition active (c : cons_t) : bool :=
  match c_pc c with C_cond_wait | C_waiting | C_cancelled | C_cleanup | C_killed => false | _ => true end.
Definition nA (s : pcst) : nat := countb active (conss s).

(** As long as lines are in the buffer, a consumer or a signal is under way. *)
Definition busy (s : pcst) : Prop := pushed s = popped s \/ (0 < nP P_signal s + nA s)%nat.

Lemma nA_set i c c' s :
  conss s !! i = Some c ->
  (nA (set_cons i c' s) + (if active c then 1 else 0) = nA s + (if active c' then 1 else 0))%nat.
Proof. intros H. exact (countb_insert _ _ _ _ _ H). Qed.

Lemma nA_pos i c s : conss s !! i = Some c -> active c = true -> (0 < nA s)%nat.
Proof. intros H Ha. by eapply countb_pos. Qed.

(** Before anyone is cancelled, and when nobody waits, all are active. *)
Lemma all_active s :
  run_inv s -> Forall live (conss s) -> 0 < consumers cl ->
  nC C_waiting s = 0%nat -> nC C_cond_wait s = 0%nat -> (0 < nA s)%nat.
Proof.
  intros [_ Hcs Hnc _] Hl Hc Hw Hcw.
  destruct (lookup_lt_is_Some_2 (conss s) 0) as [c Hcn]; [lia|].
  apply (nA_pos 0 c); [done|]. pose proof (mon_nC_pos _ _ _ Hcn) as Hpos.
  pose proof (Forall_lookup_1 _ _ _ _ Hcs Hcn) as Hx. pose proof (Forall_lookup_1 _ _ _ _ Hl Hcn) as Hy.
  unfold cons_ok, cancelled, live in *. destruct c as [[] l cn]; simpl in *; try done; solve [lia|congruence].
Qed.

Lemma producer_busy cap q i j p s s' :
  pc_inv cap q s -> run_inv s -> time_limit cl = 0 -> 0 < consumers cl -> busy s ->
  prods s !! i = Some p -> producer i j p s = Step s' -> busy s'.
Proof.
  intros Hi Hr Ht Hc Hb Hp Hst.
  assert (p_finished p = false -> Forall live (conss s)) as Hlive.
  { intros Hf. exact (phase_live_conss _ _ _ _ i p Ht (run_phase _ Hr) Hp Hf). }
  pose proof (mon_nP_pos _ _ _ Hp) as Hpos. pose proof (inv_mutex _ _ _ Hi) as Hm.
  pose proof (fun p' => mon_nP_set i p p' s P_signal Hp) as Hset.
  destruct p as [pc file line cn]. unfold producer, lock, on_buf in Hst. unfold busy in *.
  destruct (decide (pc = P_signal)) as [->|Hns].
  - simpl in Hst. right. unfold signal_consumer in Hst. simpl in Hst.
    destruct (existsb waiting_c (conss s)) eqn:Ew.
    + destruct (conss s !! j) as [c|] eqn:Ec; [|done]. destruct (waiting_c c) eqn:Ewc; simplify_eq.
      pose proof (nA_set j _ (goto_c c C_relock) s Ec) as Ha. destruct c as [[] x y]; try done.
      unfold nA in *. simpl in *. lia.
    + simplify_eq. apply Nat.add_pos_r. apply (all_active s Hr); [by apply Hlive|done| |].
      * by apply no_waiting_c.
      * unfold holders in Hm. simpl in Hpos. destruct (locked s); lia.
  - assert (forall f l cn', (0 < nP P_signal (set_prod i (Prod P_signal f l cn') s))%nat) as Hnew.
    { intros f l cn'. specialize (Hset (Prod P_signal f l cn')). destruct pc; simpl in Hset; try done; lia. }
    assert (forall pc' f l cn', (nP P_signal s <= nP P_signal (set_prod i (Prod pc' f l cn') s))%nat) as Hold.
    { intros pc' f l cn'. specialize (Hset (Prod pc' f l cn')). simpl in Hset.
      destruct pc, pc'; simpl in Hset; try done; lia. }
    clear Hm. unfold nP, nA in *. destruct pc; simpl in *; try done; repeat case_match; simplify_eq; simpl in *;
      try (destruct Hb as [|Hb]; [by left|right; eapply Nat.lt_le_trans; [exact Hb|];
        apply Nat.add_le_mono_r, Hold]).
    right. apply Nat.add_pos_l, Hnew.
Qed.

Lemma consumer_busy `{!BoundedFifoLaws B string} cap q i j c s s' :
  pc_inv cap q s -> busy s -> conss s !! i = Some c -> consumer i j c s = Step s' -> busy s'.
Proof.
  intros [Hr Hf Hm Hpf Hce Hcw Hpw Hl Ho] Hb Hc Hst. clear Hm.
  pose proof (mon_nC_pos _ _ _ Hc) as Hpos. pose proof (fun c' => nA_set i c c' s Hc) as Hset.
  pose proof (nA_pos i c s Hc) as Ha.
  destruct c as [pc line cn]. unfold consumer, lock, on_buf, signal_producer, goto_c in Hst.
  assert (pc = C_pop \/ pc = C_cond_wait \/ (pc <> C_pop /\ pc <> C_cond_wait)) as [->|[->|[H1 H2]]]
    by (destruct pc; auto).
  - simpl in Hst. destruct q as [|x q].
    + rewrite (bf_pop_empty cap) in Hst by done. simplify_eq/=. left. simpl. by rewrite Hf, app_nil_r.
    + destruct (bf_pop_ok cap x q (buf s)) as (b' & E & _); [done|]. rewrite E in Hst. simplify_eq/=.
      right. specialize (Hset (Cons C_signal x cn)). specialize (Ha eq_refl).
      unfold nA in *. simpl in *. lia.
  - simplify_eq/=. left. simpl. destruct Hce; [lia|]. destruct q; [|done]. by rewrite Hf, app_nil_r.
  - assert (forall pc' l, active (Cons pc line cn) = true -> active (Cons pc' l cn) = true ->
      0 < countb active (<[i := Cons pc' l cn]> (conss s)))%nat as Hact.
    { intros pc' l Ha1 Ha2. specialize (Hset (Cons pc' l cn)). specialize (Ha Ha1).
      unfold nA in *. simpl in Hset. rewrite Ha1, Ha2 in Hset. lia. }
    assert (forall pc' l, active (Cons pc line cn) = false -> active (Cons pc' l cn) = false ->
      countb active (<[i := Cons pc' l cn]> (conss s)) = nA s) as Hsame.
    { intros pc' l Ha1 Ha2. specialize (Hset (Cons pc' l cn)). unfold nA in *. simpl in Hset.
      rewrite Ha1, Ha2 in Hset. lia. }
    unfold busy, nP, nA in *. destruct pc; simpl in *; try done; repeat case_match; simplify_eq; simpl;
      try (right; apply Nat.add_pos_r, Hact; done); (destruct Hb; [by left|right]); rewrite Hsame; done.
Qed.

(** Without messages, delays and a time limit nothing else disturbs it. *)
Lemma pc_exec_busy `{!BoundedFifoLaws B string} cap q l s s' :
  pc_inv cap q s -> run_inv s -> time_limit cl = 0 -> sleep cl <= 0 -> verbose cl = 0 ->
  0 < consumers cl -> busy s -> pc_exec l s = Step s' -> busy s'.
Proof.
  intros Hi Hr Ht Hsl Hv Hc Hb Hst. pose proof (phase_live _ _ _ _ Ht (run_phase _ Hr)) as Hlive.
  destruct l as [i j|i j| |i|i|i|i]; simpl in Hst;
    try (apply on_thread_Step in Hst as (t & E & Hst));
    [by eapply producer_busy|by eapply consumer_busy| | | | |].
  - unfold run_main in Hst. destruct (runner _ _ _ _) as [[[m ps] cs]| |] eqn:E; simplify_eq.
    unfold busy, nP, nA in *. simpl.
    destruct (runner_changes _ _ _ _ _ _ _ E) as [[-> ->]|[(i & p & Hp & -> & ->)|(i & c & Hc' & -> & ->)]].
    + done.
    + pose proof (countb_insert (fun p => ppc_beq (p_pc p) P_signal) _ _ _ (w_cancel p) Hp) as H.
      cbv beta in H. change (p_pc (w_cancel p)) with (p_pc p) in H.
      destruct Hb; [by left|right; lia].
    + pose proof (countb_insert active _ _ _ (w_cancel c) Hc') as H.
      change (active (w_cancel c)) with (active c) in H. destruct Hb; [by left|right; lia].
  - pose proof (Forall_lookup_1 _ _ _ _ Hlive E) as Hl. unfold live in Hl. simpl in Hl.
    unfold kill_producer in Hst. by rewrite Hl in Hst.
  - pose proof (nA_set i t (goto_c t C_cancelled) s E) as Ha. unfold kill_consumer in Hst.
    assert ((0 <? sleep cl) || negb (verbose cl =? 0) = false) as Hno by lia. rewrite Hno in Hst.
    destruct t as [[] line []]; simpl in *; try done; simplify_eq.
    unfold busy, nP, nA in *. simpl in *. destruct Hb; [by left|right; lia].
  - pose proof (mon_nP_set i t (goto_p t P_relock) s P_signal E) as Hp. unfold wake_producer in Hst.
    destruct t as [[] f line cn]; simplify_eq/=. unfold busy, nP, nA in *. simpl in *.
    destruct Hb; [by left|right; lia].
  - pose proof (nA_set i t (goto_c t C_relock) s E) as Ha. unfold wake_consumer in Hst.
    destruct t as [[] line cn]; simplify_eq/=. unfold busy, nA in *. simpl in *. right. lia.
Qed.

Lemma reach_busy `{!BoundedFifoLaws B string} cap b s :
  bf_rep cap [] b -> time_limit cl = 0 -> sleep cl <= 0 -> verbose cl = 0 -> 0 < consumers cl ->
  reach pc_exec (pc_init b) s -> busy s.
Proof.
  intros Hb Ht Hsl Hv Hc Hs. induction Hs as [|l s s' Hs IH Hst]; [by left|].
  destruct (mon_pc_reach_inv cap b s Hb Hs) as [q Hi].
  eapply pc_exec_busy; [exact Hi|by eapply mon_reach_run_inv|done..].
Qed.

(** ** Properties *)

(** C13.  In every interleaving of the producers, the consumers, the main
    thread, their cancellations and of waits that end by themselves: no call
    on the buffer is undefined; at most one thread owns the mutex; the buffer
    holds, in FIFO order, what was pushed and not yet popped; every popped line is
    in the hand of exactly one consumer or has been dealt with, once; and the
    output is the dealt-with lines that pass [cl_shouldprint], in order. *)
Theorem mon_interleavings_safe `{!BoundedFifoLaws B string} cap b s
  (Hb : bf_rep cap [] b) (Hs : reach pc_exec (pc_init b) s) :
  safe pc_exec s /\ (holders s <= 1)%nat /\
  exists q,
    bf_rep cap q (buf s) /\ Z.of_nat (length q) <= cap /\
    pushed s = popped s ++ q /\
    popped s ≡ₚ consumed s ++ concat (map in_hand (conss s)) /\
    out s = List.filter (cl_shouldprint cl) (consumed s).
Proof.
  destruct (mon_pc_reach_inv cap b s Hb Hs) as [q Hi].
  split; [by eapply mon_pc_inv_safe|]. destruct Hi as [Hr Hf Hm _ _ _ _ Hl Ho].
  split; [destruct (locked s); lia|]. exists q. by pose proof (bf_rep_bound _ _ _ Hr).
Qed.

(** Without messages or without a time limit, with at least one consumer
    and room for at least one line, the program cannot deadlock: no signal is
    lost.  A reachable state in which nothing can happen (but for a wait that ends
    by itself) is one where [run] has returned and every thread has ended, even
    with the time limit that cancels threads while they wait. *)
Theorem mon_no_deadlock `{!BoundedFifoLaws B string} cap b s
  (Hb : bf_rep cap [] b) (Hcap : 0 < cap) (Hq : verbose cl = 0 \/ time_limit cl = 0)
  (Hc : 0 < consumers cl) (Hs : reach pc_exec (pc_init b) s) (Hst : stalled s) :
  main s = M_done /\
  Forall (fun p => p_finished p = true) (prods s) /\
  Forall (fun c => c_finished c = true) (conss s).
Proof.
  destruct (mon_pc_reach_inv cap b s Hb Hs) as [q Hi].
  pose proof (mon_reach_run_inv b s Hs) as Hr. pose proof (mon_mx_not_lost s Hr Hq) as Hmx.
  assert (main s = M_done) as Hm by (by eapply stalled_main). split; [done|].
  pose proof (run_phase _ Hr) as Hph. rewrite Hm in Hph. by destruct Hph as (_ & ? & _ & ?).
Qed.

(** Without a time limit, delays and messages, and with at least one
    consumer, no line is lost: when [run] has returned, the output is, as a
    multiset, exactly the lines of the input (once per producer) that pass
    [cl_shouldprint]. *)
Theorem mon_output_complete `{!BoundedFifoLaws B string} cap b s
  (Hb : bf_rep cap [] b) (Ht : time_limit cl = 0) (Hsl : sleep cl <= 0) (Hv : verbose cl = 0)
  (Hc : 0 < consumers cl) (Hs : reach pc_exec (pc_init b) s) (Hdone : main s = M_done) :
  out s ≡ₚ List.filter (cl_shouldprint cl) all_lines.
Proof.
  destruct (mon_pc_reach_inv cap b s Hb Hs) as [q Hi].
  pose proof (mon_reach_flow b s Ht Hs) as Hpd. unfold flow_inv in Hpd.
  pose proof (reach_busy cap b s Hb Ht Hsl Hv Hc Hs) as Hbusy.
  pose proof (run_phase _ (mon_reach_run_inv b s Hs)) as Hm. rewrite Hdone in Hm.
  destruct Hm as (_ & Hfp & _ & Hfc). unfold finished in Hfp, Hfc. simpl in Hfp, Hfc.
  assert (pushed s = popped s) as Heq.
  { destruct Hbusy as [|Hn]; [done|exfalso].
    assert (nP P_signal s = 0%nat) as H1.
    { apply countb_zero. intros i p Hp. pose proof (Forall_lookup_1 _ _ _ _ Hfp Hp) as Hx.
      by destruct p as [[]]. }
    assert (nA s = 0%nat) as H2; [|lia].
    apply countb_zero. intros i c Hp. pose proof (Forall_lookup_1 _ _ _ _ Hfc Hp) as Hx.
    by destruct c as [[]]. }
  assert (concat (map pending (prods s)) = []) as Ep.
  { apply concat_map_nil, (Forall_impl _ _ _ Hfp). by intros [[]]. }
  assert (concat (map in_hand (conss s)) = []) as Ec.
  { apply concat_map_nil, (Forall_impl _ _ _ Hfc). by intros [[]]. }
  rewrite Ep, app_nil_r in Hpd. destruct Hi as [_ _ _ _ _ _ _ Hl Ho]. rewrite Ec, app_nil_r in Hl.
  rewrite Ho. apply filter_perm. by rewrite <- Hpd, Heq, Hl.
Qed.
End Monitor.
Arguments pcst B : clear implicits.

(** ** The program over the ring buffer *)

Definition mon_ring : ring string := Ring (Some [""%string]) 1 0 0.
Definition mon_input : option (list string) := Some ["hello"%string].
Definition mon_cl (limit verb slp : Z) : Cl.cl := Cl 1 1 1 "input" (-1) GT limit verb slp.

Lemma mon_ring_rep : ring_rep 1 [] mon_ring.
Proof.
  exists [""%string]. unfold ring_cap_max. simpl. repeat split; try lia.
  intros k x. by rewrite lookup_nil.
Qed.

(** With a delay, the consumer is cancelled while it still sleeps: the producer
    has pushed its line and ended, and main cancels whoever is left. *)
Definition sleeping_schedule : list pc_label :=
  [LProd 0 0; LProd 0 0; LProd 0 0; LProd 0 0; LProd 0 0; LProd 0 0; LProd 0 0; LProd 0 0;
   LMain; LMain; LMain; LMain; LMain; LKillC 0; LMain; LMain].

(** With a delay lines can be lost without a time limit: there is a run
    that ends normally in which the consumer, which starts with a delay, is
    cancelled before it ever looks at the buffer, although the line that should
    be printed is in it. *)
Theorem mon_sleeping_consumer_loses_line :
  exists s,
    reach (pc_exec (mon_cl 0 0 1) mon_input) (pc_init (mon_cl 0 0 1) mon_ring) s /\
    main s = M_done /\ cl_shouldprint (mon_cl 0 0 1) "hello" = true /\
    pushed s = ["hello"%string] /\ out s = [].
Proof.
  destruct (run (pc_exec (mon_cl 0 0 1) mon_input) sleeping_schedule
              (pc_init (mon_cl 0 0 1) mon_ring)) as [s|] eqn:E; [|by vm_compute in E].
  exists s. split; [by eapply run_reachable|].
  vm_compute in E. by injection E as <-.
Qed.

(** The time is up while the producer writes its message about the line it has
    pushed, with the mutex. *)
Definition mon_hanging_schedule : list pc_label :=
  [LCons 0 0; LProd 0 0; LProd 0 0; LProd 0 0; LProd 0 0; LProd 0 0;
   LMain; LMain; LMain; LMain; LMain; LKillP 0; LMain; LMain].

(** With a time limit and messages the program can hang: there is a run
    that ends in a state where nothing can happen and the main thread still waits
    for the consumer, because the producer was cancelled with the mutex locked,
    outside the section that [unlock_mx] guards. *)
Theorem mon_cancelled_holding_mutex :
  exists s,
    reach (pc_exec (mon_cl 1 1 0) mon_input) (pc_init (mon_cl 1 1 0) mon_ring) s /\
    stuck (pc_exec (mon_cl 1 1 0) mon_input) s /\
    main s = M_join_consumers 0 /\ locked s = true /\
    prods s = [Prod P_killed_mx [] "hello" true].
Proof.
  destruct (run (pc_exec (mon_cl 1 1 0) mon_input) mon_hanging_schedule
              (pc_init (mon_cl 1 1 0) mon_ring)) as [s|] eqn:E; [|by vm_compute in E].
  exists s. split; [by eapply run_reachable|].
  vm_compute in E. injection E as <-. split; [|done].
  intros [[|i] j|[|i] j| |[|i]|[|i]|[|i]|[|i]]; by vm_compute.
Qed.

(** A complete run: the consumer waits first, then the producer's signal wakes
    it; the line is printed, the consumer waits again and is cancelled there. *)
Definition mon_schedule : list pc_label :=
  [LCons 0 0; LCons 0 0; LCons 0 0; LCons 0 0;
   LProd 0 0; LProd 0 0; LProd 0 0; LProd 0 0; LProd 0 0; LProd 0 0; LProd 0 0; LProd 0 0;
   LMain; LMain; LMain;
   LCons 0 0; LCons 0 0; LCons 0 0; LCons 0 0; LCons 0 0; LCons 0 0; LCons 0 0; LCons 0 0;
   LMain; LMain; LKillC 0; LCons 0 0; LCons 0 0; LMain; LMain].

Definition mon_end : pcst (ring string) :=
  match run (pc_exec (mon_cl 0 0 0) mon_input) mon_schedule (pc_init (mon_cl 0 0 0) mon_ring) with
  | Some s => s
  | None => pc_init (mon_cl 0 0 0) mon_ring
  end.

Lemma mon_reach :
  reach (pc_exec (mon_cl 0 0 0) mon_input) (pc_init (mon_cl 0 0 0) mon_ring) mon_end.
Proof. apply (run_reachable _ _ mon_schedule). by vm_compute. Qed.

Lemma mon_stalled : stalled (mon_cl 0 0 0) mon_input mon_end.
Proof. intros [[|i] j|[|i] j| |[|i]|[|i]|[|i]|[|i]] _; by vm_compute. Qed.

Lemma mon_interleavings_safe_witness :
  safe (pc_exec (mon_cl 0 0 0) mon_input) mon_end /\ (holders mon_end <= 1)%nat.
Proof.
  destruct (mon_interleavings_safe (BF := ring_fifo) (mon_cl 0 0 0) mon_input 1 mon_ring mon_end
              mon_ring_rep mon_reach) as (Hsafe & Hh & _).
  exact (conj Hsafe Hh).
Defined.

Lemma mon_no_deadlock_witness : main mon_end = M_done.
Proof.
  apply (mon_no_deadlock (BF := ring_fifo) (mon_cl 0 0 0) mon_input 1 mon_ring mon_end mon_ring_rep);
    [lia|left; reflexivity|reflexivity|exact mon_reach|exact mon_stalled].
Defined.

Lemma mon_output_complete_witness : out mon_end ≡ₚ ["hello"%string].
Proof.
  apply (mon_output_complete (BF := ring_fifo) (mon_cl 0 0 0) mon_input 1 mon_ring mon_end mon_ring_rep);
    [reflexivity|simpl; lia|reflexivity|reflexivity|exact mon_reach|reflexivity].
Defined.
