(* ===== verification/ProdConsMain.v ===== *)
(** The programs of cw09/zad1 as a whole: [main] of main-sem.c and of
    main-monitor.c from the command line to the exit, with logger.c and the
    creation of the threads in runner.c.  In between run the threads of
    [ProdConsSem] and of [ProdConsMon]. *)
From S2P Require Import Prelude Fifo RingBuffer CString Scan Cl ClText Runner ProdConsSem ProdConsLive ProdConsMon.
From Stdlib Require Import Ascii String.
#[local] Open Scope string_scope.
#[local] Open Scope Z_scope.
Local Abbreviation length := Datatypes.length.

(** The lines [getline] reads from a file, each with its newline. *)
Fixpoint getlines (s : string) : list string :=
  match s with
  | "" => []
  | String c s' =>
      if Ascii.eqb c NL then String c "" :: getlines s'
      else match getlines s' with [] => [String c ""] | l :: ls => String c l :: ls end
  end.

(** Whether [buffer_mx], [producer_line] and [consumer_line] have been
    initialised: three semaphores, or a mutex and two conditions. *)
Record objects := Objects { buffer_mx_ok : bool; producer_line_ok : bool; consumer_line_ok : bool }.

(** What the system answers: the contents of files, whether memory, the objects
    (in the order they are initialised in) and the threads (in the order they
    are created in) can be had, and the text that [perror] adds. *)
Record platform := Platform {
  stdin : string;
  fopen : string -> option string;
  calloc_ok : Z -> bool;
  object_ok : nat -> bool;
  thread_ok : nat -> bool;
  strerror : string -> string;
}.

(** The globals of a program, and what it has written. *)
Record mst := Mst {
  m_cl : cl;
  logger_cl : bool;        (* not the null pointer: [&cl] *)
  m_ring : ring string;
  m_objs : objects;
  m_out : list string;     (* stdout *)
  m_err : list string;     (* stderr *)
}.

Definition cl_zero : cl := Cl 0 0 0 "" 0 GT 0 0 0.

(** Objects with static storage start as zero. *)
Definition mst_zero : mst := Mst cl_zero false ring_zero (Objects false false false) [] [].

Definition set_m_cl c m := Mst c (logger_cl m) (m_ring m) (m_objs m) (m_out m) (m_err m).
Definition set_logger m := Mst (m_cl m) true (m_ring m) (m_objs m) (m_out m) (m_err m).
Definition set_m_ring r m := Mst (m_cl m) (logger_cl m) r (m_objs m) (m_out m) (m_err m).
Definition set_m_objs o m := Mst (m_cl m) (logger_cl m) (m_ring m) o (m_out m) (m_err m).
Definition puts x m := Mst (m_cl m) (logger_cl m) (m_ring m) (m_objs m) (m_out m ++ [x])%list (m_err m).
Definition eputs x m := Mst (m_cl m) (logger_cl m) (m_ring m) (m_objs m) (m_out m) (m_err m ++ [x])%list.

(** A call of a function of cl.c or of buffer.c. *)
Definition on_part {S A} (part : mst -> S) (back : S -> mst -> mst) (f : cm S A) : cm mst A :=
  fun m => match f (part m) with
           | Done a s => Done a (back s m)
           | Exited e s => Exited e (back s m)
           | Undef u => Undef u
           | NoFuel => NoFuel
           end.

(** ** logger.c *)

(** [if(!logger_cl->verbose) return;] then the message. *)
Definition when_verbose (write : cm mst unit) : cm mst unit :=
  m ← Prelude.get;
  check (logger_cl m) UB_null ;;
  if verbose (m_cl m) =? 0 then mret tt else write.

Definition log_info (data : string) : cm mst unit := when_verbose (modify (eputs (data ++ nl))).
Definition log_consumer (id : Z) (data : string) : cm mst unit :=
  when_verbose (modify (puts ("[C " ++ print_int id ++ "] " ++ data ++ nl))).
Definition log_producer (id : Z) (data : string) : cm mst unit :=
  when_verbose (modify (puts ("[P " ++ print_int id ++ "] " ++ data ++ nl))).

(** ** What the threads write *)

Inductive event :=
  | Info (data : string)                  (* log_info *)
  | FromConsumer (i : nat) (data : string)
  | FromProducer (i : nat) (data : string)
  | Perror (data : string)                (* perror *)
  | Line (line : string).                 (* printf("%s\n", line) *)

Definition perror (sys : platform) (data : string) : cm mst unit :=
  modify (eputs (data ++ ": " ++ strerror sys data ++ nl)).

Definition write (sys : platform) (e : event) : cm mst unit :=
  match e with
  | Perror data => perror sys data
  | Info data => log_info data
  | FromConsumer i data => log_consumer (Z.of_nat i) data
  | FromProducer i data => log_producer (Z.of_nat i) data
  | Line line => modify (puts (line ++ nl))
  end.

Fixpoint write_all (sys : platform) (es : list event) : cm mst unit :=
  match es with [] => mret tt | e :: es => write sys e ;; write_all sys es end.

(** The messages of [run]. *)
Definition run_says (m m' : mpc) : list event :=
  match m, m' with
  | M_start, M_cancel_producers _ => [Info "Time is up"]
  | M_cancel_consumers _, M_join_producers _ => [Info "Threads cancelled"]
  | M_cancel_consumers _, M_join_consumers _ => [Info "Consumers cancelled"]
  | M_join_producers _, M_join_consumers _ => [Info "Producers finished"]
  | M_join_producers _, M_cancel_consumers _ => [Info "Producers finished"]
  | M_join_consumers _, M_done => [Info "Consumers finished"]
  | _, _ => []
  end.

Definition printed (e : event) : option string := match e with Line l => Some l | _ => None end.

(** What the threads of a schedule write, with [says] for a step. *)
Section Transcript.
Context {L S : Type} (exec : L -> S -> sres S) (says : L -> S -> S -> list event).

Fixpoint transcript (ls : list L) (s : S) : list event :=
  match ls with
  | [] => []
  | l :: ls =>
      match exec l s with Step s' => (says l s s' ++ transcript ls s')%list | _ => [] end
  end.
End Transcript.

(** [producer] of main-sem.c: a message is written with the step it comes
    after; but [Pushed] with the call after it, since a thread that is cancelled
    in between does not write it. *)
Definition sem_producer_says (input : option (list string)) (i : nat) (p : ProdConsSem.prod_t) : list event :=
  match ProdConsSem.p_pc p with
  | ProdConsSem.P_start =>
      [FromProducer i "Initializing";
       match input with
       | None => Perror "Cannot open file from producer"
       | Some _ => FromProducer i "File opened, reading..."
       end]
  | ProdConsSem.P_getline =>
      match ProdConsSem.p_file p with
      | [] => [FromProducer i "No more lines to produce, exiting..."]
      | _ => []
      end
  | ProdConsSem.P_unlock0 => [FromProducer i "Buffer is full, waiting..."]
  | ProdConsSem.P_unlock => [FromProducer i "Pushed"]
  | _ => []
  end.

(** [consumer] of main-sem.c. *)
Definition sem_consumer_says (c : cl) (i : nat) (t : ProdConsSem.cons_t) : list event :=
  match ProdConsSem.c_pc t with
  | ProdConsSem.C_start => [FromConsumer i "Initializing"]
  | ProdConsSem.C_unlock0 => [FromConsumer i "Buffer empty, waiting..."]
  | ProdConsSem.C_post => [FromConsumer i "Popped"]
  | ProdConsSem.C_print =>
      if cl_shouldprint c (ProdConsSem.c_line t) then [Line (ProdConsSem.c_line t)] else []
  | _ => []
  end.

Definition sem_says (c : cl) (input : option (list string)) {B} (l : ProdConsSem.pc_label)
    (s s' : ProdConsSem.pcst B) : list event :=
  match l with
  | ProdConsSem.LProd i =>
      match ProdConsSem.prods s !! i with Some p => sem_producer_says input i p | None => [] end
  | ProdConsSem.LCons i =>
      match ProdConsSem.conss s !! i with Some t => sem_consumer_says c i t | None => [] end
  | ProdConsSem.LMain => run_says (ProdConsSem.main s) (ProdConsSem.main s')
  | ProdConsSem.LKillP _ | ProdConsSem.LKillC _ => []
  end.

(** [producer] of main-monitor.c, which writes its messages before it waits,
    signals or returns. *)
Definition mon_producer_says (input : option (list string)) (i : nat) (p : ProdConsMon.prod_t) : list event :=
  match ProdConsMon.p_pc p with
  | ProdConsMon.P_start =>
      [FromProducer i "Initializing";
       match input with
       | None => Perror "Cannot open file from producer"
       | Some _ => FromProducer i "File opened, reading..."
       end]
  | ProdConsMon.P_getline =>
      match ProdConsMon.p_file p with
      | [] => [FromProducer i "No more lines to produce, exiting..."]
      | _ => []
      end
  | ProdConsMon.P_cond_wait => [FromProducer i "Buffer is full, waiting..."]
  | ProdConsMon.P_signal => [FromProducer i "Pushed"]
  | _ => []
  end.

(** [consumer] of main-monitor.c. *)
Definition mon_consumer_says (c : cl) (i : nat) (t : ProdConsMon.cons_t) : list event :=
  match ProdConsMon.c_pc t with
  | ProdConsMon.C_start => [FromConsumer i "Initializing"]
  | ProdConsMon.C_cond_wait => [FromConsumer i "Buffer empty, waiting..."]
  | ProdConsMon.C_signal => [FromConsumer i "Popped"]
  | ProdConsMon.C_print =>
      if cl_shouldprint c (ProdConsMon.c_line t) then [Line (ProdConsMon.c_line t)] else []
  | _ => []
  end.

Definition mon_says (c : cl) (input : option (list string)) {B} (l : ProdConsMon.pc_label)
    (s s' : ProdConsMon.pcst B) : list event :=
  match l with
  | ProdConsMon.LProd i _ =>
      match ProdConsMon.prods s !! i with Some p => mon_producer_says input i p | None => [] end
  | ProdConsMon.LCons i _ =>
      match ProdConsMon.conss s !! i with Some t => mon_consumer_says c i t | None => [] end
  | ProdConsMon.LMain => run_says (ProdConsMon.main s) (ProdConsMon.main s')
  | _ => []
  end.

(** ** The main thread *)

Section Main.
Context (sys : platform).

(** [cleanup], called by [exit] and by the return from [main]: in this order
    [sem_destroy] or [pthread_cond_destroy] of the two lines, and
    [sem_destroy] or [pthread_mutex_destroy] of [buffer_mx].  Each is only
    defined for an object that has been initialised. *)
Definition cleanup : cm mst unit :=
  o ← gets m_objs;
  check (producer_line_ok o) UB_uninit ;;
  check (consumer_line_ok o) UB_uninit ;;
  check (buffer_mx_ok o) UB_uninit ;;
  modify (set_m_objs (Objects false false false)).

(** [exit(code)], or [return code] in [main]. *)
Definition leave {A} (code : Z) : cm mst A := cleanup ;; exit_ code.

(** What follows [logger_cl = &cl] up to [buffer_init], whose result is not
    looked at. *)
Definition initialize (argv : list string) : cm mst unit :=
  modify set_logger ;;
  r ← on_part m_cl set_m_cl (cl_initialize (stdin sys) (fopen sys) argv);
  (if (r : Z) =? 0 then mret tt
   else modify (eputs ("Failed to initialize command line" ++ nl)) ;; leave (-1)) ;;
  size ← gets (fun m => Cl.buffer_size (m_cl m));
  _ ← on_part m_ring set_m_ring (buffer_init ""%string (calloc_ok sys) size);
  mret tt.

(** An object is initialised, unless the system refuses. *)
Definition init_object (k : nat) (set : objects -> objects) : cm mst bool :=
  if object_ok sys k then modify (fun m => set_m_objs (set (m_objs m)) m) ;; mret true
  else mret false.

Definition with_mx o := Objects true (producer_line_ok o) (consumer_line_ok o).
Definition with_producer_line o := Objects (buffer_mx_ok o) true (consumer_line_ok o).
Definition with_consumer_line o := Objects (buffer_mx_ok o) (producer_line_ok o) true.

(** [if (a != 0 || b != 0) { perror(msg); exit(-1); }] *)
Definition or_die (msg : string) (inits : list (cm mst bool)) : cm mst unit :=
  ok ← foldr (fun (i rest : cm mst bool) => b ← i; if (b : bool) then rest else mret false) (mret true) inits;
  if (ok : bool) then mret tt else perror sys msg ;; leave (-1).

(** The two loops of [run] that create threads, [n] at a time. *)
Fixpoint create_threads (first n : nat) : cm mst unit :=
  match n with
  | O => mret tt
  | S n' =>
      if thread_ok sys first then create_threads (S first) n'
      else perror sys "Cannot create a thread" ;; leave (-1)
  end.

(** [run] up to the end of the creation of threads: three arrays whose size is
    the number of threads, and must not be zero or less. *)
Definition run_create : cm mst unit :=
  c ← gets m_cl;
  check (0 <? consumers c) UB_bounds ;;
  check (0 <? producers c) UB_bounds ;;
  create_threads 0 (Z.to_nat (consumers c)) ;;
  create_threads (Z.to_nat (consumers c)) (Z.to_nat (producers c)).

(** [main] of main-sem.c up to the threads. *)
Definition sem_main (argv : list string) : cm mst unit :=
  initialize argv ;;
  or_die "Cannot initialize a semaphore"
    [init_object 0 with_mx; init_object 1 with_producer_line; init_object 2 with_consumer_line] ;;
  run_create.

(** [main] of main-monitor.c up to the threads. *)
Definition mon_main (argv : list string) : cm mst unit :=
  initialize argv ;;
  or_die "Cannot initialize a mutex" [init_object 0 with_mx] ;;
  or_die "Cannot initialize a cond" [init_object 1 with_consumer_line; init_object 2 with_producer_line] ;;
  run_create.

(** The end of either [main], when [run] has returned. *)
Definition return_main : cm mst unit := log_info "Done" ;; leave 0.

(** What a producer can read of its file. *)
Definition input_of (c : cl) : option (list string) := getlines <$> fopen sys (Cl.filename c).

(** main-sem.c from its start, the threads going as [ls] says: [Some s] when
    [run] has not returned by then. *)
Definition sem_program (argv : list string) (ls : list ProdConsSem.pc_label) : cm mst (option (ProdConsSem.pcst (ring string))) :=
  sem_main argv ;;
  c ← gets m_cl;
  b ← gets m_ring;
  let exec := ProdConsSem.pc_exec c (input_of c) in
  let s0 := ProdConsSem.pc_init c b in
  write_all sys (transcript exec (sem_says c (input_of c)) ls s0) ;;
  match run exec ls s0 with
  | None => mret None
  | Some s =>
      match ProdConsSem.main s with M_done => return_main ;; mret None | _ => mret (Some s) end
  end.

(** main-monitor.c in the same way. *)
Definition mon_program (argv : list string) (ls : list ProdConsMon.pc_label) : cm mst (option (ProdConsMon.pcst (ring string))) :=
  mon_main argv ;;
  c ← gets m_cl;
  b ← gets m_ring;
  let exec := ProdConsMon.pc_exec c (input_of c) in
  let s0 := ProdConsMon.pc_init c b in
  write_all sys (transcript exec (mon_says c (input_of c)) ls s0) ;;
  match run exec ls s0 with
  | None => mret None
  | Some s =>
      match ProdConsMon.main s with M_done => return_main ;; mret None | _ => mret (Some s) end
  end.
End Main.

(** ** Lemmas *)

Lemma clean_lookup (m : mst) : set_m_ring (m_ring m) m = m.
Proof. by destruct m. Qed.

(** What a message adds to the standard output, with [cl.verbose] set or not. *)
Definition shown (verb : Z) (e : event) : option string :=
  let say x := if verb =? 0 then None else Some x in
  match e with
  | FromConsumer i data => say ("[C " ++ print_int (Z.of_nat i) ++ "] " ++ data ++ nl)
  | FromProducer i data => say ("[P " ++ print_int (Z.of_nat i) ++ "] " ++ data ++ nl)
  | Line line => Some (line ++ nl)
  | Info _ | Perror _ => None
  end.

(** Writing changes nothing but the output. *)
Lemma write_all_done sys es m : logger_cl m = true ->
  exists err, write_all sys es m =
    Done tt (Mst (m_cl m) true (m_ring m) (m_objs m) (m_out m ++ omap (shown (verbose (m_cl m))) es)%list err).
Proof.
  revert m. induction es as [|e es IH]; intros [c lg r o out err] Hl; simpl in Hl; subst lg.
  - exists err. cbn. by rewrite app_nil_r.
  - cbn [write_all]. unfold mbind, cm_bind.
    assert (exists err', write sys e (Mst c true r o out err) =
      Done tt (Mst c true r o (out ++ omap (shown (verbose c)) [e])%list err')) as [err' ->].
    { destruct e; cbn; unfold log_info, log_consumer, log_producer, when_verbose, mbind, cm_bind; cbn;
        try destruct (verbose c =? 0); cbn; rewrite ?app_nil_r; by eexists. }
    destruct (IH (Mst c true r o (out ++ omap (shown (verbose c)) [e])%list err') eq_refl) as [err2 ->].
    exists err2. cbn [m_cl m_ring m_objs m_out]. rewrite <- app_assoc. cbn [omap list_omap].
    by destruct (shown (verbose c) e).
Qed.

Lemma shown_quiet es : omap (shown 0) es = map (fun l => l ++ nl) (omap printed es).
Proof. induction es as [|[] es IH]; cbn; by rewrite ?IH. Qed.

(** *** The threads' output and their messages *)

Lemma transcript_out {L S} exec (says : L -> S -> S -> list event) (out : S -> list string) :
  (forall l s s', exec l s = Step s' -> out s' = (out s ++ omap printed (says l s s'))%list) ->
  forall ls s s', run exec ls s = Some s' -> out s' = (out s ++ omap printed (transcript exec says ls s))%list.
Proof.
  intros Hstep ls. induction ls as [|l ls IH]; intros s s' H; simplify_eq/=; [by rewrite app_nil_r|].
  destruct (exec l s) as [s1| |] eqn:E; simplify_eq. rewrite (IH s1 s' H), (Hstep _ _ _ E), omap_app. by rewrite app_assoc.
Qed.

Lemma run_says_quiet m m' : omap printed (run_says m m') = [].
Proof. by destruct m, m'. Qed.

Lemma sem_says_out {B} `{BF : BoundedFifo B string} c input l (s s' : ProdConsSem.pcst B) :
  ProdConsSem.pc_exec c input l s = Step s' ->
  ProdConsSem.out s' = (ProdConsSem.out s ++ omap printed (sem_says c input l s s'))%list.
Proof.
  intros H. destruct l as [i|i| |i|i]; cbn in H.
  - destruct (_ !! i) as [p|] eqn:E; [|done]. cbn [sem_says]. rewrite E.
    unfold ProdConsSem.producer, ProdConsSem.on_buf, sem_producer_says in *.
    destruct (ProdConsSem.p_pc p); repeat case_match; simplify_eq/=; by rewrite app_nil_r.
  - destruct (_ !! i) as [t|] eqn:E; [|done]. cbn [sem_says]. rewrite E.
    unfold ProdConsSem.consumer, ProdConsSem.on_buf, sem_consumer_says in *.
    destruct (ProdConsSem.c_pc t); repeat case_match; simplify_eq/=; rewrite ?app_nil_r; by repeat case_match.
  - cbn [sem_says]. rewrite run_says_quiet, app_nil_r. unfold ProdConsSem.run_main in H. repeat case_match; by simplify_eq/=.
  - cbn. rewrite app_nil_r. destruct (_ !! i) as [p|]; [|done]. unfold ProdConsSem.kill_producer in H. repeat case_match; by simplify_eq/=.
  - cbn. rewrite app_nil_r. destruct (_ !! i) as [p|]; [|done]. unfold ProdConsSem.kill_consumer in H. repeat case_match; by simplify_eq/=.
Qed.

Lemma mon_says_out {B} `{BF : BoundedFifo B string} c input l (s s' : ProdConsMon.pcst B) :
  ProdConsMon.pc_exec c input l s = Step s' ->
  ProdConsMon.out s' = (ProdConsMon.out s ++ omap printed (mon_says c input l s s'))%list.
Proof.
  intros H. destruct l as [i j|i j| |i|i|i|i]; cbn in H; unfold ProdConsMon.on_thread in H.
  - destruct (_ !! i) as [p|] eqn:E; [|done]. cbn [mon_says]. rewrite E.
    unfold ProdConsMon.producer, ProdConsMon.on_buf, ProdConsMon.lock, ProdConsMon.signal_consumer, mon_producer_says in *.
    destruct (ProdConsMon.p_pc p); repeat case_match; simplify_eq/=; by rewrite app_nil_r.
  - destruct (_ !! i) as [t|] eqn:E; [|done]. cbn [mon_says]. rewrite E.
    unfold ProdConsMon.consumer, ProdConsMon.on_buf, ProdConsMon.lock, ProdConsMon.signal_producer, mon_consumer_says in *.
    destruct (ProdConsMon.c_pc t); repeat case_match; simplify_eq/=; rewrite ?app_nil_r; by repeat case_match.
  - cbn [mon_says]. rewrite run_says_quiet, app_nil_r. unfold ProdConsMon.run_main in H. repeat case_match; by simplify_eq/=.
  - cbn. rewrite app_nil_r. destruct (_ !! i) as [p|]; [|done]. unfold ProdConsMon.kill_producer in H. repeat case_match; by simplify_eq/=.
  - cbn. rewrite app_nil_r. destruct (_ !! i) as [p|]; [|done]. unfold ProdConsMon.kill_consumer in H. repeat case_match; by simplify_eq/=.
  - cbn. rewrite app_nil_r. destruct (_ !! i) as [p|]; [|done]. unfold ProdConsMon.wake_producer in H. repeat case_match; by simplify_eq/=.
  - cbn. rewrite app_nil_r. destruct (_ !! i) as [p|]; [|done]. unfold ProdConsMon.wake_consumer in H. repeat case_match; by simplify_eq/=.
Qed.

(** *** From the command line to the threads *)

Section Start.
Context (sys : platform).

(** The buffer that [buffer_init] leaves. *)
Definition ring_after (size : Z) : ring string :=
  match buffer_init ""%string (calloc_ok sys) size ring_zero with Done _ b => b | _ => ring_zero end.

Lemma buffer_init_done size : exists code, buffer_init ""%string (calloc_ok sys) size ring_zero = Done code (ring_after size).
Proof. unfold ring_after, buffer_init, mbind, cm_bind, Prelude.get, put, mret, cm_ret. destruct (calloc_ok sys _); by eexists. Qed.

Definition all_initialized : objects := Objects true true true.
Definition no_objects : objects := Objects false false false.

(** Where the configuration has been read, the objects and the threads can be
    had. *)
Definition objects_ok : bool := object_ok sys 0 && object_ok sys 1 && object_ok sys 2.
Definition started (c : cl) (o : objects) (err : list string) : mst := Mst c true (ring_after (Cl.buffer_size c)) o [] err.

(** What becomes of [main] up to the threads. *)
Definition start_outcome (r : Z) (c : cl) : outcome mst unit :=
  if negb (r =? 0) || negb objects_ok then Undef UB_uninit
  else if (consumers c <=? 0) || (producers c <=? 0) then Undef UB_bounds
  else if forallb (thread_ok sys) (seq 0 (Z.to_nat (consumers c) + Z.to_nat (producers c)))
  then Done tt (started c all_initialized [])
  else Exited (-1) (started c no_objects ["Cannot create a thread: " ++ strerror sys "Cannot create a thread" ++ nl]).

Lemma cleanup_all c err : cleanup (started c all_initialized err) = Done tt (started c no_objects err).
Proof. done. Qed.

Lemma create_threads_eq c n first :
  create_threads sys first n (started c all_initialized []) =
  if forallb (thread_ok sys) (seq first n) then Done tt (started c all_initialized [])
  else Exited (-1) (started c no_objects ["Cannot create a thread: " ++ strerror sys "Cannot create a thread" ++ nl]).
Proof. revert first. induction n as [|n IH]; intros first; [done|]. cbn. destruct (thread_ok sys first); [apply IH|done]. Qed.

Lemma run_create_eq c :
  run_create sys (started c all_initialized []) =
  if (consumers c <=? 0) || (producers c <=? 0) then Undef UB_bounds
  else if forallb (thread_ok sys) (seq 0 (Z.to_nat (consumers c) + Z.to_nat (producers c)))
  then Done tt (started c all_initialized [])
  else Exited (-1) (started c no_objects ["Cannot create a thread: " ++ strerror sys "Cannot create a thread" ++ nl]).
Proof.
  unfold run_create, mbind, cm_bind, gets. cbn [m_cl started]. rewrite !Z.leb_antisym.
  destruct (0 <? consumers c); [|done]. destruct (0 <? producers c); [|done]. unfold check, mret, cm_ret. cbn [negb orb].
  rewrite create_threads_eq, seq_app, forallb_app. destruct (forallb _ (seq 0 (Z.to_nat (consumers c)))); [|done].
  by rewrite create_threads_eq.
Qed.

(** A structure that has not been initialised is destroyed. *)
Lemma leave_uninit {A} code m : m_objs m <> all_initialized -> leave (A := A) code m = Undef UB_uninit.
Proof. destruct m as [c l r [[] [] []] out err]; done. Qed.

Lemma initialize_eq argv r c : cl_initialize (stdin sys) (fopen sys) argv cl_zero = Done r c ->
  initialize sys argv mst_zero = if r =? 0 then Done tt (started c no_objects []) else Undef UB_uninit.
Proof.
  intros H. unfold initialize, mbind, cm_bind, modify, on_part. cbn [m_cl set_logger mst_zero]. rewrite H.
  destruct (r =? 0); [|done]. unfold mret, cm_ret, gets. cbn [m_cl set_m_cl m_ring set_logger mst_zero].
  destruct (buffer_init_done (Cl.buffer_size c)) as [code E]. by rewrite E.
Qed.

(** The two programs start alike. *)
Lemma sem_main_eq argv r c : cl_initialize (stdin sys) (fopen sys) argv cl_zero = Done r c ->
  sem_main sys argv mst_zero = start_outcome r c.
Proof.
  intros H. unfold sem_main, mbind, cm_bind, start_outcome, objects_ok. rewrite (initialize_eq _ _ _ H).
  destruct (r =? 0); [|done]. cbn [negb orb].
  unfold or_die, foldr, init_object, mbind, cm_bind, modify, mret, cm_ret.
  destruct (object_ok sys 0); [|done]. destruct (object_ok sys 1); [|done]. destruct (object_ok sys 2); [|done].
  apply run_create_eq.
Qed.

Lemma mon_main_eq argv r c : cl_initialize (stdin sys) (fopen sys) argv cl_zero = Done r c ->
  mon_main sys argv mst_zero = start_outcome r c.
Proof.
  intros H. unfold mon_main, mbind, cm_bind, start_outcome, objects_ok. rewrite (initialize_eq _ _ _ H).
  destruct (r =? 0); [|done]. cbn [negb orb].
  unfold or_die, foldr, init_object, mbind, cm_bind, modify, mret, cm_ret.
  destruct (object_ok sys 0); [|done]. destruct (object_ok sys 1); [|done]. destruct (object_ok sys 2); [|done].
  apply run_create_eq.
Qed.
End Start.

(** *** The file that is read *)

Definition file_text (lines : list string) : string := foldr (fun l t => l ++ nl ++ t) "" lines.

Definition line_ok (l : string) : Prop := str_all no_nl l = true.

Lemma getlines_cons l t : line_ok l -> getlines (l ++ nl ++ t) = (l ++ nl) :: getlines t.
Proof.
  unfold line_ok. induction l as [|x l IH]; [done|]. simpl. intros [Hx Hl]%andb_true_iff.
  unfold no_nl in Hx. destruct (Ascii.eqb x NL); [done|]. by rewrite (IH Hl).
Qed.

Lemma strip_line_nl l : line_ok l -> strip_line (l ++ nl) = if streq l "" then None else Some l.
Proof.
  intros Hl. destruct (String.eqb_spec l "") as [->|Hn]; [done|]. unfold strip_line, streq.
  apply String.eqb_neq in Hn as Hb. rewrite Hb.
  change (strtok (l ++ nl) nl) with (strtok (l ++ nl) (String NL "")). by rewrite (strtok_eq l NL nl).
Qed.

Lemma file_text_lines lines : Forall line_ok lines ->
  length (getlines (file_text lines)) = length lines /\
  strip_lines (getlines (file_text lines)) = List.filter (fun l => negb (streq l "")) lines.
Proof.
  induction 1 as [|l lines Hl _ [IH1 IH2]]; [done|]. cbn [file_text foldr]. rewrite getlines_cons by done. split.
  - cbn [length]. by f_equal.
  - unfold strip_lines in *. cbn [omap list_omap List.filter]. rewrite strip_line_nl by done. change (foldr _ _ _) with (file_text lines).
    destruct (streq l ""); cbn [negb]; [done|]. by f_equal.
Qed.

(** ** The programs *)

(** What is printed of a list of lines. *)
Definition selected (c : cl) (lines : list string) : list string :=
  map (fun l => l ++ nl) (List.filter (cl_shouldprint c) lines).

(** The lines that are not empty, once for each producer. *)
Definition input_lines (c : cl) (lines : list string) : list string :=
  List.concat (replicate (Z.to_nat (producers c)) (List.filter (fun l => negb (streq l "")) lines)).

(** The circumstances of a run: the configuration [c] in the file [path], the
    lines in the file it names, and a system with the resources. *)
Record setting (sys : platform) (path : string) (c : cl) (lines : list string) : Prop := {
  st_config : config_ok c;
  st_path : fopen sys path = Some (config_text c);
  st_file : fopen sys (Cl.filename c) = Some (file_text lines);
  st_lines : Forall line_ok lines;
  st_threads : 0 < producers c /\ 0 < consumers c;
  st_size : 0 < Cl.buffer_size c <= ring_cap_max;
  st_calloc : calloc_ok sys (8 * Cl.buffer_size c) = true;
  st_objects : forall k, object_ok sys k = true;
  st_created : forall k, thread_ok sys k = true;
}.

Section Settings.
Context {sys : platform} {path : string} {c : cl} {lines : list string} (prog : string).
Context (Hs : setting sys path c lines).

Lemma setting_start : start_outcome sys 0 c = Done tt (started sys c all_initialized []).
Proof using Hs.
  unfold start_outcome, objects_ok. rewrite !(st_objects _ _ _ _ Hs). destruct (st_threads _ _ _ _ Hs) as [Hp Hc]. cbn [andb negb orb].
  rewrite (proj2 (Z.leb_gt _ _) Hp), (proj2 (Z.leb_gt _ _) Hc). cbn.
  replace (forallb _ _) with true; [done|]. symmetry. apply forallb_forall. intros k _. apply (st_created _ _ _ _ Hs).
Qed.

Lemma setting_init : cl_initialize (stdin sys) (fopen sys) [prog; path] cl_zero = Done 0 c.
Proof using Hs. unfold cl_initialize. rewrite (st_path _ _ _ _ Hs). unfold mbind, cm_bind. by rewrite read_config_text by apply Hs. Qed.

Lemma setting_ring : ring_rep (Cl.buffer_size c) [] (ring_after sys (Cl.buffer_size c)).
Proof using Hs.
  destruct (buffer_init_rep ""%string (calloc_ok sys) (Cl.buffer_size c)) as (r & E & Hr); [pose proof (st_size _ _ _ _ Hs); lia|apply Hs|].
  unfold ring_after. by rewrite E.
Qed.

Lemma setting_input : input_of sys c = Some (getlines (file_text lines)).
Proof using Hs. unfold input_of. by rewrite (st_file _ _ _ _ Hs). Qed.

Lemma return_main_done out err : return_main (Mst c true (ring_after sys (Cl.buffer_size c)) all_initialized out err) =
  Exited 0 (Mst c true (ring_after sys (Cl.buffer_size c)) no_objects out (err ++ (if verbose c =? 0 then [] else [("Done" ++ nl)%string]))%list).
Proof.
  unfold return_main, log_info, when_verbose, mbind, cm_bind. cbn. destruct (verbose c =? 0); cbn; by rewrite ?app_nil_r.
Qed.
End Settings.

Section SemProgram.
Context {sys : platform} {path : string} {c : cl} {lines : list string} (prog : string).
Local Abbreviation exec := (ProdConsSem.pc_exec (B := ring string) c (input_of sys c)).
Local Abbreviation start := (ProdConsSem.pc_init c (ring_after sys (Cl.buffer_size c))).

Lemma sem_program_eq ls s : setting sys path c lines -> run exec ls start = Some s ->
  exists err, sem_program sys [prog; path] ls mst_zero =
    let out := omap (shown (verbose c)) (transcript exec (sem_says c (input_of sys c)) ls start) in
    match ProdConsSem.main s with
    | M_done => Exited 0 (Mst c true (ring_after sys (Cl.buffer_size c)) no_objects out err)
    | _ => Done (Some s) (Mst c true (ring_after sys (Cl.buffer_size c)) all_initialized out err)
    end.
Proof.
  intros Hs Hrun. unfold sem_program, mbind, cm_bind. rewrite (sem_main_eq _ _ _ _ (setting_init prog Hs)), (setting_start Hs).
  cbn [gets started m_cl m_ring]. rewrite Hrun.
  destruct (write_all_done sys (transcript exec (sem_says c (input_of sys c)) ls start) (started sys c all_initialized []) eq_refl) as [err E].
  unfold started in *. cbn [m_cl m_ring m_objs m_out app] in E. rewrite E.
  destruct (ProdConsSem.main s); try by exists err. rewrite return_main_done. by eexists.
Qed.

Lemma sem_transcript_out ls s : run exec ls start = Some s ->
  ProdConsSem.out s = omap printed (transcript exec (sem_says c (input_of sys c)) ls start).
Proof. intros H. by rewrite (transcript_out exec (sem_says c (input_of sys c)) ProdConsSem.out (sem_says_out c (input_of sys c)) _ _ _ H). Qed.
End SemProgram.


Section MonProgram.
Context {sys : platform} {path : string} {c : cl} {lines : list string} (prog : string).
Local Abbreviation exec := (ProdConsMon.pc_exec (B := ring string) c (input_of sys c)).
Local Abbreviation start := (ProdConsMon.pc_init c (ring_after sys (Cl.buffer_size c))).

Lemma mon_program_eq ls s : setting sys path c lines -> run exec ls start = Some s ->
  exists err, mon_program sys [prog; path] ls mst_zero =
    let out := omap (shown (verbose c)) (transcript exec (mon_says c (input_of sys c)) ls start) in
    match ProdConsMon.main s with
    | M_done => Exited 0 (Mst c true (ring_after sys (Cl.buffer_size c)) no_objects out err)
    | _ => Done (Some s) (Mst c true (ring_after sys (Cl.buffer_size c)) all_initialized out err)
    end.
Proof.
  intros Hs Hrun. unfold mon_program, mbind, cm_bind. rewrite (mon_main_eq _ _ _ _ (setting_init prog Hs)), (setting_start Hs).
  cbn [gets started m_cl m_ring]. rewrite Hrun.
  destruct (write_all_done sys (transcript exec (mon_says c (input_of sys c)) ls start) (started sys c all_initialized []) eq_refl) as [err E].
  unfold started in *. cbn [m_cl m_ring m_objs m_out app] in E. rewrite E.
  destruct (ProdConsMon.main s); try by exists err. rewrite return_main_done. by eexists.
Qed.

Lemma mon_transcript_out ls s : run exec ls start = Some s ->
  ProdConsMon.out s = omap printed (transcript exec (mon_says c (input_of sys c)) ls start).
Proof. intros H. by rewrite (transcript_out exec (mon_says c (input_of sys c)) ProdConsMon.out (mon_says_out c (input_of sys c)) _ _ _ H). Qed.
End MonProgram.




(** The run of [ProdConsSem], with its files. *)
Definition main_cl : cl := Cl 1 1 1 "input" (-1) GT 0 0 0.
Definition main_sys : platform :=
  Platform "" (fun p => if streq p "config1" then Some (config_text main_cl) else Some (file_text ["hello"]))
    (fun _ => true) (fun _ => true) (fun _ => true) (fun x => x).

Lemma main_config : config_ok main_cl.
Proof. split; [repeat constructor; by vm_compute|by split|done]. Qed.

Lemma main_setting : setting main_sys "config1" main_cl ["hello"].
Proof.
  split; [exact main_config|done|done|by constructor|by split|by vm_compute|done|by intros|by intros].
Qed.

Definition sem_main_end : ProdConsSem.pcst (ring string) :=
  match run (ProdConsSem.pc_exec main_cl (input_of main_sys main_cl)) ProdConsSem.demo_schedule
          (ProdConsSem.pc_init main_cl (ring_after main_sys 1)) with
  | Some s => s
  | None => ProdConsSem.pc_init main_cl ring_zero
  end.

Lemma sem_main_run : run (ProdConsSem.pc_exec main_cl (input_of main_sys main_cl)) ProdConsSem.demo_schedule
  (ProdConsSem.pc_init main_cl (ring_after main_sys 1)) = Some sem_main_end.
Proof. vm_compute. reflexivity. Qed.

Lemma sem_main_stuck : stuck (ProdConsSem.pc_exec main_cl (input_of main_sys main_cl)) sem_main_end.
Proof. intros [[|i]|[|i]| |[|i]|[|i]]; by vm_compute. Qed.


Definition mon_main_end : ProdConsMon.pcst (ring string) :=
  match run (ProdConsMon.pc_exec main_cl (input_of main_sys main_cl)) mon_schedule
          (ProdConsMon.pc_init main_cl (ring_after main_sys 1)) with
  | Some s => s
  | None => ProdConsMon.pc_init main_cl ring_zero
  end.

Lemma mon_main_run : run (ProdConsMon.pc_exec main_cl (input_of main_sys main_cl)) mon_schedule
  (ProdConsMon.pc_init main_cl (ring_after main_sys 1)) = Some mon_main_end.
Proof. vm_compute. reflexivity. Qed.

Lemma mon_main_stalled : stalled main_cl (input_of main_sys main_cl) mon_main_end.
Proof. intros [[|i] j|[|i] j| |[|i]|[|i]|[|i]|[|i]] _; by vm_compute. Qed.

