(* ===== verification/Connection.v ===== *)
(** Message framing: cw10/zad1/src/connection.c and connection.h, in both
    builds (TCP from cw10/zad1, UDP, [CONF_DATAGRAM], from cw10/zad2). *)
From S2P Require Import Prelude.
#[local] Open Scope Z_scope.

Definition DATAGRAM_SIZE : Z := 256.
Definition MSG_TYPE_REGISTER : Z := 0.
Definition MSG_TYPE_UNREGISTER : Z := 1.
Definition MSG_TYPE_PING : Z := 2.
Definition MSG_TYPE_PONG : Z := 3.
Definition MSG_TYPE_NAMEINUSE : Z := 4.
Definition MSG_TYPE_RESPONSE : Z := 5.
Definition MSG_TYPE_REQUEST : Z := 6.
Definition MSG_TYPE_SHUTDOWN : Z := 7.

(** [struct addr_t]: the bytes of the union, and [len]. *)
Record addr_t := Addr { addr_len : Z; addr_bytes : list Z }.

(** [struct socket_message]: [buffer] has [DATAGRAM_SIZE] bytes, each 0..255. *)
Record socket_message := SM { sm_addr : addr_t; sm_length : Z; sm_buffer : list Z }.

Definition sm_wf (sm : socket_message) : Prop :=
  0 <= sm_length sm < 65536 /\ Z.of_nat (length (sm_buffer sm)) = DATAGRAM_SIZE.

(** A datagram with the address it comes from. *)
Record datagram := Dgram { dg_from : addr_t; dg_data : list Z }.

(** The sockets, as the calls of this file see them: a stream socket is the
    bytes that will arrive before the peer closes or the timeout passes (and
    those sent), a datagram socket is a queue of datagrams. *)
Record stream := Stream { rx : list Z; tx : list Z }.
Record dsock := DSock { rxq : list datagram; txq : list (addr_t * list Z) }.

(** [recv(sock, buf, n, MSG_WAITALL)]: all of the [n] bytes unless the stream
    ends before. *)
Definition recv_all (n : Z) : cm stream (list Z) :=
  s ← get;
  let data := take (Z.to_nat n) (rx s) in
  put (Stream (drop (Z.to_nat n) (rx s)) (tx s)) ;;
  mret data.

Definition send_all (data : list Z) : cm stream unit :=
  modify (fun s => Stream (rx s) (tx s ++ data)).

(** [receive_sm] on TCP: the length as two bytes, then the content, written
    to [sm->buffer] whatever its size.  [sm] is what the caller's variable
    held; the result is the code and what it holds after. *)
Definition receive_sm_stream (sm : socket_message) : cm stream (Z * socket_message) :=
  lb ← recv_all 2;
  if negb (Z.of_nat (length lb) =? 2) then mret (-1, sm)
  else
    let len := le_val lb in
    let sm := SM (sm_addr sm) len (sm_buffer sm) in
    data ← recv_all len;
    check (Z.of_nat (length data) <=? Z.of_nat (length (sm_buffer sm))) UB_bounds ;;
    let sm := SM (sm_addr sm) len (overwrite (sm_buffer sm) 0 data) in
    if negb (Z.of_nat (length data) =? len) then mret (-1, sm) else mret (0, sm).

(** [send_sm] on TCP, on a socket that takes what it is given. *)
Definition send_sm_stream (sm : socket_message) : cm stream Z :=
  send_all (le_bytes 2 (sm_length sm)) ;;
  check (sm_length sm <=? Z.of_nat (length (sm_buffer sm))) UB_bounds ;;
  send_all (take (Z.to_nat (sm_length sm)) (sm_buffer sm)) ;;
  mret 0.

(** [receive_sm] on UDP.  [stack] is what the local [buffer] holds before:
    only the bytes that arrive are written over it. *)
Definition receive_sm_dgram (stack : list Z) (sm : socket_message)
    : cm dsock (Z * socket_message) :=
  s ← get;
  match rxq s with
  | [] => mret (-1, sm)
  | d :: q =>
      put (DSock q (txq s)) ;;
      let data := take (Z.to_nat DATAGRAM_SIZE) (dg_data d) in
      if Z.of_nat (length data) <=? 0 then mret (-1, sm)
      else
        let buffer := overwrite stack 0 data in
        mret (0, SM (dg_from d) (le_val (take 2 buffer))
                (overwrite (sm_buffer sm) 0
                   (take (Z.to_nat (DATAGRAM_SIZE - 2)) (drop 2 buffer))))
  end.

(** [send_sm] on UDP: the last two bytes of [sm->buffer] do not fit. *)
Definition send_sm_dgram (sm : socket_message) : cm dsock Z :=
  let buffer := le_bytes 2 (sm_length sm) ++
                take (Z.to_nat (DATAGRAM_SIZE - 2)) (sm_buffer sm) in
  modify (fun s => DSock (rxq s) (txq s ++ [(sm_addr sm, buffer)])) ;;
  mret 0.

(** The content of a message: what [sm_length] says is meaningful. *)
Definition content (sm : socket_message) : list Z :=
  take (Z.to_nat (sm_length sm)) (sm_buffer sm).

(** Sending a list of messages, and receiving [n] of them into one variable. *)
Fixpoint send_all_sm (ms : list socket_message) : cm stream unit :=
  match ms with
  | [] => mret tt
  | m :: ms' => _ ← send_sm_stream m; send_all_sm ms'
  end.
Fixpoint receive_all_sm (n : nat) (sm : socket_message) : cm stream (list (Z * list Z)) :=
  match n with
  | O => mret []
  | S n' =>
      r ← receive_sm_stream sm;
      rest ← receive_all_sm n' r.2;
      mret ((r.1, content r.2) :: rest)
  end.

(** ** Lemmas *)

Definition fits (n : Z) (sm : socket_message) : Prop :=
  0 <= sm_length sm <= n /\ Z.of_nat (length (sm_buffer sm)) = DATAGRAM_SIZE.

Definition frame (sm : socket_message) : list Z := le_bytes 2 (sm_length sm) ++ content sm.

Lemma length_content sm :
  fits DATAGRAM_SIZE sm -> Z.of_nat (length (content sm)) = sm_length sm.
Proof. intros [? ?]. unfold content. rewrite length_take. lia. Qed.

Lemma send_sm_stream_spec sm s :
  fits DATAGRAM_SIZE sm ->
  send_sm_stream sm s = Done 0 (Stream (rx s) (tx s ++ frame sm)).
Proof.
  intros [Hl Hb]. unfold send_sm_stream, send_all. cm_step.
  destruct (Z.leb_spec (sm_length sm) (Z.of_nat (length (sm_buffer sm)))); [|lia].
  cm_step. unfold frame, content. by rewrite <- app_assoc.
Qed.

Lemma receive_sm_stream_spec sm0 sm rest t :
  fits DATAGRAM_SIZE sm -> Z.of_nat (length (sm_buffer sm0)) = DATAGRAM_SIZE ->
  exists sm',
    receive_sm_stream sm0 (Stream (frame sm ++ rest) t) = Done (0, sm') (Stream rest t) /\
    sm_length sm' = sm_length sm /\ content sm' = content sm /\
    Z.of_nat (length (sm_buffer sm')) = DATAGRAM_SIZE.
Proof.
  intros Hf Hb. pose proof (length_content _ Hf) as Hc. destruct Hf as [Hl Hsb].
  unfold receive_sm_stream, recv_all, frame. cm_step.
  assert (le_val (le_bytes 2 (sm_length sm)) = sm_length sm) as E.
  { apply le_val_bytes_small. simpl. unfold DATAGRAM_SIZE in *. lia. }
  change (Z.to_nat 2) with 2%nat.
  change (le_bytes 2 (sm_length sm)) with
    [sm_length sm mod 256; sm_length sm / 256 mod 256] in *.
  simpl. simpl in E. rewrite E.
  assert (length (content sm) = Z.to_nat (sm_length sm)) as Hcl by lia.
  rewrite !drop_0.
  assert (take (Z.to_nat (sm_length sm)) (content sm ++ rest) = content sm) as ->
    by (rewrite <- Hcl; apply take_app_length).
  assert (drop (Z.to_nat (sm_length sm)) (content sm ++ rest) = rest) as ->
    by (rewrite <- Hcl; apply drop_app_length).
  rewrite Hc.
  destruct (Z.leb_spec (sm_length sm) (Z.of_nat (length (sm_buffer sm0)))); [|lia].
  cm_step. rewrite Z.eqb_refl. cm_step. eexists. split; [done|].
  simpl. split; [done|]. split.
  - unfold content at 1. simpl. rewrite <- Hcl.
    pose proof (overwrite_read (sm_buffer sm0) 0 (content sm)) as Hw. simpl in Hw.
    apply Hw. lia.
  - rewrite length_overwrite; [done|]. simpl. lia.
Qed.

(** C30.  Framing over TCP: the bytes produced by any sequence of [send_sm], each
    with a content that fits its buffer, are cut back by [receive_sm] into the
    same sequence of contents, in order, whatever the receiving variable held
    before, and nothing is left over or taken from what follows. *)
Theorem stream_framing_round_trip (ms : list socket_message) (sm0 : socket_message) (rest : list Z)
  (Hms : Forall (fits DATAGRAM_SIZE) ms)
  (Hb : Z.of_nat (length (sm_buffer sm0)) = DATAGRAM_SIZE) :
  exists wire,
    send_all_sm ms (Stream [] []) = Done tt (Stream [] wire) /\
    receive_all_sm (length ms) sm0 (Stream (wire ++ rest) []) =
      Done (map (fun m => (0, content m)) ms) (Stream rest []).
Proof.
  exists (concat (map frame ms)). split.
  - assert (forall t, send_all_sm ms (Stream [] t) = Done tt (Stream [] (t ++ concat (map frame ms)))) as H.
    { induction Hms as [|m ms Hm _ IH]; intros t; simpl; [by rewrite app_nil_r|].
      unfold mbind, cm_bind. rewrite send_sm_stream_spec by done. simpl.
      by rewrite IH, <- app_assoc. }
    by rewrite H.
  - revert sm0 Hb. induction Hms as [|m ms Hm _ IH]; intros sm0 Hb; [done|].
    cbn [map concat receive_all_sm length].
    destruct (receive_sm_stream_spec sm0 m (concat (map frame ms) ++ rest) [] Hm Hb)
      as (sm' & E & Hl & Hc & Hb').
    rewrite <- app_assoc. unfold mbind, cm_bind. rewrite E. simpl. rewrite IH by done.
    by rewrite Hc.
Qed.

(** Framing over UDP: one datagram carries one message; a content of at
    most 254 bytes arrives as it was, with the address of its sender, whatever
    the receiver's variables held. *)
Theorem datagram_round_trip (sm sm0 : socket_message) (stack : list Z) (from : addr_t)
  (Hf : fits (DATAGRAM_SIZE - 2) sm)
  (Hb : Z.of_nat (length (sm_buffer sm0)) = DATAGRAM_SIZE)
  (Hs : Z.of_nat (length stack) = DATAGRAM_SIZE) :
  exists data sm',
    send_sm_dgram sm (DSock [] []) = Done 0 (DSock [] [(sm_addr sm, data)]) /\
    receive_sm_dgram stack sm0 (DSock [Dgram from data] []) = Done (0, sm') (DSock [] []) /\
    sm_addr sm' = from /\ sm_length sm' = sm_length sm /\ content sm' = content sm.
Proof.
  destruct Hf as [Hl Hsb]. unfold DATAGRAM_SIZE in *.
  exists (le_bytes 2 (sm_length sm) ++ take 254 (sm_buffer sm)). eexists. split; [done|].
  assert (length (take 254 (sm_buffer sm)) = 254%nat) as Ht by (rewrite length_take; lia).
  unfold receive_sm_dgram. cm_step. unfold DATAGRAM_SIZE. simpl.
  change (Z.to_nat 256) with 256%nat. change (Z.to_nat (256 - 2)) with 254%nat.
  rewrite (take_ge (take 254 (sm_buffer sm))) by (rewrite Ht; done).
  destruct (Z.leb_spec (Z.of_nat (S (S (length (take 254 (sm_buffer sm)))))) 0); [lia|].
  split; [done|]. split; [done|].
  unfold overwrite at 1. simpl.
  assert (le_val (le_bytes 2 (sm_length sm)) = sm_length sm) as E.
  { apply le_val_bytes_small. simpl. lia. }
  split; [exact E|]. simpl in E. unfold content. simpl. rewrite E.
  unfold overwrite. simpl.
  rewrite drop_0, (take_app_le (take 254 (sm_buffer sm))) by lia.
  rewrite (take_ge (take 254 (sm_buffer sm))) by lia.
  rewrite take_app_le by lia. rewrite take_take. f_equal. lia.
Qed.

(** Neither [receive_sm] nor its callers bound the length field on TCP: a
    peer that announces more than 256 bytes and sends at least 257 of them makes
    [receive_sm] write outside [sm->buffer]. *)
Theorem receive_sm_stream_overflow (sm : socket_message) (len : Z) (data : list Z) (t : list Z)
  (Hb : Z.of_nat (length (sm_buffer sm)) = DATAGRAM_SIZE)
  (Hlen : DATAGRAM_SIZE < len < 65536) (Hd : DATAGRAM_SIZE < Z.of_nat (length data)) :
  receive_sm_stream sm (Stream (le_bytes 2 len ++ data) t) = Undef UB_bounds.
Proof.
  unfold receive_sm_stream, recv_all, DATAGRAM_SIZE in *. cm_step.
  assert (le_val (le_bytes 2 len) = len) as E by (apply le_val_bytes_small; simpl; lia).
  change (Z.to_nat 2) with 2%nat.
  change (le_bytes 2 len) with [len mod 256; len / 256 mod 256] in *.
  simpl. simpl in E. rewrite E. rewrite length_take.
  rewrite length_drop. simpl. rewrite Nat.sub_0_r.
  destruct (Z.leb_spec (Z.of_nat (Z.to_nat len `min` length data)) (Z.of_nat (length (sm_buffer sm)))); [lia|].
  done.
Qed.

Definition demo_sm (n : Z) (b : Z) : socket_message :=
  SM (Addr 0 []) n (replicate 256 b).

Lemma stream_framing_round_trip_witness :
  exists wire,
    send_all_sm [demo_sm 3 7; demo_sm 0 8; demo_sm 256 9] (Stream [] []) = Done tt (Stream [] wire) /\
    receive_all_sm 3 (demo_sm 0 0) (Stream (wire ++ [1; 2]) []) =
      Done [(0, [7; 7; 7]); (0, []); (0, replicate 256 9)] (Stream [1; 2] []).
Proof.
  apply (stream_framing_round_trip [demo_sm 3 7; demo_sm 0 8; demo_sm 256 9] (demo_sm 0 0) [1; 2]).
  - repeat constructor; vm_compute; congruence.
  - reflexivity.
Defined.

Lemma datagram_round_trip_witness :
  exists data sm',
    send_sm_dgram (demo_sm 254 7) (DSock [] []) = Done 0 (DSock [] [(Addr 0 [], data)]) /\
    receive_sm_dgram (replicate 256 1) (demo_sm 0 0) (DSock [Dgram (Addr 2 [5; 6]) data] []) =
      Done (0, sm') (DSock [] []) /\
    sm_addr sm' = Addr 2 [5; 6] /\ sm_length sm' = 254 /\ content sm' = replicate 254 7.
Proof.
  apply (datagram_round_trip (demo_sm 254 7) (demo_sm 0 0) (replicate 256 1) (Addr 2 [5; 6]));
    [|reflexivity|reflexivity].
  split; [vm_compute; split; congruence|reflexivity].
Defined.

Lemma receive_sm_stream_overflow_witness :
  receive_sm_stream (demo_sm 0 0) (Stream (le_bytes 2 300 ++ replicate 300 65) []) = Undef UB_bounds.
Proof.
  apply (receive_sm_stream_overflow (demo_sm 0 0) 300 (replicate 300 65) []);
    [reflexivity|vm_compute; split; congruence|vm_compute; congruence].
Defined.
