(* ===== verification/Float64.v ===== *)
(** The C type [double]: IEEE 754 binary64 values as their 64-bit patterns,
    with the arithmetic of [SpecFloat] (round to nearest even), and [strtod]. *)
From S2P Require Import Prelude CString.
From Stdlib Require Import Ascii String SpecFloat.
#[local] Open Scope string_scope.
#[local] Open Scope Z_scope.

Definition sf_of_bits (b : Z) : spec_float :=
  let s := Z.testbit b 63 in
  let e := (b / 2 ^ 52) mod 2 ^ 11 in
  let m := b mod 2 ^ 52 in
  if e =? 2047 then if m =? 0 then S754_infinity s else S754_nan
  else if e =? 0 then
    match m with Zpos p => S754_finite s p (-1074) | _ => S754_zero s end
  else match m + 2 ^ 52 with Zpos p => S754_finite s p (e - 1075) | _ => S754_nan end.

(** A NaN result is the quiet NaN with a clear sign and payload. *)
Definition bits_of_sf (f : spec_float) : Z :=
  let sign (s : bool) := if s then 2 ^ 63 else 0 in
  match f with
  | S754_zero s => sign s
  | S754_infinity s => sign s + 2047 * 2 ^ 52
  | S754_nan => 2047 * 2 ^ 52 + 2 ^ 51
  | S754_finite s m e =>
      if Zpos m <? 2 ^ 52 then sign s + Zpos m
      else sign s + (e + 1075) * 2 ^ 52 + (Zpos m - 2 ^ 52)
  end.

Definition dbl_op (f : spec_float -> spec_float -> spec_float) (a b : Z) : Z :=
  bits_of_sf (f (sf_of_bits a) (sf_of_bits b)).
Definition dadd : Z -> Z -> Z := dbl_op (SFadd 53 1024).
Definition dsub : Z -> Z -> Z := dbl_op (SFsub 53 1024).
Definition dmul : Z -> Z -> Z := dbl_op (SFmul 53 1024).
Definition ddiv : Z -> Z -> Z := dbl_op (SFdiv 53 1024).

(** The double nearest to [m * 2^e] and to [m * 10^e], for [m >= 0]. *)
Definition dbl_of_bin (neg : bool) (m e : Z) : spec_float :=
  if m =? 0 then S754_zero neg
  else binary_normalize 53 1024 (if neg then - m else m) e neg.

Definition dbl_of_dec (neg : bool) (m e : Z) : spec_float :=
  if m =? 0 then S754_zero neg
  else if 400 <? e then S754_infinity neg           (* beyond the range: m >= 1 *)
  else if e + Z.log2 m <? -1500 then S754_zero neg  (* below half the least double *)
  else if 0 <=? e then dbl_of_bin neg (m * 10 ^ e) 0
  else
    let '(mz, ez, lz) := SFdiv_core_binary 53 1024 m 0 (10 ^ (- e)) 0 in
    binary_round_aux 53 1024 neg mz ez lz.

(** ** [strtod] *)

Definition lower (c : ascii) : ascii :=
  let n := chr c in
  if (65 <=? n) && (n <=? 90) then ascii_of_N (Z.to_N (n + 32)) else c.

(** What follows the prefix [p], compared without case. *)
Fixpoint prefix_ci (p s : string) : option string :=
  match p, s with
  | "", _ => Some s
  | String c p', String d s' => if Ascii.eqb c (lower d) then prefix_ci p' s' else None
  | _, "" => None
  end.

Definition hexval (c : ascii) : option Z :=
  let n := chr (lower c) in
  if isdigit c then Some (n - 48)
  else if (97 <=? n) && (n <=? 102) then Some (n - 87) else None.
Definition isxdigit (c : ascii) : bool := match hexval c with Some _ => true | None => false end.

Fixpoint hex_val (s : string) (acc : Z) : Z :=
  match s with
  | "" => acc
  | String c s' => hex_val s' (16 * acc + default 0 (hexval c))
  end.

Definition span (f : ascii -> bool) (s : string) : string * string :=
  break_at (fun c => negb (f c)) s.

(** Digits, a point, digits: the two groups and the rest, if there is a digit. *)
Definition mantissa (dig : ascii -> bool) (s : string) : option (string * string * string) :=
  let '(ip, r) := span dig s in
  let '(fp, r') := match r with String "." t => span dig t | _ => ("", r) end in
  if streq ip "" && streq fp "" then None
  else Some (ip, fp, r').

(** An optional exponent introduced by [c]: its value and the rest. *)
Definition exponent (c : ascii) (s : string) : Z * string :=
  match s with
  | String d t =>
      if Ascii.eqb c (lower d) then
        let '(neg, t1) :=
          match t with String "-" u => (true, u) | String "+" u => (false, u) | _ => (false, t) end in
        let '(ds, r) := span isdigit t1 in
        if streq ds "" then (0, s)
        else (if neg then - digits_val ds 0 else digits_val ds 0, r)
      else (0, s)
  | "" => (0, s)
  end.

Definition decimal (neg : bool) (s : string) : option (spec_float * string) :=
  '(ip, fp, r) ← mantissa isdigit s;
  let '(e, r') := exponent "e" r in
  Some (dbl_of_dec neg (digits_val (ip ++ fp) 0) (e - strlen fp), r').

Definition hexadecimal (neg : bool) (s : string) : option (spec_float * string) :=
  t ← prefix_ci "0x" s;
  '(ip, fp, r) ← mantissa isxdigit t;
  let '(e, r') := exponent "p" r in
  Some (dbl_of_bin neg (hex_val (ip ++ fp) 0) (e - 4 * strlen fp), r').

Definition isword (c : ascii) : bool :=
  let n := chr (lower c) in isdigit c || ((97 <=? n) && (n <=? 122)) || (n =? 95).

Definition special (neg : bool) (s : string) : option (spec_float * string) :=
  match prefix_ci "infinity" s with
  | Some r => Some (S754_infinity neg, r)
  | None =>
      match prefix_ci "inf" s with
      | Some r => Some (S754_infinity neg, r)
      | None =>
          r ← prefix_ci "nan" s;
          match r with
          | String "(" t =>
              match (span isword t).2 with
              | String ")" u => Some (S754_nan, u)
              | _ => Some (S754_nan, r)
              end
          | _ => Some (S754_nan, r)
          end
      end
  end.

(** The value, as its bits, and where the conversion stops; 0 and the string
    itself when nothing can be converted. *)
Definition strtod (s : string) : Z * string :=
  let s0 := skip_while isspace s in
  let '(neg, s1) :=
    match s0 with String "-" t => (true, t) | String "+" t => (false, t) | _ => (false, s0) end in
  let first {A} (a b : option A) : option A := match a with Some _ => a | None => b end in
  match first (special neg s1) (first (hexadecimal neg s1) (decimal neg s1)) with
  | Some (f, r) => (bits_of_sf f, r)
  | None => (0, s)
  end.

Example strtod_1 : strtod " 1.5e1xyz" = (bits_of_sf (S754_finite false 8444249301319680 (-49)), "xyz").
Proof. vm_compute. reflexivity. Qed.
Example strtod_2 : strtod "0.1" = (0x3FB999999999999A, "").
Proof. vm_compute. reflexivity. Qed.
Example strtod_3 : strtod "-0x1.8p3" = (0xC028000000000000, "").
Proof. vm_compute. reflexivity. Qed.
Example strtod_4 : strtod "1e23." = (0x44B52D02C7E14AF6, ".").
Proof. vm_compute. reflexivity. Qed.
Example strtod_5 : strtod "4.9e-324" = (1, "") /\ strtod "1e309" = (0x7FF0000000000000, "") /\
  strtod "abc" = (0, "abc") /\ strtod "1.7976931348623157e308 " = (0x7FEFFFFFFFFFFFFF, " ") /\
  strtod "+inf" = (0x7FF0000000000000, "") /\ strtod "2.4703282292062327e-324" = (0, "").
Proof. vm_compute. repeat split. Qed.
Example dadd_1 : dadd (strtod "0.1").1 (strtod "0.2").1 = (strtod "0.30000000000000004").1.
Proof. vm_compute. reflexivity. Qed.
Example ddiv_1 : ddiv (strtod "1").1 0 = 0x7FF0000000000000 /\ dmul (strtod "3").1 (strtod "-7").1 = (strtod "-21").1
  /\ dsub (strtod "1e-320").1 (strtod "1e-320").1 = 0.
Proof. vm_compute. repeat split. Qed.

(** ** Decimal integers *)

(** Characters that end a number: none of them continues one. *)
Definition ends_number (c : ascii) : bool :=
  Ascii.eqb c " " || Ascii.eqb c NL || Ascii.eqb c "+" || Ascii.eqb c "-" ||
  Ascii.eqb c "*" || Ascii.eqb c "/".

Lemma ends_number_inv c :
  ends_number c = true -> c = " "%char \/ c = NL \/ c = "+"%char \/ c = "-"%char \/
    c = "*"%char \/ c = "/"%char.
Proof.
  unfold ends_number. rewrite !orb_true_iff, !Ascii.eqb_eq. tauto.
Qed.

Lemma mantissa_digits a b :
  str_all isdigit a = true -> a <> "" -> starts ends_number b = true ->
  mantissa isdigit (a ++ b) = Some (a, "", b).
Proof.
  intros Ha Hn Hb. unfold mantissa, span. rewrite break_at_app.
  - destruct a as [|c a]; [done|].
    destruct b as [|d b]; [done|].
    apply ends_number_inv in Hb. by destruct Hb as [->|[->|[->|[->|[->| ->]]]]].
  - eapply str_all_mono; [|done]. intros c ->. done.
  - destruct b as [|d b]; [done|].
    apply ends_number_inv in Hb. by destruct Hb as [->|[->|[->|[->|[->| ->]]]]].
Qed.

(** The ten cases of a digit. *)
Ltac digit_case c Hc :=
  destruct c as [[] [] [] [] [] [] [] []]; try (by vm_compute in Hc).

Lemma digit_not_x c : isdigit c = true -> Ascii.eqb "x" (lower c) = false.
Proof. intros Hc. by digit_case c Hc. Qed.

Lemma hexadecimal_digit c s :
  isdigit c = true -> starts (fun d => negb (Ascii.eqb "x" (lower d))) s = true ->
  hexadecimal false (String c s) = None.
Proof.
  intros Hc Hs. unfold hexadecimal.
  assert (prefix_ci "0x" (String c s) = None) as ->; [|done].
  change (prefix_ci "0x" (String c s)) with
    (if Ascii.eqb "0" (lower c) then prefix_ci "x" s else None).
  destruct (Ascii.eqb "0" (lower c)); [|done]. destruct s as [|d s]; [done|].
  change (prefix_ci "x" (String d s)) with (if Ascii.eqb "x" (lower d) then Some s else None).
  change (negb (Ascii.eqb "x" (lower d)) = true) in Hs.
  by destruct (Ascii.eqb "x" (lower d)).
Qed.

(** A digit starts neither a sign nor a name, and "0x" only with an "x". *)
Lemma strtod_digits a b :
  str_all isdigit a = true -> a <> "" -> starts ends_number b = true ->
  strtod (a ++ b) = (bits_of_sf (dbl_of_dec false (digits_val a 0) 0), b).
Proof.
  intros Ha Hn Hb. unfold strtod.
  assert (decimal false (a ++ b) = Some (dbl_of_dec false (digits_val a 0) 0, b)) as Hd.
  { unfold decimal. rewrite mantissa_digits by done. simpl.
    assert (exponent "e" b = (0, b)) as ->.
    { destruct b as [|d b]; [done|].
      apply ends_number_inv in Hb. by destruct Hb as [->|[->|[->|[->|[->| ->]]]]]. }
    by rewrite str_app_nil_r. }
  destruct a as [|c a]; [done|]. simpl in Ha. apply andb_true_iff in Ha as [Hc Ha].
  rewrite skip_while_starts by exact (f_equal negb (digit_not_space c Hc)).
  assert (hexadecimal false (String c a ++ b) = None) as Hh.
  { apply hexadecimal_digit; [done|]. destruct a as [|c' a].
    - destruct b as [|x b]; [done|].
      apply ends_number_inv in Hb. by destruct Hb as [->|[->|[->|[->|[->| ->]]]]].
    - simpl in Ha. apply andb_true_iff in Ha as [Hc' _].
      exact (f_equal negb (digit_not_x c' Hc')). }
  clear Ha Hb Hn. change (String c a ++ b) with (String c (a ++ b)) in *.
  by digit_case c Hc; cbn -[hexadecimal decimal dbl_of_dec digits_val bits_of_sf] in *;
    rewrite Hh, Hd.
Qed.
