(* ===== verification/Request.v ===== *)
(** Arithmetic requests: cw10/zad1/src/request.c and request.h, with the bytes
    that [memcpy] moves between the structures and a message. *)
From S2P Require Import Prelude CString Float64 Connection.
From Stdlib Require Import Ascii.
#[local] Open Scope string_scope.
#[local] Open Scope Z_scope.

(** [enum request_type]: an unsigned int, any value of which can arrive in a
    message. *)
Definition ADDITION : Z := 0.
Definition SUBTRACTION : Z := 1.
Definition MULTIPLICATION : Z := 2.
Definition DIVISION : Z := 3.

(** The operands and the result are doubles, as 64-bit patterns. *)
Record request_t := Request { req_id : Z; req_type : Z; left : Z; right : Z }.
Record response_t := Response { resp_id : Z; result : Z }.

(** The code, and what [resp] holds after. *)
Definition process_request (req : request_t) (resp : response_t) : Z * response_t :=
  let resp := Response (req_id req) (result resp) in
  if req_type req =? ADDITION then (0, Response (resp_id resp) (dadd (left req) (right req)))
  else if req_type req =? SUBTRACTION then (0, Response (resp_id resp) (dsub (left req) (right req)))
  else if req_type req =? MULTIPLICATION then (0, Response (resp_id resp) (dmul (left req) (right req)))
  else if req_type req =? DIVISION then (0, Response (resp_id resp) (ddiv (left req) (right req)))
  else (-1, resp).

Definition is_space (c : ascii) : bool := Ascii.eqb c " ".

(** The state is [req]; the result is the code.  [data] is the string, and its
    terminator the last byte that may be read. *)
Definition parse_request (data : string) : cm request_t Z :=
  let '(left, data) := strtod data in
  let data := skip_while is_space data in
  match data with
  | "" => undef UB_bounds   (* op is the terminator: [*data] is then read beyond it *)
  | String op data =>
      let data := skip_while is_space data in
      match data with
      | "" => mret (-1)
      | String c _ =>
          if Ascii.eqb c NL then mret (-1)
          else
            let '(right, data) := strtod data in
            let set_type t : cm request_t unit :=
              modify (fun r => Request (req_id r) t (Request.left r) (Request.right r)) in
            let done : cm request_t Z :=
              modify (fun r => Request (req_id r) (req_type r) left right) ;; mret 0 in
            if Ascii.eqb op "+" then set_type ADDITION ;; done
            else if Ascii.eqb op "-" then set_type SUBTRACTION ;; done
            else if Ascii.eqb op "*" then set_type MULTIPLICATION ;; done
            else if Ascii.eqb op "/" then set_type DIVISION ;; done
            else mret (-1)
      end
  end.

(** ** The structures as bytes *)

Definition sizeof_request : Z := 24.
Definition sizeof_response : Z := 16.

Definition encode_request (r : request_t) : list Z :=
  le_bytes 4 (req_id r) ++ le_bytes 4 (req_type r) ++ le_bytes 8 (left r) ++ le_bytes 8 (right r).
Definition decode_request (l : list Z) : request_t :=
  Request (s32 (le_val (take 4 l))) (le_val (take 4 (drop 4 l)))
    (le_val (take 8 (drop 8 l))) (le_val (take 8 (drop 16 l))).

(** Four bytes of padding follow [id]. *)
Definition encode_response (pad : list Z) (r : response_t) : list Z :=
  le_bytes 4 (resp_id r) ++ pad ++ le_bytes 8 (result r).
Definition decode_response (l : list Z) : response_t :=
  Response (s32 (le_val (take 4 l))) (le_val (take 8 (drop 8 l))).

Definition request_wf (r : request_t) : Prop :=
  INT_MIN <= req_id r <= INT_MAX /\ 0 <= req_type r < 2 ^ 32 /\
  0 <= left r < 2 ^ 64 /\ 0 <= right r < 2 ^ 64.

(** ** Lemmas *)

Lemma s32_le_bytes z : INT_MIN <= z <= INT_MAX -> s32 (le_val (le_bytes 4 z)) = z.
Proof.
  intros Hz. rewrite le_val_bytes. change (256 ^ Z.of_nat 4) with (2 ^ 32).
  unfold INT_MIN, INT_MAX, s32, swrap in *. change (2 ^ (32 - 1)) with 2147483648.
  change (2 ^ 32) with 4294967296.
  rewrite Zplus_mod_idemp_l, Z.mod_small; lia.
Qed.

Lemma le8 z : 0 <= z < 2 ^ 64 -> le_val (le_bytes 8 z) = z.
Proof. intros. apply le_val_bytes_small. done. Qed.

Lemma decode_encode_request r : request_wf r -> decode_request (encode_request r) = r.
Proof.
  intros (Hi & Ht & Hl & Hr). destruct r as [i t x y]. simpl in *.
  unfold decode_request, encode_request. cbn [req_id req_type left right].
  set (a := le_bytes 4 i). set (b := le_bytes 4 t).
  set (c := le_bytes 8 x). set (d := le_bytes 8 y).
  change (take 4 (a ++ b ++ c ++ d)) with a.
  change (take 4 (drop 4 (a ++ b ++ c ++ d))) with b.
  change (take 8 (drop 8 (a ++ b ++ c ++ d))) with c.
  change (take 8 (drop 16 (a ++ b ++ c ++ d))) with d.
  unfold a, b, c, d. rewrite s32_le_bytes, !le8 by done.
  rewrite le_val_bytes_small by (simpl; lia). done.
Qed.

(** The result is kept modulo 2^64: as it is, when it is a 64-bit pattern. *)
Lemma decode_encode_response pad r :
  length pad = 4%nat -> INT_MIN <= resp_id r <= INT_MAX ->
  decode_response (encode_response pad r) = Response (resp_id r) (u64 (result r)).
Proof.
  intros Hp Hi. destruct r as [i x]. simpl in *.
  destruct pad as [|p0 [|p1 [|p2 [|p3 [|]]]]]; try done.
  unfold decode_response, encode_response. cbn [resp_id result].
  set (a := le_bytes 4 i). set (d := le_bytes 8 x).
  change (take 4 (a ++ [p0; p1; p2; p3] ++ d)) with a.
  change (take 8 (drop 8 (a ++ [p0; p1; p2; p3] ++ d))) with d.
  unfold a, d. by rewrite s32_le_bytes, le_val_bytes.
Qed.

Lemma length_encode_request r : Z.of_nat (length (encode_request r)) = sizeof_request.
Proof. unfold encode_request. by rewrite !length_app, !length_le_bytes. Qed.

Lemma length_encode_response pad r :
  length pad = 4%nat -> Z.of_nat (length (encode_response pad r)) = sizeof_response.
Proof. intros Hp. unfold encode_response. by rewrite !length_app, !length_le_bytes, Hp. Qed.

(** The operation a request asks for. *)
Definition operation (t : Z) : Z -> Z -> Z := nth (Z.to_nat t) [dadd; dsub; dmul; ddiv] ddiv.

Lemma process_request_ok req resp :
  0 <= req_type req <= DIVISION ->
  process_request req resp = (0, Response (req_id req) (operation (req_type req) (left req) (right req))).
Proof.
  unfold DIVISION. intros Ht.
  assert (req_type req = 0 \/ req_type req = 1 \/ req_type req = 2 \/ req_type req = 3) as H by lia.
  unfold process_request. by destruct H as [E|[E|[E|E]]]; rewrite E.
Qed.

(** ** Properties *)

Definition op_char (t : Z) : ascii :=
  if t =? ADDITION then "+" else if t =? SUBTRACTION then "-"
  else if t =? MULTIPLICATION then "*" else "/".

(** The double a string of decimal digits denotes. *)
Definition dec (ds : string) : Z := bits_of_sf (dbl_of_dec false (digits_val ds 0) 0).

Lemma parse_op_line a b t n1 n2 r0 :
  str_all isdigit a = true -> a <> "" -> str_all isdigit b = true -> b <> "" ->
  0 <= t <= 3 ->
  parse_request (a ++ blanks n1 ++ String (op_char t) (blanks n2 ++ b ++ nl)) r0 =
    Done 0 (Request (req_id r0) t (dec a) (dec b)).
Proof.
  intros Ha Hna Hb Hnb Ht. unfold parse_request.
  assert (t = 0 \/ t = 1 \/ t = 2 \/ t = 3) as Ht' by lia.
  rewrite strtod_digits; [|done|done|].
  2: { destruct n1; simpl; [|done]. by destruct Ht' as [->|[->|[->| ->]]]. }
  rewrite skip_while_blanks by done.
  assert (is_space (op_char t) = false) as Ho by by destruct Ht' as [->|[->|[->| ->]]].
  assert (skip_while is_space (String (op_char t) (blanks n2 ++ b ++ nl)) =
          String (op_char t) (blanks n2 ++ b ++ nl)) as ->.
  { apply skip_while_starts. exact (f_equal negb Ho). }
  rewrite skip_while_blanks by done.
  destruct b as [|c b]; [done|]. pose proof Hb as Hb'.
  simpl in Hb. apply andb_true_iff in Hb as [Hc Hb].
  assert (is_space c = false /\ Ascii.eqb c NL = false) as [Hcs Hcn]
    by by digit_case c Hc.
  change (String c b ++ nl) with (String c (b ++ nl)).
  rewrite skip_while_starts by exact (f_equal negb Hcs). rewrite Hcn.
  change (String c (b ++ nl)) with (String c b ++ nl).
  rewrite strtod_digits by done.
  by destruct Ht' as [->|[->|[->| ->]]].
Qed.

(** A line "a op b" of two decimal integers and an operator, with any
    blanks around the operator, is parsed as the request it reads as: the
    operator's type and the doubles nearest to the two integers; [req->id] is
    left alone. *)
Theorem parse_request_infix (a b : string) (t : Z) (n1 n2 : nat) (r0 : request_t)
  (Ha : str_all isdigit a = true /\ a <> "") (Hb : str_all isdigit b = true /\ b <> "")
  (Ht : 0 <= t <= 3) :
  parse_request (a ++ blanks n1 ++ String (op_char t) (blanks n2 ++ b ++ nl)) r0 =
    Done 0 (Request (req_id r0) t (dec a) (dec b)).
Proof. destruct Ha, Hb. by apply parse_op_line. Qed.

(** A request and its answer survive the trip through a message: the
    structures that [memcpy] puts into a buffer are read back unchanged, and
    the client's answer is the operation applied to the operands the server
    sent (as a 64-bit pattern), under the same id, whatever the padding of [struct response_t]. *)
Theorem request_round_trip (req : request_t) (resp0 : response_t) (pad : list Z)
  (Hreq : request_wf req) (Hpad : length pad = 4%nat) (Hop : req_type req <= DIVISION) :
  let received := decode_request (encode_request req) in
  let '(code, resp) := process_request received resp0 in
  code = 0 /\
  decode_response (encode_response pad resp) =
    Response (req_id req)
      (u64 (operation (req_type req) (left req) (right req))).
Proof.
  simpl. destruct Hreq as (Hi & Ht & Hl & Hr). rewrite decode_encode_request by done.
  rewrite process_request_ok by lia. split; [done|]. by rewrite decode_encode_response.
Qed.

(** [parse_request] reads beyond the string when a number ends it: for a
    line of digits without a newline (the last line of an input that does not
    end with one) the operator read is the terminator itself, and the next
    character examined lies after it. *)
Theorem parse_request_overread (a : string) (n : nat) (r0 : request_t)
  (Ha : str_all isdigit a = true /\ a <> "") :
  parse_request (a ++ blanks n) r0 = Undef UB_bounds.
Proof.
  destruct Ha as [Ha Hn]. unfold parse_request.
  rewrite strtod_digits; [|done|done|by destruct n].
  rewrite <- (str_app_nil_r (blanks n)), skip_while_blanks by done. done.
Qed.

Lemma parse_request_infix_witness :
  parse_request ("6 *  7" ++ nl) (Request 9 0 0 0) = Done 0 (Request 9 MULTIPLICATION (dec "6") (dec "7")).
Proof.
  apply (parse_request_infix "6" "7" 2 1 2 (Request 9 0 0 0)); [split; done|split; done|lia].
Defined.

Lemma request_round_trip_witness :
  decode_response (encode_response [1; 2; 3; 4]
    (process_request (decode_request (encode_request (Request 5 2 (dec "6") (dec "7"))))
      (Response 0 0)).2) = Response 5 (dec "42").
Proof.
  apply (request_round_trip (Request 5 2 (dec "6") (dec "7")) (Response 0 0) [1; 2; 3; 4]);
    [|reflexivity|]; unfold request_wf, INT_MIN, INT_MAX, DIVISION; vm_compute; repeat split; congruence.
Defined.

Lemma parse_request_overread_witness : parse_request "12 " (Request 0 0 0 0) = Undef UB_bounds.
Proof. apply (parse_request_overread "12" 1 (Request 0 0 0 0)). split; done. Defined.
