(* ===== verification/ClientTable.v ===== *)
(** The table of clients of the calculation server and the code that works on
    it: cw10/zad1/src/server_cllist.c, server.h, config.h, in both builds. *)
From S2P Require Import Prelude CString Connection.
#[local] Open Scope Z_scope.

Definition CONF_INACTIVITY_MAX : Z := 3.
Definition CONF_CLIENTS_MAX : Z := 16.
Definition CONF_CLIENT_NAME_MAX : Z := 256.

(** [struct client_t]; [cl_name] without its terminator. *)
Record client_t := Client {
  addr : addr_t;
  cl_active : Z;
  cl_sock : Z;
  cl_name : list Z;
  cl_inactivity : Z;
}.

(** What the server does to the outside: messages and sockets, and what it
    prints (the texts of the source, named). *)
Inductive event :=
  | Sent (sock : Z) (to : addr_t) (data : list Z)
  | Closed (sock : Z)
  | Prompt (request_id : Z)
  | Refused (name : list Z)
  | TooMany
  | Connected (name : list Z)
  | Disconnected (name : list Z)
  | TimedOut (name : list Z)
  | Answer (id result : Z) (name : list Z)
  | InvalidResponse
  | UnknownClient
  | InvalidType (t : Z)
  | InvalidRegister
  | CloseHint
  | BadData
  | NoClients
  | SendFailed.

(** The globals of the server.  [depth] is how many times the running thread
    holds the recursive mutex [clients_mx]; [poll] is the epoll set. *)
Record srv := Srv {
  clients : list client_t;
  free_cl : Z;
  current_request_id : Z;
  poll : list Z;
  depth : Z;
  log : list event;
}.

Definition set_clients l s := Srv l (free_cl s) (current_request_id s) (poll s) (depth s) (log s).
Definition set_free_cl n s := Srv (clients s) n (current_request_id s) (poll s) (depth s) (log s).
Definition set_request_id n s := Srv (clients s) (free_cl s) n (poll s) (depth s) (log s).
Definition set_poll p s := Srv (clients s) (free_cl s) (current_request_id s) p (depth s) (log s).
Definition set_depth d s := Srv (clients s) (free_cl s) (current_request_id s) (poll s) d (log s).
Definition set_log l s := Srv (clients s) (free_cl s) (current_request_id s) (poll s) (depth s) l.

Definition emit (e : event) : cm srv unit := modify (fun s => set_log (log s ++ [e]) s).

Definition print_prompt : cm srv unit :=
  s ← get; emit (Prompt (current_request_id s)).

Definition lock_clients : cm srv unit := modify (fun s => set_depth (depth s + 1) s).

(** Unlocking a mutex that is not held fails; the program then exits. *)
Definition unlock_clients : cm srv unit :=
  s ← get;
  if 0 <? depth s then modify (fun s => set_depth (depth s - 1) s) else exit_ (-1).

(** [clients[i]], read and written. *)
Definition client_at (i : Z) : cm srv client_t :=
  s ← get; lift UB_bounds (aget (clients s) i).
Definition set_client (i : Z) (f : client_t -> client_t) : cm srv unit :=
  s ← get;
  c ← lift UB_bounds (aget (clients s) i);
  l ← lift UB_bounds (aset (clients s) i (f c));
  modify (set_clients l).

Definition set_active v c := Client (addr c) v (cl_sock c) (cl_name c) (cl_inactivity c).
Definition set_inactivity v c := Client (addr c) (cl_active c) (cl_sock c) (cl_name c) v.

(** A search through the table: the first index that satisfies [p], or -1. *)
Definition search (p : client_t -> cm srv bool) : cm srv Z :=
  r ← for_until (Z.to_nat CONF_CLIENTS_MAX) 0 (fun i =>
        c ← client_at i;
        b ← p c;
        mret (if (b : bool) then Some i else None));
  mret (default (-1) r).

Definition client_freeid : cm srv Z :=
  lock_clients ;;
  ret ← search (fun c => mret (cl_active c =? 0));
  unlock_clients ;;
  mret ret.

(** [memcmp] on the bytes of two addresses. *)
Definition same_addr (a b : list Z) (len : Z) : cm srv bool :=
  check ((len <=? Z.of_nat (length a)) && (len <=? Z.of_nat (length b))) UB_bounds ;;
  mret (bool_decide (take (Z.to_nat len) a = take (Z.to_nat len) b)).

Definition client_for_addr (a : addr_t) : cm srv Z :=
  lock_clients ;;
  ret ← search (fun c =>
    if negb (cl_active c =? 0) && (addr_len a =? addr_len (addr c))
    then same_addr (addr_bytes (addr c)) (addr_bytes a) (addr_len a)
    else mret false);
  unlock_clients ;;
  mret ret.

Definition client_for_sock (sock : Z) : cm srv Z :=
  lock_clients ;;
  ret ← search (fun c => mret (negb (cl_active c =? 0) && (sock =? cl_sock c)));
  unlock_clients ;;
  mret ret.

Definition is_name_taken (name : list Z) : cm srv bool :=
  lock_clients ;;
  ret ← search (fun c => mret (negb (cl_active c =? 0) && bool_decide (cl_name c = name)));
  unlock_clients ;;
  mret (0 <=? ret).

Section Build.
(** The build: [CONF_DATAGRAM] (UDP) or not (TCP). *)
Context (datagram : bool).
(** Whether the kernel accepts what is sent on a socket. *)
Context (send_ok : Z -> bool).

(** [send_sm] of connection.c on one of the server's sockets. *)
Definition send_sm (sock : Z) (sm : socket_message) : cm srv Z :=
  data ← (if datagram then
            match send_sm_dgram sm (DSock [] []) with
            | Done _ d => mret (concat (map snd (txq d)))
            | Undef u => undef u
            | _ => nofuel
            end
          else
            match send_sm_stream sm (Stream [] []) with
            | Done _ s => mret (tx s)
            | Undef u => undef u
            | _ => nofuel
            end);
  if send_ok sock then emit (Sent sock (sm_addr sm) data) ;; mret 0 else mret (-1).

(** [epoll_ctl] refuses a descriptor that is already in the set. *)
Definition add_to_poll (sock : Z) : cm srv unit :=
  s ← get;
  if bool_decide (sock ∈ poll s) then exit_ (-1)
  else modify (set_poll (poll s ++ [sock])).

(** [shutdown] and [close]: the descriptor also leaves the epoll set. *)
Definition close_sock (sock : Z) : cm srv unit :=
  s ← get;
  modify (set_poll (List.filter (fun x => negb (x =? sock)) (poll s))) ;;
  emit (Closed sock).

Definition register_client (sock : Z) (sm : socket_message) : cm srv unit :=
  (* name = &sm->buffer[1]; name[sm->length - 1] = 0 *)
  buffer ← lift UB_bounds (aset (sm_buffer sm) (1 + (sm_length sm - 1)) 0);
  name ← lift UB_bounds (c_string (drop 1 buffer));
  taken ← is_name_taken name;
  if (taken : bool) then
    emit (Refused name) ;;
    print_prompt ;;
    buffer ← lift UB_bounds (aset buffer 0 MSG_TYPE_NAMEINUSE);
    _ ← send_sm sock (SM (sm_addr sm) 1 buffer);
    mret tt
  else
    lock_clients ;;
    id ← client_freeid;
    (if (id : Z) <? 0 then emit TooMany
     else
       check (Z.of_nat (length name) <? CONF_CLIENT_NAME_MAX) UB_bounds ;;
       set_client id (fun _ => Client (sm_addr sm) 1 sock name 0) ;;
       (if datagram then mret tt else add_to_poll sock) ;;
       emit (Connected name) ;;
       print_prompt) ;;
    unlock_clients.

Definition unregister_client (client_id : Z) : cm srv unit :=
  lock_clients ;;
  (if 0 <=? client_id then
     set_client client_id (set_active 0) ;;
     c ← client_at client_id;
     (if datagram then mret tt else close_sock (cl_sock c)) ;;
     emit (Disconnected (cl_name c)) ;;
     print_prompt
   else mret tt) ;;
  unlock_clients.

(** A one-byte message of type [t]; [stack] is what the rest of the local
    variable's buffer holds. *)
Definition short_message (to : addr_t) (t : Z) (stack : list Z) : socket_message :=
  SM to 1 (overwrite stack 0 [t]).

Definition teardown_clients (stack : list Z) : cm srv unit :=
  for_range (Z.to_nat CONF_CLIENTS_MAX) 0 (fun i =>
    c ← client_at i;
    if negb (cl_active c =? 0) then
      set_client i (set_active 0) ;;
      _ ← send_sm (cl_sock c) (short_message (addr c) MSG_TYPE_SHUTDOWN stack);
      if datagram then mret tt else close_sock (cl_sock c)
    else mret tt).

Definition next_free_client : cm srv Z :=
  lock_clients ;;
  s ← get;
  from ← for_until (Z.to_nat CONF_CLIENTS_MAX) (free_cl s) (fun from =>
           c ← client_at (Z.rem from CONF_CLIENTS_MAX);
           mret (if negb (cl_active c =? 0) then Some from else None));
  match from with
  | None => unlock_clients ;; mret (-1)
  | Some from =>
      let from := Z.rem from CONF_CLIENTS_MAX in
      modify (set_free_cl (from + 1)) ;;
      unlock_clients ;;
      mret from
  end.
End Build.

(** ** Searching the table *)

Definition active (c : client_t) : bool := negb (cl_active c =? 0).

(** The first position, from [i], whose element satisfies [p]. *)
Fixpoint find_from {A} (p : A -> bool) (i : Z) (l : list A) : option Z :=
  match l with
  | [] => None
  | x :: l' => if p x then Some i else find_from p (i + 1) l'
  end.

Definition find_idx {A} (p : A -> bool) (l : list A) : Z := default (-1) (find_from p 0 l).

Lemma find_from_Some {A} (p : A -> bool) i l k :
  find_from p i l = Some k ->
  exists n x, k = i + Z.of_nat n /\ l !! n = Some x /\ p x = true /\
    forall m y, (m < n)%nat -> l !! m = Some y -> p y = false.
Proof.
  revert i. induction l as [|x l IH]; intros i H; simplify_eq/=.
  destruct (p x) eqn:Hp; simplify_eq.
  - exists 0%nat, x. split; [lia|]. split; [done|]. split; [done|]. intros m y Hm. lia.
  - destruct (IH _ H) as (n & y & -> & Hy & Hpy & Hlt).
    exists (S n), y. split; [lia|]. split; [done|]. split; [done|].
    intros [|m] z Hm Hz; simplify_eq/=; [done|]. eapply Hlt; [|done]. lia.
Qed.

Lemma find_from_None {A} (p : A -> bool) i l :
  find_from p i l = None -> forall x, x ∈ l -> p x = false.
Proof.
  revert i. induction l as [|x l IH]; intros i H y Hy; simplify_eq/=; [by apply not_elem_of_nil in Hy|].
  destruct (p x) eqn:Hp; simplify_eq.
  apply elem_of_cons in Hy as [->|Hy]; [done|]. by eapply IH.
Qed.

Lemma find_idx_pos {A} (p : A -> bool) l :
  0 <= find_idx p l -> exists x, l !! Z.to_nat (find_idx p l) = Some x /\ p x = true /\
    find_idx p l < Z.of_nat (length l) /\
    forall m y, Z.of_nat m < find_idx p l -> l !! m = Some y -> p y = false.
Proof.
  unfold find_idx. destruct (find_from p 0 l) as [k|] eqn:E; simpl; [|lia].
  intros Hk. apply find_from_Some in E as (n & x & -> & Hx & Hp & Hlt).
  exists x. rewrite Z.add_0_l, Nat2Z.id. split; [done|]. split; [done|].
  split; [apply lookup_lt_Some in Hx; lia|]. intros m y Hm. apply Hlt. lia.
Qed.

Lemma find_idx_neg {A} (p : A -> bool) l :
  find_idx p l < 0 -> forall x, x ∈ l -> p x = false.
Proof.
  unfold find_idx. destruct (find_from p 0 l) as [k|] eqn:E; simpl.
  - apply find_from_Some in E as (n & ? & -> & _). lia.
  - intros _. by eapply find_from_None.
Qed.

Lemma for_until_find p pb s n i :
  0 <= i -> (Z.to_nat i + n)%nat = length (clients s) ->
  (forall c, c ∈ clients s -> p c s = Done (pb c) s) ->
  for_until n i (fun i => c ← client_at i; b ← p c; mret (if (b : bool) then Some i else None)) s
  = Done (find_from pb i (drop (Z.to_nat i) (clients s))) s.
Proof.
  intros Hi Hn Hp. revert i Hi Hn. induction n as [|n IH]; intros i Hi Hn.
  - rewrite drop_ge by lia. done.
  - destruct (lookup_lt_is_Some_2 (clients s) (Z.to_nat i)) as [c Hc]; [lia|].
    rewrite (drop_S _ c) by done. simpl. unfold client_at. cm_step.
    assert (aget (clients s) i = Some c) as -> by (apply aget_Some; done).
    cm_step. rewrite Hp by (by eapply list_elem_of_lookup_2). destruct (pb c); [done|].
    replace (S (Z.to_nat i)) with (Z.to_nat (i + 1)) by lia.
    exact (IH (i + 1) ltac:(lia) ltac:(lia)).
Qed.

Lemma search_spec p pb s :
  length (clients s) = 16%nat -> (forall c, c ∈ clients s -> p c s = Done (pb c) s) ->
  search p s = Done (find_idx pb (clients s)) s.
Proof.
  intros Hl Hp. unfold search.
  pose proof (for_until_find p pb s 16 0 ltac:(lia) ltac:(simpl; lia) Hp) as H.
  change (Z.to_nat CONF_CLIENTS_MAX) with 16%nat.
  unfold mbind at 1, cm_bind at 1. rewrite H. done.
Qed.

(** Code between [lock_clients] and [unlock_clients] that only looks. *)
Lemma locked_spec {A} (m : cm srv A) r s :
  0 <= depth s -> m (set_depth (depth s + 1) s) = Done r (set_depth (depth s + 1) s) ->
  (lock_clients ;; ret ← m; unlock_clients ;; mret ret) s = Done r s.
Proof.
  intros Hd Hm. unfold lock_clients, unlock_clients. cm_step. rewrite Hm. simpl.
  destruct (Z.ltb_spec 0 (depth s + 1)); [|lia]. simpl.
  destruct s; unfold set_depth; simpl. do 2 f_equal. lia.
Qed.

Section Specs.
Context (s : srv) (Hlen : length (clients s) = 16%nat) (Hdepth : 0 <= depth s).

Lemma client_freeid_spec :
  client_freeid s = Done (find_idx (fun c => negb (active c)) (clients s)) s.
Proof.
  apply locked_spec; [done|]. rewrite (search_spec _ (fun c => negb (active c))); try done.
  intros c _. unfold active. by rewrite negb_involutive.
Qed.

Lemma client_for_sock_spec sock :
  client_for_sock sock s =
    Done (find_idx (fun c => active c && (sock =? cl_sock c)) (clients s)) s.
Proof. apply locked_spec; [done|]. by rewrite (search_spec _ (fun c => active c && (sock =? cl_sock c))). Qed.

Definition addr_eqb (a b : addr_t) : bool :=
  (addr_len a =? addr_len b) &&
  bool_decide (take (Z.to_nat (addr_len a)) (addr_bytes b) = take (Z.to_nat (addr_len a)) (addr_bytes a)).

Definition addr_wf (a : addr_t) : Prop := addr_len a <= Z.of_nat (length (addr_bytes a)).

Lemma client_for_addr_spec a :
  addr_wf a -> (forall c, c ∈ clients s -> active c = true -> addr_wf (addr c)) ->
  client_for_addr a s = Done (find_idx (fun c => active c && addr_eqb a (addr c)) (clients s)) s.
Proof.
  intros Ha Hc. apply locked_spec; [done|].
  rewrite (search_spec _ (fun c => active c && addr_eqb a (addr c))); try done.
  simpl. intros c Hin. specialize (Hc c Hin). unfold active, addr_eqb, addr_wf in *.
  destruct (negb (cl_active c =? 0)) eqn:E; [|done]. simpl. specialize (Hc eq_refl).
  destruct (Z.eqb_spec (addr_len a) (addr_len (addr c))) as [El|]; [|done]. simpl.
  unfold same_addr. cm_step.
  destruct (Z.leb_spec (addr_len a) (Z.of_nat (length (addr_bytes (addr c))))); [|lia].
  destruct (Z.leb_spec (addr_len a) (Z.of_nat (length (addr_bytes a)))); [|lia].
  done.
Qed.

Definition name_taken (name : list Z) (l : list client_t) : bool :=
  0 <=? find_idx (fun c => active c && bool_decide (cl_name c = name)) l.

Lemma is_name_taken_spec name : is_name_taken name s = Done (name_taken name (clients s)) s.
Proof.
  assert ((lock_clients ;; ret ← search (fun c => mret (negb (cl_active c =? 0) && bool_decide (cl_name c = name)));
    unlock_clients ;; mret ret) s =
    Done (find_idx (fun c => active c && bool_decide (cl_name c = name)) (clients s)) s) as H.
  { apply locked_spec; [done|].
    by rewrite (search_spec _ (fun c => active c && bool_decide (cl_name c = name))). }
  unfold is_name_taken, name_taken. revert H.
  unfold lock_clients, unlock_clients. cm_step.
  destruct (search _ _) as [ret s'| | |]; try done. simpl.
  destruct (0 <? depth s'); simpl; [|done]. by intros [= -> ->].
Qed.
End Specs.

Lemma name_taken_true name l :
  name_taken name l = true -> exists i c, l !! i = Some c /\ active c = true /\ cl_name c = name.
Proof.
  unfold name_taken. intros H. apply Z.leb_le in H.
  destruct (find_idx_pos _ _ H) as (c & Hc & Hp & _).
  apply andb_true_iff in Hp as [Ha Hn]. apply bool_decide_eq_true in Hn. eauto.
Qed.

Lemma name_taken_false name l :
  name_taken name l = false -> forall i c, l !! i = Some c -> active c = true -> cl_name c <> name.
Proof.
  unfold name_taken. intros H i c Hc Ha E. apply Z.leb_gt in H.
  pose proof (find_idx_neg _ _ H c (list_elem_of_lookup_2 _ _ _ Hc)) as Hf. simpl in Hf.
  rewrite Ha in Hf. simpl in Hf. by apply bool_decide_eq_false in Hf.
Qed.
