(* ===== verification/SockServer.v ===== *)
(** The threads of the calculation server: cw10/zad1/src/server_listen.c,
    server_accept.c, server_pinger.c and the main loop of server.c.  Each
    handler is one turn of its thread's loop. *)
From S2P Require Import Prelude CString Float64 Connection Request ClientTable.
#[local] Open Scope Z_scope.

Section Build.
Context (datagram : bool).
Context (send_ok : Z -> bool).
(** What the uninitialised buffer of a local [struct socket_message] holds. *)
Context (stack : list Z).

(** ** server_listen.c *)

Definition handle_pong (client_id : Z) : cm srv unit :=
  set_client client_id (set_inactivity 0).

Definition handle_response (client_id : Z) (sm : socket_message) : cm srv unit :=
  if negb (sm_length sm =? 1 + sizeof_response) then emit InvalidResponse
  else
    let resp := decode_response (take (Z.to_nat sizeof_response) (drop 1 (sm_buffer sm))) in
    c ← client_at client_id;
    emit (Answer (resp_id resp) (result resp) (cl_name c)) ;;
    print_prompt.

(** [char msg_type = sm.buffer[0]] *)
Definition msg_type (sm : socket_message) : cm srv Z :=
  b ← lift UB_bounds (aget (sm_buffer sm) 0); mret (s8 b).

(** [thread_listen] for one event on [sock]; [received] is what [receive_sm]
    delivers ([None] when it fails). *)
Definition thread_listen (sock : Z) (received : option socket_message) : cm srv unit :=
  match received with
  | None => mret tt
  | Some sm =>
      t ← msg_type sm;
      client_id ← (if datagram then client_for_addr (sm_addr sm) else client_for_sock sock);
      if ((client_id : Z) <? 0) && negb ((t : Z) =? MSG_TYPE_REGISTER) && negb (t =? MSG_TYPE_UNREGISTER)
      then emit UnknownClient ;; print_prompt
      else if t =? MSG_TYPE_REGISTER then register_client datagram send_ok sock sm
      else if t =? MSG_TYPE_UNREGISTER then unregister_client datagram client_id
      else if t =? MSG_TYPE_PONG then handle_pong client_id
      else if t =? MSG_TYPE_RESPONSE then handle_response client_id sm
      else emit (InvalidType t)
  end.

(** ** server_accept.c (TCP only) *)

(** [thread_accept] for one connection: the descriptor [accept] returned with
    the address of the peer, and what [receive_sm] delivers. *)
Definition thread_accept (sock : Z) (a : addr_t) (received : option socket_message) : cm srv unit :=
  match received with
  | None => mret tt
  | Some sm =>
      b ← lift UB_bounds (aget (sm_buffer sm) 0);
      if negb (s8 b =? MSG_TYPE_REGISTER) then emit InvalidRegister
      else register_client datagram send_ok sock (SM a (sm_length sm) (sm_buffer sm))
  end.

(** ** server_pinger.c *)

(** [clients[i]] in one round of [thread_pinger]. *)
Definition ping_client (i : Z) : cm srv unit :=
  c ← client_at i;
  if cl_active c =? 0 then mret tt
  else if CONF_INACTIVITY_MAX <? cl_inactivity c then
    emit (TimedOut (cl_name c)) ;;
    print_prompt ;;
    set_client i (set_active 0) ;;
    if datagram then mret tt else close_sock (cl_sock c)
  else
    n ← int_op (cl_inactivity c + 1);
    set_client i (set_inactivity n) ;;
    _ ← send_sm datagram send_ok (cl_sock c) (short_message (addr c) MSG_TYPE_PING stack);
    mret tt.

Definition thread_pinger : cm srv unit :=
  lock_clients ;;
  for_range (Z.to_nat CONF_CLIENTS_MAX) 0 ping_client ;;
  unlock_clients.

(** ** server.c *)

Definition send_request (clid : Z) (req : request_t) : cm srv Z :=
  c ← client_at clid;
  send_sm datagram send_ok (cl_sock c)
    (SM (addr c) (1 + sizeof_request) (overwrite stack 0 (MSG_TYPE_REQUEST :: encode_request req))).

(** [line] is what [getline] reads; [None] at the end of the input. *)
Definition read_request (line : option string) : cm srv Z :=
  s ← get;
  let request_id := current_request_id s in
  match line with
  | None | Some ""%string => emit CloseHint ;; mret 1
  | Some line =>
      let line := skip_while is_space line in
      if match line with ""%string => true | String c _ => Ascii.eqb c NL end then mret 1
      else
        (* req is local; its other fields are set before they are read *)
        match parse_request line (Request request_id 0 0 0) with
        | Done code req =>
            if negb (code =? 0) then emit BadData ;; mret 1
            else
              clid ← next_free_client;
              if (clid : Z) <? 0 then emit NoClients ;; mret 1
              else
                sent ← send_request clid req;
                if negb ((sent : Z) =? 0) then emit SendFailed ;; mret 1
                else
                  id ← int_op (request_id + 1);
                  modify (set_request_id id) ;;
                  mret 0
        | Exited c _ => exit_ c
        | Undef u => undef u
        | NoFuel => nofuel
        end
  end.

(** The globals once [main] has marked every slot free. *)
Definition server_start : srv :=
  Srv (replicate 16 (Client (Addr 0 []) 0 0 [] 0)) 0 0 [] 0 [].

(** ** The threads together *)

(** One turn of a thread.  Each handler runs with [clients_mx] as the code
    takes it; turns of different threads are interleaved. *)
Inductive turn :=
  | TListen (sock : Z) (received : option socket_message)
  | TAccept (sock : Z) (a : addr_t) (received : option socket_message)
  | TPing
  | TRequest (line : option string).

Definition do_turn (t : turn) : cm srv unit :=
  match t with
  | TListen sock r => thread_listen sock r
  | TAccept sock a r => thread_accept sock a r
  | TPing => thread_pinger
  | TRequest line => _ ← read_request line; mret tt
  end.
End Build.
