(* ===== verification/SockClient.v ===== *)
(** The calculation client: cw10/zad1/src/client.c, in both builds. *)
From S2P Require Import Prelude CString Float64 Connection Request ClientTable SockServer.
#[local] Open Scope Z_scope.

(** What the client prints (the texts of the source, named), sends, and does to
    its socket. *)
Inductive cevent :=
  | CSent (to : addr_t) (length : Z) (buffer : list Z)
  | CClosed (sock : Z)
  | CBound (sock : Z)
  | CUsage
  | CNoSocket
  | CInvalidConnection (type : string)
  | CConnectingLocal (path : string)
  | CConnectingNet (address : string) (port : Z)
  | CCannotConnect
  | CRegistered
  | CShutting
  | CCannotSend
  | CServerClosed
  | CIllFormed
  | CUnknownOperator
  | CProcessed
  | CNameInUse
  | CServerShutting
  | CUnknownType (t : Z).

Record client := Cli {
  server_sock : Z;
  server_addr : addr_t;
  send_unregister : bool;
  clog : list cevent;
}.

Definition cemit (e : cevent) : cm client unit :=
  modify (fun c => Cli (server_sock c) (server_addr c) (send_unregister c) (clog c ++ [e])).

Section Client.
(** Whether the kernel takes what is sent; what the uninitialised locals
    [sm.buffer] and [resp] (its padding) hold. *)
Context (send_ok : bool) (stack pad : list Z).

Definition csend (sm : socket_message) : cm client Z :=
  if send_ok then cemit (CSent (sm_addr sm) (sm_length sm) (sm_buffer sm)) ;; mret 0 else mret (-1).

(** Run by [exit]. *)
Definition cleanup : cm client unit :=
  c ← get;
  if server_sock c <? 0 then mret tt
  else
    cemit CShutting ;;
    (if send_unregister c then
       _ ← csend (SM (server_addr c) 1 (overwrite stack 0 [MSG_TYPE_UNREGISTER])); mret tt
     else mret tt) ;;
    (* shutdown, close *)
    cemit (CClosed (server_sock c)).

Definition cexit {A} (code : Z) : cm client A := cleanup ;; exit_ code.

Definition register_me (name : list Z) : cm client unit :=
  c ← get;
  let n := Z.of_nat (length name) in
  check (1 + n <=? Z.of_nat (length stack)) UB_bounds ;;
  r ← csend (SM (server_addr c) (n + 1) (overwrite stack 0 (MSG_TYPE_REGISTER :: name)));
  if negb ((r : Z) =? 0) then cemit CCannotSend ;; cexit (-1) else mret tt.

(** One turn of the client's loop; [received] is what [receive_sm] delivers,
    and [errno] what is left in it when it fails. *)
Definition receive_request (received : option socket_message) (errno : Z) : cm client unit :=
  match received with
  | None => if errno =? 0 then cemit CServerClosed ;; cexit 0 else mret tt
  | Some sm =>
      b ← lift UB_bounds (aget (sm_buffer sm) 0);
      let msg_type := s8 b in
      if msg_type =? MSG_TYPE_PING then
        _ ← csend (SM (sm_addr sm) 1 (overwrite (sm_buffer sm) 0 [MSG_TYPE_PONG])); mret tt
      else if msg_type =? MSG_TYPE_REQUEST then
        if negb (sm_length sm =? 1 + sizeof_request) then cemit CIllFormed
        else
          let req := decode_request (take (Z.to_nat sizeof_request) (drop 1 (sm_buffer sm))) in
          let '(code, resp) := process_request req (Response 0 0) in
          if negb (code =? 0) then cemit CUnknownOperator
          else
            cemit CProcessed ;;
            _ ← csend (SM (sm_addr sm) (1 + sizeof_response)
                  (overwrite (sm_buffer sm) 0 (MSG_TYPE_RESPONSE :: encode_response pad resp)));
            mret tt
      else if msg_type =? MSG_TYPE_NAMEINUSE then cemit CNameInUse ;; cexit 1
      else if msg_type =? MSG_TYPE_SHUTDOWN then
        cemit CServerShutting ;;
        modify (fun c => Cli (server_sock c) (server_addr c) false (clog c)) ;;
        cexit 0
      else cemit (CUnknownType msg_type)
  end.
End Client.

(** ** Lemmas *)

Lemma overwrite_nth {A} (dst : list A) (src : list A) (k : nat) :
  (length src <= length dst)%nat -> (k < length src)%nat -> overwrite dst 0 src !! k = src !! k.
Proof. intros H Hk. unfold overwrite. simpl. by rewrite lookup_app_l. Qed.

Lemma overwrite_cons_body {A} (dst : list A) x (src : list A) :
  (1 + length src <= length dst)%nat -> take (length src) (drop 1 (overwrite dst 0 (x :: src))) = src.
Proof. intros H. unfold overwrite. simpl. by rewrite drop_0, take_app_length. Qed.

Lemma aget_overwrite {A} (dst : list A) x (src : list A) :
  (1 + length src <= length dst)%nat -> aget (overwrite dst 0 (x :: src)) 0 = Some x.
Proof. intros H. apply aget_Some. split; [lia|]. change (overwrite dst 0 (x :: src) !! 0%nat = (x :: src) !! 0%nat); apply overwrite_nth; simpl; lia. Qed.

(** The reply to a request, as the client makes it. *)
Definition reply (sm : socket_message) (pad : list Z) (resp : response_t) : list Z :=
  overwrite (sm_buffer sm) 0 (MSG_TYPE_RESPONSE :: encode_response pad resp).

(** ** Properties *)

(** C36.  A calculation end to end: the request the server sends is answered by
    the client with one message of the right type and length, and when the
    server's listener is handed that message it prints the operation applied
    to the operands, under the id of the request and the client's name. *)
Theorem calculation_end_to_end (req : request_t) (a : addr_t) (buf stack pad : list Z) (c : client)
  (i : Z) (cl : client_t) (s : srv)
  (Hreq : request_wf req) (Hop : req_type req <= DIVISION)
  (Hbuf : Z.of_nat (length buf) = DATAGRAM_SIZE) (Hpad : length pad = 4%nat)
  (Hi : aget (clients s) i = Some cl) :
  let sm := SM a (1 + sizeof_request) (overwrite buf 0 (MSG_TYPE_REQUEST :: encode_request req)) in
  let answer := operation (req_type req) (left req) (right req) in
  let b := reply sm pad (Response (req_id req) answer) in
  receive_request true stack pad (Some sm) 0 c =
    Done tt (Cli (server_sock c) (server_addr c) (send_unregister c)
               ((clog c ++ [CProcessed]) ++ [CSent a (1 + sizeof_response) b])) /\
  aget b 0 = Some MSG_TYPE_RESPONSE /\
  handle_response i (SM (addr cl) (1 + sizeof_response) b) s =
    Done tt (set_log ((log s ++ [Answer (req_id req) (u64 answer) (cl_name cl)])
                        ++ [Prompt (current_request_id s)]) s).
Proof.
  intros sm answer b. unfold DATAGRAM_SIZE in Hbuf.
  pose proof (length_encode_request req) as Hlr. unfold sizeof_request in Hlr.
  pose proof (length_encode_response pad (Response (req_id req) answer) Hpad) as Hlp.
  unfold sizeof_response in Hlp. destruct Hreq as (Hid & Ht & Hl & Hr).
  assert (length (sm_buffer sm) = 256%nat) as Hsm.
  { unfold sm. cbn [sm_buffer]. rewrite length_overwrite; cbn [length]; lia. }
  assert (aget b 0 = Some MSG_TYPE_RESPONSE) as Hb0 by (apply aget_overwrite; lia).
  split; [|split; [done|]].
  - unfold receive_request. assert (aget (sm_buffer sm) 0 = Some MSG_TYPE_REQUEST) as ->.
    { apply aget_overwrite. lia. }
    unfold lift, mbind, cm_bind, mret, cm_ret.
    change (s8 MSG_TYPE_REQUEST) with 6. cbn [Z.eqb Pos.eqb MSG_TYPE_PING MSG_TYPE_REQUEST].
    change (negb (sm_length sm =? 1 + sizeof_request)) with false. cbn iota.
    assert (take (Z.to_nat sizeof_request) (drop 1 (sm_buffer sm)) = encode_request req) as ->.
    { replace (Z.to_nat sizeof_request) with (length (encode_request req)) by (unfold sizeof_request; lia).
      apply overwrite_cons_body. lia. }
    rewrite decode_encode_request by done. rewrite process_request_ok by lia. done.
  - unfold handle_response. change (negb _) with false. cbn iota.
    assert (take (Z.to_nat sizeof_response) (drop 1 b) = encode_response pad (Response (req_id req) answer)) as E.
    { replace (Z.to_nat sizeof_response) with (length (encode_response pad (Response (req_id req) answer)))
        by (unfold sizeof_response; lia).
      apply overwrite_cons_body. lia. }
    cbn [sm_buffer]. rewrite E. rewrite decode_encode_response by done.
    unfold client_at. cm_step. by rewrite Hi.
Qed.

(** [register_me] overruns its message when the name has 256 characters
    or more, and with 255 it sends the length that makes the server overrun
    its own. *)
Theorem register_me_bounds (send_ok : bool) (stack : list Z) (name : list Z) (c : client)
  (Hstack : Z.of_nat (length stack) = DATAGRAM_SIZE) :
  (DATAGRAM_SIZE <= Z.of_nat (length name) -> register_me send_ok stack name c = Undef UB_bounds) /\
  (Z.of_nat (length name) < DATAGRAM_SIZE -> send_ok = true ->
   exists b, length b = length stack /\ b !! 0%nat = Some MSG_TYPE_REGISTER /\
     take (length name) (drop 1 b) = name /\
     register_me send_ok stack name c =
       Done tt (Cli (server_sock c) (server_addr c) (send_unregister c)
                 (clog c ++ [CSent (server_addr c) (Z.of_nat (length name) + 1) b]))).
Proof.
  unfold DATAGRAM_SIZE in *. unfold register_me. cm_step. split.
  - intros Hn. destruct (Z.leb_spec (1 + Z.of_nat (length name)) (Z.of_nat (length stack))); [lia|done].
  - intros Hn ->. destruct (Z.leb_spec (1 + Z.of_nat (length name)) (Z.of_nat (length stack))); [|lia].
    exists (overwrite stack 0 (MSG_TYPE_REGISTER :: name)). split; [apply length_overwrite; simpl; lia|].
    split; [done|]. split; [apply overwrite_cons_body; lia|]. done.
Qed.

Lemma calculation_end_to_end_witness :
  let req := Request 3 ADDITION (dec "20") (dec "22") in
  let sm := SM (Addr 0 []) (1 + sizeof_request)
    (overwrite (replicate 256 0) 0 (MSG_TYPE_REQUEST :: encode_request req)) in
  handle_response 0 (SM (Addr 0 []) (1 + sizeof_response) (reply sm [0; 0; 0; 0] (Response 3 (dec "42"))))
    (set_clients [Client (Addr 0 []) 1 4 [65] 0] server_start) =
  Done tt (set_log [Answer 3 (dec "42") [65]; Prompt 0]
    (set_clients [Client (Addr 0 []) 1 4 [65] 0] server_start)).
Proof.
  apply (calculation_end_to_end (Request 3 ADDITION (dec "20") (dec "22")) (Addr 0 [])
    (replicate 256 0) (replicate 256 0) [0; 0; 0; 0] (Cli 3 (Addr 0 []) true []) 0
    (Client (Addr 0 []) 1 4 [65] 0)
    (set_clients [Client (Addr 0 []) 1 4 [65] 0] server_start)); try reflexivity;
    unfold request_wf, INT_MIN, INT_MAX, DIVISION; vm_compute; repeat split; congruence.
Defined.

Lemma register_me_bounds_witness :
  register_me true (replicate 256 0) (replicate 300 65) (Cli 3 (Addr 0 []) true []) = Undef UB_bounds.
Proof. apply register_me_bounds; [reflexivity|vm_compute; congruence]. Defined.
