(* ===== verification/ServerTable.v ===== *)
(** The invariant of the server's table of clients, and that every turn of
    every thread of [SockServer.v] keeps it. *)
From S2P Require Import Prelude CString Float64 Connection Request ClientTable SockServer.
#[local] Open Scope Z_scope.

(** Every active client has a name that fits, has missed at most
    [CONF_INACTIVITY_MAX + 1] pings, and no two have the same name. *)
Definition client_ok (c : client_t) : Prop :=
  Z.of_nat (length (cl_name c)) < CONF_CLIENT_NAME_MAX /\
  0 <= cl_inactivity c <= CONF_INACTIVITY_MAX + 1 /\ addr_wf (addr c).

Definition distinct {K} (key : client_t -> K) (l : list client_t) : Prop :=
  forall i j ci cj, l !! i = Some ci -> l !! j = Some cj ->
    active ci = true -> active cj = true -> key ci = key cj -> i = j.

Definition clients_wf (l : list client_t) : Prop :=
  (forall i c, l !! i = Some c -> active c = true -> client_ok c) /\ distinct cl_name l.

(** On TCP the epoll set is the sockets of the active clients, all different. *)
Definition socks_wf (l : list client_t) (p : list Z) : Prop :=
  (forall x, x ∈ p <-> exists i c, l !! i = Some c /\ active c = true /\ cl_sock c = x) /\
  distinct cl_sock l.

Record table_wf (datagram : bool) (d : Z) (s : srv) : Prop := {
  wf_len : length (clients s) = 16%nat;
  wf_depth : depth s = d /\ 0 <= d;
  wf_free : 0 <= free_cl s <= CONF_CLIENTS_MAX;
  wf_id : 0 <= current_request_id s <= INT_MAX;
  wf_clients : clients_wf (clients s);
  wf_socks : datagram = false -> socks_wf (clients s) (poll s);
}.

(** ** Updates of the table *)

Lemma lookup_insert_inv {A} (l : list A) i j x y :
  <[i := x]> l !! j = Some y -> (i = j /\ y = x /\ (i < length l)%nat) \/ (i <> j /\ l !! j = Some y).
Proof. rewrite list_lookup_insert_Some. intros [(<- & <- & H)|H]; [by left|by right]. Qed.

Lemma distinct_insert {K} (key : client_t -> K) l i c :
  distinct key l ->
  (active c = true -> forall j cj, l !! j = Some cj -> active cj = true -> key cj = key c -> j = i) ->
  distinct key (<[i := c]> l).
Proof.
  intros Hd Hn j k cj ck Hj Hk Haj Hak E.
  apply lookup_insert_inv in Hj as [(<- & -> & _)|(Hij & Hj)];
    apply lookup_insert_inv in Hk as [(<- & -> & _)|(Hik & Hk)].
  - done.
  - symmetry. by eapply Hn.
  - by eapply Hn.
  - by eapply Hd.
Qed.

Lemma clients_wf_insert l i c :
  clients_wf l -> (active c = true -> client_ok c) ->
  (active c = true -> forall j cj, l !! j = Some cj -> active cj = true ->
    cl_name cj = cl_name c -> j = i) ->
  clients_wf (<[i := c]> l).
Proof.
  intros [Hok Hd] Hc Hn. split; [|by apply distinct_insert].
  intros j cj Hj Ha. apply lookup_insert_inv in Hj as [(<- & -> & _)|(_ & Hj)]; eauto.
Qed.

(** A client that keeps its name stays distinct from the others. *)
Lemma distinct_same {K} (key : client_t -> K) l i c c' :
  distinct key l -> l !! i = Some c -> key c' = key c -> active c' = active c ->
  active c' = true -> forall j cj, l !! j = Some cj -> active cj = true -> key cj = key c' -> j = i.
Proof. intros Hd Hi Hk Ha Hc j cj Hj Haj E. eapply Hd; try done; congruence. Qed.

Lemma active_set_active_0 c : active (set_active 0 c) = false.
Proof. done. Qed.

Lemma socks_wf_close l p i c :
  socks_wf l p -> l !! i = Some c -> active c = true ->
  socks_wf (<[i := set_active 0 c]> l) (List.filter (fun x => negb (x =? cl_sock c)) p).
Proof.
  intros [Hp Hd] Hi Ha. split.
  - intros x. rewrite list_elem_of_In, filter_In, <- list_elem_of_In, Hp. split.
    + intros [(j & cj & Hj & Haj & <-) Hne].
      exists j, cj. split; [|done]. rewrite list_lookup_insert_ne; [done|].
      intros ->. simplify_eq. by rewrite Z.eqb_refl in Hne.
    + intros (j & cj & Hj & Haj & <-).
      apply lookup_insert_inv in Hj as [(<- & -> & _)|(Hij & Hj)]; [done|].
      split; [by exists j, cj|].
      destruct (Z.eqb_spec (cl_sock cj) (cl_sock c)) as [E|]; [|done].
      destruct Hij. symmetry. by eapply Hd.
  - apply distinct_insert; [done|]. by rewrite active_set_active_0.
Qed.

Lemma socks_wf_update l p i c c' :
  socks_wf l p -> l !! i = Some c -> active c' = active c -> cl_sock c' = cl_sock c ->
  socks_wf (<[i := c']> l) p.
Proof.
  intros [Hp Hd] Hi Ha Hs. split.
  - intros x. rewrite Hp. split; intros (j & cj & Hj & Haj & <-).
    + destruct (decide (i = j)) as [->|Hij].
      * simplify_eq. exists j, c'. rewrite list_lookup_insert_eq by (by eapply lookup_lt_Some).
        by rewrite Ha.
      * exists j, cj. by rewrite list_lookup_insert_ne.
    + apply lookup_insert_inv in Hj as [(<- & -> & _)|(Hij & Hj)].
      * exists i, c. by rewrite <- Ha, <- Hs.
      * by exists j, cj.
  - apply distinct_insert; [done|]. intros Hc'. by eapply distinct_same.
Qed.

Lemma socks_wf_add l p i c c' :
  socks_wf l p -> l !! i = Some c -> active c = false -> active c' = true -> cl_sock c' ∉ p ->
  socks_wf (<[i := c']> l) (p ++ [cl_sock c']).
Proof.
  intros [Hp Hd] Hi Ha Ha' Hs. split.
  - intros x. rewrite elem_of_app, list_elem_of_singleton, Hp. split.
    + intros [(j & cj & Hj & Haj & <-)| ->].
      * exists j, cj. rewrite list_lookup_insert_ne; [done|]. intros ->. simplify_eq. congruence.
      * exists i, c'. by rewrite list_lookup_insert_eq by (by eapply lookup_lt_Some).
    + intros (j & cj & Hj & Haj & <-).
      apply lookup_insert_inv in Hj as [(<- & -> & _)|(Hij & Hj)]; [by right|].
      left. by exists j, cj.
  - apply distinct_insert; [done|]. intros _ j cj Hj Haj E.
    destruct Hs. rewrite <- E. apply Hp. by exists j, cj.
Qed.

(** ** What one call does to the invariant *)

Section Inv.
Context (datagram : bool) (send_ok : Z -> bool).
Context (E : Z -> srv -> Prop).

Lemma wf_emit d e Q s :
  table_wf datagram d s -> (forall s', table_wf datagram d s' -> clients s' = clients s -> poll s' = poll s -> Q tt s') ->
  wp (emit e) Q E s.
Proof. intros [] HQ. apply HQ; done. Qed.

Lemma wf_prompt d Q s :
  table_wf datagram d s -> (forall s', table_wf datagram d s' -> clients s' = clients s -> poll s' = poll s -> Q tt s') ->
  wp print_prompt Q E s.
Proof. apply wf_emit. Qed.

Lemma wf_lock d Q s :
  table_wf datagram d s ->
  (forall s', table_wf datagram (d + 1) s' -> clients s' = clients s -> poll s' = poll s -> Q tt s') ->
  wp lock_clients Q E s.
Proof. intros [Hl [? ?] ? ? ? ?] HQ. apply HQ; try done. split; try done; simpl; lia. Qed.

Lemma wf_unlock d Q s :
  table_wf datagram (d + 1) s -> 0 <= d ->
  (forall s', table_wf datagram d s' -> clients s' = clients s -> poll s' = poll s -> Q tt s') ->
  wp unlock_clients Q E s.
Proof.
  intros [Hl [Hd ?] ? ? ? ?] ? HQ. unfold wp, unlock_clients. cm_step.
  destruct (Z.ltb_spec 0 (depth s)); [|lia]. simpl. apply HQ; try done. split; try done; simpl; lia.
Qed.

Lemma wf_send d sock sm Q s :
  table_wf datagram d s -> fits DATAGRAM_SIZE sm ->
  (forall r s', table_wf datagram d s' -> clients s' = clients s -> poll s' = poll s -> Q r s') ->
  wp (send_sm datagram send_ok sock sm) Q E s.
Proof.
  intros Hwf Hfit HQ. unfold send_sm. apply wp_bind. unfold wp. destruct datagram eqn:Eb.
  - unfold send_sm_dgram. cm_step. destruct (send_ok sock); apply HQ; try done; destruct Hwf; split; done.
  - rewrite send_sm_stream_spec by done. cm_step.
    destruct (send_ok sock); apply HQ; try done; destruct Hwf; split; done.
Qed.

Lemma fits_short stack a t :
  length stack = 256%nat -> fits DATAGRAM_SIZE (short_message a t stack).
Proof.
  intros Hstack. split; [simpl; unfold DATAGRAM_SIZE; lia|].
  change (Z.of_nat (length (overwrite stack 0 [t])) = 256).
  rewrite length_overwrite; rewrite Hstack; [done|simpl; lia].
Qed.

(** Reading [clients[i]]. *)
Lemma wp_client_at i (Q : client_t -> srv -> Prop) s c :
  0 <= i -> clients s !! Z.to_nat i = Some c -> Q c s -> wp (client_at i) Q E s.
Proof.
  intros Hi Hc HQ. unfold wp, client_at. cm_step.
  by assert (aget (clients s) i = Some c) as -> by by apply aget_Some.
Qed.

(** Writing it. *)
Lemma wp_set_client i f (Q : unit -> srv -> Prop) s c :
  0 <= i -> clients s !! Z.to_nat i = Some c ->
  Q tt (set_clients (<[Z.to_nat i := f c]> (clients s)) s) -> wp (set_client i f) Q E s.
Proof.
  intros Hi Hc HQ. unfold wp, set_client. cm_step.
  assert (aget (clients s) i = Some c) as -> by by apply aget_Some. simpl.
  rewrite aset_ok; [done|]. apply lookup_lt_Some in Hc. lia.
Qed.

(** An update that leaves the sockets of the table as they are. *)
Lemma wf_set_client d i f Q s c :
  table_wf datagram d s -> 0 <= i -> clients s !! Z.to_nat i = Some c ->
  active (f c) = active c -> cl_name (f c) = cl_name c -> cl_sock (f c) = cl_sock c ->
  (active c = true -> client_ok (f c)) ->
  (forall s', table_wf datagram d s' -> poll s' = poll s -> Q tt s') ->
  wp (set_client i f) Q E s.
Proof.
  intros [Hl Hd Hf Hid Hc Hs] Hi Hlk Ha Hn Hsk Hok HQ.
  apply (wp_set_client _ _ _ _ c); [done|done|]. apply HQ; [|done]. split; simpl; try done.
  - by rewrite length_insert.
  - apply clients_wf_insert; [done|by rewrite Ha|]. intros Hac. destruct Hc. by eapply distinct_same.
  - intros Hb. by eapply socks_wf_update; [apply Hs| | |].
Qed.

(** Dropping a client: its slot is freed and, on TCP, its socket closed. *)
Lemma wf_drop d i Q s c (k : cm srv unit) :
  table_wf datagram d s -> 0 <= i -> clients s !! Z.to_nat i = Some c -> active c = true ->
  (forall s', table_wf datagram d s' ->
     clients s' = <[Z.to_nat i := set_active 0 c]> (clients s) -> wp k Q E s') ->
  wp (set_client i (set_active 0) ;; (if datagram then mret tt else close_sock (cl_sock c)) ;; k) Q E s.
Proof.
  intros [Hl Hd Hf Hid Hc Hs] Hi Hlk Ha HQ. apply wp_bind.
  apply (wp_set_client _ _ _ _ c); [done|done|].
  assert (clients_wf (<[Z.to_nat i:=set_active 0 c]> (clients s))) as Hc'.
  { apply clients_wf_insert; [done| |]; by rewrite active_set_active_0. }
  apply wp_bind. destruct datagram.
  - apply HQ; [|done]. split; simpl; try done. by rewrite length_insert.
  - apply HQ; [|done]. split; simpl; try done; [by rewrite length_insert|].
    intros _. apply socks_wf_close; [by apply Hs|done|done].
Qed.
End Inv.
