(* ===== verification/ServerTurns.v ===== *)
(** What the turns of the server's threads do: registration on each of its
    branches, the pinger, the choice of a client for a request, and the
    invariant of the whole server under any sequence of turns. *)
From S2P Require Import Prelude CString Float64 Connection Request ClientTable SockServer ServerTable.
From Stdlib Require Import Ascii.
#[local] Open Scope Z_scope.

(** ** The name in a message *)

(** The buffer [register_client] works on, with the name it reads there. *)
Definition terminated (sm : socket_message) : list Z :=
  <[Z.to_nat (1 + (sm_length sm - 1)) := 0]> (sm_buffer sm).

Lemma name_of sm : fits 255 sm -> 1 <= sm_length sm ->
  exists name, c_string (drop 1 (terminated sm)) = Some name /\
    Z.of_nat (length name) < CONF_CLIENT_NAME_MAX.
Proof.
  intros [Hl Hb] H1. unfold DATAGRAM_SIZE in Hb.
  destruct (c_string_prefix (drop 1 (terminated sm)) (Z.to_nat (sm_length sm - 1))) as (n & E & Hn).
  - rewrite lookup_drop. unfold terminated.
    replace (1 + Z.to_nat (sm_length sm - 1))%nat with (Z.to_nat (1 + (sm_length sm - 1))) by lia.
    apply list_lookup_insert_eq. lia.
  - exists n. split; [done|]. unfold CONF_CLIENT_NAME_MAX. lia.
Qed.

(** ** Registration *)

Section Register.
Context (datagram : bool) (send_ok : Z -> bool).

Definition new_client (sock : Z) (sm : socket_message) (name : list Z) : client_t :=
  Client (sm_addr sm) 1 sock name 0.

Definition log_add (es : list event) (s : srv) : srv := set_log (log s ++ es) s.

(** The refusal of a name in use, on the wire. *)
Definition refusal (sm : socket_message) : list Z :=
  if datagram then take 256 (1 :: 0 :: MSG_TYPE_NAMEINUSE :: drop 1 (terminated sm))
  else [1; 0; MSG_TYPE_NAMEINUSE].

Definition free_slot (s : srv) : Z := find_idx (fun c => negb (active c)) (clients s).

(** The state after a registration that is not refused. *)
Definition registered (sock : Z) (sm : socket_message) (name : list Z) (s : srv) : srv :=
  let s1 := set_clients (<[Z.to_nat (free_slot s) := new_client sock sm name]> (clients s)) s in
  let s2 := if datagram then s1 else set_poll (poll s ++ [sock]) s1 in
  log_add [Connected name; Prompt (current_request_id s)] s2.

Definition register_spec (sock : Z) (sm : socket_message) (name : list Z) (s : srv) : outcome srv unit :=
  if name_taken name (clients s) then
    Done tt (log_add ([Refused name; Prompt (current_request_id s)] ++
      (if send_ok sock then [Sent sock (sm_addr sm) (refusal sm)] else [])) s)
  else if free_slot s <? 0 then Done tt (log_add [TooMany] s)
  else if negb datagram && bool_decide (sock ∈ poll s) then
    Exited (-1) (set_depth (depth s + 1)
      (set_clients (<[Z.to_nat (free_slot s) := new_client sock sm name]> (clients s)) s))
  else Done tt (registered sock sm name s).

Lemma send_refusal sock sm s :
  fits 255 sm -> 1 <= sm_length sm ->
  exists r, send_sm datagram send_ok sock
    (SM (sm_addr sm) 1 (<[0%nat := MSG_TYPE_NAMEINUSE]> (terminated sm))) s =
  Done r (log_add (if send_ok sock then [Sent sock (sm_addr sm) (refusal sm)] else []) s).
Proof.
  intros [Hl Hb] H1. unfold DATAGRAM_SIZE in Hb.
  assert (length (terminated sm) = 256%nat) as HT by (unfold terminated; rewrite length_insert; lia).
  destruct (terminated sm) as [|b0 T] eqn:ET; [done|]. simpl in HT.
  unfold send_sm, refusal. rewrite ET. cm_step. destruct datagram.
  - unfold send_sm_dgram. cm_step. rewrite app_nil_r.
    destruct (send_ok sock); eexists; [done|].
    unfold log_add, set_log. rewrite app_nil_r. by destruct s.
  - rewrite send_sm_stream_spec.
    + cm_step. destruct (send_ok sock); eexists; [done|].
      unfold log_add, set_log. rewrite app_nil_r. by destruct s.
    + split; simpl; [unfold DATAGRAM_SIZE; lia|]. rewrite HT. done.
Qed.

Lemma register_client_eq sock sm name s :
  length (clients s) = 16%nat -> 0 <= depth s -> fits 255 sm -> 1 <= sm_length sm ->
  c_string (drop 1 (terminated sm)) = Some name -> Z.of_nat (length name) < CONF_CLIENT_NAME_MAX ->
  register_client datagram send_ok sock sm s = register_spec sock sm name s.
Proof.
  intros Hlen Hd Hfit H1 Hname Hsz. pose proof Hfit as [Hl Hb]. unfold DATAGRAM_SIZE in Hb.
  unfold register_client. unfold mbind at 1, cm_bind at 1.
  rewrite aset_ok by lia. fold (terminated sm). cm_step. rewrite Hname. cm_step.
  rewrite is_name_taken_spec by done. unfold register_spec.
  destruct (name_taken name (clients s)) eqn:Ht.
  - cm_step. unfold emit, modify, print_prompt. cm_step.
    rewrite aset_ok by (unfold terminated; rewrite length_insert; lia). cm_step.
    destruct (send_refusal sock sm
      (set_log ((log s ++ [Refused name]) ++ [Prompt (current_request_id s)])
        (set_log (log s ++ [Refused name]) s)) Hfit H1) as [r Hr].
    change (Z.to_nat 0) with 0%nat. rewrite Hr. f_equal. unfold log_add, set_log. simpl. by rewrite <- !app_assoc.
  - unfold lock_clients. cm_step.
    rewrite client_freeid_spec by (simpl; lia). simpl. fold (free_slot s).
    destruct (Z.ltb_spec (free_slot s) 0) as [Hf|Hf].
    + unfold emit, modify, unlock_clients. cm_step.
      destruct (Z.ltb_spec 0 (depth s + 1)); [|lia]. simpl. f_equal.
      unfold log_add, set_log, set_depth. destruct s; simpl. f_equal. lia.
    + assert (free_slot s < Z.of_nat (length (clients s))) as Hlt.
      { unfold free_slot in *. destruct (find_idx_pos _ _ Hf) as (? & _ & _ & H & _). lia. }
      destruct (Z.ltb_spec (Z.of_nat (length name)) CONF_CLIENT_NAME_MAX); [|lia]. simpl.
      unfold set_client. cm_step.
      destruct (aget_is_Some (clients s) (free_slot s)) as [c Hc]; [lia|]. rewrite Hc. simpl.
      rewrite aset_ok by lia. unfold registered, new_client.
      destruct datagram; simpl.
      * unfold emit, modify, print_prompt, unlock_clients. cm_step.
        destruct (Z.ltb_spec 0 (depth s + 1)); [|lia]. simpl. f_equal.
        unfold log_add, set_log, set_depth, set_clients; simpl. rewrite <- app_assoc. f_equal. lia.
      * unfold add_to_poll. cm_step. destruct (bool_decide (sock ∈ poll s)); [done|].
        unfold emit, modify, print_prompt, unlock_clients. cm_step.
        destruct (Z.ltb_spec 0 (depth s + 1)); [|lia]. simpl. f_equal.
        unfold log_add, set_log, set_depth, set_clients; simpl. rewrite <- app_assoc. f_equal. lia.
Qed.
End Register.

(** The message that registers [name]. *)
Section Register_message.
Context (a : addr_t) (name rest : list Z) (Hname : 0 ∉ name) (Hlen : (length name <= 254)%nat).
Context (Hrest : (1 + length name + length rest)%nat = 256%nat).

Lemma register_fits : fits 255 (SM a (1 + Z.of_nat (length name)) (MSG_TYPE_REGISTER :: name ++ rest)).
Proof.
  split; cbn [sm_length sm_buffer]; [lia|]. cbn [length]. rewrite length_app. unfold DATAGRAM_SIZE. lia.
Qed.

Lemma register_name :
  c_string (drop 1 (terminated (SM a (1 + Z.of_nat (length name)) (MSG_TYPE_REGISTER :: name ++ rest)))) = Some name.
Proof.
  unfold terminated. cbn [sm_length sm_buffer].
  replace (Z.to_nat (1 + (1 + Z.of_nat (length name) - 1))) with (S (length name)) by lia.
  change (c_string (<[length name := 0]> (name ++ rest)) = Some name).
  destruct rest as [|r rest']; [simpl in Hrest; lia|].
  rewrite insert_app_r_alt, Nat.sub_diag by lia. by apply c_string_app.
Qed.
End Register_message.

(** ** The invariant under each handler *)

Lemma active_lookup_free s : 0 <= free_slot s ->
  exists c, clients s !! Z.to_nat (free_slot s) = Some c /\ active c = false.
Proof.
  intros H. destruct (find_idx_pos _ _ H) as (c & Hc & Ha & _).
  exists c. split; [done|]. by apply negb_true_iff.
Qed.

Lemma wf_register datagram send_ok sock sm s :
  table_wf datagram 0 s -> fits 255 sm -> 1 <= sm_length sm -> addr_wf (sm_addr sm) ->
  wp (register_client datagram send_ok sock sm) (fun _ => table_wf datagram 0)
    (fun c s' => c = -1 /\ datagram = false /\ sock ∈ poll s /\ length (clients s') = 16%nat) s.
Proof.
  intros Hwf Hfit H1 Ha. destruct (name_of sm Hfit H1) as (name & Hname & Hsz).
  pose proof Hwf as [Hlen [Hd _] Hf Hid Hc Hs].
  unfold wp. rewrite (register_client_eq _ _ _ _ name) by (try done; lia). unfold register_spec.
  destruct (name_taken name (clients s)) eqn:Ht; [by destruct Hwf; split|].
  destruct (Z.ltb_spec (free_slot s) 0) as [|Hfree]; [by destruct Hwf; split|].
  destruct (active_lookup_free s Hfree) as (c & Hlk & Hac).
  assert (clients_wf (<[Z.to_nat (free_slot s) := new_client sock sm name]> (clients s))) as Hc'.
  { apply clients_wf_insert; [done| |].
    - intros _. split; [done|]. simpl. unfold CONF_INACTIVITY_MAX. split; [lia|done].
    - intros _ j cj Hj Haj E. destruct (name_taken_false _ _ Ht j cj Hj Haj E). }
  destruct datagram; simpl.
  - split; simpl; try done. by rewrite length_insert.
  - destruct (bool_decide_reflect (sock ∈ poll s)) as [|Hp]; [by split; [|split; [|split; [|simpl; rewrite length_insert]]]|].
    split; simpl; try done; [by rewrite length_insert|]. intros _.
    by apply (socks_wf_add _ _ _ c (new_client sock sm name)); [apply Hs| | | |].
Qed.

Section Turns.
Context (datagram : bool) (E : Z -> srv -> Prop).

Lemma wf_unregister i s :
  table_wf datagram 0 s -> (0 <= i -> exists c, clients s !! Z.to_nat i = Some c /\ active c = true) ->
  wp (unregister_client datagram i) (fun _ => table_wf datagram 0) E s.
Proof.
  intros Hwf Hi. unfold unregister_client. apply wp_bind. apply (wf_lock datagram E 0); [done|].
  intros s1 Hwf1 Hc1 _. apply wp_bind. destruct (Z.leb_spec 0 i) as [H0|H0].
  - destruct (Hi H0) as (c & Hlk & Ha). rewrite <- Hc1 in Hlk.
    pose proof Hwf1 as [Hl Hd Hf Hid Hc Hs].
    apply wp_bind. apply (wp_set_client E _ _ _ _ c); [done|done|].
    apply wp_bind. eapply (wp_client_at E _ _ _ (set_active 0 c)); [done| |].
    { simpl. apply list_lookup_insert_eq. by eapply lookup_lt_Some. }
    pose proof (wf_drop datagram E 1 i (fun _ => table_wf datagram 1) s1 c (mret tt) Hwf1 H0 Hlk Ha
      ltac:(intros s' Hw _; exact Hw)) as Hdrop.
    unfold wp, set_client in Hdrop. revert Hdrop. cm_step.
    assert (aget (clients s1) i = Some c) as -> by by apply aget_Some. simpl.
    rewrite aset_ok by (apply lookup_lt_Some in Hlk; lia). simpl.
    destruct datagram; cm_step; intros Hwf2; unfold wp; cm_step;
      (destruct Hwf2 as [Hl2 [Hd2 _] Hf2 Hid2 Hc2 Hs2]; simpl in *;
       unfold unlock_clients; cm_step;
       destruct (Z.ltb_spec 0 (depth s1)); [|lia]; simpl; split; simpl; try done; lia).
  - unfold wp at 1. cm_step. apply (wf_unlock datagram E 0); [done|lia|]. by intros s' ? _ _.
Qed.

Lemma wf_pong i s c :
  table_wf datagram 0 s -> 0 <= i -> clients s !! Z.to_nat i = Some c ->
  wp (handle_pong i) (fun _ => table_wf datagram 0) E s.
Proof.
  intros Hwf Hi Hc. apply (wf_set_client datagram E 0 _ _ _ _ c); try done.
  intros Ha. destruct (wf_clients _ _ _ Hwf) as [Hok _].
  destruct (Hok _ _ Hc Ha) as (? & ? & ?). split; [done|]. simpl. unfold CONF_INACTIVITY_MAX. split; [lia|done].
Qed.

Lemma wf_response i sm s c :
  table_wf datagram 0 s -> 0 <= i -> clients s !! Z.to_nat i = Some c ->
  wp (handle_response i sm) (fun _ => table_wf datagram 0) E s.
Proof.
  intros Hwf Hi Hc. unfold handle_response. destruct (negb _).
  - by apply (wf_emit datagram E 0); [|intros ? ? _ _].
  - apply wp_bind. apply (wp_client_at E _ _ _ c); [done|done|].
    apply wp_bind, (wf_emit datagram E 0); [done|]. intros s1 Hwf1 _ _.
    by apply (wf_prompt datagram E 0); [|intros ? ? _ _].
Qed.

Context (send_ok : Z -> bool) (stack : list Z) (Hstack : length stack = 256%nat).

Lemma wf_ping i d s :
  table_wf datagram d s -> 0 <= i < CONF_CLIENTS_MAX ->
  wp (ping_client datagram send_ok stack i) (fun _ => table_wf datagram d) E s.
Proof.
  intros Hwf Hi. unfold CONF_CLIENTS_MAX in Hi.
  destruct (lookup_lt_is_Some_2 (clients s) (Z.to_nat i)) as [c Hc].
  { destruct Hwf. lia. }
  unfold ping_client. apply wp_bind. apply (wp_client_at E _ _ _ c); [lia|done|].
  destruct (Z.eqb_spec (cl_active c) 0) as [H0|H0]; [done|].
  assert (active c = true) as Ha by (unfold active; by destruct (Z.eqb_spec (cl_active c) 0)).
  assert (client_ok c) as (Hn & Hin & Had).
  { destruct (wf_clients _ _ _ Hwf) as [Hok _]. by eapply Hok. }
  destruct (Z.ltb_spec CONF_INACTIVITY_MAX (cl_inactivity c)).
  - apply wp_bind, (wf_emit datagram E d); [done|]. intros s1 Hwf1 Hc1 _.
    apply wp_bind, (wf_prompt datagram E d); [done|]. intros s2 Hwf2 Hc2 _.
    pose proof (wf_drop datagram E d i (fun _ => table_wf datagram d) s2 c (mret tt) Hwf2 ltac:(lia)
      ltac:(congruence) Ha ltac:(intros s' Hw _; exact Hw)) as Hdrop.
    revert Hdrop. unfold wp, mbind, cm_bind. destruct (set_client i (set_active 0) s2) as [? s3| | |]; try done.
    destruct datagram; [done|]. by destruct (close_sock (cl_sock c) s3) as [[] ?| | |].
  - unfold CONF_INACTIVITY_MAX in *. apply wp_bind. eapply wp_done.
    { apply int_op_ok. unfold INT_MIN, INT_MAX. lia. }
    apply wp_bind. apply (wf_set_client datagram E d _ _ _ _ c); try done; [lia| |].
    + intros _. split; [done|]. simpl. unfold CONF_INACTIVITY_MAX. split; [lia|done].
    + intros s1 Hwf1 _. apply wp_bind. apply (wf_send datagram send_ok E d); [done|by apply fits_short|].
      by intros r s2 Hwf2 _ _.
Qed.

Lemma wf_pinger s :
  table_wf datagram 0 s -> wp (thread_pinger datagram send_ok stack) (fun _ => table_wf datagram 0) E s.
Proof.
  intros Hwf. unfold thread_pinger. apply wp_bind, (wf_lock datagram E 0); [done|].
  intros s1 Hwf1 _ _. apply wp_bind. eapply wp_mono; [|intros ? s2 H; exact H|done].
  eapply wp_mono; [apply (wp_for_range (table_wf datagram 1)); [|done]| |done].
  - intros k s2 Hk H2. apply wf_ping; [done|]. change (Z.of_nat (Z.to_nat CONF_CLIENTS_MAX)) with CONF_CLIENTS_MAX in Hk. lia.
  - intros [] s2 Hwf2. apply (wf_unlock datagram E 0); [done|lia|]. by intros ? ? _ _.
Qed.
End Turns.

(** ** Choosing a client for a request *)

(** Whether slot [from], counted around the table, is in use. *)
Definition used_at (l : list client_t) (from : Z) : bool :=
  match l !! Z.to_nat (from mod CONF_CLIENTS_MAX) with Some c => active c | None => false end.

(** The slot [next_free_client] picks. *)
Definition next_slot (s : srv) : option Z :=
  first_some (fun from => if used_at (clients s) from then Some from else None) 16 (free_cl s).

#[local] Arguments for_until : simpl never.
#[local] Arguments first_some : simpl never.

Lemma next_free_client_eq s :
  length (clients s) = 16%nat -> 0 <= depth s -> 0 <= free_cl s ->
  next_free_client s =
    match next_slot s with
    | Some from => Done (from mod CONF_CLIENTS_MAX) (set_free_cl (from mod CONF_CLIENTS_MAX + 1) s)
    | None => Done (-1) s
    end.
Proof.
  intros Hl Hd Hf. unfold next_free_client, lock_clients. cm_step.
  rewrite (for_until_pure (fun from => if used_at (clients s) from then Some from else None)).
  - change (Z.to_nat CONF_CLIENTS_MAX) with 16%nat. change (free_cl (set_depth _ s)) with (free_cl s).
    fold (next_slot s). destruct (next_slot s) as [from|] eqn:E; unfold unlock_clients; cm_step;
      (destruct (Z.ltb_spec 0 (depth s + 1)); [|lia]); simpl; f_equal.
    + apply first_some_Some in E as (k & Hk & E & _).
      destruct (used_at (clients s) k); simplify_eq.
      by rewrite Z.rem_mod_nonneg by (unfold CONF_CLIENTS_MAX; lia).
    + apply first_some_Some in E as (k & Hk & E & _).
      destruct (used_at (clients s) k); simplify_eq.
      rewrite Z.rem_mod_nonneg by (unfold CONF_CLIENTS_MAX; lia).
      unfold set_free_cl, set_depth; simpl. f_equal. lia.
    + destruct s; unfold set_depth; simpl. f_equal. lia.
  - intros k Hk. change (free_cl (set_depth _ s)) with (free_cl s) in Hk. unfold client_at. cm_step.
    rewrite Z.rem_mod_nonneg by (unfold CONF_CLIENTS_MAX; lia).
    pose proof (Z.mod_pos_bound k CONF_CLIENTS_MAX ltac:(done)) as Hm.
    destruct (lookup_lt_is_Some_2 (clients s) (Z.to_nat (k mod CONF_CLIENTS_MAX))) as [c Hc].
    { unfold CONF_CLIENTS_MAX in *. lia. }
    assert (aget (clients s) (k mod CONF_CLIENTS_MAX) = Some c) as -> by (apply aget_Some; split; [lia|done]).
    simpl. unfold used_at. by rewrite Hc.
Qed.

Section Requests.
Context (datagram : bool) (send_ok : Z -> bool) (stack : list Z) (Hstack : length stack = 256%nat).
Context (E : Z -> srv -> Prop).

Lemma wf_next_free s :
  table_wf datagram 0 s ->
  wp next_free_client (fun i s' => table_wf datagram 0 s' /\
    current_request_id s' = current_request_id s /\ (0 <= i ->
    exists c, clients s' !! Z.to_nat i = Some c)) E s.
Proof.
  intros Hwf. pose proof Hwf as [Hl [Hd _] Hf Hid Hc Hs].
  unfold wp. rewrite next_free_client_eq by lia.
  destruct (next_slot s) as [from|] eqn:En; [|split; [done|split; [done|lia]]].
  pose proof (Z.mod_pos_bound from CONF_CLIENTS_MAX ltac:(done)) as Hm.
  split; [split; simpl; try done; unfold CONF_CLIENTS_MAX in *; lia|].
  split; [done|]. intros _. apply lookup_lt_is_Some_2. simpl. unfold CONF_CLIENTS_MAX in *. lia.
Qed.

Lemma fits_request a req : fits DATAGRAM_SIZE
  (SM a (1 + sizeof_request) (overwrite stack 0 (MSG_TYPE_REQUEST :: encode_request req))).
Proof.
  pose proof (length_encode_request req) as Hr. unfold sizeof_request in *.
  split; cbn [sm_length sm_buffer]; [unfold DATAGRAM_SIZE; lia|].
  rewrite length_overwrite; [by rewrite Hstack|]. cbn [length]. lia.
Qed.

(** A line on which [parse_request] stays inside the string. *)
Definition line_ok (line : option string) : Prop :=
  forall l id, line = Some l -> exists code req,
    parse_request (skip_while is_space l) (Request id 0 0 0) = Done code req.

Lemma wf_read_request line s :
  table_wf datagram 0 s -> current_request_id s < INT_MAX -> line_ok line ->
  wp (read_request datagram send_ok stack line) (fun _ => table_wf datagram 0) E s.
Proof.
  intros Hwf Hid Hline. unfold read_request.
  assert (forall e, wp (emit e ;; mret 1) (fun _ => table_wf datagram 0) E s) as Hemit.
  { intros e. apply wp_bind, (wf_emit datagram E 0); [done|]. by intros ? ? _ _. }
  apply wp_bind. unfold wp at 1, get. cbv beta.
  destruct line as [[|c l]|]; [apply Hemit| |apply Hemit].
  destruct (Hline _ (current_request_id s) eq_refl) as (code & req & Hp). cbv zeta.
  destruct (match skip_while is_space (String c l) with "" => true | String c0 _ => Ascii.eqb c0 NL end);
    [done|]. rewrite Hp.
  destruct (negb (code =? 0)); [apply Hemit|].
  apply wp_bind. eapply wp_mono; [apply wf_next_free, Hwf| |done].
  intros clid s1 (Hwf1 & Hid1 & Hcl). destruct (Z.ltb_spec clid 0) as [|H0].
  { apply wp_bind, (wf_emit datagram E 0); [done|]. by intros ? ? _ _. }
  destruct (Hcl H0) as [cl Hlk]. apply wp_bind. unfold send_request.
  apply wp_bind, (wp_client_at E _ _ _ cl); [done|done|].
  apply (wf_send datagram send_ok E 0); [done|apply fits_request|].
  intros r s2 Hwf2 Hc2 _. destruct (negb (r =? 0)).
  - apply wp_bind, (wf_emit datagram E 0); [done|]. by intros ? ? _ _.
  - apply wp_bind. assert (0 <= current_request_id s) by (destruct Hwf; lia).
    eapply wp_done; [apply int_op_ok; unfold INT_MIN; lia|].
    destruct Hwf2. split; simpl; try done. lia.
Qed.
End Requests.

(** ** The server under any turns *)

(** A message as a well-behaved sender makes it: at least one byte, and room
    for the terminator [register_client] writes. *)
Definition message_ok (sm : socket_message) : Prop :=
  fits 255 sm /\ 1 <= sm_length sm /\ addr_wf (sm_addr sm).

Definition turn_ok (datagram : bool) (s : srv) (t : turn) : Prop :=
  match t with
  | TListen _ r => forall sm, r = Some sm -> message_ok sm
  | TAccept sock a r => forall sm, r = Some sm ->
      fits 255 sm /\ 1 <= sm_length sm /\ addr_wf a /\ datagram = false /\ sock ∉ poll s
  | TPing => True
  | TRequest line => current_request_id s < INT_MAX /\ line_ok line
  end.

(** The one way a turn can end the server: on TCP, a [REGISTER] that arrives
    on a socket that is already registered. *)
Definition reregisters (datagram : bool) (s : srv) (t : turn) : Prop :=
  exists sock sm, t = TListen sock (Some sm) /\ datagram = false /\ sock ∈ poll s.

Section Server.
Context (datagram : bool) (send_ok : Z -> bool) (stack : list Z) (Hstack : length stack = 256%nat).

Lemma sender_spec sock sm s :
  table_wf datagram 0 s -> addr_wf (sm_addr sm) ->
  exists i, (if datagram then client_for_addr (sm_addr sm) else client_for_sock sock) s = Done i s /\
    (0 <= i -> exists c, clients s !! Z.to_nat i = Some c /\ active c = true).
Proof.
  intros Hwf Ha. pose proof Hwf as [Hl [Hd _] _ _ [Hok _] _].
  destruct datagram.
  - eexists. split.
    + apply client_for_addr_spec; [done|lia|done|]. intros c Hc Hac.
      apply list_elem_of_lookup in Hc as [j Hj]. by destruct (Hok _ _ Hj Hac) as (_ & _ & ?).
    + intros Hi. destruct (find_idx_pos _ _ Hi) as (c & Hc & Hp & _).
      apply andb_true_iff in Hp as [? _]. by exists c.
  - eexists. split; [apply client_for_sock_spec; [done|lia]|].
    intros Hi. destruct (find_idx_pos _ _ Hi) as (c & Hc & Hp & _).
    apply andb_true_iff in Hp as [? _]. by exists c.
Qed.

Lemma wf_listen sock r s :
  table_wf datagram 0 s -> turn_ok datagram s (TListen sock r) ->
  wp (thread_listen datagram send_ok sock r) (fun _ => table_wf datagram 0)
    (fun c s' => (c = -1 /\ reregisters datagram s (TListen sock r)) /\ length (clients s') = 16%nat) s.
Proof.
  intros Hwf Hok. destruct r as [sm|]; [|done]. destruct (Hok sm eq_refl) as ([Hl Hb] & H1 & Ha).
  unfold DATAGRAM_SIZE in Hb. unfold thread_listen. apply wp_bind.
  destruct (aget_is_Some (sm_buffer sm) 0) as [b Hbyte]; [lia|].
  unfold msg_type, wp at 1, mbind at 1, cm_bind at 1. rewrite Hbyte. cm_step.
  destruct (sender_spec sock sm s Hwf Ha) as (i & Hi & Hact).
  change (wp ((if datagram then client_for_addr (sm_addr sm) else client_for_sock sock) ≫= fun client_id =>
      if ((client_id : Z) <? 0) && negb (s8 b =? MSG_TYPE_REGISTER) && negb (s8 b =? MSG_TYPE_UNREGISTER)
      then emit UnknownClient ;; print_prompt
      else if s8 b =? MSG_TYPE_REGISTER then register_client datagram send_ok sock sm
      else if s8 b =? MSG_TYPE_UNREGISTER then unregister_client datagram client_id
      else if s8 b =? MSG_TYPE_PONG then handle_pong client_id
      else if s8 b =? MSG_TYPE_RESPONSE then handle_response client_id sm
      else emit (InvalidType (s8 b))) (fun _ => table_wf datagram 0)
      (fun c s' => (c = -1 /\ reregisters datagram s (TListen sock (Some sm))) /\ length (clients s') = 16%nat) s).
  apply wp_bind. eapply wp_done; [exact Hi|].
  destruct ((i <? 0) && negb (s8 b =? MSG_TYPE_REGISTER) && negb (s8 b =? MSG_TYPE_UNREGISTER)) eqn:Hun.
  { apply wp_bind, (wf_emit datagram _ 0); [done|]. intros s1 Hwf1 _ _.
    by apply (wf_prompt datagram _ 0); [|intros ? ? _ _]. }
  destruct (s8 b =? MSG_TYPE_REGISTER).
  { eapply wp_mono; [apply wf_register; [done|done|done|done]|done|].
    intros c s' (-> & Hdg & Hp & Hl'). split; [|done]. split; [done|]. by exists sock, sm. }
  destruct (s8 b =? MSG_TYPE_UNREGISTER); [by apply wf_unregister|].
  assert (0 <= i) as H0 by (simpl in Hun; lia). destruct (Hact H0) as (c & Hc & _).
  destruct (s8 b =? MSG_TYPE_PONG); [by apply (wf_pong _ _ _ _ c)|].
  destruct (s8 b =? MSG_TYPE_RESPONSE); [by apply (wf_response _ _ _ _ _ c)|].
  by apply (wf_emit datagram _ 0); [|intros ? ? _ _].
Qed.

Lemma wf_accept sock a r s :
  table_wf datagram 0 s -> turn_ok datagram s (TAccept sock a r) ->
  wp (thread_accept datagram send_ok sock a r) (fun _ => table_wf datagram 0) (fun _ _ => False) s.
Proof.
  intros Hwf Hok. destruct r as [sm|]; [|done]. destruct (Hok sm eq_refl) as ([Hl Hb] & H1 & Ha & Hdg & Hp).
  pose proof Hb as Hb'. unfold DATAGRAM_SIZE in Hb. unfold thread_accept. apply wp_bind.
  destruct (aget_is_Some (sm_buffer sm) 0) as [b Hbyte]; [lia|].
  rewrite Hbyte. unfold wp at 1. cm_step.
  destruct (negb (s8 b =? MSG_TYPE_REGISTER)).
  - by apply (wf_emit datagram _ 0); [|intros ? ? _ _].
  - eapply wp_mono; [apply wf_register; done|done|]. by intros c s' (_ & _ & ? & _).
Qed.

Lemma wf_turn t s :
  table_wf datagram 0 s -> turn_ok datagram s t ->
  wp (do_turn datagram send_ok stack t) (fun _ => table_wf datagram 0)
    (fun c s' => (c = -1 /\ reregisters datagram s t) /\ length (clients s') = 16%nat) s.
Proof.
  intros Hwf Hok. destruct t as [sock r|sock a r| |line]; simpl.
  - by apply wf_listen.
  - eapply wp_mono; [by apply wf_accept|done|done].
  - by apply wf_pinger.
  - destruct Hok. apply wp_bind. eapply wp_mono; [by apply (wf_read_request _ send_ok _ Hstack (fun _ _ => False))| |done].
    by intros a s' ?.
Qed.

(** The states the server goes through. *)
Inductive served : srv -> Prop :=
  | served_start : served server_start
  | served_turn t s s' :
      served s -> turn_ok datagram s t -> do_turn datagram send_ok stack t s = Done tt s' -> served s'.

Lemma server_start_wf : table_wf datagram 0 server_start.
Proof.
  assert (forall i c, clients server_start !! i = Some c -> active c = false) as H.
  { intros i c Hc. by apply lookup_replicate in Hc as [-> _]. }
  split; try done.
  - split; [intros i c Hc Ha|intros i j ci cj Hi Hj Ha]; [pose proof (H i c Hc); congruence|by rewrite (H i ci Hi) in Ha].
  - intros _. split; [|intros i j ci cj Hi Hj Ha; pose proof (H i ci Hi); congruence].
    intros x. split; [by intros ?%not_elem_of_nil|]. intros (i & c & Hc & Ha & _). pose proof (H i c Hc). congruence.
Qed.

Lemma served_wf s : served s -> table_wf datagram 0 s.
Proof.
  induction 1 as [|t s s' _ IH Hok Ht]; [apply server_start_wf|].
  pose proof (wf_turn t s IH Hok) as H. unfold wp in H. by rewrite Ht in H.
Qed.
End Server.

(** ** The pinger, client by client *)

(** What one round makes of a client. *)
Definition ping_step (c : client_t) : client_t :=
  if cl_active c =? 0 then c
  else if CONF_INACTIVITY_MAX <? cl_inactivity c then set_active 0 c
  else set_inactivity (cl_inactivity c + 1) c.

Lemma ping_step_silent c k :
  active c = true -> cl_inactivity c = 0 -> 0 <= k <= 4 ->
  Nat.iter (Z.to_nat k) ping_step c = set_inactivity k c.
Proof.
  intros Ha Hi Hk. unfold active in Ha. destruct c as [a f sk n v]; simpl in *. subst v.
  assert (k = 0 \/ k = 1 \/ k = 2 \/ k = 3 \/ k = 4) as H by lia.
  destruct (f =? 0) eqn:E; [done|].
  destruct H as [->|[->|[->|[->| ->]]]]; simpl; unfold ping_step, set_inactivity; simpl;
    rewrite ?E; simpl; rewrite ?E; simpl; rewrite ?E; simpl; rewrite ?E; done.
Qed.

Lemma ping_step_lower c : INT_MIN <= cl_inactivity c -> INT_MIN <= cl_inactivity (ping_step c).
Proof.
  unfold ping_step. destruct (_ =? _); [done|]. destruct (_ <? _); [done|]. simpl. lia.
Qed.

Section Pinger.
Context (datagram : bool) (send_ok : Z -> bool) (stack : list Z) (Hstack : length stack = 256%nat).

Lemma ping_client_clients i c s :
  0 <= i -> clients s !! Z.to_nat i = Some c -> INT_MIN <= cl_inactivity c ->
  wp (ping_client datagram send_ok stack i)
    (fun _ s' => clients s' = <[Z.to_nat i := ping_step c]> (clients s)) (fun _ _ => False) s.
Proof.
  intros Hi Hc Hin. pose proof (lookup_lt_Some _ _ _ Hc) as Hlt.
  unfold ping_client, ping_step. apply wp_bind. apply (wp_client_at _ _ _ _ c); [done|done|].
  destruct (cl_active c =? 0); [unfold wp; simpl; by rewrite list_insert_id|].
  destruct (Z.ltb_spec CONF_INACTIVITY_MAX (cl_inactivity c)).
  - unfold wp, emit, print_prompt, modify, set_client. cm_step.
    assert (aget (clients s) i = Some c) as -> by by apply aget_Some. simpl.
    rewrite aset_ok by lia. simpl. destruct datagram; done.
  - unfold CONF_INACTIVITY_MAX in *. apply wp_bind. eapply wp_done.
    { apply int_op_ok. unfold INT_MIN, INT_MAX in *. lia. }
    apply wp_bind, (wp_set_client _ _ _ _ _ c); [done|done|].
    apply wp_bind. unfold send_sm. apply wp_bind.
    unfold wp. destruct datagram.
    + unfold send_sm_dgram. cm_step. by destruct (send_ok _).
    + rewrite send_sm_stream_spec by by apply fits_short. cm_step. by destruct (send_ok _).
Qed.

Lemma pinger_clients s :
  length (clients s) = 16%nat -> 0 <= depth s ->
  (forall c, c ∈ clients s -> INT_MIN <= cl_inactivity c) ->
  wp (for_range 16 0 (ping_client datagram send_ok stack))
    (fun _ s' => clients s' = map ping_step (clients s)) (fun _ _ => False) s.
Proof.
  intros Hl Hd Hin.
  pose proof (wp_for_range_idx (fun k s' => clients s' =
    map ping_step (take (Z.to_nat k) (clients s)) ++ drop (Z.to_nat k) (clients s))
    (fun _ _ => False) (ping_client datagram send_ok stack) 16 0 s) as H.
  eapply wp_mono; [apply H| |done].
  - intros k s1 Hk E. destruct (lookup_lt_is_Some_2 (clients s) (Z.to_nat k)) as [c Hc]; [lia|].
    assert (clients s1 !! Z.to_nat k = Some c) as Hc1.
    { rewrite E, lookup_app_r; rewrite length_map, length_take; [|lia].
      rewrite lookup_drop, <- Hc. f_equal. lia. }
    eapply wp_mono; [apply (ping_client_clients k c); [lia|done|]| |done].
    + apply Hin. by eapply list_elem_of_lookup_2.
    + intros [] s2 E2. rewrite E2, E.
      replace (Z.to_nat (k + 1)) with (S (Z.to_nat k)) by lia.
      rewrite (take_S_r _ _ c) by done. rewrite (drop_S _ c (Z.to_nat k)) by done.
      rewrite map_app, <- app_assoc. rewrite insert_app_r_alt; rewrite length_map, length_take; [|lia].
      by replace (Z.to_nat k - Z.to_nat k `min` length (clients s))%nat with 0%nat by lia.
  - done.
  - intros [] s1 E. rewrite E. change (Z.to_nat (0 + Z.of_nat 16)) with 16%nat.
    rewrite take_ge, drop_ge by lia. by rewrite app_nil_r.
Qed.

(** [n] rounds of the pinger with no turn of another thread between them. *)
Fixpoint ping_rounds (n : nat) : cm srv unit :=
  match n with
  | O => mret tt
  | S n' => thread_pinger datagram send_ok stack ;; ping_rounds n'
  end.

Lemma ping_round s :
  table_wf datagram 0 s ->
  (forall c, c ∈ clients s -> INT_MIN <= cl_inactivity c) ->
  wp (thread_pinger datagram send_ok stack)
    (fun _ s' => table_wf datagram 0 s' /\ clients s' = map ping_step (clients s)) (fun _ _ => False) s.
Proof.
  intros Hwf Hin.
  pose proof (wf_pinger datagram (fun _ _ => False) send_ok stack Hstack s Hwf) as H1.
  pose proof Hwf as [Hl [Hd _] _ _ _ _].
  pose proof (pinger_clients (set_depth (depth s + 1) s) Hl ltac:(simpl; lia) Hin) as H2.
  revert H1 H2. unfold wp, thread_pinger, lock_clients, mbind, cm_bind, modify. cbv beta.
  change (Z.to_nat CONF_CLIENTS_MAX) with 16%nat.
  destruct (for_range 16 0 _ _) as [a s1| | |]; try done.
  unfold unlock_clients. cm_step. destruct (0 <? depth s1); done.
Qed.

Lemma ping_rounds_spec n s :
  table_wf datagram 0 s -> (forall c, c ∈ clients s -> INT_MIN <= cl_inactivity c) ->
  wp (ping_rounds n)
    (fun _ s' => table_wf datagram 0 s' /\ clients s' = map (Nat.iter n ping_step) (clients s))
    (fun _ _ => False) s.
Proof.
  revert s. induction n as [|n IH]; intros s Hwf Hin.
  - split; [done|]. symmetry. apply map_id.
  - simpl. apply wp_bind. eapply wp_mono; [by apply ping_round| |done].
    intros [] s1 [Hwf1 E1]. eapply wp_mono; [apply IH; [done|]| |done].
    + intros c. rewrite E1, list_elem_of_In, in_map_iff. intros (c0 & <- & Hc0%list_elem_of_In).
      apply ping_step_lower. by apply Hin.
    + intros [] s2 [Hwf2 E2]. split; [done|]. rewrite E2, E1, map_map. apply map_ext.
      intros c. by rewrite Nat.iter_succ_r.
Qed.
End Pinger.

(** ** Properties *)


(** A [REGISTER] message carrying a name: the client is entered in the
    first free slot with the name, socket and address of the message and no
    missed pings, unless the name is in use (then the table is unchanged and
    the sender is told so), the table is full (then nothing happens), or, on
    TCP, the socket is already registered (then the server exits, with the
    slot filled). *)
Theorem registration_outcome (datagram : bool) (send_ok : Z -> bool) (sock : Z) (a : addr_t)
  (name rest : list Z) (s : srv)
  (Hs : table_wf datagram 0 s) (Hname : 0 ∉ name) (Hlen : (length name <= 254)%nat)
  (Hrest : (1 + length name + length rest)%nat = 256%nat) :
  register_client datagram send_ok sock
    (SM a (1 + Z.of_nat (length name)) (MSG_TYPE_REGISTER :: name ++ rest)) s =
  register_spec datagram send_ok sock
    (SM a (1 + Z.of_nat (length name)) (MSG_TYPE_REGISTER :: name ++ rest)) name s.
Proof.
  pose proof Hs as [Hl [Hd _] _ _ _ _].
  apply register_client_eq; [done|lia| | | |unfold CONF_CLIENT_NAME_MAX; lia].
  - by apply register_fits.
  - cbn [sm_length]. lia.
  - by apply register_name.
Qed.

(** A TCP client that is connected can stop the server: a second
    [REGISTER] with a name that is free, while a slot is free, makes the
    listener exit with -1. *)
Theorem second_register_stops_server (send_ok : Z -> bool) (sock : Z) (a : addr_t)
  (name rest : list Z) (s : srv)
  (Hs : table_wf false 0 s) (Hname : 0 ∉ name) (Hlen : (length name <= 254)%nat)
  (Hrest : (1 + length name + length rest)%nat = 256%nat)
  (Hsock : sock ∈ poll s) (Hfree : name_taken name (clients s) = false) (Hslot : 0 <= free_slot s) :
  exists s', thread_listen false send_ok sock
    (Some (SM a (1 + Z.of_nat (length name)) (MSG_TYPE_REGISTER :: name ++ rest))) s = Exited (-1) s'.
Proof.
  pose proof Hs as [Hl [Hd _] _ _ _ _].
  unfold thread_listen. unfold mbind at 1, cm_bind at 1. unfold msg_type at 1. cm_step.
  rewrite client_for_sock_spec by (try done; lia).
  change (s8 MSG_TYPE_REGISTER) with 0. simpl. rewrite andb_false_r. simpl.
  rewrite (register_client_eq _ _ _ _ name).
  - unfold register_spec. rewrite Hfree. destruct (Z.ltb_spec (free_slot s) 0); [lia|]. simpl.
    rewrite bool_decide_true by done. by eexists.
  - done.
  - lia.
  - by apply register_fits.
  - cbn [sm_length]. lia.
  - by apply register_name.
  - unfold CONF_CLIENT_NAME_MAX; lia.
Qed.

(** [register_client] writes the terminator of the name outside the
    message when the length it carries is 256 or more, which the sender
    chooses. *)
Theorem register_client_overflow (datagram : bool) (send_ok : Z -> bool) (sock : Z) (sm : socket_message) (s : srv)
  (Hbuf : Z.of_nat (length (sm_buffer sm)) = DATAGRAM_SIZE) (Hlen : DATAGRAM_SIZE <= sm_length sm) :
  register_client datagram send_ok sock sm s = Undef UB_bounds.
Proof.
  unfold register_client, DATAGRAM_SIZE in *. cm_step. unfold aset, in_range.
  destruct (_ && _) eqn:Hr; [lia|done].
Qed.

(** A client that never answers stays connected through four rounds of
    the pinger, with as many pings counted as were sent, and is dropped in
    the fifth. *)
Theorem silent_client_timeout (datagram : bool) (send_ok : Z -> bool) (stack : list Z) (s : srv)
  (i : nat) (c : client_t) (k : Z)
  (Hstack : length stack = 256%nat) (Hs : table_wf datagram 0 s)
  (Hin : forall c, c ∈ clients s -> 0 <= cl_inactivity c)
  (Hc : clients s !! i = Some c) (Ha : active c = true) (H0 : cl_inactivity c = 0)
  (Hk : 0 <= k <= CONF_INACTIVITY_MAX + 2) :
  exists s', ping_rounds datagram send_ok stack (Z.to_nat k) s = Done tt s' /\
    clients s' !! i = Some (if k <=? CONF_INACTIVITY_MAX + 1 then set_inactivity k c
                            else set_active 0 (set_inactivity (CONF_INACTIVITY_MAX + 1) c)).
Proof.
  pose proof (ping_rounds_spec datagram send_ok stack Hstack (Z.to_nat k) s Hs) as H.
  unfold wp in H. destruct (ping_rounds _ _ _ _ s) as [[] s'| | |];
    (try destruct H; try (intros c0 Hc0; specialize (Hin c0 Hc0); unfold INT_MIN; lia)).
  exists s'. split; [done|].
  match goal with E : clients s' = _ |- _ => rewrite E end.
  rewrite list_lookup_fmap, Hc. cbn [fmap option_fmap option_map]. f_equal.
  unfold CONF_INACTIVITY_MAX in *. destruct (Z.leb_spec k (3 + 1)).
  - apply ping_step_silent; [done|done|lia].
  - replace (Z.to_nat k) with (S (Z.to_nat 4)) by lia.
    cbn [Nat.iter nat_rect]. fold (Nat.iter (Z.to_nat 4) ping_step c).
    rewrite ping_step_silent by (try done; lia). unfold ping_step. simpl.
    unfold active in Ha. by destruct (cl_active c =? 0).
Qed.

(** [next_free_client] serves the clients in turn: it gives the first
    slot in use at or after [free_cl], counted around the table, and moves
    [free_cl] behind it; it gives -1 exactly when no client is active. *)
Theorem next_free_client_round_robin (datagram : bool) (s : srv) (Hs : table_wf datagram 0 s) :
  (exists k, 0 <= k < CONF_CLIENTS_MAX /\ used_at (clients s) (free_cl s + k) = true /\
     (forall j, 0 <= j < k -> used_at (clients s) (free_cl s + j) = false) /\
     let r := (free_cl s + k) mod CONF_CLIENTS_MAX in
     next_free_client s = Done r (set_free_cl (r + 1) s)) \/
  ((forall c, c ∈ clients s -> active c = false) /\ next_free_client s = Done (-1) s).
Proof.
  pose proof Hs as [Hl [Hd _] Hf _ _ _]. rewrite next_free_client_eq by lia.
  unfold next_slot. destruct (first_some _ 16 (free_cl s)) as [r|] eqn:E.
  - left. apply first_some_Some in E as (k & Hk & Er & Hlt).
    destruct (used_at (clients s) k) eqn:Hu; simplify_eq.
    exists (r - free_cl s). replace (free_cl s + (r - free_cl s)) with r by lia.
    unfold CONF_CLIENTS_MAX at 1. split; [lia|]. split; [done|]. split; [|done].
    intros j Hj. specialize (Hlt (free_cl s + j) ltac:(lia)).
    by destruct (used_at (clients s) (free_cl s + j)).
  - right. split; [|done]. intros c [j Hj]%list_elem_of_lookup.
    pose proof (lookup_lt_Some _ _ _ Hj) as Hlt. rewrite Hl in Hlt.
    set (k := free_cl s + (Z.of_nat j - free_cl s) mod 16).
    pose proof (Z.mod_pos_bound (Z.of_nat j - free_cl s) 16 ltac:(done)) as Hm.
    pose proof (first_some_None _ _ _ k E ltac:(unfold k; lia)) as Hn. simpl in Hn.
    assert (used_at (clients s) k = active c) as Hu; [|by destruct (used_at (clients s) k)].
    unfold used_at, k, CONF_CLIENTS_MAX. rewrite Zplus_mod_idemp_r.
    replace (free_cl s + (Z.of_nat j - free_cl s)) with (Z.of_nat j) by lia.
    rewrite Z.mod_small by lia. by rewrite Nat2Z.id, Hj.
Qed.

(** ** A server with one client *)

Definition demo_addr : addr_t := Addr 2 [1; 2].
Definition demo_register (name : list Z) : socket_message :=
  SM demo_addr (1 + Z.of_nat (length name)) (MSG_TYPE_REGISTER :: name ++ replicate (255 - length name) 0).
Definition demo_srv (datagram : bool) : srv :=
  registered datagram 7 (demo_register [65; 66]) [65; 66] server_start.

Lemma demo_srv_turn datagram :
  register_client datagram (fun _ => true) 7 (demo_register [65; 66]) server_start = Done tt (demo_srv datagram).
Proof. destruct datagram; vm_compute; reflexivity. Qed.

Lemma demo_fits : fits 255 (demo_register [65; 66]).
Proof. split; [|reflexivity]. simpl. lia. Qed.

Lemma demo_wf datagram : table_wf datagram 0 (demo_srv datagram).
Proof.
  pose proof (wf_register datagram (fun _ => true) 7 (demo_register [65; 66]) server_start
    (server_start_wf datagram) demo_fits ltac:(simpl; lia) ltac:(unfold addr_wf; simpl; lia)) as H.
  unfold wp in H. by rewrite demo_srv_turn in H.
Qed.


Lemma registration_outcome_witness :
  register_client true (fun _ => true) 9 (demo_register [67]) (demo_srv true) =
  Done tt (registered true 9 (demo_register [67]) [67] (demo_srv true)) /\
  exists s', register_client true (fun _ => true) 9 (demo_register [65; 66]) (demo_srv true) = Done tt s' /\
    clients s' = clients (demo_srv true).
Proof.
  split.
  - refine (eq_trans (registration_outcome true (fun _ => true) 9 demo_addr [67] (replicate 254 0)
      (demo_srv true) (demo_wf true) _ _ _) _); [intros H%list_elem_of_In; simpl in H; intuition discriminate|simpl; lia|reflexivity|].
    vm_compute. reflexivity.
  - eexists. split.
    + refine (eq_trans (registration_outcome true (fun _ => true) 9 demo_addr [65; 66] (replicate 253 0)
        (demo_srv true) (demo_wf true) _ _ _) _); [intros H%list_elem_of_In; simpl in H; intuition discriminate|simpl; lia|reflexivity|].
      vm_compute. reflexivity.
    + reflexivity.
Defined.

Lemma second_register_stops_server_witness :
  exists s', thread_listen false (fun _ => true) 7 (Some (demo_register [67])) (demo_srv false) = Exited (-1) s'.
Proof.
  apply (second_register_stops_server (fun _ => true) 7 demo_addr [67] (replicate 254 0) (demo_srv false) (demo_wf false));
    try reflexivity.
  - intros H%list_elem_of_In. simpl in H. intuition discriminate.
  - simpl. lia.
  - apply list_elem_of_In. simpl. auto.
  - vm_compute. congruence.
Defined.

Lemma register_client_overflow_witness :
  register_client true (fun _ => true) 3 (SM demo_addr 256 (replicate 256 65)) server_start = Undef UB_bounds.
Proof. apply register_client_overflow; [reflexivity|]. vm_compute. congruence. Defined.

Lemma silent_client_timeout_witness :
  exists s', ping_rounds true (fun _ => true) (replicate 256 0) 5 (demo_srv true) = Done tt s' /\
    clients s' !! 0%nat = Some (Client demo_addr 0 7 [65; 66] 4).
Proof.
  apply (silent_client_timeout true (fun _ => true) (replicate 256 0) (demo_srv true) 0
    (Client demo_addr 1 7 [65; 66] 0) 5 eq_refl (demo_wf true)); try reflexivity.
  - apply Forall_forall. vm_compute. repeat constructor; congruence.
  - unfold CONF_INACTIVITY_MAX. lia.
Defined.

Lemma next_free_client_round_robin_witness :
  (exists k, 0 <= k < CONF_CLIENTS_MAX /\ used_at (clients (demo_srv false)) (0 + k) = true /\
     (forall j, 0 <= j < k -> used_at (clients (demo_srv false)) (0 + j) = false) /\
     let r := (0 + k) mod CONF_CLIENTS_MAX in
     next_free_client (demo_srv false) = Done r (set_free_cl (r + 1) (demo_srv false))) \/
  ((forall c, c ∈ clients (demo_srv false) -> active c = false) /\
   next_free_client (demo_srv false) = Done (-1) (demo_srv false)).
Proof. apply (next_free_client_round_robin false (demo_srv false) (demo_wf false)). Defined.
