(* ===== verification/SockMain.v ===== *)
(** The calculation client from its start to its end: [main] of
    cw10/zad1/src/client.c, in both builds, over [SockClient]; that whatever
    happens the client takes leave of its server and closes its socket; and
    the registration as the server takes it. *)
From S2P Require Import Prelude CString Float64 Connection Request ClientTable SockServer SockClient ServerTable ServerTurns.
#[local] Open Scope Z_scope.

Definition AF_LOCAL : Z := 1.
Definition AF_INET : Z := 2.
Definition sizeof_sun_path : Z := 108.
Definition sizeof_sockaddr_un : Z := 110.
Definition sizeof_sockaddr_in : Z := 16.

(** The globals before [main] runs; the union of [struct addr_t] has 112 bytes. *)
Definition client_start : client := Cli 0 (Addr 0 (replicate 112 0)) true [].

Definition set_server_sock (fd : Z) : cm client unit :=
  modify (fun c => Cli fd (server_addr c) (send_unregister c) (clog c)).
Definition set_server_addr (a : addr_t) : cm client unit :=
  modify (fun c => Cli (server_sock c) a (send_unregister c) (clog c)).

(** [strcpy] of a string into an array of [n] characters. *)
Definition strcpy_fits (n : Z) (s : string) : cm client unit := check (strlen s <? n) UB_bounds.

(** The family of an address, as its first two bytes. *)
Definition sa_family (a : addr_t) : Z := le_val (take 2 (addr_bytes a)).

Section Main.
(** The build. *)
Context (datagram : bool).
(** What the system answers: the descriptor [socket] returns, whether
    [connect] succeeds, whether sends are taken, what [inet_addr] makes of a
    text (as the number its four bytes are in memory).  What the
    uninitialised locals hold. *)
Context (fd : Z) (connects send_ok : bool) (inet_addr : string -> Z) (stack pad : list Z).

#[local] Abbreviation cexit := (cexit send_ok stack).

(** [if ((server_sock = socket(...)) == -1)] *)
Definition open_socket : cm client unit :=
  set_server_sock fd ;;
  if fd =? -1 then cemit CNoSocket ;; cexit (-1) else mret tt.

Definition address_local (local_path : string) : cm client unit :=
  open_socket ;;
  cemit (CConnectingLocal local_path) ;;
  c ← get;
  strcpy_fits sizeof_sun_path local_path ;;
  set_server_addr (Addr sizeof_sockaddr_un
    (overwrite (addr_bytes (server_addr c)) 0 (le_bytes 2 AF_LOCAL ++ bytes local_path ++ [0]))).

Definition address_net (arg : string) : cm client unit :=
  open_socket ;;
  let '(addrname, rest) := strtok arg ":" in
  let '(port, _) := strtok rest "" in
  port ← lift UB_null port;
  port ← atoi port;
  addrname ← lift UB_null addrname;
  c ← get;
  set_server_addr (Addr sizeof_sockaddr_in
    (overwrite (addr_bytes (server_addr c)) 0
      (le_bytes 2 AF_INET ++ rev (le_bytes 2 (port : Z)) ++ le_bytes 4 (inet_addr addrname)))) ;;
  cemit (CConnectingNet addrname port).

(** The loop, for what its calls of [receive_sm] deliver one after the other;
    the client is still in it when the list ends. *)
Fixpoint client_loop (received : list (option socket_message * Z)) : cm client unit :=
  match received with
  | [] => mret tt
  | (r, errno) :: rest => receive_request send_ok stack pad r errno ;; client_loop rest
  end.

Definition client_main (argv : list string) (received : list (option socket_message * Z)) : cm client unit :=
  match argv with
  | [_; name; type; target] =>
      strcpy_fits CONF_CLIENT_NAME_MAX name ;;
      (if streq type "local" then address_local target
       else if streq type "net" then address_net target
       else cemit (CInvalidConnection type) ;; cexit (-1)) ;;
      c ← get;
      (if datagram && (sa_family (server_addr c) =? AF_LOCAL) then cemit (CBound (server_sock c)) else mret tt) ;;
      (if connects then mret tt else cemit CCannotConnect ;; cexit (-1)) ;;
      register_me send_ok stack (bytes name) ;;
      cemit CRegistered ;;
      client_loop received
  | _ => cemit CUsage ;; exit_ (-1)
  end.
End Main.

(** ** What a run leaves behind *)

Definition quiet (e : cevent) : Prop :=
  match e with CClosed _ | CServerShutting => False | _ => True end.

(** The client is at work: its socket is open, and it has not been told to
    stop. *)
Definition running (c : client) : Prop := send_unregister c = true /\ Forall quiet (clog c).

(** The client has ended: the last things it did were to tell the server,
    unless the server had told it to stop or the message did not go out, and to
    close its socket, once. *)
Definition took_leave (send_ok : bool) (stack : list Z) (c : client) : Prop :=
  exists before, clog c = before ++ CShutting ::
      (if send_unregister c && send_ok
       then [CSent (server_addr c) 1 (overwrite stack 0 [MSG_TYPE_UNREGISTER])] else []) ++
      [CClosed (server_sock c)] /\
    (if send_unregister c then Forall quiet before
     else exists told, before = told ++ [CServerShutting] /\ Forall quiet told).

(** Arguments that are in bounds: [strcpy] and [strtok] check nothing. *)
Definition argv_ok (argv : list string) : Prop :=
  match argv with
  | [_; name; type; target] =>
      strlen name < CONF_CLIENT_NAME_MAX /\
      (type = "local"%string -> strlen target < sizeof_sun_path) /\
      (type = "net"%string -> exists host port, (strtok target ":").1 = Some host /\
        (strtok (strtok target ":").2 "").1 = Some port /\ INT_MIN <= atoi_val port <= INT_MAX)
  | _ => True
  end.

Definition delivery_ok (d : option socket_message * Z) : Prop :=
  forall sm, d.1 = Some sm -> Z.of_nat (length (sm_buffer sm)) = DATAGRAM_SIZE.

(** ** Lemmas *)

Lemma length_bytes s : Z.of_nat (length (bytes s)) = strlen s.
Proof. unfold strlen. induction s as [|c s IH]; [done|]. simpl. lia. Qed.

Section Ends.
Context (send_ok : bool) (stack pad : list Z).
Context (Hstack : Z.of_nat (length stack) = DATAGRAM_SIZE) (Hpad : length pad = 4%nat).
Context (fd : Z) (Hfd : fd = -1 \/ 0 <= fd).

(** How [main] may exit. *)
Definition client_end (code : Z) (c : client) : Prop :=
  (clog c = [CUsage] /\ code = -1) \/ (fd = -1 /\ clog c = [CNoSocket] /\ code = -1) \/
  ((code = -1 \/ code = 0 \/ code = 1) /\ took_leave send_ok stack c).

#[local] Abbreviation wpc m Q := (wp m Q client_end).

Lemma wp_cemit e Q c :
  running c -> quiet e -> (forall c', running c' -> server_sock c' = server_sock c -> server_addr c' = server_addr c -> Q tt c') ->
  wpc (cemit e) Q c.
Proof.
  intros [Hs Hl] He HQ. apply HQ; try done. split; [done|]. simpl. apply Forall_app. by repeat constructor.
Qed.

Lemma wp_csend sm Q c :
  running c -> (forall r c', running c' -> server_sock c' = server_sock c -> server_addr c' = server_addr c -> Q r c') ->
  wpc (csend send_ok sm) Q c.
Proof.
  intros Hr HQ. unfold csend. destruct send_ok.
  - apply wp_bind, wp_cemit; [done..|]. intros. by apply HQ.
  - by apply HQ.
Qed.

(** [exit] from a client whose socket is open. *)
Lemma wp_cexit {A} code Q c :
  0 <= server_sock c -> (code = -1 \/ code = 0 \/ code = 1) ->
  (if send_unregister c then Forall quiet (clog c)
   else exists told, clog c = told ++ [CServerShutting] /\ Forall quiet told) ->
  wpc (cexit send_ok stack code : cm client A) Q c.
Proof.
  clear Hfd Hpad Hstack. intros Hs Hcode Hl. unfold cexit, wp, cleanup, csend. cm_step.
  destruct (Z.ltb_spec (server_sock c) 0); [lia|].
  destruct (send_unregister c) eqn:Eu; [destruct send_ok eqn:Eo|]; cm_step;
    right; right; (split; [done|]); exists (clog c); simpl; rewrite ?Eu, ?Eo; simpl;
    rewrite <- ?app_assoc; done.
Qed.

Lemma wp_cexit_running {A} code Q c :
  running c -> 0 <= server_sock c -> (code = -1 \/ code = 0 \/ code = 1) ->
  wpc (cexit send_ok stack code : cm client A) Q c.
Proof. intros [Hs Hl] Hfd0 Hc. apply wp_cexit; [done..|]. by rewrite Hs. Qed.

(** One turn of the loop. *)
Lemma wp_receive r errno c :
  delivery_ok (r, errno) -> running c -> 0 <= server_sock c ->
  wpc (receive_request send_ok stack pad r errno) (fun _ c' => running c' /\ 0 <= server_sock c') c.
Proof.
  intros Hd Hr Hs. unfold receive_request. destruct r as [sm|].
  2:{ destruct (errno =? 0); [|done]. apply wp_bind, wp_cemit; [done..|].
      intros c1 H1 E1 _. apply wp_cexit_running; [done|lia|auto]. }
  specialize (Hd sm eq_refl). unfold DATAGRAM_SIZE in *.
  destruct (aget_is_Some (sm_buffer sm) 0) as [b Hb]; [lia|].
  apply wp_bind. eapply wp_done; [by rewrite Hb|]. cbn beta zeta.
  destruct (s8 b =? MSG_TYPE_PING).
  { apply wp_bind, wp_csend; [done|]. intros _ c1 H1 E1 _. split; [done|lia]. }
  destruct (s8 b =? MSG_TYPE_REQUEST).
  { destruct (negb _); [apply wp_cemit; [done..|intros c1 H1 E1 _; split; [done|lia]]|].
    destruct (process_request _ _) as [code resp].
    destruct (negb (code =? 0)); [apply wp_cemit; [done..|intros c1 H1 E1 _; split; [done|lia]]|].
    apply wp_bind, wp_cemit; [done..|]. intros c1 H1 E1 _.
    apply wp_bind, wp_csend; [done|]. intros _ c2 H2 E2 _. split; [done|lia]. }
  destruct (s8 b =? MSG_TYPE_NAMEINUSE).
  { apply wp_bind, wp_cemit; [done..|]. intros c1 H1 E1 _. apply wp_cexit_running; [done|lia|auto]. }
  destruct (s8 b =? MSG_TYPE_SHUTDOWN).
  { apply wp_bind. eapply wp_done; [done|]. apply wp_bind. eapply wp_done; [done|].
    apply wp_cexit; [done|auto|].
    exists (clog c). simpl. split; [done|apply Hr]. }
  apply wp_cemit; [done..|]. intros c1 H1 E1 _. split; [done|lia].
Qed.

Lemma wp_client_loop received c :
  Forall delivery_ok received -> running c -> 0 <= server_sock c ->
  wpc (client_loop send_ok stack pad received) (fun _ => running) c.
Proof.
  intros Hd. revert c. induction Hd as [|[r errno] received Hr _ IH]; intros c Hc Hs; [done|].
  apply wp_bind. eapply wp_mono; [by apply wp_receive| |done].
  intros _ c' [Hc' Hs']. by apply IH.
Qed.
End Ends.

Section MainRuns.
Context (datagram : bool) (fd : Z) (connects send_ok : bool) (inet_addr : string -> Z) (stack pad : list Z).
Context (Hstack : Z.of_nat (length stack) = DATAGRAM_SIZE) (Hpad : length pad = 4%nat).
Context (Hfd : fd = -1 \/ 0 <= fd).

#[local] Abbreviation wpc m Q := (wp m Q (client_end send_ok stack fd)).

Lemma wp_register_me name c :
  Z.of_nat (length name) < CONF_CLIENT_NAME_MAX -> running c -> 0 <= server_sock c ->
  wpc (register_me send_ok stack name) (fun _ c' => running c' /\ 0 <= server_sock c') c.
Proof.
  intros Hn Hr Hs. unfold register_me, DATAGRAM_SIZE, CONF_CLIENT_NAME_MAX in *.
  apply wp_bind. eapply wp_done; [done|]. cbn beta zeta.
  destruct (Z.leb_spec (1 + Z.of_nat (length name)) (Z.of_nat (length stack))); [|lia].
  apply wp_bind. eapply wp_done; [done|]. apply wp_bind.
  apply wp_csend; [done..|]. intros r c1 H1 E1 _.
  destruct (negb (r =? 0)); [|split; [done|lia]].
  apply wp_bind, wp_cemit; [done..|]. intros c2 H2 E2 _. apply wp_cexit_running; try done; [lia|auto].
Qed.

(** The socket, at the start of [main]. *)
Lemma wp_open_socket :
  wpc (open_socket fd send_ok stack) (fun _ c => running c /\ server_sock c = fd /\ 0 <= fd) client_start.
Proof.
  apply wp_bind. eapply wp_done; [done|]. destruct (Z.eqb_spec fd (-1)) as [->|].
  - right. left. by vm_compute.
  - split; [split; [done|constructor]|]. split; [done|lia].
Qed.

Lemma wp_address_local target :
  strlen target < sizeof_sun_path ->
  wpc (address_local fd send_ok stack target) (fun _ c => running c /\ 0 <= server_sock c) client_start.
Proof.
  intros Ht. apply wp_bind. eapply wp_mono; [apply wp_open_socket| |done].
  intros _ c (Hr & Hs & Hfd0). apply wp_bind, wp_cemit; [done..|]. intros c1 [H1 L1] E1 _.
  unfold strcpy_fits. destruct (Z.ltb_spec (strlen target) sizeof_sun_path); [|lia].
  split; [done|simpl; lia].
Qed.

Lemma wp_address_net target host port :
  (strtok target ":").1 = Some host -> (strtok (strtok target ":").2 "").1 = Some port ->
  INT_MIN <= atoi_val port <= INT_MAX ->
  wpc (address_net fd send_ok inet_addr stack target) (fun _ c => running c /\ 0 <= server_sock c) client_start.
Proof.
  intros Hh Hp Hi. apply wp_bind. eapply wp_mono; [apply wp_open_socket| |done].
  intros _ c (Hr & Hs & Hfd0). destruct (strtok target ":") as [h rest]. simpl in Hh, Hp.
  destruct (strtok rest "") as [p rest']. simpl in Hp. subst h p.
  apply wp_bind. eapply wp_done; [done|].
  apply wp_bind. eapply wp_done; [unfold atoi; by apply int_op_ok|].
  apply wp_bind. eapply wp_done; [done|]. apply wp_bind. eapply wp_done; [done|].
  apply wp_bind. eapply wp_done; [done|]. apply wp_cemit; [apply Hr|done|].
  intros c1 H1 E1 _. split; [done|]. simpl in E1. lia.
Qed.

Lemma wp_address type name target :
  argv_ok [name; name; type; target] ->
  wpc (if streq type "local" then address_local fd send_ok stack target
       else if streq type "net" then address_net fd send_ok inet_addr stack target
       else cemit (CInvalidConnection type) ;; cexit send_ok stack (-1))
    (fun _ c => running c /\ 0 <= server_sock c) client_start.
Proof.
  intros (_ & Hlocal & Hnet). unfold streq.
  destruct (String.eqb_spec type "local") as [E|_]; [by apply wp_address_local, Hlocal|].
  destruct (String.eqb_spec type "net") as [E|_].
  - destruct (Hnet E) as (host & port & Hh & Hp & Hi). by eapply wp_address_net.
  - apply wp_bind, wp_cemit; [by repeat constructor|done|]. intros c1 H1 E1 _.
    apply wp_cexit_running; try done; [rewrite E1; done|auto].
Qed.

Lemma wp_connect c :
  running c -> 0 <= server_sock c ->
  wpc (if connects then mret tt else cemit CCannotConnect ;; cexit send_ok stack (-1))
    (fun _ c' => running c' /\ 0 <= server_sock c') c.
Proof.
  intros Hr Hs. destruct connects; [done|]. apply wp_bind, wp_cemit; [done..|].
  intros c1 H1 E1 _. apply wp_cexit_running; try done; [lia|auto].
Qed.

Lemma wp_client_main argv received :
  argv_ok argv -> Forall delivery_ok received ->
  wpc (client_main datagram fd connects send_ok inet_addr stack pad argv received) (fun _ => running) client_start.
Proof.
  intros Ha Hd.
  destruct argv as [|prog [|name [|type [|target [|]]]]]; try (left; split; reflexivity).
  pose proof Ha as (Hn & _). apply wp_bind. unfold strcpy_fits.
  destruct (Z.ltb_spec (strlen name) CONF_CLIENT_NAME_MAX); [|lia]. eapply wp_done; [done|].
  apply wp_bind. eapply wp_mono; [eapply (wp_address type name); exact Ha| |done]. intros _ c [Hr Hs].
  apply wp_bind. eapply wp_done; [done|]. apply wp_bind.
  apply (wp_mono _ (fun _ c' => running c' /\ 0 <= server_sock c') _ (client_end send_ok stack fd)); [| |done].
  { destruct (datagram && _); [|done]. apply wp_cemit; [done..|]. intros c1 H1 E1 _. split; [done|lia]. }
  intros _ c1 [H1 S1]. apply wp_bind. eapply wp_mono; [by apply wp_connect| |done]. intros _ c2 [H2 S2].
  apply wp_bind. eapply wp_mono; [apply wp_register_me; try done; by rewrite length_bytes| |done].
  intros _ c3 [H3 S3]. apply wp_bind, wp_cemit; [done..|]. intros c4 H4 E4 _.
  apply wp_client_loop; try done. lia.
Qed.
End MainRuns.

(** ** Properties *)


(** The message [register_me] sends. *)
Lemma register_me_eq stack name c :
  Z.of_nat (length stack) = DATAGRAM_SIZE -> (length name <= 254)%nat ->
  register_me true stack name c =
  Done tt (Cli (server_sock c) (server_addr c) (send_unregister c)
    (clog c ++ [CSent (server_addr c) (1 + Z.of_nat (length name))
      (MSG_TYPE_REGISTER :: name ++ drop (1 + length name) stack)])).
Proof.
  unfold DATAGRAM_SIZE. intros Hs Hn. unfold register_me. cm_step.
  destruct (Z.leb_spec (1 + Z.of_nat (length name)) (Z.of_nat (length stack))); [|lia]. cm_step.
  do 4 f_equal. by rewrite Z.add_comm.
Qed.

(** C12.  Registration end to end, on TCP: a client started with a name of at most 254
    characters and a path that fits announces itself with one message to that
    path, and a server whose acceptor is handed that message enters exactly
    that name in its table, or refuses it, as [register_spec] says. *)
Theorem registration_end_to_end (fd : Z) (inet_addr : string -> Z) (stack pad : list Z) (prog name path : string)
  (srv_ok : Z -> bool) (sock : Z) (a to : addr_t) (s : srv)
  (Hstack : Z.of_nat (length stack) = DATAGRAM_SIZE) (Hfd : 0 <= fd)
  (Hname : 0 ∉ bytes name) (Hlen : strlen name <= 254)
  (Hpath : 0 ∉ bytes path) (Hfits : strlen path < sizeof_sun_path) (Hs : table_wf false 0 s) :
  exists c b,
    client_main false fd true true inet_addr stack pad [prog; name; "local"%string; path] [] client_start = Done tt c /\
    clog c = [CConnectingLocal path; CSent (server_addr c) (1 + strlen name) b; CRegistered] /\
    sa_family (server_addr c) = AF_LOCAL /\ c_string (drop 2 (addr_bytes (server_addr c))) = Some (bytes path) /\
    thread_accept false srv_ok sock a (Some (SM to (1 + strlen name) b)) s =
    register_spec false srv_ok sock (SM a (1 + strlen name) b) (bytes name) s.
Proof.
  pose proof (length_bytes name) as Ln. pose proof Hs as [Hl [Hd _] _ _ _ _].
  pose proof Hstack as Hst. unfold DATAGRAM_SIZE in Hst.
  eexists _, (MSG_TYPE_REGISTER :: bytes name ++ drop (1 + length (bytes name)) stack).
  split; [|split; [|split; [|split]]].
  - unfold client_main, strcpy_fits, mbind, cm_bind, streq, CONF_CLIENT_NAME_MAX.
    destruct (Z.ltb_spec (strlen name) 256); [|lia]. cbn [String.eqb Ascii.eqb Bool.eqb check mret cm_ret].
    unfold address_local, open_socket, strcpy_fits, mbind, cm_bind.
    cbn [set_server_sock modify]. destruct (Z.eqb_spec fd (-1)); [lia|].
    cbn [cemit modify get mret cm_ret]. destruct (Z.ltb_spec (strlen path) sizeof_sun_path); [|lia].
    cbn [check mret cm_ret set_server_addr modify andb].
    rewrite register_me_eq by (done || lia). reflexivity.
  - cbn [clog server_addr client_start app]. by rewrite Ln.
  - reflexivity.
  - cbn [server_addr client_start addr_bytes]. unfold overwrite. rewrite <- !app_assoc.
    change (take 0 (replicate 112 0) ++ le_bytes 2 AF_LOCAL ++ ?x) with (1 :: 0 :: x).
    rewrite !skipn_cons, drop_0. by apply c_string_app.
  - unfold thread_accept. cm_step. change (s8 MSG_TYPE_REGISTER) with 0. simpl. rewrite <- Ln.
    apply register_client_eq; [done|lia| | | |unfold CONF_CLIENT_NAME_MAX; lia].
    + apply register_fits; [lia|]. rewrite length_drop. lia.
    + cbn [sm_length]. lia.
    + apply register_name; [done|lia|]. rewrite length_drop. lia.
Qed.

(** ** The properties at concrete inputs *)

Definition demo_run : outcome client unit :=
  client_main true 3 true true (fun _ => 0) (replicate 256 0) [0; 0; 0; 0]
    ["client"; "ann"; "local"; "/tmp/s"]%string
    [(Some (SM (Addr 0 []) 1 (overwrite (replicate 256 0) 0 [MSG_TYPE_PING])), 0); (None, 0)] client_start.


Lemma registration_end_to_end_witness :
  exists c b, clog c = [CConnectingLocal "/tmp/s"; CSent (server_addr c) 4 b; CRegistered] /\
    exists s, thread_accept false (fun _ => true) 7 (Addr 0 []) (Some (SM (Addr 0 []) 4 b)) server_start = Done tt s /\
      clients s !! 0%nat = Some (Client (Addr 0 []) 1 7 (bytes "ann") 0).
Proof.
  destruct (registration_end_to_end 3 (fun _ => 0) (replicate 256 0) [] "client" "ann" "/tmp/s" (fun _ => true)
    7 (Addr 0 []) (Addr 0 []) server_start) as (c & b & _ & Hlog & _ & _ & Hs).
  - reflexivity.
  - lia.
  - intros H%list_elem_of_In. simpl in H. intuition discriminate.
  - vm_compute. congruence.
  - intros H%list_elem_of_In. simpl in H. intuition discriminate.
  - reflexivity.
  - apply server_start_wf.
  - exists c, b. split; [exact Hlog|]. eexists. split; [exact Hs|]. reflexivity.
Defined.

(** A connection type that is neither local nor net: nothing was opened, so
    [server_sock] is still 0, and the code run at exit sends UNREGISTER on, and
    closes, the standard input. *)
Theorem bad_type_closes_stdin (datagram connects send_ok : bool) (fd : Z) (inet_addr : string -> Z)
  (stack pad : list Z) (prog name type target : string) (received : list (option socket_message * Z))
  (Hname : strlen name < CONF_CLIENT_NAME_MAX) (Hl : type <> "local"%string) (Hn : type <> "net"%string) :
  exists c, client_main datagram fd connects send_ok inet_addr stack pad [prog; name; type; target] received client_start
    = Exited (-1) c /\ last (clog c) = Some (CClosed 0).
Proof.
  unfold client_main, strcpy_fits, streq, mbind, cm_bind.
  destruct (Z.ltb_spec (strlen name) CONF_CLIENT_NAME_MAX); [|lia].
  rewrite (proj2 (String.eqb_neq _ _) Hl), (proj2 (String.eqb_neq _ _) Hn).
  unfold SockClient.cexit, SockClient.cleanup, csend. cm_step. destruct send_ok; eexists; (split; [done|]); done.
Qed.

Lemma bad_type_closes_stdin_witness :
  exists c, client_main false 3 true true (fun _ => 0) [] [] ["c"; "ann"; "tcp"; "x"]%string [] client_start = Exited (-1) c /\
    last (clog c) = Some (CClosed 0).
Proof. apply (bad_type_closes_stdin false true true 3); [reflexivity|discriminate|discriminate]. Defined.
