(* ===== verification/ServerLife.v ===== *)
(** The calculation server from its start to its end: [main], the set-up of
    its sockets and threads, and [cleanup], which runs at exit, of
    cw10/zad1/src/server.c, with the [setup_] and [cancel_] functions of
    server_accept.c, server_listen.c, server_pinger.c and server_cllist.c, in
    both builds, over the threads of [SockServer]. *)
From S2P Require Import Prelude CString Connection Request ClientTable SockServer ServerTable ServerTurns.
#[local] Open Scope Z_scope.

(** The threads, beside the main one; [thread_local] and [thread_net] exist on
    TCP only. *)
Inductive thread := Pinger | ThreadNet | ThreadLocal | Listener.

#[export] Instance thread_eq_dec : EqDecision thread.
Proof. solve_decision. Defined.

(** What happens beside the table: sockets, threads, files, and what is
    printed (the texts of the source, named). *)
Inductive levent :=
  | LUsage
  | LPathTooLong
  | LNoNetSocket
  | LNoLocalSocket
  | LBoundNet (port : Z)
  | LBoundLocal (path : string)
  | LCannotBind
  | LListening
  | LCannotListen
  | LCreated (t : thread)
  | LCannotCreate
  | LShuttingDown
  | LCancelled (t : thread)
  | LTornDown            (* [teardown_clients] has been called *)
  | LClosed (sock : Z)
  | LUnlinked (path : string).

(** The globals of server.c, the threads that have been created, and whether
    the mutex of the table is initialised. *)
Record proc := Proc {
  table : srv;
  port : Z;
  local_path : string;
  sock_net : Z;
  sock_local : Z;
  threads : list thread;
  clients_mx : bool;
  plog : list levent;
}.

Definition say (e : levent) : cm proc unit :=
  modify (fun p => Proc (table p) (port p) (local_path p) (sock_net p) (sock_local p) (threads p) (clients_mx p) (plog p ++ [e])).
Definition set_table t p := Proc t (port p) (local_path p) (sock_net p) (sock_local p) (threads p) (clients_mx p) (plog p).
Definition set_args a b p := Proc (table p) a b (sock_net p) (sock_local p) (threads p) (clients_mx p) (plog p).
Definition set_net fd p := Proc (table p) (port p) (local_path p) fd (sock_local p) (threads p) (clients_mx p) (plog p).
Definition set_local fd p := Proc (table p) (port p) (local_path p) (sock_net p) fd (threads p) (clients_mx p) (plog p).
Definition add_thread t p := Proc (table p) (port p) (local_path p) (sock_net p) (sock_local p) (threads p ++ [t]) (clients_mx p) (plog p).
Definition set_mx b p := Proc (table p) (port p) (local_path p) (sock_net p) (sock_local p) (threads p) b (plog p).

(** What the system answers during the set-up. *)
Record system := System {
  sys_net : Z;                 (* socket(AF_INET, ...) *)
  sys_local : Z;               (* socket(AF_LOCAL, ...) *)
  sys_bind_net : bool;
  sys_bind_local : bool;
  sys_listen : bool;           (* both calls of listen *)
  sys_create : thread -> bool; (* pthread_create *)
}.

Section Build.
Context (datagram : bool) (send_ok : Z -> bool) (stack : list Z) (sys : system).

(** ** cleanup *)

(** [pthread_cancel] and [pthread_timedjoin_np], which does not wait: its
    limit is a moment, and [ts] is one second after the Epoch. *)
Definition cancel (t : thread) : cm proc unit :=
  p ← get;
  check (bool_decide (t ∈ threads p)) UB_thread ;;
  say (LCancelled t).

Definition cancel_pinger : cm proc unit := cancel Pinger.
Definition cancel_accept_threads : cm proc unit :=
  if datagram then mret tt else cancel ThreadNet ;; cancel ThreadLocal.
Definition cancel_listener : cm proc unit := cancel Listener.

(** Code that works on the table. *)
Definition on_table {A} (m : cm srv A) (ended : Z -> cm proc A) : cm proc A := fun p =>
  match m (table p) with
  | Done a t => Done a (set_table t p)
  | Exited c t => ended c (set_table t p)
  | Undef u => Undef u
  | NoFuel => NoFuel
  end.

Definition teardown_socks : cm proc unit :=
  p ← get;
  say (LClosed (sock_net p)) ;; say (LClosed (sock_local p)) ;; say (LUnlinked (local_path p)).

Definition cleanup_clients : cm proc unit :=
  say LShuttingDown ;;
  cancel_pinger ;;
  cancel_accept_threads ;;
  on_table (teardown_clients datagram send_ok stack) exit_ ;;
  say LTornDown.

Definition cleanup_rest : cm proc unit :=
  teardown_socks ;;
  cancel_listener ;;
  (* teardown_client_mutex *)
  modify (set_mx false).

Definition cleanup : cm proc unit := cleanup_clients ;; cleanup_rest.

(** [exit], once [atexit(cleanup)] has been called; [sighandler] is [exit(0)]. *)
Definition exit_server {A} (code : Z) : cm proc A := cleanup ;; exit_ code.

(** ** main *)

Definition setup_socks : cm proc unit :=
  modify (set_net (sys_net sys)) ;;
  (if sys_net sys =? -1 then say LNoNetSocket ;; exit_server (-1) else mret tt) ;;
  modify (set_local (sys_local sys)) ;;
  (if sys_local sys =? -1 then say LNoLocalSocket ;; exit_server (-1) else mret tt) ;;
  p ← get;
  (* strcpy into sun_path *)
  check (strlen (local_path p) <? 108) UB_bounds ;;
  (if sys_bind_net sys then say (LBoundNet (u16 (port p))) else say LCannotBind ;; exit_server (-1)) ;;
  (if sys_bind_local sys then say (LBoundLocal (local_path p)) else say LCannotBind ;; exit_server (-1)) ;;
  if datagram then mret tt
  else if sys_listen sys then say LListening
  else say LCannotListen ;; exit_server (-1).

Definition create (t : thread) : cm proc unit :=
  if sys_create sys t then modify (add_thread t) ;; say (LCreated t)
  else say LCannotCreate ;; exit_server (-1).

Definition setup_accept_threads : cm proc unit :=
  if datagram then mret tt else create ThreadNet ;; create ThreadLocal.

Definition setup_listener : cm proc unit :=
  create Listener ;;
  if datagram then
    p ← get;
    on_table (add_to_poll (sock_local p)) exit_server ;;
    on_table (add_to_poll (sock_net p)) exit_server
  else mret tt.

Definition setup_pinger : cm proc unit := create Pinger.

(** [while (1) { read_request(); print_prompt(); }], for what its calls of
    [getline] deliver; the server is still in it when the list ends. *)
Fixpoint server_loop (lines : list (option string)) : cm proc unit :=
  match lines with
  | [] => mret tt
  | line :: rest =>
      _ ← on_table (read_request datagram send_ok stack line) exit_server;
      on_table print_prompt exit_server ;;
      server_loop rest
  end.

(** What [main] does before that loop. *)
Definition server_setup (argv : list string) : cm proc unit :=
  (* setup_client_mutex *)
  modify (set_mx true) ;;
  match argv with
  | [_; port_arg; path] =>
      on_table (for_range (Z.to_nat CONF_CLIENTS_MAX) 0 (fun i => set_client i (set_active 0))) exit_ ;;
      port ← atoi port_arg;
      modify (set_args port path) ;;
      (if 107 <? strlen path then say LPathTooLong ;; exit_server (-1) else mret tt) ;;
      setup_socks ;;
      setup_accept_threads ;;
      setup_listener ;;
      setup_pinger ;;
      on_table print_prompt exit_
  | _ => say LUsage ;; exit_ (-1)
  end.

End Build.

(** The globals before [main] runs. *)
Definition proc_start : proc := Proc server_start 0 "" 0 0 [] false [].

(** ** What the end of the server does *)

Section Ends.
Context (datagram : bool) (send_ok : Z -> bool) (stack : list Z) (Hstack : length stack = 256%nat).

(** A SHUTDOWN message, on the wire. *)
Definition shutdown_bytes : list Z :=
  if datagram then take 256 (1 :: 0 :: MSG_TYPE_SHUTDOWN :: drop 1 stack) else [1; 0; MSG_TYPE_SHUTDOWN].

(** What [teardown_clients] does for one slot of the table. *)
Definition goodbye (c : client_t) : list event :=
  if active c then
    (if send_ok (cl_sock c) then [Sent (cl_sock c) (addr c) shutdown_bytes] else []) ++
    (if datagram then [] else [Closed (cl_sock c)])
  else [].

(** The epoll set without the sockets of the active clients. *)
Definition without (l : list client_t) (p : list Z) : list Z :=
  if datagram then p
  else fold_left (fun p c => if active c then List.filter (fun x => negb (x =? cl_sock c)) p else p) l p.

(** The table when the first [k] slots have been seen to. *)
Definition torn (k : nat) (s : srv) : srv :=
  Srv (map (set_active 0) (take k (clients s)) ++ drop k (clients s)) (free_cl s) (current_request_id s)
    (without (take k (clients s)) (poll s)) (depth s)
    (log s ++ concat (map goodbye (take k (clients s)))).

Lemma inactive_off c : active c = false -> set_active 0 c = c.
Proof.
  unfold active, set_active. destruct c as [a v k n i]. simpl.
  destruct (Z.eqb_spec v 0) as [->|]; [done|discriminate].
Qed.

Lemma send_shutdown c s :
  exists r, send_sm datagram send_ok (cl_sock c) (short_message (addr c) MSG_TYPE_SHUTDOWN stack) s =
  Done r (log_add (if send_ok (cl_sock c) then [Sent (cl_sock c) (addr c) shutdown_bytes] else []) s).
Proof.
  unfold send_sm, shutdown_bytes. destruct stack as [|b0 rest] eqn:Es; [done|].
  assert (short_message (addr c) MSG_TYPE_SHUTDOWN (b0 :: rest) = SM (addr c) 1 (MSG_TYPE_SHUTDOWN :: rest)) as ->.
  { unfold short_message, overwrite. simpl. by rewrite drop_0. }
  cm_step. destruct datagram.
  - unfold send_sm_dgram. cm_step. rewrite app_nil_r, drop_0.
    destruct (send_ok (cl_sock c)); eexists; [done|]. unfold log_add, set_log. rewrite app_nil_r. by destruct s.
  - rewrite send_sm_stream_spec.
    + cm_step. destruct (send_ok (cl_sock c)); eexists; [done|].
      unfold log_add, set_log. rewrite app_nil_r. by destruct s.
    + simpl in Hstack. split; unfold DATAGRAM_SIZE; simpl; lia.
Qed.

Lemma torn_lookup k c s : clients s !! k = Some c -> clients (torn k s) !! k = Some c.
Proof.
  intros Hk. pose proof (lookup_lt_Some _ _ _ Hk). simpl.
  rewrite lookup_app_r by (rewrite length_map, length_take; lia).
  rewrite length_map, length_take, Nat.min_l, Nat.sub_diag by lia. by rewrite lookup_drop, Nat.add_0_r.
Qed.

Lemma torn_clients_S k c s : clients s !! k = Some c ->
  clients (torn (S k) s) = <[k := set_active 0 c]> (clients (torn k s)).
Proof.
  intros Hk. pose proof (lookup_lt_Some _ _ _ Hk). simpl.
  rewrite insert_app_r_alt by (rewrite length_map, length_take; lia).
  rewrite length_map, length_take, Nat.min_l, Nat.sub_diag by lia.
  rewrite (drop_S _ c k) by done. rewrite (take_S_r _ k c) by done. rewrite map_app, <- app_assoc. done.
Qed.

Lemma without_snoc l c p :
  without (l ++ [c]) p = if datagram then p else if active c then List.filter (fun x => negb (x =? cl_sock c)) (without l p) else without l p.
Proof. unfold without. destruct datagram; [done|]. by rewrite fold_left_app. Qed.

(** One turn of the loop of [teardown_clients]. *)
Lemma torn_step k c s :
  clients s !! k = Some c ->
  (c ← client_at (Z.of_nat k);
   if negb (cl_active c =? 0) then
     set_client (Z.of_nat k) (set_active 0) ;;
     _ ← send_sm datagram send_ok (cl_sock c) (short_message (addr c) MSG_TYPE_SHUTDOWN stack);
     if datagram then mret tt else close_sock (cl_sock c)
   else mret tt) (torn k s) = Done tt (torn (S k) s).
Proof.
  intros Hk. pose proof (torn_lookup k c s Hk) as Ht. pose proof (torn_clients_S k c s Hk) as HS.
  unfold client_at, mbind, cm_bind, get, lift. rewrite aget_nat, Ht. cbn [mret cm_ret]. fold (active c).
  assert (torn (S k) s = Srv (<[k := set_active 0 c]> (clients (torn k s))) (free_cl s) (current_request_id s)
    (if datagram then poll s else if active c then List.filter (fun x => negb (x =? cl_sock c)) (poll (torn k s)) else poll (torn k s))
    (depth s) (log (torn k s) ++ goodbye c)) as ->.
  { rewrite <- HS. unfold torn. cbn [clients poll log]. rewrite (take_S_r _ k c) by done.
    rewrite without_snoc, !map_app, concat_app. cbn [map concat]. by rewrite app_nil_r, app_assoc. }
  unfold goodbye. destruct (active c) eqn:Ha.
  - unfold set_client, mbind, cm_bind, get, lift. rewrite aget_nat, Ht. cbn [mret cm_ret].
    rewrite aset_ok by (apply lookup_lt_Some in Ht; lia). cbn [mret cm_ret]. rewrite Nat2Z.id. unfold modify.
    destruct (send_shutdown c (set_clients (<[k:=set_active 0 c]> (clients (torn k s))) (torn k s))) as [r ->].
    destruct datagram eqn:Ed; [|unfold close_sock; cm_step];
      unfold log_add, set_log, set_poll, set_clients, torn, without; rewrite ?Ed; simpl;
      rewrite ?app_nil_r, ?app_assoc; done.
  - rewrite app_nil_r. unfold mret, cm_ret. f_equal.
    rewrite (inactive_off c Ha), list_insert_id by done. unfold torn, without. cbn [clients poll log free_cl current_request_id depth].
    by destruct datagram.
Qed.

Lemma teardown_clients_eq s :
  length (clients s) = 16%nat -> teardown_clients datagram send_ok stack s = Done tt (torn 16 s).
Proof.
  intros Hl. unfold teardown_clients. apply wp_unit_eq.
  eapply wp_mono; [apply (wp_for_range_idx (fun i s' => s' = torn (Z.to_nat i) s) (fun _ _ => False))| |done].
  - intros i s' Hi ->. destruct (lookup_lt_is_Some_2 (clients s) (Z.to_nat i)) as [c Hc].
    { change (Z.to_nat CONF_CLIENTS_MAX) with 16%nat in Hi. lia. }
    eapply wp_done; [|reflexivity]. pose proof (torn_step (Z.to_nat i) c s Hc) as H.
    rewrite Z2Nat.id in H by lia. rewrite H. do 2 f_equal. lia.
  - unfold torn, without. change (Z.to_nat 0) with 0%nat. rewrite drop_0. cbn [take map concat app fold_left].
    rewrite app_nil_r. by destruct datagram, s.
  - intros _ s' ->. done.
Qed.
End Ends.

(** ** The set-up *)

Section Setup.
Context (datagram : bool) (send_ok : Z -> bool) (stack : list Z) (sys : system).

Definition all_threads : list thread :=
  if datagram then [Listener; Pinger] else [ThreadNet; ThreadLocal; Listener; Pinger].

(** Everything the set-up asks of the system succeeds. *)
Definition sys_ok : bool :=
  negb (sys_net sys =? -1) && negb (sys_local sys =? -1) && sys_bind_net sys && sys_bind_local sys &&
  (datagram || sys_listen sys) && forallb (sys_create sys) all_threads.

(** The server when [main] reaches its loop: on UDP the epoll set is the two
    sockets of the server. *)
Definition server_up (port : Z) (path : string) : proc :=
  Proc (Srv (clients server_start) 0 0 (if datagram then [sys_local sys; sys_net sys] else []) 0 [Prompt 0])
    port path (sys_net sys) (sys_local sys) all_threads true
    (LBoundNet (u16 port) :: LBoundLocal path ::
     (if datagram then [] else [LListening]) ++ map LCreated all_threads).

(** [exit] before the pinger has been created. *)
Lemma exit_early {A} code p :
  Pinger ∉ threads p -> (exit_server datagram send_ok stack code : cm proc A) p = Undef UB_thread.
Proof.
  intros Hp. unfold exit_server, cleanup, cleanup_clients, cancel_pinger, cancel. cm_step.
  by rewrite bool_decide_false by done.
Qed.

(** A step of the set-up that is guarded by a test of the system. *)
Lemma guard_eq {B} (b : bool) (e : levent) (m : cm proc unit) (f : unit -> cm proc B) p p' r :
  Pinger ∉ threads p -> m p = Done tt p' -> (b = true -> f tt p' = r) -> (b = false -> r = Undef UB_thread) ->
  ((if b then m else say e ;; exit_server datagram send_ok stack (-1)) ≫= f) p = r.
Proof.
  intros Hp Hm Ht Hf. destruct b; [by eapply bind_eq; [|by apply Ht]|].
  rewrite Hf by done. apply bind_undef. eapply bind_eq; [done|]. by apply exit_early.
Qed.

(** The process once it has one more thread. *)
Definition created (t : thread) (p : proc) : proc :=
  Proc (table p) (port p) (local_path p) (sock_net p) (sock_local p) (threads p ++ [t]) (clients_mx p) (plog p ++ [LCreated t]).

Lemma create_thread_eq {B} t (f : unit -> cm proc B) p r :
  Pinger ∉ threads p ->
  (sys_create sys t = true -> f tt (created t p) = r) ->
  (sys_create sys t = false -> r = Undef UB_thread) ->
  (create datagram send_ok stack sys t ≫= f) p = r.
Proof.
  intros Hp Ht Hf. unfold create. destruct (sys_create sys t) eqn:E.
  - by rewrite <- Ht.
  - rewrite Hf by done. apply bind_undef. eapply bind_eq; [done|]. by apply exit_early.
Qed.
(** The same, for a test that something went wrong. *)
Lemma guard_neg_eq {B} (b : bool) (e : levent) (f : unit -> cm proc B) p r :
  Pinger ∉ threads p -> (b = false -> f tt p = r) -> (b = true -> r = Undef UB_thread) ->
  ((if b then say e ;; exit_server datagram send_ok stack (-1) else mret tt) ≫= f) p = r.
Proof.
  intros Hp Hf Ht. destruct b; [|by rewrite <- Hf].
  rewrite Ht by done. apply bind_undef. eapply bind_eq; [done|]. by apply exit_early.
Qed.

Lemma on_table_done {A} (m : cm srv A) ended a t p :
  m (table p) = Done a t -> on_table m ended p = Done a (set_table t p).
Proof. unfold on_table. by intros ->. Qed.

Lemma clear_table :
  for_range (Z.to_nat CONF_CLIENTS_MAX) 0 (fun i => set_client i (set_active 0)) server_start = Done tt server_start.
Proof. vm_compute. reflexivity. Qed.

End Setup.

(** Every failure of the set-up has the same end. *)
Ltac undone :=
  let E := fresh in
  intros E; unfold sys_ok, all_threads; cbn [forallb orb]; rewrite ?E, ?andb_false_r; cbn [andb negb];
  rewrite ?andb_false_r; done.
Ltac no_pinger := first [by apply not_elem_of_nil | cbn [threads add_thread app]; rewrite list_elem_of_In; simpl; intuition discriminate].

(** Normalises the state of the process. *)
Ltac on_proc :=
  cbn [created table port local_path sock_net sock_local threads clients_mx plog app
       set_table set_net set_local set_mx set_args].

(** The threads, once the sockets are bound. *)
Lemma setup_threads_eq (datagram : bool) send_ok stack sys a path :
  sys_net sys <> sys_local sys -> (sys_net sys =? -1) = false -> (sys_local sys =? -1) = false ->
  sys_bind_net sys = true -> sys_bind_local sys = true ->
  ((if datagram then mret tt
    else if sys_listen sys then say LListening
    else say LCannotListen ;; exit_server datagram send_ok stack (-1)) ;;
   setup_accept_threads datagram send_ok stack sys ;;
   setup_listener datagram send_ok stack sys ;;
   setup_pinger datagram send_ok stack sys ;;
   on_table print_prompt exit_)
   (Proc server_start a path (sys_net sys) (sys_local sys) [] true [LBoundNet (u16 a); LBoundLocal path]) =
  if sys_ok datagram sys then Done tt (server_up datagram sys a path) else Undef UB_thread.
Proof.
  intros Hd En El Ebn Ebl. unfold setup_accept_threads, setup_listener, setup_pinger.
  destruct datagram.
  - eapply bind_eq; [done|]. eapply bind_eq; [done|]. rewrite bind_assoc.
    apply create_thread_eq; [no_pinger| |undone]. intros EL. on_proc. rewrite bind_assoc.
    eapply bind_eq; [done|]. rewrite bind_assoc. eapply bind_eq; [by apply on_table_done|].
    eapply bind_eq.
    { apply on_table_done. unfold add_to_poll. eapply bind_eq; [done|]. on_proc. cbn [poll set_poll server_start app].
      rewrite bool_decide_false; [done|]. rewrite list_elem_of_In. simpl. intros [E|[]]. by destruct Hd. }
    apply create_thread_eq; [no_pinger| |undone]. intros EP. on_proc.
    unfold sys_ok. rewrite En, El, Ebn, Ebl. cbn. rewrite EL, EP. done.
  - eapply guard_eq; [no_pinger|done| |undone]. intros ELs. on_proc.
    rewrite bind_assoc. apply create_thread_eq; [no_pinger| |undone]. intros EN. on_proc.
    apply create_thread_eq; [no_pinger| |undone]. intros EO. on_proc.
    rewrite bind_assoc. apply create_thread_eq; [no_pinger| |undone]. intros EL. on_proc.
    eapply bind_eq; [done|]. apply create_thread_eq; [no_pinger| |undone]. intros EP. on_proc.
    unfold sys_ok. rewrite En, El, Ebn, Ebl. cbn. rewrite ELs, EN, EO, EL, EP. done.
Qed.

(** Everything before the loop: the server comes up, or it exits too early. *)
Lemma server_setup_eq datagram send_ok stack sys prog port_arg path :
  sys_net sys <> sys_local sys -> INT_MIN <= atoi_val port_arg <= INT_MAX ->
  server_setup datagram send_ok stack sys [prog; port_arg; path] proc_start =
  if (strlen path <=? 107) && sys_ok datagram sys then Done tt (server_up datagram sys (atoi_val port_arg) path)
  else Undef UB_thread.
Proof.
  intros Hd Hport. unfold server_setup. eapply bind_eq; [done|].
  eapply bind_eq; [apply on_table_done, clear_table|].
  eapply bind_eq; [by apply int_op_ok|].
  apply (bind_eq _ _ _ tt (Proc server_start (atoi_val port_arg) path 0 0 [] true [])); [done|].
  apply guard_neg_eq; [no_pinger| |intros E; destruct (Z.leb_spec (strlen path) 107); [lia|done]].
  intros Hlen. destruct (Z.leb_spec (strlen path) 107) as [Hle|]; [|lia]. cbn [andb].
  unfold setup_socks. rewrite bind_assoc. eapply bind_eq; [done|].
  rewrite bind_assoc. apply guard_neg_eq; [no_pinger| |undone]. intros En.
  rewrite bind_assoc. eapply bind_eq; [done|].
  rewrite bind_assoc. apply guard_neg_eq; [no_pinger| |undone]. intros El.
  rewrite bind_assoc. eapply bind_eq; [done|]. rewrite bind_assoc. on_proc.
  destruct (Z.ltb_spec (strlen path) 108) as [_|]; [|lia]. eapply bind_eq; [done|].
  rewrite bind_assoc. eapply guard_eq; [no_pinger|done| |undone]. intros Ebn. on_proc.
  rewrite bind_assoc. eapply guard_eq; [no_pinger|done| |undone]. intros Ebl. on_proc.
  by apply setup_threads_eq.
Qed.

(** ** The life of the server *)

Section Life.
Context (datagram : bool) (send_ok : Z -> bool) (stack : list Z) (Hstack : length stack = 256%nat) (sys : system).
Context (Hdistinct : sys_net sys <> sys_local sys).

(** A turn of a thread; the main one goes once round its loop. *)
Definition live_turn (t : turn) : cm proc unit :=
  match t with
  | TRequest line => server_loop datagram send_ok stack [line]
  | _ => on_table (do_turn datagram send_ok stack t) (exit_server datagram send_ok stack)
  end.

(** The states of the server from the end of the set-up on. *)
Inductive serving : proc -> Prop :=
  | serving_up prog port_arg path p :
      INT_MIN <= atoi_val port_arg <= INT_MAX ->
      server_setup datagram send_ok stack sys [prog; port_arg; path] proc_start = Done tt p -> serving p
  | serving_turn t p p' :
      serving p -> turn_ok datagram (table p) t -> live_turn t p = Done tt p' -> serving p'.

(** What [cleanup] prints and does beside the table. *)
Definition closing (p : proc) : list levent :=
  LShuttingDown :: LCancelled Pinger ::
  (if datagram then [] else [LCancelled ThreadNet; LCancelled ThreadLocal]) ++
  [LTornDown; LClosed (sock_net p); LClosed (sock_local p); LUnlinked (local_path p); LCancelled Listener].

(** The state after [cleanup]: every client has been told, and is no longer
    in the table; the sockets are closed, the path is gone. *)
Definition told (p p' : proc) : Prop :=
  Forall (fun c => active c = false) (clients (table p')) /\
  log (table p') = log (table p) ++ concat (map (goodbye datagram send_ok stack) (clients (table p))) /\
  plog p' = plog p ++ closing p /\ clients_mx p' = false.

Definition ready (p : proc) : Prop := table_wf datagram 0 (table p) /\ threads p = all_threads datagram.

(** The two halves of [cleanup]. *)
Definition after_clients (p : proc) : proc :=
  Proc (torn datagram send_ok stack 16 (table p)) (port p) (local_path p) (sock_net p) (sock_local p) (threads p) (clients_mx p)
    (plog p ++ LShuttingDown :: LCancelled Pinger ::
      (if datagram then [] else [LCancelled ThreadNet; LCancelled ThreadLocal]) ++ [LTornDown]).

Definition after_rest (p : proc) : proc :=
  Proc (table p) (port p) (local_path p) (sock_net p) (sock_local p) (threads p) false
    (plog p ++ [LClosed (sock_net p); LClosed (sock_local p); LUnlinked (local_path p); LCancelled Listener]).

Lemma say_eq e p : say e p = Done tt
  (Proc (table p) (port p) (local_path p) (sock_net p) (sock_local p) (threads p) (clients_mx p) (plog p ++ [e])).
Proof. done. Qed.

Lemma cancel_eq t p : t ∈ threads p -> cancel t p = say (LCancelled t) p.
Proof. intros Ht. unfold cancel. eapply bind_eq; [done|]. by rewrite bool_decide_true by done. Qed.

Lemma cleanup_clients_eq p :
  length (clients (table p)) = 16%nat -> threads p = all_threads datagram ->
  cleanup_clients datagram send_ok stack p = Done tt (after_clients p).
Proof.
  intros Hl Ht. destruct p as [t a b n l th mx pl]. simpl in Hl, Ht. subst th.
  unfold cleanup_clients, cancel_pinger, cancel_accept_threads.
  eapply bind_eq; [apply say_eq|]. on_proc.
  eapply bind_eq; [apply cancel_eq; on_proc; rewrite list_elem_of_In; destruct datagram; simpl; tauto|]. on_proc.
  eapply (bind_eq _ _ _ tt (Proc t a b n l (all_threads datagram) mx
    (pl ++ LShuttingDown :: LCancelled Pinger :: (if datagram then [] else [LCancelled ThreadNet; LCancelled ThreadLocal])))).
  { destruct datagram; unfold mret, cm_ret; [by rewrite <- app_assoc|].
    eapply bind_eq; [by apply cancel_eq; on_proc; rewrite list_elem_of_In; simpl; tauto|].
    rewrite cancel_eq by (on_proc; rewrite list_elem_of_In; simpl; tauto).
    rewrite say_eq. on_proc. by rewrite <- !app_assoc. }
  eapply bind_eq; [apply on_table_done, teardown_clients_eq; done|]. on_proc. rewrite say_eq.
  unfold after_clients. on_proc. do 2 f_equal. by destruct datagram; rewrite <- app_assoc.
Qed.

Lemma cleanup_rest_eq p : threads p = all_threads datagram -> cleanup_rest p = Done tt (after_rest p).
Proof.
  intros Ht. destruct p as [t a b n l th mx pl]. simpl in Ht. subst th.
  unfold cleanup_rest, teardown_socks, cancel_listener. eapply bind_eq; [done|].
  eapply bind_eq; [apply cancel_eq; on_proc; rewrite list_elem_of_In; destruct datagram; simpl; tauto|]. on_proc.
  unfold modify, set_mx, after_rest. on_proc. by rewrite <- !app_assoc.
Qed.

Lemma exit_server_eq {A} code p :
  length (clients (table p)) = 16%nat -> threads p = all_threads datagram ->
  (exit_server datagram send_ok stack code : cm proc A) p = Exited code (after_rest (after_clients p)).
Proof.
  intros Hl Ht. unfold exit_server, cleanup. eapply bind_eq; [|done].
  eapply bind_eq; [by apply cleanup_clients_eq|]. by apply cleanup_rest_eq.
Qed.

Lemma torn_16 s : length (clients s) = 16%nat -> clients (torn datagram send_ok stack 16 s) = map (set_active 0) (clients s).
Proof. intros Hl. simpl. by rewrite drop_ge, app_nil_r, take_ge by lia. Qed.

Lemma after_told p : length (clients (table p)) = 16%nat -> told p (after_rest (after_clients p)).
Proof.
  intros Hl. unfold after_rest, after_clients, told, closing. on_proc. rewrite torn_16 by done.
  split; [|split; [|split]].
  - rewrite Forall_map. by apply Forall_forall.
  - simpl. by rewrite take_ge by lia.
  - destruct datagram; by rewrite <- app_assoc.
  - done.
Qed.

(** On TCP nothing is left in the epoll set. *)
Lemma elem_of_without l q x :
  x ∈ without false l q <-> x ∈ q /\ (forall c, c ∈ l -> active c = true -> cl_sock c <> x).
Proof.
  revert q. induction l as [|c l IH] using rev_ind; intros q.
  - simpl. split; [intros H; split; [done|by intros c ?%not_elem_of_nil]|by intros [? _]].
  - rewrite without_snoc. setoid_rewrite elem_of_app. setoid_rewrite list_elem_of_singleton.
    destruct (active c) eqn:Ha.
    + rewrite list_elem_of_In, filter_In, <- list_elem_of_In, IH. split.
      * intros [[Hq Hl] Hx]. split; [done|]. intros c' [Hc'| ->] Hac; [by apply Hl|].
        intros <-. by rewrite Z.eqb_refl in Hx.
      * intros [Hq Hl]. split; [split; [done|by intros c' Hc'; apply Hl; left]|].
        destruct (Z.eqb_spec x (cl_sock c)) as [->|]; [|done]. by destruct (Hl c (or_intror eq_refl) Ha).
    + rewrite IH. split; intros [Hq Hl]; split; try done; [|by intros c' Hc'; apply Hl; left].
      intros c' [Hc'| ->] Hac; [by apply Hl|congruence].
Qed.

Lemma torn_poll_nil s : table_wf datagram 0 s -> datagram = false -> poll (torn datagram send_ok stack 16 s) = [].
Proof.
  intros [Hl _ _ _ _ Hs] Hd. destruct (Hs Hd) as [Hp _]. simpl. rewrite Hd, take_ge by lia.
  destruct (without false (clients s) (poll s)) as [|x q] eqn:E; [done|].
  assert (x ∈ without false (clients s) (poll s)) as Hx by (rewrite E; left).
  apply elem_of_without in Hx as [Hq Hx]. apply Hp in Hq as (i & c & Hc & Ha & Hsk).
  destruct (Hx c); [by eapply list_elem_of_lookup_2|done|done].
Qed.
Lemma up_ready p0 path : ready (server_up datagram sys p0 path).
Proof.
  split; [|done]. destruct (server_start_wf datagram) as [Hl Hd Hf Hid Hc Hs].
  split; [done..|]. intros Hdg. specialize (Hs Hdg). unfold server_up. cbn [table poll clients]. by rewrite Hdg.
Qed.

Lemma on_table_wp {A} (m : cm srv A) ended (Q : A -> proc -> Prop) E p :
  wp m (fun a t => Q a (set_table t p)) (fun c t => wp (ended c) Q E (set_table t p)) (table p) ->
  wp (on_table m ended) Q E p.
Proof. unfold wp, on_table. by destruct (m (table p)). Qed.

Lemma on_table_safe {A} (m : cm srv A) ended (Q : A -> srv -> Prop) p :
  wp m Q (fun _ _ => False) (table p) ->
  exists a t, on_table m ended p = Done a (set_table t p) /\ Q a t.
Proof. unfold wp, on_table. destruct (m (table p)) as [a t| | |]; try done. intros H. by exists a, t. Qed.

(** A turn of any thread: the server goes on, or it has ended in order. *)
Lemma live_turn_ready t p :
  ready p -> turn_ok datagram (table p) t ->
  match live_turn t p with
  | Done _ p' => ready p'
  | Exited c p' => c = -1 /\ reregisters datagram (table p) t /\ Forall (fun c => active c = false) (clients (table p')) /\
      plog p' = plog p ++ closing p /\ clients_mx p' = false
  | Undef _ | NoFuel => False
  end.
Proof.
  intros [Hwf Hth] Hok. change (wp (live_turn t) (fun _ => ready) (fun c p' => c = -1 /\ reregisters datagram (table p) t /\
      Forall (fun c => active c = false) (clients (table p')) /\ plog p' = plog p ++ closing p /\ clients_mx p' = false) p).
  assert (forall u, u = t -> wp (on_table (do_turn datagram send_ok stack u) (exit_server datagram send_ok stack)) (fun _ => ready)
    (fun c p' => c = -1 /\ reregisters datagram (table p) u /\ Forall (fun c => active c = false) (clients (table p')) /\
      plog p' = plog p ++ closing p /\ clients_mx p' = false) p) as H.
  { intros u ->. apply on_table_wp. eapply wp_mono; [by apply wf_turn| |].
    { intros u0 t0 Ht0. by split. }
    intros c t' [[-> Hre] Hl]. unfold wp. rewrite exit_server_eq by done.
    split; [done|]. split; [done|]. by destruct (after_told (set_table t' p) Hl) as (? & _ & ? & ?). }
  destruct t as [sock r|sock a r| |line]; [by apply H..|]. clear H.
  destruct Hok. cbn [live_turn server_loop]. apply wp_bind, on_table_wp.
  eapply wp_mono; [by apply (wf_read_request _ send_ok _ Hstack (fun _ _ => False))| |done].
  intros z t' Ht'. apply wp_bind, on_table_wp. apply (wf_prompt datagram _ 0); [done|]. by intros t'' Ht'' _ _.
Qed.

Lemma serving_ready p : serving p -> ready p.
Proof.
  induction 1 as [prog port_arg path p Hport Hs|t p p' _ IH Hok Ht].
  - rewrite server_setup_eq in Hs by done. destruct (_ && _); [|done]. injection Hs as <-. apply up_ready.
  - pose proof (live_turn_ready t p IH Hok) as H. by rewrite Ht in H.
Qed.
End Life.

(** ** Properties *)

(** C38.  The set-up of the server: started with two arguments, it reaches its
    loop exactly when the path has at most 107 characters and the system grants
    everything it is asked for, with both sockets bound, to the port modulo
    2^16 and to the path, every thread of the build created, and an empty
    table.  Any other end of the set-up - the checks that say exit(-1)
    included - cancels threads that were never created. *)
Theorem server_setup_outcome (datagram : bool) (send_ok : Z -> bool) (stack : list Z) (sys : system)
  (prog port_arg path : string)
  (Hdistinct : sys_net sys <> sys_local sys) (Hport : INT_MIN <= atoi_val port_arg <= INT_MAX) :
  server_setup datagram send_ok stack sys [prog; port_arg; path] proc_start =
  if (strlen path <=? 107) && sys_ok datagram sys then Done tt (server_up datagram sys (atoi_val port_arg) path)
  else Undef UB_thread.
Proof. by apply server_setup_eq. Qed.


(** The joins of [cleanup] do not wait, and the listener is cancelled last:
    on UDP a REGISTER that it still handles after [teardown_clients] enters a
    client that is never told that the server shuts down. *)
Theorem late_client_not_told (send_ok : Z -> bool) (stack : list Z) (sock : Z) (a : addr_t)
  (name rest : list Z) (p : proc)
  (Hstack : length stack = 256%nat) (Hp : ready true p) (Ha : addr_wf a) (Hname : 0 ∉ name) (Hlen : (length name <= 254)%nat)
  (Hrest : (1 + length name + length rest)%nat = 256%nat) :
  let sm := SM a (1 + Z.of_nat (length name)) (MSG_TYPE_REGISTER :: name ++ rest) in
  exists p1 p2 p3, cleanup_clients true send_ok stack p = Done tt p1 /\
    on_table (thread_listen true send_ok sock (Some sm)) exit_ p1 = Done tt p2 /\
    cleanup_rest p2 = Done tt p3 /\
    clients (table p3) !! 0%nat = Some (Client a 1 sock name 0) /\
    log (table p3) = log (table p1) ++ [Connected name; Prompt (current_request_id (table p1))].
Proof.
  intros sm. destruct Hp as [Hwf Hth]. pose proof Hwf as [Hl [Hd _] _ _ _ _].
  set (p1 := after_clients true send_ok stack p).
  assert (clients (table p1) = map (set_active 0) (clients (table p))) as Hc1 by by apply torn_16.
  assert (forall c, c ∈ clients (table p1) -> active c = false) as Hoff.
  { intros c Hc. rewrite Hc1, list_elem_of_In, in_map_iff in Hc. by destruct Hc as (c' & <- & _). }
  assert (length (clients (table p1)) = 16%nat) as Hl1 by by rewrite Hc1, length_map.
  assert (depth (table p1) = 0) as Hd1 by done.
  assert (thread_listen true send_ok sock (Some sm) (table p1) = Done tt (registered true sock sm name (table p1)) /\
    free_slot (table p1) = 0) as [HL Hslot].
  { assert (free_slot (table p1) = 0) as Hslot.
    { unfold free_slot, find_idx. destruct (clients (table p1)) as [|c l]; [done|]. simpl.
      by rewrite (Hoff c (list_elem_of_here _ _)). }
    split; [|done]. unfold thread_listen. eapply bind_eq; [done|].
    eapply bind_eq; [apply client_for_addr_spec; [done|by rewrite Hd1|done|]|].
    { intros c Hc Hac. rewrite (Hoff c Hc) in Hac. done. }
    change (s8 MSG_TYPE_REGISTER) with 0. cbn [sm_addr Z.eqb MSG_TYPE_REGISTER negb andb]. rewrite andb_false_r. cbn [andb].
    rewrite (register_client_eq _ _ _ _ name).
    - unfold register_spec. destruct (name_taken name (clients (table p1))) eqn:Ht.
      { apply name_taken_true in Ht as (i & c & Hc & Hac & _).
        rewrite (Hoff c) in Hac by (by eapply list_elem_of_lookup_2). done. }
      rewrite Hslot. done.
    - done.
    - by rewrite Hd1.
    - by apply register_fits.
    - cbn [sm_length sm]. lia.
    - by apply register_name.
    - unfold CONF_CLIENT_NAME_MAX. lia. }
  eexists p1, _, _. split; [by apply cleanup_clients_eq|]. split; [by apply on_table_done|].
  split; [by apply (cleanup_rest_eq true)|]. unfold after_rest, registered. on_proc. cbn [clients log_add set_log log set_clients].
  rewrite Hslot. split; [|done]. by rewrite list_lookup_insert_eq by (change (Z.to_nat 0) with 0%nat; lia).
Qed.

(** ** The properties at concrete inputs *)

Definition demo_sys : system := System 3 4 true true true (fun _ => true).

Lemma server_setup_outcome_witness :
  server_setup false (fun _ => true) [] demo_sys ["server"; "70000"; "/tmp/s"]%string proc_start =
    Done tt (server_up false demo_sys 70000 "/tmp/s") /\
  server_setup false (fun _ => true) [] (System 3 4 true false true (fun _ => true)) ["server"; "7"; "/tmp/s"]%string proc_start =
    Undef UB_thread.
Proof.
  split.
  - apply (server_setup_outcome false (fun _ => true) [] demo_sys "server" "70000" "/tmp/s"); vm_compute; [congruence|split; congruence].
  - apply (server_setup_outcome false (fun _ => true) [] (System 3 4 true false true (fun _ => true)) "server" "7" "/tmp/s");
      vm_compute; [congruence|split; congruence].
Defined.

(** A TCP server with a client, [AB], on socket 7. *)
Definition demo_proc : proc :=
  match (server_setup false (fun _ => true) (replicate 256 0) demo_sys ["server"; "7"; "/tmp/s"]%string ;;
         live_turn false (fun _ => true) (replicate 256 0) (TAccept 7 demo_addr (Some (demo_register [65; 66])))) proc_start with
  | Done _ p => p
  | _ => proc_start
  end.

Lemma demo_serving : serving false (fun _ => true) (replicate 256 0) demo_sys demo_proc.
Proof.
  apply (serving_turn _ _ _ _ (TAccept 7 demo_addr (Some (demo_register [65; 66]))) (server_up false demo_sys 7 "/tmp/s")).
  - apply (serving_up _ _ _ _ "server" "7" "/tmp/s"); vm_compute; [split; congruence|reflexivity].
  - intros sm [= <-]. split; [apply demo_fits|]. split; [simpl; lia|]. split; [unfold addr_wf; simpl; lia|].
    split; [done|]. by intros ?%not_elem_of_nil.
  - vm_compute. reflexivity.
Qed.


Lemma late_client_not_told_witness :
  exists p1 p2 p3, cleanup_clients true (fun _ => true) (replicate 256 0) (server_up true demo_sys 7 "/tmp/s") = Done tt p1 /\
    on_table (thread_listen true (fun _ => true) 3 (Some (demo_register [65; 66]))) exit_ p1 = Done tt p2 /\
    cleanup_rest p2 = Done tt p3 /\ clients (table p3) !! 0%nat = Some (Client demo_addr 1 3 [65; 66] 0).
Proof.
  destruct (late_client_not_told (fun _ => true) (replicate 256 0) 3 demo_addr [65; 66] (replicate 253 0)
    (server_up true demo_sys 7 "/tmp/s")) as (p1 & p2 & p3 & H1 & H2 & H3 & H4 & _).
  - reflexivity.
  - apply up_ready.
  - unfold addr_wf; simpl; lia.
  - intros H%list_elem_of_In. simpl in H. intuition discriminate.
  - simpl. lia.
  - reflexivity.
  - exists p1, p2, p3. split; [exact H1|]. split; [exact H2|]. split; [exact H3|exact H4].
Defined.
