(* ===== verification/FileDesc.v ===== *)
(** Files of records: cw02/zad1/src/file_desc.c, the two ways of reading and
    writing them (system calls and stdio) over a store of files. *)
From S2P Require Import Prelude CString.
#[local] Open Scope Z_scope.

(** [fmode_t]; the compiler makes it an unsigned 32-bit integer. *)
Definition SYS : Z := 0.
Definition LIB : Z := 1.

(** What a stdio stream did last: output may not follow input directly. *)
Inductive io := IoNone | IoRead | IoWrite.

(** An open file: a path with an offset. *)
Record ofd := Ofd { of_path : string; of_off : Z; of_last : io }.

(** What the program prints (the texts of the source, named). *)
Inductive msg :=
  | MHelp
  | MOpenError (which : Z)
  | MReadError
  | MWriteError
  | MSeekError
  | MUnrecognized (op : string).

(** The files by path, as bytes, and the open files by descriptor. *)
Record world := World {
  files : gmap string (list Z);
  ofds : list ofd;
  msgs : list msg;
}.

(** [struct file_desc]: [desc] is the descriptor or the stream; it is not set
    when the mode is neither [SYS] nor [LIB]. *)
Record file_desc := FD { error : Z; mode : Z; desc : option Z }.


Definition set_file p l w := World (<[p := l]> (files w)) (ofds w) (msgs w).
Definition set_ofds l w := World (files w) l (msgs w).
Definition say (m : msg) : cm world unit := modify (fun w => World (files w) (ofds w) (msgs w ++ [m])).

(** Bytes [n] from [off], as far as the file goes. *)
Definition pread (l : list Z) (off n : Z) : list Z := take (Z.to_nat n) (drop (Z.to_nat off) l).

(** Writing at [off]; a gap after the end of the file is filled with zeros. *)
Definition pwrite (l : list Z) (off : Z) (d : list Z) : list Z :=
  let o := Z.to_nat off in
  take o (l ++ replicate (o - length l) 0) ++ d ++ drop (o + length d) l.

Definition random_path : string := "/dev/urandom".

Section FileDesc.
(** What may be opened for reading and writing, and the bytes of the random
    device. *)
Context (may_read may_write : string -> bool) (urandom : Z -> Z).

Definition open_file (mode : Z) (ok : bool) (path : string) (l : option (list Z)) : cm world file_desc :=
  if (mode =? SYS) || (mode =? LIB) then
    match ok, l with
    | true, Some l =>
        w ← get;
        let w := if String.eqb path random_path then w else set_file path l w in
        put (set_ofds (ofds w ++ [Ofd path 0 IoNone]) w) ;;
        mret (FD 0 mode (Some (Z.of_nat (length (ofds w)))))
    | _, _ => mret (FD (-1) mode (Some (-1)))
    end
  else mret (FD 0 mode None).

Definition existing (w : world) (path : string) : option (list Z) :=
  if String.eqb path random_path then Some [] else files w !! path.

Definition fd_openr (mode : Z) (filename : string) : cm world file_desc :=
  w ← get; open_file mode (may_read filename) filename (existing w filename).

(** [O_WRONLY | O_CREAT] keeps what the file holds; ["w"] empties it. *)
Definition fd_openw (mode : Z) (filename : string) : cm world file_desc :=
  w ← get;
  open_file mode (may_write filename) filename
    (if mode =? SYS then Some (default [] (existing w filename)) else Some []).

Definition fd_openrw (mode : Z) (filename : string) : cm world file_desc :=
  w ← get;
  open_file mode (may_read filename && may_write filename) filename (existing w filename).

(** The open file of [fd]; a bad descriptor makes a system call fail ([bad]),
    a null stream is undefined. *)
Definition with_ofd {A} (fd : file_desc) (bad : cm world A) (f : Z -> ofd -> cm world A) : cm world A :=
  match desc fd with
  | None => undef UB_uninit
  | Some d =>
      w ← get;
      match aget (ofds w) d with
      | Some o => f d o
      | None => if mode fd =? SYS then bad else undef UB_null
      end
  end.

Definition set_ofd (d : Z) (o : ofd) : cm world unit :=
  w ← get; l ← lift UB_freed (aset (ofds w) d o); put (set_ofds l w).

(** Reads up to [record_size] bytes; the rest of [buffer] keeps its value. *)
Definition fd_read (fd : file_desc) (buffer : list Z) (record_size : Z) : cm world (list Z) :=
  if (mode fd =? SYS) || (mode fd =? LIB) then
    with_ofd fd (say MReadError ;; mret buffer) (fun d o =>
      match mode fd =? LIB, of_last o with
      | true, IoWrite => undef UB_stdio
      | _, _ =>
          w ← get;
          let data :=
            if String.eqb (of_path o) random_path
            then map urandom (seqZ (of_off o) record_size)
            else pread (default [] (files w !! of_path o)) (of_off o) record_size in
          check (Z.of_nat (length data) <=? Z.of_nat (length buffer)) UB_bounds ;;
          set_ofd d (Ofd (of_path o) (of_off o + Z.of_nat (length data)) IoRead) ;;
          mret (overwrite buffer 0 data)
      end)
  else mret buffer.

Definition fd_write (fd : file_desc) (buffer : list Z) (record_size : Z) : cm world unit :=
  if (mode fd =? SYS) || (mode fd =? LIB) then
    with_ofd fd (say MWriteError) (fun d o =>
      match mode fd =? LIB, of_last o with
      | true, IoRead => undef UB_stdio
      | _, _ =>
          check (record_size <=? Z.of_nat (length buffer)) UB_bounds ;;
          let data := take (Z.to_nat record_size) buffer in
          modify (fun w => set_file (of_path o)
                    (pwrite (default [] (files w !! of_path o)) (of_off o) data) w) ;;
          set_ofd d (Ofd (of_path o) (of_off o + Z.of_nat (length data)) IoWrite)
      end)
  else mret tt.

(** [lseek] and [fseek]: an offset before the start is refused. *)
Definition seek_to (fd : file_desc) (target : ofd -> Z) : cm world unit :=
  if (mode fd =? SYS) || (mode fd =? LIB) then
    with_ofd fd (say MSeekError) (fun d o =>
      if target o <? 0 then say MSeekError
      else set_ofd d (Ofd (of_path o) (target o) IoNone))
  else mret tt.

Definition fd_seek_row (fd : file_desc) (row_no record_size : Z) : cm world unit :=
  seek_to fd (fun _ => s64 (u64 (row_no * record_size))).

(** [row_rel * record_size] is computed in [size_t]. *)
Definition fd_seek_row_rel (fd : file_desc) (row_rel record_size : Z) : cm world unit :=
  seek_to fd (fun o => of_off o + s64 (u64 (u64 row_rel * record_size))).

End FileDesc.

(** ** Lemmas *)

(** The state in which [path] holds [l] and descriptor [d] is at [off]. *)
Section At.
Context (w0 : world) (path : string) (d : nat).
Context (Hd : (d < length (ofds w0))%nat) (Hpath : path <> random_path).

Definition at_ (l : list Z) (off : Z) (last : io) : world :=
  World (<[path := l]> (files w0)) (<[d := Ofd path off last]> (ofds w0)) (msgs w0).
#[local] Arguments at_ : simpl never.

Lemma at_ofd l off last : aget (ofds (at_ l off last)) (Z.of_nat d) = Some (Ofd path off last).
Proof. rewrite aget_nat. unfold at_. simpl. by rewrite list_lookup_insert_eq. Qed.

Lemma at_set_ofd l off last off' last' :
  set_ofd (Z.of_nat d) (Ofd path off' last') (at_ l off last) = Done tt (at_ l off' last').
Proof.
  unfold set_ofd. cm_step. rewrite aset_ok by (unfold at_; simpl; rewrite length_insert; lia).
  cm_step. unfold set_ofds, at_. simpl. rewrite Nat2Z.id, list_insert_insert_eq. done.
Qed.

Lemma with_ofd_at {A} e md bad (f : Z -> ofd -> cm world A) l off last :
  with_ofd (FD e md (Some (Z.of_nat d))) bad f (at_ l off last) = f (Z.of_nat d) (Ofd path off last) (at_ l off last).
Proof. unfold with_ofd. cbn [desc]. unfold mbind, cm_bind, get. by rewrite at_ofd. Qed.

Lemma path_not_random : String.eqb path random_path = false.
Proof. by apply String.eqb_neq. Qed.

(** Output and input do not follow each other directly. *)
Definition may_go (md : Z) (last bad : io) : Prop := md = SYS \/ md = LIB /\ last <> bad.

Lemma may_go_mode md last bad : may_go md last bad -> (md =? SYS) || (md =? LIB) = true.
Proof. by intros [->|[-> _]]. Qed.

Lemma fd_read_at urandom md e l off last buf n :
  may_go md last IoWrite -> Z.of_nat (length (pread l off n)) <= Z.of_nat (length buf) ->
  fd_read urandom (FD e md (Some (Z.of_nat d))) buf n (at_ l off last) =
    Done (overwrite buf 0 (pread l off n)) (at_ l (off + Z.of_nat (length (pread l off n))) IoRead).
Proof.
  intros Hm Hb. unfold fd_read. cbn [mode]. rewrite (may_go_mode _ _ _ Hm), with_ofd_at.
  unfold of_path, of_last, of_off.
  pose proof (at_set_ofd l off last (off + Z.of_nat (length (pread l off n))) IoRead) as Hs.
  destruct (md =? LIB) eqn:El; [apply Z.eqb_eq in El as ->; destruct last|];
    try (destruct Hm as [Hm|[_ Hm]]; done); cm_step; rewrite path_not_random;
    unfold at_ in Hs |- *; cbn [files]; rewrite lookup_insert_eq; cbn [default from_option id];
    (destruct (Z.leb_spec (Z.of_nat (length (pread l off n))) (Z.of_nat (length buf))); [|lia]);
    cm_step; by rewrite Hs.
Qed.

Lemma fd_write_at md e l off last buf n :
  may_go md last IoRead -> 0 <= n <= Z.of_nat (length buf) ->
  fd_write (FD e md (Some (Z.of_nat d))) buf n (at_ l off last) =
    Done tt (at_ (pwrite l off (take (Z.to_nat n) buf)) (off + n) IoWrite).
Proof.
  intros Hm Hb. unfold fd_write. cbn [mode]. rewrite (may_go_mode _ _ _ Hm), with_ofd_at.
  unfold of_path, of_last, of_off.
  pose proof (at_set_ofd (pwrite l off (take (Z.to_nat n) buf)) off last (off + n) IoWrite) as Hs.
  destruct (md =? LIB) eqn:El; [apply Z.eqb_eq in El as ->; destruct last|];
    try (destruct Hm as [Hm|[_ Hm]]; done); cm_step;
    (destruct (Z.leb_spec n (Z.of_nat (length buf))); [|lia]);
    cm_step; rewrite length_take, Nat.min_l, Z2Nat.id by lia;
    unfold at_, set_file in Hs |- *; cbn [files ofds msgs]; rewrite lookup_insert_eq, insert_insert_eq;
    exact Hs.
Qed.

Lemma seek_to_at md e l off last target :
  md = SYS \/ md = LIB -> 0 <= target (Ofd path off last) ->
  seek_to (FD e md (Some (Z.of_nat d))) target (at_ l off last) =
    Done tt (at_ l (target (Ofd path off last)) IoNone).
Proof.
  intros Hm Ht. unfold seek_to. cbn [mode].
  assert ((md =? SYS) || (md =? LIB) = true) as -> by (by destruct Hm as [->| ->]).
  rewrite with_ofd_at.
  destruct (Z.ltb_spec (target (Ofd path off last)) 0); [lia|]. apply at_set_ofd.
Qed.
End At.

Lemma s64_rel k n : -2 <= k <= 0 -> 0 <= n < 2 ^ 61 -> s64 (u64 (u64 k * n)) = k * n.
Proof.
  intros Hk Hn. assert (- 2 ^ 62 <= k * n <= 0) by (split; nia).
  unfold s64, swrap, u64. rewrite Zmult_mod_idemp_l.
  replace ((k * n) mod 2 ^ 64 + 2 ^ (64 - 1)) with ((k * n) mod 2 ^ 64 + 2 ^ 63) by done.
  rewrite Zplus_mod_idemp_l. rewrite Z.mod_small; lia.
Qed.

Lemma s64_row n : 0 <= n < 2 ^ 63 -> s64 (u64 n) = n.
Proof.
  intros Hn. unfold u64. rewrite Z.mod_small by lia. apply swrap_small; lia.
Qed.

Lemma pwrite_mid a r b x :
  length x = length r -> pwrite (a ++ r ++ b) (Z.of_nat (length a)) x = a ++ x ++ b.
Proof.
  intros Hx. unfold pwrite. rewrite Nat2Z.id, Hx, <- app_assoc, take_app_length. do 2 f_equal.
  rewrite app_assoc. rewrite <- length_app. apply drop_app_length.
Qed.

(** Appending: the file ends at the offset. *)
Lemma pwrite_end a b x :
  (length b <= length x)%nat -> pwrite (a ++ b) (Z.of_nat (length a)) x = a ++ x.
Proof.
  intros Hx. unfold pwrite. rewrite Nat2Z.id, <- app_assoc, take_app_length. f_equal.
  rewrite drop_ge by (rewrite length_app; lia). apply app_nil_r.
Qed.

(** Opening a file. *)
Definition opened (w : world) (path : string) : world := set_ofds (ofds w ++ [Ofd path 0 IoNone]) w.

Lemma opened_lt w path : (length (ofds w) < length (ofds (opened w path)))%nat.
Proof. unfold opened. simpl. rewrite length_app. simpl. lia. Qed.

Lemma open_file_at w path md l :
  md = SYS \/ md = LIB -> path <> random_path ->
  open_file md true path (Some l) w =
    Done (FD 0 md (Some (Z.of_nat (length (ofds w)))))
      (at_ (opened w path) path (length (ofds w)) l 0 IoNone).
Proof.
  intros Hm Hp. unfold open_file.
  assert ((md =? SYS) || (md =? LIB) = true) as -> by (by destruct Hm as [->| ->]).
  cm_step. rewrite path_not_random by done. unfold at_, opened. simpl.
  rewrite insert_app_r_alt, Nat.sub_diag by lia. done.
Qed.

Lemma pwrite_app a b x :
  pwrite (a ++ b) (Z.of_nat (length a)) x = a ++ x ++ drop (length x) b.
Proof.
  unfold pwrite. rewrite Nat2Z.id, <- app_assoc, take_app_length. do 2 f_equal.
  rewrite <- drop_drop. by rewrite drop_app_length.
Qed.

(** Two files open at a time. *)
Lemma at_comm w p1 d1 l1 o1 t1 p2 d2 l2 o2 t2 :
  p1 <> p2 -> d1 <> d2 ->
  at_ (at_ w p1 d1 l1 o1 t1) p2 d2 l2 o2 t2 = at_ (at_ w p2 d2 l2 o2 t2) p1 d1 l1 o1 t1.
Proof.
  intros Hp Hd. unfold at_. simpl. f_equal; [by rewrite insert_insert_ne|by rewrite list_insert_insert_ne].
Qed.

Lemma length_ofds_at w p d l o t : length (ofds (at_ w p d l o t)) = length (ofds w).
Proof. unfold at_. simpl. by rewrite length_insert. Qed.

(** The random device. *)
Definition rnd_at (w : world) (d : nat) (off : Z) (t : io) : world :=
  set_ofds (<[d := Ofd random_path off t]> (ofds w)) w.

Lemma fd_read_rnd urandom w p d l o t d' off last e buf n :
  (d' < length (ofds w))%nat -> d <> d' -> 0 <= n <= Z.of_nat (length buf) ->
  fd_read urandom (FD e SYS (Some (Z.of_nat d'))) buf n (at_ (rnd_at w d' off last) p d l o t) =
    Done (overwrite buf 0 (map urandom (seqZ off n)))
      (at_ (rnd_at w d' (off + n) IoRead) p d l o t).
Proof.
  intros Hd Hne Hn. unfold fd_read. cbn [mode]. change ((SYS =? SYS) || (SYS =? LIB)) with true. cbn iota.
  assert (forall o', aget (ofds (at_ (rnd_at w d' o' last) p d l o t)) (Z.of_nat d') =
    Some (Ofd random_path o' last)) as Hg.
  { intros o'. rewrite aget_nat. unfold at_, rnd_at. simpl.
    by rewrite list_lookup_insert_ne, list_lookup_insert_eq. }
  assert (forall o' t', set_ofd (Z.of_nat d') (Ofd random_path o' t') (at_ (rnd_at w d' off last) p d l o t) =
    Done tt (at_ (rnd_at w d' o' t') p d l o t)) as Hs.
  { intros o' t'. unfold set_ofd. cm_step. rewrite aset_ok.
    - cm_step. unfold set_ofds, at_, rnd_at. simpl. rewrite Nat2Z.id.
      by rewrite list_insert_insert_ne, list_insert_insert_eq.
    - unfold at_, rnd_at. simpl. rewrite !length_insert. lia. }
  unfold with_ofd. cbn [desc]. unfold mbind at 1, cm_bind at 1, get at 1. rewrite Hg.
  unfold of_path, of_off, of_last. change (SYS =? LIB) with false. cbn iota.
  unfold mbind at 1, cm_bind at 1, get at 1. change (String.eqb random_path random_path) with true. cbn iota.
  rewrite length_map, length_seqZ. unfold mbind at 1, cm_bind at 1.
  destruct (Z.leb_spec (Z.of_nat (Z.to_nat n)) (Z.of_nat (length buf))); [|lia].
  unfold check, mret at 1, cm_ret at 1. unfold mbind at 1, cm_bind at 1. rewrite Hs.
  by rewrite Z2Nat.id by lia.
Qed.

Lemma fd_write_stdio e w p d l off buf n :
  (d < length (ofds w))%nat ->
  fd_write (FD e LIB (Some (Z.of_nat d))) buf n (at_ w p d l off IoRead) = Undef UB_stdio.
Proof. intros Hd. unfold fd_write. cbn [mode]. change ((LIB =? SYS) || (LIB =? LIB)) with true. cbn iota. by rewrite with_ofd_at. Qed.
