(* ===== verification/RecordOps.v ===== *)
(** Generating, copying and sorting files of records:
    cw02/zad1/src/operations.c and main.c. *)
From S2P Require Import Prelude CString FileDesc.
From Stdlib Require Import Sorting.Sorted.
#[local] Open Scope Z_scope.

Section Ops.
Context (may_read may_write : string -> bool) (urandom : Z -> Z).
(** What the uninitialised local buffers hold. *)
Context (stack : Z -> list Z).


(** [buffer[j] % ('z' - 'a' + 1) + 'a'] *)
Definition letter (b : Z) : Z := b mod (122 - 97 + 1) + 97.

(** The buffer with its first [n] bytes made letters. *)
Definition letters (n : Z) (buffer : list Z) : list Z :=
  map letter (take (Z.to_nat n) buffer) ++ drop (Z.to_nat n) buffer.

(** The body of the loop of [op_generate]; the buffer stays from one record to
    the next. *)
Fixpoint generate_records (n : nat) (file rnd : file_desc) (buffer : list Z) (record_size : Z) : cm world unit :=
  match n with
  | O => mret tt
  | S n' =>
      buffer ← fd_read urandom rnd buffer (record_size - 1);
      let buffer := letters (record_size - 1) buffer in
      fd_write file buffer record_size ;;
      generate_records n' file rnd buffer record_size
  end.

Definition op_generate (filename : string) (record_count record_size : Z) : cm world Z :=
  buffer ← lift UB_bounds (aset (stack record_size) (record_size - 1) 10);
  file ← fd_openw may_write SYS filename;
  rnd ← fd_openr may_read SYS random_path;
  if negb (error file =? 0) then say (MOpenError 0) ;; mret 1
  else
    generate_records (Z.to_nat record_count) file rnd buffer record_size ;;
    mret 0.

Fixpoint copy_records (n : nat) (file1 file2 : file_desc) (buffer : list Z) (record_size : Z) : cm world unit :=
  match n with
  | O => mret tt
  | S n' =>
      buffer ← fd_read urandom file1 buffer record_size;
      fd_write file2 buffer record_size ;;
      copy_records n' file1 file2 buffer record_size
  end.

Definition op_copy (filename filename2 : string) (record_count record_size mode : Z) : cm world Z :=
  file1 ← fd_openr may_read mode filename;
  if negb (error file1 =? 0) then say (MOpenError 1) ;; mret 1
  else
    file2 ← fd_openw may_write mode filename2;
    if negb (error file2 =? 0) then say (MOpenError 2) ;; mret 1
    else
      copy_records (Z.to_nat record_count) file1 file2 (stack record_size) record_size ;;
      mret 0.

(** The inner loop of [op_sort], entered with [next_pos > 0]; it gives what
    [next] holds at the end. *)
Fixpoint sort_shift (next_pos : nat) (file : file_desc) (inserted next : list Z) (record_size : Z)
    : cm world (list Z) :=
  fd_seek_row_rel file (-1) record_size ;;
  next ← fd_read urandom file next record_size;
  a ← lift UB_bounds (aget next 0);
  b ← lift UB_bounds (aget inserted 0);
  if (b : Z) <? a then
    fd_write file next record_size ;;
    fd_seek_row_rel file (-2) record_size ;;
    match next_pos with
    | S (S n as next_pos') => sort_shift next_pos' file inserted next record_size
    | _ => mret next
    end
  else mret next.

(** The outer loop, with [sorted_end] and the iterations left. *)
Fixpoint sort_rows (n : nat) (sorted_end : Z) (file : file_desc) (inserted next : list Z) (record_size : Z)
    : cm world unit :=
  match n with
  | O => mret tt
  | S n' =>
      fd_seek_row file (sorted_end + 1) record_size ;;
      inserted ← fd_read urandom file inserted record_size;
      fd_seek_row_rel file (-1) record_size ;;
      next ← sort_shift (Z.to_nat (sorted_end + 1)) file inserted next record_size;
      fd_write file inserted record_size ;;
      sort_rows n' (sorted_end + 1) file inserted next record_size
  end.

Definition op_sort (filename : string) (record_count record_size mode : Z) : cm world Z :=
  file ← fd_openrw may_read may_write mode filename;
  if negb (error file =? 0) then say (MOpenError 0) ;; mret 1
  else
    (* [sorted_end + 1 < record_count] holds this often *)
    sort_rows (Z.to_nat (record_count - 1)) 0 file (stack record_size) (stack record_size) record_size ;;
    mret 0.

(** ** main.c *)

(** [-1] becomes the largest value of the unsigned enumeration. *)
Definition parse_mode (m : string) : Z :=
  if streq m "sys" then SYS else if streq m "lib" then LIB else u32 (-1).

Definition size_of_arg (s : string) : cm world Z := n ← atoi s; mret (u64 n).

Definition main (argv : list string) : cm world Z :=
  match argv with
  | _ :: op :: rest =>
      let help := say MHelp ;; mret 1 in
      if Z.of_nat (length argv) <? 5 then help
      else if streq op "generate" then
        match rest with
        | [filename; c; s] =>
            record_count ← size_of_arg c; record_size ← size_of_arg s;
            _ ← op_generate filename record_count record_size; mret 0
        | _ => help
        end
      else if streq op "sort" then
        match rest with
        | [filename; c; s; m] =>
            record_count ← size_of_arg c; record_size ← size_of_arg s;
            let mode := parse_mode m in
            if mode <? 0 then help
            else _ ← op_sort filename record_count record_size mode; mret 0
        | _ => help
        end
      else if streq op "copy" then
        match rest with
        | [filename; filename2; c; s; m] =>
            record_count ← size_of_arg c; record_size ← size_of_arg s;
            let mode := parse_mode m in
            if mode <? 0 then help
            else _ ← op_copy filename filename2 record_count record_size mode; mret 0
        | _ => help
        end
      else say (MUnrecognized op) ;; help
  | _ => say MHelp ;; mret 1
  end.
End Ops.

(** ** The sort, on rows *)

Definition key (row : list Z) : Z := default 0 (head row).

(** Inserting a row into sorted rows, from the right; both lists reversed. *)
Fixpoint ins_rev (x : list Z) (r : list (list Z)) : list (list Z) :=
  match r with
  | [] => [x]
  | y :: r' => if key x <? key y then y :: ins_rev x r' else x :: r
  end.

Definition sort_rev (r todo : list (list Z)) : list (list Z) := foldl (fun acc x => ins_rev x acc) r todo.
Definition sorted_rows (rows : list (list Z)) : list (list Z) := rev (sort_rev [] rows).

(** *** The reference sort is a stable sort *)

Lemma ins_rev_perm x r : ins_rev x r ≡ₚ x :: r.
Proof.
  induction r as [|y r IH]; simpl; [done|]. destruct (_ <? _); [|done].
  rewrite IH. constructor.
Qed.

Lemma sort_rev_perm r todo : sort_rev r todo ≡ₚ r ++ todo.
Proof.
  revert r. induction todo as [|x todo IH]; intros r; simpl; [by rewrite app_nil_r|].
  rewrite IH, ins_rev_perm. simpl. by rewrite Permutation_middle.
Qed.

(** Descending by key. *)
Definition key_ge (a b : list Z) : Prop := key b <= key a.

Lemma ins_rev_sorted x r : Sorted key_ge r -> Sorted key_ge (ins_rev x r).
Proof.
  induction 1 as [|y r Hs IH Hh]; simpl; [by repeat constructor|].
  destruct (Z.ltb_spec (key x) (key y)); [|by repeat constructor].
  constructor; [done|]. destruct r as [|z r]; simpl in *; [by constructor; unfold key_ge; lia|].
  inversion Hh; subst. destruct (_ <? _); constructor; unfold key_ge in *; lia.
Qed.

Lemma sort_rev_sorted r todo : Sorted key_ge r -> Sorted key_ge (sort_rev r todo).
Proof. revert r. induction todo as [|x todo IH]; intros r H; simpl; [done|]. by apply IH, ins_rev_sorted. Qed.

(** The rows with one key, newest first. *)
Lemma ins_rev_stable k x r : Sorted key_ge r ->
  List.filter (fun y => key y =? k) (ins_rev x r) =
  List.filter (fun y => key y =? k) (x :: r).
Proof.
  intros Hs. induction r as [|y r IH]; [done|]. apply Sorted_inv in Hs as [Hs Hh].
  specialize (IH Hs). simpl in *. destruct (Z.ltb_spec (key x) (key y)); [|done].
  simpl. rewrite IH. destruct (Z.eqb_spec (key y) k), (Z.eqb_spec (key x) k); try done. lia.
Qed.

Lemma sort_rev_stable k r todo : Sorted key_ge r ->
  List.filter (fun y => key y =? k) (sort_rev r todo) =
  rev (List.filter (fun y => key y =? k) todo) ++ List.filter (fun y => key y =? k) r.
Proof.
  revert r. induction todo as [|x todo IH]; intros r Hs; simpl; [done|].
  rewrite IH by by apply ins_rev_sorted. rewrite ins_rev_stable by done. simpl.
  destruct (key x =? k); [|done]. simpl. by rewrite <- app_assoc.
Qed.

Lemma filter_rev' {A} (f : A -> bool) l : List.filter f (rev l) = rev (List.filter f l).
Proof.
  induction l as [|x l IH]; simpl; [done|]. rewrite List.filter_app, IH. simpl.
  destruct (f x); simpl; [done|by rewrite app_nil_r].
Qed.

(** *** Rows in a file *)

Section Rows.
Context (n : Z) (Hn : 0 < n).

Definition rows_ok (rows : list (list Z)) : Prop := Forall (fun r => Z.of_nat (length r) = n) rows.

Lemma rows_length rows : rows_ok rows -> Z.of_nat (length (concat rows)) = Z.of_nat (length rows) * n.
Proof. induction 1 as [|r rows Hr _ IH]; simpl; [done|]. rewrite length_app. lia. Qed.

Lemma pread_row a r b tail :
  rows_ok a -> Z.of_nat (length r) = n ->
  pread (concat (a ++ r :: b) ++ tail) (Z.of_nat (length a) * n) n = r.
Proof.
  intros Ha Hr. unfold pread. rewrite concat_app, <- app_assoc. simpl.
  rewrite drop_app_length' by (pose proof (rows_length a Ha); lia).
  rewrite <- app_assoc. by rewrite take_app_length' by lia.
Qed.

Lemma pwrite_row a r b tail x :
  rows_ok a -> Z.of_nat (length r) = n -> Z.of_nat (length x) = n ->
  pwrite (concat (a ++ r :: b) ++ tail) (Z.of_nat (length a) * n) x = concat (a ++ x :: b) ++ tail.
Proof.
  intros Ha Hr Hx. pose proof (rows_length a Ha) as Hl. rewrite !concat_app, <- !app_assoc. simpl.
  rewrite <- !app_assoc. rewrite <- Hl. apply pwrite_mid. lia.
Qed.
End Rows.

(** *** The sort, on the file *)

Section Sorting.
Context (w0 : world) (path : string) (d : nat) (urandom : Z -> Z).
Context (Hd : (d < length (ofds w0))%nat) (Hpath : path <> random_path).
Context (n : Z) (Hn : 0 < n) (tail : list Z).

Local Abbreviation at_ := (at_ w0 path d).
Local Abbreviation file := (FD 0 SYS (Some (Z.of_nat d))).
Local Abbreviation rowlen l := (Z.of_nat (length l) = n).

Lemma read_row a r b buf last :
  rows_ok n a -> rowlen r -> rowlen buf ->
  fd_read urandom file buf n (at_ (concat (a ++ r :: b) ++ tail) (Z.of_nat (length a) * n) last) =
    Done r (at_ (concat (a ++ r :: b) ++ tail) (Z.of_nat (length a + 1) * n) IoRead).
Proof.
  intros Ha Hr Hb. rewrite fd_read_at; try done; [|by left|]; rewrite (pread_row n) by (done || lia); [|lia].
  rewrite overwrite_all by lia. do 2 f_equal. lia.
Qed.

Lemma write_row a r b x last :
  rows_ok n a -> rowlen r -> rowlen x ->
  fd_write file x n (at_ (concat (a ++ r :: b) ++ tail) (Z.of_nat (length a) * n) last) =
    Done tt (at_ (concat (a ++ x :: b) ++ tail) (Z.of_nat (length a + 1) * n) IoWrite).
Proof.
  intros Ha Hr Hx. rewrite fd_write_at; try done; [|by left|lia].
  rewrite firstn_all2 by lia. rewrite (pwrite_row n) by (done || lia).
  do 2 f_equal. lia.
Qed.

Lemma seek_rel l k (j : nat) last :
  -2 <= k <= 0 -> 0 <= Z.of_nat j + k -> n < 2 ^ 61 ->
  fd_seek_row_rel file k n (at_ l (Z.of_nat j * n) last) =
    Done tt (at_ l (Z.of_nat (Z.to_nat (Z.of_nat j + k)) * n) IoNone).
Proof.
  intros Hk Hj Hs. unfold fd_seek_row_rel.
  assert (forall o, of_off o + s64 (u64 (u64 k * n)) = of_off o + k * n) as Hrel
    by (intros o; rewrite s64_rel by lia; lia).
  assert (0 <= (Z.of_nat j + k) * n) by nia.
  rewrite seek_to_at; [|done|by left|rewrite Hrel; cbn [of_off]; lia].
  do 2 f_equal. rewrite Hrel, Z2Nat.id by lia. cbn [of_off]. ring.
Qed.

Lemma fd_seek_row_at l j off last :
  0 <= j -> j * n < 2 ^ 63 ->
  fd_seek_row file j n (at_ l off last) = Done tt (at_ l (j * n) IoNone).
Proof.
  intros Hj Hs. unfold fd_seek_row.
  rewrite seek_to_at; [by rewrite s64_row by nia|done|by left|]. rewrite s64_row; nia.
Qed.

(** The inner loop opens a gap for [x] among the rows before it; [h] is what
    the gap holds meanwhile. *)
Lemma sort_shift_spec r x post h next last :
  n < 2 ^ 61 -> r <> [] -> rows_ok n r -> rowlen x -> rowlen h -> rowlen next ->
  exists r1 r2 h' next' last',
    sort_shift urandom (length r) file x next n
      (at_ (concat (rev r ++ h :: post) ++ tail) (Z.of_nat (length r) * n) last) =
    Done next' (at_ (concat (rev r1 ++ h' :: rev r2 ++ post) ++ tail) (Z.of_nat (length r1) * n) last') /\
    ins_rev x r = r2 ++ x :: r1 /\ rows_ok n r1 /\ rowlen h' /\ rowlen next'.
Proof.
  intros Hbig. revert post h next last. induction r as [|y r IH]; intros post h next last Hr Hok Hx Hh Hnx; [done|].
  apply Forall_cons in Hok as [Hy Hok'].
  assert (rows_ok n (rev r)) as Hrev by (by apply Forall_rev).
  assert (exists bx, aget x 0 = Some bx /\ key x = bx) as (bx & Hbx & Hkx).
  { destruct x as [|bx x]; [simpl in Hx; lia|]. by exists bx. }
  assert (exists by_, aget y 0 = Some by_ /\ key y = by_) as (by_ & Hby & Hky).
  { destruct y as [|by_ y]; [simpl in Hy; lia|]. by exists by_. }
  assert (forall k, sort_shift urandom (S k) file x next n
      (at_ (concat (rev (y :: r) ++ h :: post) ++ tail) (Z.of_nat (length (y :: r)) * n) last) =
    (if bx <? by_ then
      fd_write file y n ;;
      fd_seek_row_rel file (-2) n ;;
      match S k with
      | S (S n0 as next_pos') => sort_shift urandom next_pos' file x y n
      | _ => mret y
      end
     else mret y) (at_ (concat (rev (y :: r) ++ h :: post) ++ tail) (Z.of_nat (length (y :: r)) * n) IoRead)) as Hhead.
  { intros k. cbn [sort_shift]. unfold mbind at 1, cm_bind at 1.
    rewrite seek_rel by (cbn [length]; lia).
    replace (Z.of_nat (Z.to_nat (Z.of_nat (length (y :: r)) + -1))) with (Z.of_nat (length (rev r)))
      by (cbn [length]; rewrite length_rev; lia).
    cbn [rev]. rewrite <- app_assoc. cbn [app]. unfold mbind at 1, cm_bind at 1.
    rewrite read_row by done. unfold lift. unfold mbind at 1, cm_bind at 1. rewrite Hby. cbn [mret cm_ret].
    unfold mbind at 1, cm_bind at 1, mret at 1, cm_ret at 1. rewrite Hbx.
    unfold mbind at 1, cm_bind at 1, mret at 1, cm_ret at 1.
    replace (Z.of_nat (length (rev r) + 1)) with (Z.of_nat (length (y :: r))) by (rewrite length_rev; cbn [length]; lia).
    done. }
  cbn [length]. cbn [length] in Hhead. rewrite Hhead. clear Hhead. cbn [ins_rev]. rewrite Hkx, Hky.
  destruct (Z.ltb_spec bx by_).
  - unfold mbind at 1, cm_bind at 1.
    assert (rows_ok n (rev (y :: r))) as Hrev' by (apply Forall_rev; by constructor).
    pose proof (write_row (rev (y :: r)) h post y IoRead Hrev' Hh Hy) as Hw.
    rewrite length_rev in Hw. cbn [length] in Hw. rewrite Hw. clear Hw.
    unfold mbind at 1, cm_bind at 1. rewrite seek_rel by lia.
    replace (Z.of_nat (Z.to_nat (Z.of_nat (S (length r) + 1) + -2))) with (Z.of_nat (length r)) by lia.
    cbn [rev]. rewrite <- app_assoc. cbn [app].
    destruct r as [|z r].
    + exists [], [y], y, y, IoNone. by repeat split.
    + destruct (IH (y :: post) y y IoNone) as (r1 & r2 & h' & nx & l' & E & Hins & ? & ? & ?); try done.
      exists r1, (y :: r2), h', nx, l'. split.
      { etrans; [exact E|]. cbn [rev]. by rewrite <- app_assoc. }
      split; [by rewrite Hins|done].
  - exists (y :: r), [], h, y, IoRead. repeat split; try done. by constructor.
Qed.

Lemma sort_rows_spec todo r inserted next off last :
  r <> [] -> rows_ok n r -> rows_ok n todo -> rowlen inserted -> rowlen next ->
  Z.of_nat (length r + length todo) * n < 2 ^ 61 ->
  exists off' last',
    sort_rows urandom (length todo) (Z.of_nat (length r) - 1) file inserted next n
      (at_ (concat (rev r ++ todo) ++ tail) off last) =
    Done tt (at_ (concat (rev (sort_rev r todo)) ++ tail) off' last').
Proof.
  revert r inserted next off last.
  induction todo as [|x todo IH]; intros r ins next off last Hr Hok Htodo Hins Hnx Hbig.
  - exists off, last. cbn [length sort_rows sort_rev foldl]. by rewrite app_nil_r.
  - apply Forall_cons in Htodo as [Hx Htodo']. cbn [length] in Hbig.
    assert (0 < length r)%nat by (destruct r; [done|simpl; lia]).
    assert (n < 2 ^ 61) as Hn61 by nia.
    assert (rows_ok n (rev r)) as Hrev by (by apply Forall_rev).
    cbn [length sort_rows]. unfold mbind at 1, cm_bind at 1.
    rewrite fd_seek_row_at by nia.
    replace (Z.of_nat (length r) - 1 + 1) with (Z.of_nat (length (rev r))) by (rewrite length_rev; lia).
    unfold mbind at 1, cm_bind at 1. rewrite read_row by done.
    unfold mbind at 1, cm_bind at 1. rewrite seek_rel by lia.
    replace (Z.to_nat (Z.of_nat (length (rev r) + 1) + -1)) with (length r) by (rewrite length_rev; lia).
    unfold mbind at 1, cm_bind at 1. rewrite Nat2Z.id, length_rev.
    destruct (sort_shift_spec r x todo x next IoNone) as (r1 & r2 & h' & nx & l' & E & Hi & Hr1 & Hh' & Hnx'); try done.
    rewrite E. unfold mbind at 1, cm_bind at 1.
    rewrite <- (length_rev r1). rewrite write_row by (try done; by apply Forall_rev).
    replace (rev r1 ++ x :: rev r2 ++ todo) with (rev (ins_rev x r) ++ todo)
      by (rewrite Hi, rev_app_distr; cbn [rev]; by rewrite <- !app_assoc).
    pose proof (ins_rev_perm x r) as Hp. pose proof (Permutation_length Hp) as Hl. cbn [length] in Hl.
    replace (Z.of_nat (length r)) with (Z.of_nat (length (ins_rev x r)) - 1) by lia.
    apply IH; try done.
    + intros E0. rewrite E0 in Hl. done.
    + unfold rows_ok. rewrite Hp. by constructor.
    + rewrite Hl. lia.
Qed.
End Sorting.

(** Ascending by key. *)
Definition key_le (a b : list Z) : Prop := key a <= key b.

Lemma sorted_rows_sorted rows : Sorted key_le (sorted_rows rows).
Proof.
  unfold sorted_rows. assert (Sorted key_ge (sort_rev [] rows)) as H by (by apply sort_rev_sorted).
  induction H as [|x r _ IH Hh]; simpl; [done|]. induction (rev r) as [|y l IHl] eqn:E using rev_ind.
  - by repeat constructor.
  - clear IHl. assert (r = y :: rev l) as -> by (rewrite <- (rev_involutive r), E, rev_app_distr; done).
    apply HdRel_inv in Hh. clear E. revert IH. generalize (l) as l'. intros l'.
    induction l' as [|z l' IHl']; simpl; intros Hs.
    + constructor; [by repeat constructor|]. by constructor.
    + apply Sorted_inv in Hs as [Hs Hz]. constructor; [by apply IHl'|].
      destruct l'; simpl in *; inversion Hz; by constructor.
Qed.

Section Theorems.
Context (may_read may_write : string -> bool) (urandom : Z -> Z) (stack : Z -> list Z).

Lemma op_sort_eq path rows tail n w :
  0 < n -> path <> random_path -> may_read path = true -> may_write path = true ->
  Z.of_nat (length (stack n)) = n -> rows_ok n rows -> Z.of_nat (length rows) * n < 2 ^ 61 ->
  files w !! path = Some (concat rows ++ tail) ->
  exists w', op_sort may_read may_write urandom stack path (Z.of_nat (length rows)) n SYS w = Done 0 w' /\
    files w' = <[path := concat (sorted_rows rows) ++ tail]> (files w).
Proof.
  intros Hn Hp Hr Hw Hst Hok Hbig Hf. unfold op_sort. unfold mbind at 1, cm_bind at 1.
  unfold fd_openrw. unfold mbind at 1, cm_bind at 1, get at 1.
  unfold existing. rewrite path_not_random, Hf, Hr, Hw by done.
  rewrite open_file_at by (done || by left). cbn [error negb Z.eqb].
  pose proof (opened_lt w path) as Hlt.
  destruct rows as [|x todo].
  - eexists. split; [done|]. done.
  - apply Forall_cons in Hok as [Hx Htodo]. unfold mbind at 1, cm_bind at 1.
    replace (Z.to_nat (Z.of_nat (length (x :: todo)) - 1)) with (length todo) by (cbn [length]; lia).
    destruct (sort_rows_spec (opened w path) path (length (ofds w)) urandom Hlt Hp n Hn tail todo [x]
      (stack n) (stack n) 0 IoNone) as (off' & l' & E); try done.
    { by constructor. }
    cbn [length app rev] in E. change (Z.of_nat 1 - 1) with 0 in E. cbn [app] in E.
    rewrite E. eexists. split; [done|]. done.
Qed.

(** The loop of [op_copy], with [recs] still to be read. *)
Lemma copy_records_spec w p1 p2 d1 d2 md n recs : forall l1 done_ rest old t1 t2 buf,
  p1 <> random_path -> p2 <> random_path -> p1 <> p2 -> d1 <> d2 ->
  (d1 < length (ofds w))%nat -> (d2 < length (ofds w))%nat ->
  md = SYS \/ md = LIB -> (md = LIB -> t1 <> IoWrite /\ t2 <> IoRead) ->
  0 < n -> rows_ok n recs -> Z.of_nat (length buf) = n ->
  l1 = done_ ++ concat recs ++ rest ->
  exists t1' t2',
    copy_records urandom (length recs) (FD 0 md (Some (Z.of_nat d1))) (FD 0 md (Some (Z.of_nat d2))) buf n
      (at_ (at_ w p2 d2 (done_ ++ old) (Z.of_nat (length done_)) t2) p1 d1 l1 (Z.of_nat (length done_)) t1) =
    Done tt (at_ (at_ w p2 d2 ((done_ ++ concat recs) ++ drop (length (concat recs)) old)
              (Z.of_nat (length (done_ ++ concat recs))) t2') p1 d1 l1 (Z.of_nat (length (done_ ++ concat recs))) t1').
Proof.
  induction recs as [|r recs IH]; intros l1 dn rest old t1 t2 buf Hp1 Hp2 Hne Hd Hl1 Hl2 Hm Hio Hn Hok Hb El.
  - exists t1, t2. simpl. by rewrite app_nil_r.
  - apply Forall_cons in Hok as [Hr Hok].
    assert (pread l1 (Z.of_nat (length dn)) n = r) as Hpr.
    { unfold pread. rewrite El, Nat2Z.id, drop_app_length. simpl. rewrite <- app_assoc.
      by rewrite take_app_length' by lia. }
    cbn [length copy_records]. unfold mbind at 1, cm_bind at 1.
    rewrite fd_read_at; [|by rewrite length_ofds_at|done| |rewrite Hpr; lia].
    2: { destruct Hm as [->| ->]; [by left|right]. split; [done|]. by apply Hio. }
    rewrite Hpr, overwrite_all by lia. unfold mbind at 1, cm_bind at 1.
    rewrite (at_comm w p2) by done. rewrite fd_write_at; [|by rewrite length_ofds_at| |lia].
    2: { destruct Hm as [->| ->]; [by left|right]. split; [done|]. by apply Hio. }
    rewrite firstn_all2 by lia. rewrite pwrite_app, <- (at_comm w p2) by done.
    replace (Z.of_nat (length dn) + Z.of_nat (length r)) with (Z.of_nat (length (dn ++ r)))
      by (rewrite length_app; lia).
    replace (Z.of_nat (length dn) + n) with (Z.of_nat (length (dn ++ r))) by (rewrite length_app; lia).
    rewrite app_assoc.
    destruct (IH l1 (dn ++ r) rest (drop (length r) old) IoRead IoWrite r) as (t1' & t2' & E); try done.
    { rewrite El. simpl. by rewrite <- !app_assoc. }
    exists t1', t2'. rewrite E, drop_drop, <- (app_assoc dn r). cbn [concat]. by rewrite (length_app r).
Qed.

Lemma op_copy_eq p1 p2 recs rest old n md w :
  0 < n -> p1 <> random_path -> p2 <> random_path -> p1 <> p2 ->
  may_read p1 = true -> may_write p2 = true -> md = SYS \/ md = LIB ->
  Z.of_nat (length (stack n)) = n -> rows_ok n recs ->
  files w !! p1 = Some (concat recs ++ rest) -> default [] (files w !! p2) = old ->
  exists w', op_copy may_read may_write urandom stack p1 p2 (Z.of_nat (length recs)) n md w = Done 0 w' /\
    files w' = <[p2 := concat recs ++ (if md =? SYS then drop (length (concat recs)) old else [])]> (files w).
Proof.
  intros Hn Hp1 Hp2 Hne Hr Hw Hm Hst Hok Hf1 Hf2. unfold op_copy. unfold mbind at 1, cm_bind at 1.
  unfold fd_openr. unfold mbind at 1, cm_bind at 1, get at 1.
  unfold existing. rewrite path_not_random, Hf1, Hr by done.
  rewrite open_file_at by done. cbn [error negb Z.eqb].
  set (w1 := at_ _ p1 _ _ _ _). set (d1 := length (ofds w)) in *.
  assert (files w1 !! p2 = files w !! p2) as Hf2'.
  { unfold w1, at_. simpl. by rewrite lookup_insert_ne. }
  assert (length (ofds w1) = S d1) as Hl1.
  { unfold w1. rewrite length_ofds_at. unfold opened. simpl. rewrite length_app. simpl. lia. }
  unfold mbind at 1, cm_bind at 1. unfold fd_openw. unfold mbind at 1, cm_bind at 1, get at 1.
  rewrite Hw. unfold existing. rewrite path_not_random, Hf2', Hf2 by done.
  assert (exists old', (if md =? SYS then Some old else Some []) = Some old' /\
    old' = if md =? SYS then old else []) as (old' & -> & Eold) by (destruct (md =? SYS); eauto).
  rewrite open_file_at by done. cbn [error negb Z.eqb]. rewrite Hl1, Nat2Z.id.
  unfold mbind at 1, cm_bind at 1.
  assert (at_ (opened w1 p2) p2 (S d1) old' 0 IoNone =
    at_ (at_ (set_ofds (ofds w ++ [Ofd p1 0 IoNone; Ofd p2 0 IoNone]) w) p2 (S d1) old' 0 IoNone)
      p1 d1 (concat recs ++ rest) 0 IoNone) as ->.
  { rewrite at_comm by (congruence || lia). unfold at_, opened, w1. simpl. f_equal.
    f_equal. unfold d1. rewrite (insert_app_r_alt (ofds w)), Nat.sub_diag by lia. simpl.
    rewrite (insert_app_r_alt (ofds w)), Nat.sub_diag by lia. by rewrite <- app_assoc. }
  destruct (copy_records_spec (set_ofds (ofds w ++ [Ofd p1 0 IoNone; Ofd p2 0 IoNone]) w) p1 p2 d1 (S d1) md n recs
    (concat recs ++ rest) [] rest old' IoNone IoNone (stack n)) as (t1' & t2' & E); try done.
  - simpl. rewrite length_app. simpl. unfold d1. lia.
  - simpl. rewrite length_app. simpl. unfold d1. lia.
  - cbn [app length] in E. change (Z.of_nat 0) with 0 in E. rewrite E. eexists. split; [done|].
    unfold at_. cbn [files set_ofds]. rewrite insert_insert_ne by done. rewrite (insert_id (files w) p1) by done.
    f_equal. rewrite Eold. destruct (md =? SYS); [done|]. by rewrite drop_nil.
Qed.

(** The record [op_generate] makes of the random bytes from [off]. *)
Definition random_row (n off : Z) : list Z := map (fun k => letter (urandom k)) (seqZ off (n - 1)) ++ [10].

Lemma length_random_row n off : 0 < n -> Z.of_nat (length (random_row n off)) = n.
Proof. intros Hn. unfold random_row. rewrite length_app, length_map, length_seqZ. simpl. lia. Qed.

Lemma row_buffer n off buf :
  0 < n -> Z.of_nat (length buf) = n -> buf !! Z.to_nat (n - 1) = Some 10 ->
  letters (n - 1) (overwrite buf 0 (map urandom (seqZ off (n - 1)))) = random_row n off /\
  random_row n off !! Z.to_nat (n - 1) = Some 10.
Proof.
  intros Hn Hb Hlast. unfold letters, random_row, overwrite. simpl take. rewrite app_nil_l, Nat.add_0_l.
  rewrite length_map, length_seqZ.
  rewrite take_app_length' by (rewrite length_map, length_seqZ; done).
  rewrite drop_app_length' by (rewrite length_map, length_seqZ; done).
  rewrite (drop_S _ 10) by done. rewrite drop_ge by lia. rewrite map_map. split; [done|].
  rewrite lookup_app_r; rewrite length_map, length_seqZ; [|done]. by rewrite Nat.sub_diag.
Qed.

Lemma generate_records_spec w path d d' n k : forall dn old buf t t' off,
  path <> random_path -> (d < length (ofds w))%nat -> (d' < length (ofds w))%nat -> d <> d' ->
  0 < n -> Z.of_nat (length buf) = n -> buf !! Z.to_nat (n - 1) = Some 10 ->
  exists w', generate_records urandom k (FD 0 SYS (Some (Z.of_nat d))) (FD 0 SYS (Some (Z.of_nat d'))) buf n
      (at_ (rnd_at w d' off t') path d (dn ++ old) (Z.of_nat (length dn)) t) = Done tt w' /\
    let new := concat (map (fun i => random_row n (off + Z.of_nat i * (n - 1))) (seq 0 k)) in
    files w' = <[path := dn ++ new ++ drop (length new) old]> (files w).
Proof.
  induction k as [|k IH]; intros dn old buf t t' off Hp Hd Hd' Hne Hn Hb Hlast.
  - eexists. split; [done|]. done.
  - cbn [generate_records]. unfold mbind at 1, cm_bind at 1. rewrite fd_read_rnd by (done || lia).
    destruct (row_buffer n off buf Hn Hb Hlast) as [-> Hrow]. pose proof (length_random_row n off Hn) as Hlen.
    cbv zeta. unfold mbind at 1, cm_bind at 1.
    rewrite fd_write_at; [|unfold rnd_at; simpl; by rewrite length_insert|by left|lia].
    rewrite firstn_all2 by lia. rewrite pwrite_app.
    replace (Z.of_nat (length dn) + n) with (Z.of_nat (length (dn ++ random_row n off))) by (rewrite length_app; lia).
    rewrite app_assoc.
    destruct (IH (dn ++ random_row n off) (drop (length (random_row n off)) old) (random_row n off) IoWrite IoRead
      (off + (n - 1))) as (w' & E & Hf); try done.
    exists w'. split; [exact E|]. rewrite Hf. f_equal. cbn [seq map concat]. rewrite <- app_assoc.
    replace (off + Z.of_nat 0 * (n - 1)) with off by lia. f_equal. rewrite length_app, drop_drop.
    rewrite <- seq_shift, map_map.
    assert (forall l, map (fun i => random_row n (off + (n - 1) + Z.of_nat i * (n - 1))) l =
      map (fun x => random_row n (off + Z.of_nat (S x) * (n - 1))) l) as ->.
    { intros l. apply map_ext. intros x. f_equal. lia. }
    by rewrite <- app_assoc.
Qed.

Lemma op_generate_eq path count n w old :
  0 < n -> path <> random_path -> may_write path = true -> may_read random_path = true ->
  Z.of_nat (length (stack n)) = n -> default [] (files w !! path) = old ->
  exists w', op_generate may_read may_write urandom stack path count n w = Done 0 w' /\
    let new := concat (map (fun i => random_row n (Z.of_nat i * (n - 1))) (seq 0 (Z.to_nat count))) in
    files w' = <[path := new ++ drop (length new) old]> (files w).
Proof.
  intros Hn Hp Hw Hr Hst Hold. unfold op_generate. rewrite aset_ok by lia.
  unfold lift. unfold mbind at 1, cm_bind at 1, mret at 1, cm_ret at 1.
  unfold mbind at 1, cm_bind at 1. unfold fd_openw. unfold mbind at 1, cm_bind at 1, get at 1.
  rewrite Hw. unfold existing. rewrite path_not_random by done. change (SYS =? SYS) with true. cbn iota. rewrite Hold.
  rewrite open_file_at by (done || by left). unfold mbind at 1, cm_bind at 1.
  set (d := length (ofds w)).
  assert (fd_openr may_read SYS random_path (at_ (opened w path) path d old 0 IoNone) =
    Done (FD 0 SYS (Some (Z.of_nat (S d))))
      (at_ (rnd_at (set_ofds (ofds w ++ [Ofd path 0 IoNone; Ofd random_path 0 IoNone]) w) (S d) 0 IoNone)
        path d old 0 IoNone)) as E.
  { unfold fd_openr, open_file. rewrite Hr. unfold mbind, cm_bind, get, put, mret, cm_ret.
    change (existing _ random_path) with (Some (@nil Z)). simpl.
    unfold at_, opened, rnd_at, set_ofds. simpl.
    rewrite !length_insert, length_app. simpl. fold d. replace (d + 1)%nat with (S d) by lia. do 2 f_equal.
    unfold d. rewrite (insert_app_r_alt (ofds w)), Nat.sub_diag by lia. simpl.
    rewrite (insert_app_r_alt (ofds w)) by lia.
    replace (S (length (ofds w)) - length (ofds w))%nat with 1%nat by lia. simpl.
    rewrite (insert_app_r_alt (ofds w)), Nat.sub_diag by lia. by rewrite <- app_assoc. }
  rewrite E. cbn [error negb Z.eqb]. unfold mbind at 1, cm_bind at 1.
  destruct (generate_records_spec (set_ofds (ofds w ++ [Ofd path 0 IoNone; Ofd random_path 0 IoNone]) w)
    path d (S d) n (Z.to_nat count) [] old (<[Z.to_nat (n - 1) := 10]> (stack n)) IoNone IoNone 0)
    as (w' & E2 & Hf); try done.
  - simpl. rewrite length_app. simpl. unfold d. lia.
  - simpl. rewrite length_app. simpl. unfold d. lia.
  - rewrite length_insert. done.
  - apply list_lookup_insert_eq. lia.
  - cbn [app length] in E2. change (Z.of_nat 0) with 0 in E2. rewrite E2. eexists. split; [done|]. exact Hf.
Qed.

(** With stdio the sort writes right after it has read. *)
Lemma sort_lib_eq path x y rows tail n w :
  0 < n < 2 ^ 61 -> path <> random_path -> may_read path = true -> may_write path = true ->
  Z.of_nat (length (stack n)) = n -> rows_ok n (x :: y :: rows) ->
  files w !! path = Some (concat (x :: y :: rows) ++ tail) ->
  op_sort may_read may_write urandom stack path (Z.of_nat (length (x :: y :: rows))) n LIB w = Undef UB_stdio.
Proof.
  intros Hn Hp Hr Hw Hst Hok Hf. pose proof Hok as Hok'.
  apply Forall_cons in Hok' as [Hx Hok']. apply Forall_cons in Hok' as [Hy _].
  unfold op_sort. unfold mbind at 1, cm_bind at 1.
  unfold fd_openrw. unfold mbind at 1, cm_bind at 1, get at 1.
  unfold existing. rewrite path_not_random, Hf, Hr, Hw by done.
  rewrite open_file_at by (done || by right). cbn [error negb Z.eqb].
  pose proof (opened_lt w path) as Hlt. set (d := length (ofds w)) in *. set (W := opened w path) in *.
  replace (Z.to_nat (Z.of_nat (length (x :: y :: rows)) - 1)) with (S (length rows)) by (cbn [length]; lia).
  cbn [sort_rows]. change (Z.to_nat (0 + 1)) with 1%nat. cbn [sort_shift].
  pose proof (pread_row n ltac:(lia) [x] y rows tail ltac:(by constructor) Hy) as Hp1.
  pose proof (pread_row n ltac:(lia) [] x (y :: rows) tail ltac:(by constructor) Hx) as Hp0.
  cbn [app length] in Hp0, Hp1. change (Z.of_nat 1 * n) with (1 * n) in Hp1. change (Z.of_nat 0 * n) with 0 in Hp0.
  assert (forall o t, fd_seek_row_rel (FD 0 LIB (Some (Z.of_nat d))) (-1) n
    (at_ W path d (concat (x :: y :: rows) ++ tail) (n + o) t) =
    Done tt (at_ W path d (concat (x :: y :: rows) ++ tail) (0 + (n + o) - n) IoNone) \/ o < 0) as Hseek.
  { intros o t. destruct (Z.ltb_spec o 0); [by right|left]. unfold fd_seek_row_rel.
    assert (forall z, z + s64 (u64 (u64 (-1) * n)) = z - n) as Hz by (intros z; rewrite s64_rel by lia; lia).
    rewrite seek_to_at; [|done|by right|rewrite Hz; cbn [of_off]; lia].
    do 2 f_equal. rewrite Hz. cbn [of_off]. lia. }
  unfold mbind at 1, cm_bind at 1. unfold mbind at 1, cm_bind at 1.
  unfold fd_seek_row at 1. rewrite seek_to_at; [|done|by right|rewrite s64_row by lia; lia].
  rewrite s64_row by lia. replace ((0 + 1) * n) with (1 * n) by lia.
  unfold mbind at 1, cm_bind at 1. rewrite fd_read_at; [|done|done|by right|rewrite Hp1; lia].
  rewrite Hp1, overwrite_all by lia.
  unfold mbind at 1, cm_bind at 1. replace (1 * n + Z.of_nat (length y)) with (n + n) by lia.
  destruct (Hseek n IoRead) as [->|]; [|lia].
  unfold mbind at 1, cm_bind at 1. unfold mbind at 1, cm_bind at 1.
  replace (0 + (n + n) - n) with (n + 0) by lia. destruct (Hseek 0 IoNone) as [->|]; [|lia].
  replace (0 + (n + 0) - n) with 0 by lia.
  unfold mbind at 1, cm_bind at 1. rewrite fd_read_at; [|done|done|by right|rewrite Hp0; lia].
  rewrite Hp0, overwrite_all by lia.
  destruct (aget_is_Some x 0) as [bx ->]; [lia|]. destruct (aget_is_Some y 0) as [by_ ->]; [lia|].
  unfold lift, mbind, cm_bind, mret, cm_ret.
  destruct (by_ <? bx); by rewrite fd_write_stdio.
Qed.
End Theorems.

(** ** Properties *)

(** C20.  [op_sort] with system calls sorts the records of the file in place:
    what it leaves is the same records, ascending by their first byte, records
    with the same first byte in their old order; what follows the records
    counted, and every other file, is untouched. *)
Theorem op_sort_sorts (may_read may_write : string -> bool) (urandom : Z -> Z) (stack : Z -> list Z)
  (path : string) (rows : list (list Z)) (tail : list Z) (n : Z) (w : world)
  (Hn : 0 < n) (Hp : path <> random_path) (Hopen : may_read path = true /\ may_write path = true)
  (Hst : Z.of_nat (length (stack n)) = n) (Hrows : rows_ok n rows)
  (Hbig : Z.of_nat (length rows) * n < 2 ^ 61) (Hf : files w !! path = Some (concat rows ++ tail)) :
  exists w' rows', op_sort may_read may_write urandom stack path (Z.of_nat (length rows)) n SYS w = Done 0 w' /\
    files w' = <[path := concat rows' ++ tail]> (files w) /\
    rows' ≡ₚ rows /\ Sorted key_le rows' /\
    forall k, List.filter (fun r => key r =? k) rows' = List.filter (fun r => key r =? k) rows.
Proof.
  destruct Hopen as [Hr Hw].
  destruct (op_sort_eq may_read may_write urandom stack path rows tail n w) as (w' & E & Hf'); try done.
  exists w', (sorted_rows rows). split; [done|]. split; [done|]. split; [|split].
  - unfold sorted_rows. rewrite <- Permutation_rev. apply (sort_rev_perm [] rows).
  - apply sorted_rows_sorted.
  - intros k. unfold sorted_rows. rewrite filter_rev', sort_rev_stable by done. simpl.
    by rewrite app_nil_r, rev_involutive.
Qed.

(** In the [lib] mode the sort of two records or more is undefined in
    ISO C: it writes to the stream right after it has read from it. *)
Theorem op_sort_lib_undefined (may_read may_write : string -> bool) (urandom : Z -> Z) (stack : Z -> list Z)
  (path : string) (x y : list Z) (rows : list (list Z)) (tail : list Z) (n : Z) (w : world)
  (Hn : 0 < n < 2 ^ 61) (Hp : path <> random_path) (Hopen : may_read path = true /\ may_write path = true)
  (Hst : Z.of_nat (length (stack n)) = n) (Hrows : rows_ok n (x :: y :: rows))
  (Hf : files w !! path = Some (concat (x :: y :: rows) ++ tail)) :
  op_sort may_read may_write urandom stack path (Z.of_nat (length (x :: y :: rows))) n LIB w = Undef UB_stdio.
Proof. destruct Hopen. by apply (sort_lib_eq _ _ _ _ path x y rows tail). Qed.

(** [op_copy] copies the records to the start of the target; with system
    calls the rest of a longer target stays, with stdio the target is emptied
    first.  No other file changes. *)
Theorem op_copy_copies (may_read may_write : string -> bool) (urandom : Z -> Z) (stack : Z -> list Z)
  (p1 p2 : string) (recs : list (list Z)) (rest : list Z) (n md : Z) (w : world)
  (Hn : 0 < n) (Hp1 : p1 <> random_path) (Hp2 : p2 <> random_path) (Hne : p1 <> p2)
  (Hopen : may_read p1 = true /\ may_write p2 = true) (Hm : md = SYS \/ md = LIB)
  (Hst : Z.of_nat (length (stack n)) = n) (Hrecs : rows_ok n recs)
  (Hf : files w !! p1 = Some (concat recs ++ rest)) :
  exists w', op_copy may_read may_write urandom stack p1 p2 (Z.of_nat (length recs)) n md w = Done 0 w' /\
    files w' = <[p2 := concat recs ++
      (if md =? SYS then drop (length (concat recs)) (default [] (files w !! p2)) else [])]> (files w).
Proof. destruct Hopen. by apply (op_copy_eq _ _ _ _ p1 p2 recs rest). Qed.

(** [op_generate] writes [count] records of [n] bytes: [n - 1] lower-case
    letters and a newline; the rest of a longer file stays. *)
Theorem op_generate_records (may_read may_write : string -> bool) (urandom : Z -> Z) (stack : Z -> list Z)
  (path : string) (count n : Z) (w : world)
  (Hn : 0 < n) (Hp : path <> random_path) (Hopen : may_write path = true /\ may_read random_path = true)
  (Hst : Z.of_nat (length (stack n)) = n) :
  exists w' rows, op_generate may_read may_write urandom stack path count n w = Done 0 w' /\
    length rows = Z.to_nat count /\
    Forall (fun r => exists l, r = l ++ [10] /\ Z.of_nat (length r) = n /\ Forall (fun b => 97 <= b <= 122) l) rows /\
    files w' = <[path := concat rows ++ drop (length (concat rows)) (default [] (files w !! path))]> (files w).
Proof.
  destruct Hopen as [Hw Hr].
  destruct (op_generate_eq may_read may_write urandom stack path count n w _ Hn Hp Hw Hr Hst eq_refl) as (w' & E & Hf).
  exists w', (map (fun i => random_row urandom n (Z.of_nat i * (n - 1))) (seq 0 (Z.to_nat count))).
  split; [done|]. split; [by rewrite length_map, length_seq|]. split; [|done].
  apply Forall_forall. intros r Hin%list_elem_of_In%in_map_iff. destruct Hin as (i & <- & _).
  eexists. split; [done|]. split; [by apply length_random_row|].
  apply Forall_forall. intros b Hb%list_elem_of_In%in_map_iff. destruct Hb as (k & <- & _).
  unfold letter. pose proof (Z.mod_pos_bound (urandom k) (122 - 97 + 1)). lia.
Qed.

(** A mode that is neither "sys" nor "lib" is not rejected: [parse_mode]
    answers -1 in an unsigned type, [mode < 0] never holds, and [main] returns
    0 having copied nothing (no file is even opened). *)
Theorem invalid_mode_is_accepted (may_read may_write : string -> bool) (urandom : Z -> Z) (stack : Z -> list Z)
  (argv0 p1 p2 c s m : string) (w : world)
  (Hm : m <> "sys" /\ m <> "lib")
  (Hc : is_int (atoi_val c) = true) (Hs : is_int (atoi_val s) = true) :
  main may_read may_write urandom stack [argv0; "copy"; p1; p2; c; s; m] w = Done 0 w.
Proof.
  destruct Hm as [Hm1 Hm2]. unfold main. change (_ <? 5) with false. cbn iota.
  change (streq "copy" "generate") with false. change (streq "copy" "sort") with false.
  change (streq "copy" "copy") with true. cbn iota.
  unfold size_of_arg, atoi, int_op. rewrite Hc, Hs.
  assert (parse_mode m = 4294967295) as ->.
  { unfold parse_mode, streq. apply String.eqb_neq in Hm1, Hm2. by rewrite Hm1, Hm2. }
  unfold op_copy, fd_openr, fd_openw, open_file. cm_step.
  assert (forall k buf n, copy_records urandom k (FD 0 4294967295 None) (FD 0 4294967295 None) buf n w = Done tt w) as ->;
    [|done].
  induction k as [|k IH]; intros buf n; [done|]. simpl. unfold fd_read, fd_write. cm_step. apply IH.
Qed.

(** ** Witnesses *)

Definition demo_world : world := World {["f"%string := [99; 1; 97; 2; 98; 3; 97; 4]]} [] [].

Example sort_demo :
  match op_sort (fun _ => true) (fun _ => true) (fun _ => 0) (fun n => replicate (Z.to_nat n) 0) "f" 4 2 SYS demo_world with
  | Done 0 w => files w !! "f"%string = Some [97; 2; 97; 4; 98; 3; 99; 1]
  | _ => False
  end.
Proof. vm_compute. reflexivity. Qed.

Definition demo_stack (n : Z) : list Z := replicate (Z.to_nat n) 0.

Lemma op_sort_sorts_witness :
  exists w' rows', op_sort (fun _ => true) (fun _ => true) (fun _ => 0) demo_stack "f" 4 2 SYS demo_world = Done 0 w' /\
    files w' = <["f"%string := concat rows' ++ []]> (files demo_world) /\
    rows' ≡ₚ [[99; 1]; [97; 2]; [98; 3]; [97; 4]] /\ Sorted key_le rows' /\
    forall k, List.filter (fun r => key r =? k) rows' =
      List.filter (fun r => key r =? k) [[99; 1]; [97; 2]; [98; 3]; [97; 4]].
Proof.
  apply (op_sort_sorts (fun _ => true) (fun _ => true) (fun _ => 0) demo_stack "f"
    [[99; 1]; [97; 2]; [98; 3]; [97; 4]] [] 2 demo_world); try done; repeat constructor.
Defined.

Lemma op_sort_lib_undefined_witness :
  op_sort (fun _ => true) (fun _ => true) (fun _ => 0) demo_stack "f" 4 2 LIB demo_world = Undef UB_stdio.
Proof.
  apply (op_sort_lib_undefined (fun _ => true) (fun _ => true) (fun _ => 0) demo_stack "f"
    [99; 1] [97; 2] [[98; 3]; [97; 4]] [] 2 demo_world); try done; repeat constructor.
Defined.

Lemma op_copy_copies_witness :
  exists w', op_copy (fun _ => true) (fun _ => true) (fun _ => 0) demo_stack "f" "g" 1 2 SYS
      (World (<["g"%string := [7; 7; 7]]> (files demo_world)) [] []) = Done 0 w' /\
    files w' !! "g"%string = Some [99; 1; 7].
Proof.
  destruct (op_copy_copies (fun _ => true) (fun _ => true) (fun _ => 0) demo_stack "f" "g" [[99; 1]]
    [97; 2; 98; 3; 97; 4] 2 SYS (World (<["g"%string := [7; 7; 7]]> (files demo_world)) [] []))
    as (w' & E & Hf); try done; [by left|by repeat constructor|].
  exists w'. split; [exact E|]. rewrite Hf. reflexivity.
Defined.

Lemma op_generate_records_witness :
  exists w' rows, op_generate (fun _ => true) (fun _ => true) (fun k => k) demo_stack "f" 3 4 demo_world = Done 0 w' /\
    length rows = 3%nat /\
    Forall (fun r => exists l, r = l ++ [10] /\ Z.of_nat (length r) = 4 /\ Forall (fun b => 97 <= b <= 122) l) rows /\
    files w' = <["f"%string := concat rows ++ drop (length (concat rows)) [99; 1; 97; 2; 98; 3; 97; 4]]> (files demo_world).
Proof.
  apply (op_generate_records (fun _ => true) (fun _ => true) (fun k => k) demo_stack "f" 3 4 demo_world); done.
Defined.

Lemma invalid_mode_is_accepted_witness :
  main (fun _ => true) (fun _ => true) (fun _ => 0) demo_stack ["ops"; "copy"; "f"; "g"; "4"; "2"; "fast"]%string demo_world
  = Done 0 demo_world.
Proof. apply invalid_mode_is_accepted; [split; discriminate|reflexivity|reflexivity]. Defined.
