(* ===== verification/Calendar.v ===== *)
(** The calendar of the C library, as far as the listings of files use it:
    [gmtime] and [localtime] of a number of seconds since 1970, in the Gregorian
    calendar. *)
From S2P Require Import Prelude.
#[local] Open Scope Z_scope.

(** A date: year, month from 1, day from 1. *)
Definition date3 : Type := Z * Z * Z.

Definition leap (y : Z) : bool :=
  (y mod 4 =? 0) && (negb (y mod 100 =? 0) || (y mod 400 =? 0)).

Definition days_in_month (y m : Z) : Z :=
  if m =? 2 then (if leap y then 29 else 28)
  else if (m =? 4) || (m =? 6) || (m =? 9) || (m =? 11) then 30 else 31.

Definition valid_date (t : date3) : Prop :=
  let '(y, m, d) := t in 1 <= m <= 12 /\ 1 <= d <= days_in_month y m.

(** The date of a day, counted from 1970-01-01: years begin in March here, and
    repeat every 400. *)
Definition civil (days : Z) : date3 :=
  let z := days + 719468 in
  let era := z / 146097 in
  let doe := z mod 146097 in
  let yoe := (doe - doe / 1460 + doe / 36524 - doe / 146096) / 365 in
  let doy := doe - (365 * yoe + yoe / 4 - yoe / 100) in
  let mp := (5 * doy + 2) / 153 in
  let d := doy - (153 * mp + 2) / 5 + 1 in
  let m := if mp <? 10 then mp + 3 else mp - 9 in
  (yoe + era * 400 + (if m <=? 2 then 1 else 0), m, d).

(** The number of a day: whole years, whole months, days. *)
Definition days_before_year (y : Z) : Z := 365 * (y - 1) + (y - 1) / 4 - (y - 1) / 100 + (y - 1) / 400.
Definition days_before_month (y m : Z) : Z :=
  sumz (days_in_month y) (seqZ 1 (m - 1)).
Definition day_number (t : date3) : Z :=
  let '(y, m, d) := t in days_before_year y + days_before_month y m + d - 719163.

Definition SECS_PER_DAY : Z := 86400.

(** The fields of [struct tm] that are used. *)
Record tm := Tm { tm_year : Z; tm_mon : Z; tm_mday : Z }.

(** [gmtime]: a null pointer if the year does not fit. *)
Definition gmtime (t : Z) : option tm :=
  let '(y, m, d) := civil (t / SECS_PER_DAY) in
  if is_int (y - 1900) then Some (Tm (y - 1900) (m - 1) d) else None.

(** [localtime], for the zone whose clocks at time [t] are [tz t] seconds ahead. *)
Definition localtime (tz : Z -> Z) (t : Z) : option tm := gmtime (t + tz t).

(** Dates in their order. *)
Definition date_cmp (a b : date3) : comparison :=
  let '(y1, m1, d1) := a in let '(y2, m2, d2) := b in
  match y1 ?= y2 with
  | Eq => match m1 ?= m2 with Eq => d1 ?= d2 | c => c end
  | c => c
  end.

(** ** Lemmas *)

Ltac euclid := Z.to_euclidean_division_equations; lia.

Lemma month_cases m : 1 <= m <= 12 ->
  m = 1 \/ m = 2 \/ m = 3 \/ m = 4 \/ m = 5 \/ m = 6 \/ m = 7 \/ m = 8 \/ m = 9 \/ m = 10 \/ m = 11 \/ m = 12.
Proof. lia. Qed.

(** The months as a table. *)
Definition month_start (y m : Z) : Z :=
  nth (Z.to_nat (m - 1)) [0; 31; 59; 90; 120; 151; 181; 212; 243; 273; 304; 334] 365
  + (if leap y && (2 <? m) then 1 else 0).

Lemma days_before_month_eq y m : 1 <= m <= 12 -> days_before_month y m = month_start y m.
Proof.
  intros Hm. unfold days_before_month, month_start.
  destruct (month_cases m Hm) as [->|[->|[->|[->|[->|[->|[->|[->|[->|[->|[->| ->]]]]]]]]]]];
    unfold days_in_month; simpl; destruct (leap y); reflexivity.
Qed.

Lemma leap_year_length y : days_before_year (y + 1) = days_before_year y + (if leap y then 366 else 365).
Proof.
  unfold days_before_year, leap. replace (y + 1 - 1) with y by lia.
  destruct (Z.eqb_spec (y mod 4) 0), (Z.eqb_spec (y mod 100) 0), (Z.eqb_spec (y mod 400) 0); simpl; euclid.
Qed.

(** Where a day falls in the 400 years. *)
Lemma year_of_era doe : 0 <= doe < 146097 ->
  let yoe := (doe - doe / 1460 + doe / 36524 - doe / 146096) / 365 in
  let doy := doe - (365 * yoe + yoe / 4 - yoe / 100) in
  0 <= yoe < 400 /\ 0 <= doy <= 365 /\
  (doy = 365 -> (yoe + 1) mod 4 = 0 /\ ((yoe + 1) mod 100 <> 0 \/ yoe = 399)).
Proof. intros H yoe doy. subst yoe doy. split; [euclid|]. split; [euclid|]. intros E. split; euclid. Qed.

(** The day of a year that begins in March, as a month and a day of it. *)
Lemma month_of_doy doy : 0 <= doy <= 365 ->
  let mp := (5 * doy + 2) / 153 in
  let d := doy - (153 * mp + 2) / 5 + 1 in
  0 <= mp <= 11 /\ 1 <= d <= 31 /\
  (mp = 1 \/ mp = 3 \/ mp = 6 \/ mp = 8 -> d <= 30) /\ (mp = 11 -> d = doy - 336 /\ d <= 29).
Proof. intros H mp d. subst mp d. repeat split; euclid. Qed.

(** The number of a day from March on, and of one in January or February. *)
Lemma day_number_march y m d : 3 <= m <= 12 ->
  day_number (y, m, d) =
  days_before_year (y + 1) - 365 + nth (Z.to_nat (m - 1)) [0; 31; 59; 90; 120; 151; 181; 212; 243; 273; 304; 334] 365 + d - 719163.
Proof.
  intros Hm. unfold day_number. rewrite days_before_month_eq, leap_year_length by lia. unfold month_start.
  replace (2 <? m) with true by lia. rewrite andb_true_r. destruct (leap y); lia.
Qed.

Lemma day_number_january y m d : 1 <= m <= 2 ->
  day_number (y, m, d) = days_before_year y + 31 * (m - 1) + d - 719163.
Proof.
  intros Hm. unfold day_number. rewrite days_before_month_eq by lia. unfold month_start.
  replace (2 <? m) with false by lia. rewrite andb_false_r.
  assert (m = 1 \/ m = 2) as [->| ->] by lia; simpl; lia.
Qed.

(** The months of a year that begins in March. *)
Lemma mp_cases mp : 0 <= mp <= 11 ->
  mp = 0 \/ mp = 1 \/ mp = 2 \/ mp = 3 \/ mp = 4 \/ mp = 5 \/ mp = 6 \/ mp = 7 \/ mp = 8 \/ mp = 9 \/ mp = 10 \/ mp = 11.
Proof. lia. Qed.

Lemma day_number_civil z : day_number (civil z) = z.
Proof.
  unfold civil. set (era := (z + 719468) / 146097). set (doe := (z + 719468) mod 146097).
  pose proof (Z.div_mod (z + 719468) 146097 ltac:(lia)) as Ez. fold era doe in Ez.
  destruct (year_of_era doe) as (Hy & Hd & _); [apply Z.mod_pos_bound; lia|].
  set (yoe := (doe - doe / 1460 + doe / 36524 - doe / 146096) / 365) in *.
  set (doy := doe - (365 * yoe + yoe / 4 - yoe / 100)) in *.
  destruct (month_of_doy doy Hd) as (Hmp & _).
  assert (days_before_year (yoe + era * 400 + 1) = 146097 * era + (doe - doy)) as Ey.
  { unfold days_before_year. replace (yoe + era * 400 + 1 - 1) with (yoe + era * 400) by lia. unfold doy.
    clearbody yoe era doe. clear -Hy. euclid. }
  set (mp := (5 * doy + 2) / 153) in *. clearbody mp. clearbody doy.
  destruct (Z.ltb_spec mp 10) as [Hlt|Hge].
  - replace (mp + 3 <=? 2) with false by lia. rewrite Z.add_0_r, day_number_march, Ey by lia.
    destruct (mp_cases mp Hmp) as [->|[->|[->|[->|[->|[->|[->|[->|[->|[->|[->| ->]]]]]]]]]]];
      try lia; match goal with |- context [nth ?n ?l ?d] => let v := eval vm_compute in (nth n l d) in
        change (nth n l d) with v end; clearbody yoe era; clear -Ez; euclid.
  - replace (mp - 9 <=? 2) with true by lia. rewrite day_number_january, Ey by lia.
    clearbody yoe era; clear -Ez Hge Hmp; euclid.
Qed.

Lemma civil_valid z : valid_date (civil z).
Proof.
  unfold civil, valid_date. set (era := (z + 719468) / 146097). set (doe := (z + 719468) mod 146097).
  destruct (year_of_era doe) as (Hy & Hd & Hl); [apply Z.mod_pos_bound; lia|].
  set (yoe := (doe - doe / 1460 + doe / 36524 - doe / 146096) / 365) in *.
  set (doy := doe - (365 * yoe + yoe / 4 - yoe / 100)) in *.
  destruct (month_of_doy doy Hd) as (Hmp & Hday & H30 & H29).
  set (mp := (5 * doy + 2) / 153) in *. set (d := doy - _ + 1) in *. clearbody mp d.
  destruct (Z.ltb_spec mp 10) as [Hlt|Hge]; (split; [lia|]); unfold days_in_month.
  { replace (mp + 3 =? 2) with false by lia.
    destruct (Z.eqb_spec (mp + 3) 4), (Z.eqb_spec (mp + 3) 6), (Z.eqb_spec (mp + 3) 9),
      (Z.eqb_spec (mp + 3) 11); simpl; lia. }
  destruct (Z.eqb_spec (mp - 9) 2) as [E11|E10]; cycle 1.
  { replace (mp - 9) with 1 by lia. simpl. lia. }
  replace (mp - 9 <=? 2) with true by lia.
  destruct H29 as [E29 Hle]; [lia|]. split; [lia|].
  destruct (leap _) eqn:El; [lia|]. destruct (decide (doy = 365)) as [E365|]; [|lia].
  destruct (Hl E365) as [H4 H100]. exfalso. revert El. unfold leap. clearbody yoe era. clear -Hy H4 H100.
  replace ((yoe + era * 400 + 1) mod 4) with ((yoe + 1) mod 4) by euclid.
  replace ((yoe + era * 400 + 1) mod 100) with ((yoe + 1) mod 100) by euclid.
  replace ((yoe + era * 400 + 1) mod 400) with ((yoe + 1) mod 400) by euclid.
  rewrite H4. destruct H100 as [H100| ->]; [|done]. apply Z.eqb_neq in H100. by rewrite H100.
Qed.

(** The order of valid dates is that of their numbers. *)
Lemma month_before y m m' : 1 <= m < m' -> m' <= 12 -> month_start y m + days_in_month y m <= month_start y m'.
Proof.
  intros Hm Hm'. destruct (month_cases m ltac:(lia)) as [->|[->|[->|[->|[->|[->|[->|[->|[->|[->|[->| ->]]]]]]]]]]];
    destruct (month_cases m' ltac:(lia)) as [->|[->|[->|[->|[->|[->|[->|[->|[->|[->|[->| ->]]]]]]]]]]]; try lia;
    unfold month_start, days_in_month; simpl; destruct (leap y); simpl; lia.
Qed.

Lemma year_before y y' : y < y' -> days_before_year y + (if leap y then 366 else 365) <= days_before_year y'.
Proof.
  intros H. rewrite <- leap_year_length. unfold days_before_year. clear -H. euclid.
Qed.

Lemma day_number_lt a b : valid_date a -> valid_date b -> date_cmp a b = Lt -> day_number a < day_number b.
Proof.
  destruct a as [[y m] d], b as [[y' m'] d']. unfold valid_date, date_cmp, day_number.
  intros [Hm Hd] [Hm' Hd']. rewrite !days_before_month_eq by lia.
  assert (month_start y m + days_in_month y m <= (if leap y then 366 else 365)) as Hend.
  { destruct (month_cases m Hm) as [->|[->|[->|[->|[->|[->|[->|[->|[->|[->|[->| ->]]]]]]]]]]];
      unfold month_start, days_in_month; simpl; destruct (leap y); simpl; lia. }
  assert (0 <= month_start y' m').
  { destruct (month_cases m' Hm') as [->|[->|[->|[->|[->|[->|[->|[->|[->|[->|[->| ->]]]]]]]]]]];
      unfold month_start; simpl; destruct (leap y'); simpl; lia. }
  destruct (Z.compare_spec y y') as [->|Hy|Hy]; [|pose proof (year_before y y' Hy); lia|done].
  destruct (Z.compare_spec m m') as [->|Hmm|Hmm]; [| |done].
  - intros Hc. change (d < d') in Hc.
    lia.
  - pose proof (month_before y' m m' ltac:(lia) ltac:(lia)). lia.
Qed.

Lemma date_cmp_flip a b : date_cmp b a = CompOpp (date_cmp a b).
Proof.
  destruct a as [[y m] d], b as [[y' m'] d']. unfold date_cmp.
  rewrite (Z.compare_antisym y y'), (Z.compare_antisym m m'), (Z.compare_antisym d d').
  by destruct (y ?= y'), (m ?= m'), (d ?= d').
Qed.

Lemma date_cmp_eq a b : date_cmp a b = Eq -> a = b.
Proof.
  destruct a as [[y m] d], b as [[y' m'] d']. unfold date_cmp.
  destruct (Z.compare_spec y y'), (Z.compare_spec m m'), (Z.compare_spec d d'); try done. by subst.
Qed.

Lemma date_cmp_number a b : valid_date a -> valid_date b -> date_cmp a b = (day_number a ?= day_number b).
Proof.
  intros Ha Hb. destruct (date_cmp a b) eqn:E; symmetry.
  - apply date_cmp_eq in E as ->. apply Z.compare_refl.
  - apply Z.compare_lt_iff. by apply day_number_lt.
  - apply Z.compare_gt_iff. apply day_number_lt; [done|done|]. by rewrite date_cmp_flip, E.
Qed.
