(* ===== verification/ListFiles.v ===== *)
(** The listing of the regular files of a directory that were modified before,
    on or after a date: cw02/zad2/src/list_files.c, with its two ways to walk
    the tree (list_files_dir.c and list_files_nftw.c), and main.c.

    The file system is a tree that does not change while the program runs, so
    that closing a directory and opening it again at the same place
    ([CLOSE_DIRS]) comes to the same; a directory is read in the order in which
    [readdir] gives its entries. *)
From S2P Require Import Prelude CString Scan Calendar.
From Stdlib Require Import Ascii String.
#[local] Open Scope string_scope.
#[local] Open Scope Z_scope.
Local Abbreviation length := Datatypes.length.

Inductive cond_t := LT | EQ | GT.

(** [struct date] *)
Record date := Date { year : Z; month : Z; day : Z }.

(** [struct stat], as far as it is used. *)
Record stat := Stat { st_mode : Z; st_mtime : Z; st_size : Z }.

(** What a path leads to: what [lstat] gives, if it succeeds, and what
    [readdir] gives, if it can be opened as a directory. *)
#[local] Unset Elimination Schemes.
Inductive node := Node (st : option stat) (dir : option (list (string * node))).
#[local] Set Elimination Schemes.

(** Induction over the tree. *)
Fixpoint node_ind (P : node -> Prop)
    (H : forall st dir, Forall (fun e => P (snd e)) (default [] dir) -> P (Node st dir))
    (n : node) : P n :=
  let all := fix all (l : list (string * node)) : Forall (fun e => P (snd e)) l :=
    match l with
    | [] => @Forall_nil_2 _ _
    | e :: l' => @Forall_cons_2 _ _ _ _ (node_ind P H (snd e)) (all l')
    end in
  match n with
  | Node st None => H st None (@Forall_nil_2 _ _)
  | Node st (Some es) => H st (Some es) (all es)
  end.

Definition S_IFMT : Z := 61440.   (* 0170000 *)
Definition S_IFDIR : Z := 16384.  (* 0040000 *)
Definition S_IFREG : Z := 32768.  (* 0100000 *)
Definition S_IFLNK : Z := 40960.  (* 0120000 *)
Definition S_ISDIR (mode : Z) : bool := Z.land mode S_IFMT =? S_IFDIR.
Definition S_ISREG (mode : Z) : bool := Z.land mode S_IFMT =? S_IFREG.
Definition S_ISLNK (mode : Z) : bool := Z.land mode S_IFMT =? S_IFLNK.

Definition PATH_MAX : Z := 4096.

(** What the program has written: the text of stdout, and the messages of
    stderr (without what [perror] adds to them). *)
Record io := Io { stdout : string; stderr : list string }.

Definition print (s : string) : cm io unit := modify (fun w => Io (stdout w ++ s) (stderr w)).
Definition eprint (s : string) : cm io unit := modify (fun w => Io (stdout w) (stderr w ++ [s])%list).

(** A number in a field of a width, filled with [c] on the left. *)
Definition pad (c : ascii) (width : nat) (s : string) : string :=
  string_of_list_ascii (replicate (width - String.length s) c) ++ s.

(** [%0<n>d] *)
Definition zero_pad (width : nat) (z : Z) : string :=
  if z <? 0 then "-" ++ pad "0" (width - 1) (dec (- z)) else pad "0" width (dec z).

Section ListFiles.
(** How far the clocks of the zone are ahead of UTC, for [localtime]. *)
Context (tz : Z -> Z).

(** ** A file *)

Definition print_size (st : stat) : cm io unit := print (pad " " 8 (dec (u64 (st_size st))) ++ " ").

Definition print_last_mod (st : stat) : cm io unit :=
  match localtime tz (st_mtime st) with
  | None => undef UB_null
  | Some local =>
      y ← int_op (tm_year local + 1900);
      m ← int_op (tm_mon local + 1);
      print (zero_pad 4 y ++ "-" ++ zero_pad 2 m ++ "-" ++ zero_pad 2 (tm_mday local) ++ " ")
  end.

Definition print_access0 (test : Z) (iftrue : string) : cm io unit :=
  if test =? 0 then print "-" else print iftrue.

Definition print_access (st : stat) : cm io unit :=
  let mode := st_mode st in
  print_access0 (Z.land mode 256) "r" ;;
  print_access0 (Z.land mode 128) "w" ;;
  print_access0 (Z.land mode 64) "x" ;;
  print_access0 (Z.land mode 32) "r" ;;
  print_access0 (Z.land mode 16) "w" ;;
  print_access0 (Z.land mode 8) "x" ;;
  print_access0 (Z.land mode 4) "r" ;;
  print_access0 (Z.land mode 2) "w" ;;
  print_access0 (Z.land mode 1) "x" ;;
  print " ".

(** The three comparisons of [check_time], one after the other. *)
Definition compare_dates (ll : tm) (d : date) : cm io Z :=
  y ← int_op (year d - 1900);
  if y <? tm_year ll then mret 1 else if tm_year ll <? y then mret (-1) else
  m ← int_op (month d - 1);
  if m <? tm_mon ll then mret 1 else if tm_mon ll <? m then mret (-1) else
  if day d <? tm_mday ll then mret 1 else if tm_mday ll <? day d then mret (-1) else mret 0.

Definition check_time (left : Z) (cond : cond_t) (d : date) : cm io Z :=
  match gmtime left with
  | None => undef UB_null
  | Some ll =>
      cmp ← compare_dates ll d;
      match cond with
      | LT => mret (if cmp <? 0 then 0 else 1)
      | GT => mret (if 0 <? cmp then 0 else 1)
      | EQ => mret (if cmp =? 0 then 0 else 1)
      end
  end.

Context (cond : cond_t) (d : date).

(** The line of a regular file, if its time passes the condition. *)
Definition show_file (st : stat) (filename : string) : cm io unit :=
  r ← check_time (st_mtime st) cond d;
  if r =? 0 then
    print_access st ;; print_last_mod st ;; print_size st ;; print (filename ++ nl)
  else mret tt.

(** ** The walk of list_files_dir.c *)

Definition is_dot (name : string) : bool := streq name "." || streq name "..".

(** [strcat(path, s)], in a buffer of [PATH_MAX] bytes. *)
Definition strcat_path (path s : string) : cm io string :=
  check (strlen path + strlen s <? PATH_MAX) UB_bounds ;;
  mret (path ++ s).

Definition make_path (dirname name : string) : cm io string :=
  path ← strcat_path "" dirname;
  c ← lift UB_bounds (String.get (String.length dirname - 1) dirname);
  path ← (if Ascii.eqb c "/" then mret path else strcat_path path "/");
  strcat_path path name.

(** The loop over the entries of a directory, with [list_file] for [file]. *)
Fixpoint list_entries (file : string -> node -> cm io unit) (dirname : string)
    (es : list (string * node)) : cm io unit :=
  match es with
  | [] => mret tt
  | (name, n) :: es' =>
      (if is_dot name then mret tt
       else path ← make_path dirname name; file path n) ;;
      list_entries file dirname es'
  end.

Definition open_and_list (file : string -> node -> cm io unit) (dirname : string)
    (dir : option (list (string * node))) : cm io unit :=
  match dir with
  | None => eprint "Cannot open directory"
  | Some es => list_entries file dirname es
  end.

Fixpoint list_file (filename : string) (n : node) : cm io unit :=
  match n with
  | Node None _ => eprint "lstat failed"
  | Node (Some st) dir =>
      if S_ISDIR (st_mode st) then open_and_list list_file filename dir
      else if S_ISREG (st_mode st) then show_file st filename
      else mret tt
  end.

(** [list_files(dirname, cond, date)] *)
Definition list_files (dirname : string) (n : node) : cm io unit :=
  let '(Node _ dir) := n in open_and_list list_file dirname dir.

(** ** The walk of list_files_nftw.c *)

Inductive typeflag := FTW_F | FTW_D | FTW_DNR | FTW_NS | FTW_SL.

Definition treewalk (fpath : string) (sb : stat) (flag : typeflag) : cm io Z :=
  match flag with
  | FTW_F => show_file sb fpath ;; mret 0
  | _ => mret 0
  end.

(** What [nftw] puts between a directory and the name of an entry. *)
Definition join (dirname name : string) : string :=
  match String.get (String.length dirname - 1) dirname with
  | Some c => if Ascii.eqb c "/" then dirname ++ name else dirname ++ "/" ++ name
  | None => dirname ++ "/" ++ name
  end.

(** [nftw(..., FTW_PHYS)], which POSIX describes: each object is handed to [fn]
    with what it is, a directory before its entries, symbolic links as
    themselves; a result that is not 0 stops the walk. *)
Section Nftw.
Context (fn : string -> stat -> typeflag -> cm io Z).

Fixpoint nftw_entries (walk : string -> node -> cm io Z) (dirname : string)
    (es : list (string * node)) : cm io Z :=
  match es with
  | [] => mret 0
  | (name, n) :: es' =>
      r ← (if is_dot name then mret 0 else walk (join dirname name) n);
      if r =? 0 then nftw_entries walk dirname es' else mret r
  end.

Fixpoint nftw_walk (path : string) (n : node) : cm io Z :=
  match n with
  | Node None _ => fn path (Stat 0 0 0) FTW_NS
  | Node (Some st) dir =>
      if S_ISDIR (st_mode st) then
        match dir with
        | None => fn path st FTW_DNR
        | Some es =>
            r ← fn path st FTW_D;
            if r =? 0 then nftw_entries nftw_walk path es else mret r
        end
      else if S_ISLNK (st_mode st) then fn path st FTW_SL
      else fn path st FTW_F
  end.

Definition nftw (path : string) (n : node) : cm io Z :=
  match n with Node None _ => mret (-1) | _ => nftw_walk path n end.
End Nftw.

Definition list_files_nftw (dirname : string) (n : node) : cm io unit :=
  ret ← nftw treewalk dirname n;
  if ret =? 0 then mret tt else eprint "nftw failed".
End ListFiles.

(** ** main *)

Definition TAB : string := String "009" "".

Definition print_help (program : string) : cm io unit :=
  print ("Usage:" ++ nl ++ TAB ++ program ++ " <dir> <cond> <date>" ++ nl ++ nl ++
    "Where:" ++ nl ++ TAB ++ "<dir> is the directory to list files from" ++ nl ++
    TAB ++ "<cond> one of: `<', `>' or `='; specifies the filtering condition" ++ nl ++
    TAB ++ "<date> format yyy-mm-dd; specifies the date to compare to" ++ nl).

(** [%d] *)
Definition scan_d (s : string) : cm io (option (Z * string)) :=
  match scan_num s with
  | None => mret None
  | Some (v, r) => check (is_int v) UB_overflow ;; mret (Some (v, r))
  end.

(** [sscanf(date, "%d-%d-%d", ...) == 3] *)
Definition scan_date (s : string) : cm io (option date) :=
  y ← scan_d s;
  match y with
  | Some (y, String "-" s) =>
      m ← scan_d s;
      match m with
      | Some (m, String "-" s) =>
          d ← scan_d s;
          match d with Some (d, _) => mret (Some (Date y m d)) | None => mret None end
      | _ => mret None
      end
  | _ => mret None
  end.

Definition parse_cond (s : string) : option cond_t :=
  if streq s "<" then Some LT else if streq s "=" then Some EQ else if streq s ">" then Some GT
  else None.

Section Main.
Context (tz : Z -> Z).
(** The file system: [realpath], and what a resolved path leads to. *)
Context (realpath : string -> option string) (at_path : string -> node).
(** Which of the two walks is compiled in. *)
Context (NFTW : bool).

(** The arguments: an exit code, or the resolved directory, the condition and
    the date. *)
Definition parse_args (argv : list string) : cm io (Z + string * cond_t * date) :=
  match argv with
  | [_; dir; condv; datev] =>
      date ← scan_date datev;
      match date with
      | None => eprint "Error: invalid date format" ;; print_help (nth 0 argv "") ;; mret (inl 2)
      | Some sdate =>
          match parse_cond condv with
          | None => eprint "Error: invalid condition" ;; print_help (nth 0 argv "") ;; mret (inl 3)
          | Some cond =>
              match realpath dir with
              | None => eprint "Error when resolving path" ;; mret (inl 5)
              | Some dirr => mret (inr (dirr, cond, sdate))
              end
          end
      end
  | _ => print_help (nth 0 argv "") ;; mret (inl 1)
  end.

Definition main (argv : list string) : cm io Z :=
  r ← parse_args argv;
  match r with
  | inl code => mret code
  | inr (dirr, cond, sdate) =>
      (if NFTW then list_files_nftw tz cond sdate dirr (at_path dirr)
       else list_files tz cond sdate dirr (at_path dirr)) ;;
      mret 0
  end.
End Main.
