(* ===== verification/ListFilesSpec.v ===== *)
(** What the listings of [ListFiles.v] print: the condition is a comparison of
    days, the listing is that of the regular files in the order of the walk,
    and the two walks agree. *)
From S2P Require Import Prelude CString Scan Calendar ListFiles.
From Stdlib Require Import Ascii String.
#[local] Open Scope string_scope.
#[local] Open Scope Z_scope.
Local Abbreviation length := Datatypes.length.

(** ** Specifications *)

(** The date of the condition. *)
Definition date3_of (d : date) : date3 := (year d, month d, day d).

Definition cond_holds (cond : cond_t) (c : comparison) : bool :=
  match cond, c with LT, Lt | EQ, Eq | GT, Gt => true | _, _ => false end.

(** The day, in UTC, of a time. *)
Definition utc_day (t : Z) : Z := t / SECS_PER_DAY.

(** Does a file pass the condition? *)
Definition passes (cond : cond_t) (d : date) (st : stat) : bool :=
  cond_holds cond (date_cmp (civil (utc_day (st_mtime st))) (date3_of d)).

Definition access_text (mode : Z) : string :=
  let bit n c := if Z.land mode n =? 0 then "-" else c in
  bit 256 "r" ++ bit 128 "w" ++ bit 64 "x" ++ bit 32 "r" ++ bit 16 "w" ++ bit 8 "x" ++
  bit 4 "r" ++ bit 2 "w" ++ bit 1 "x" ++ " ".

Definition date_text (t : date3) : string :=
  let '(y, m, d) := t in zero_pad 4 y ++ "-" ++ zero_pad 2 m ++ "-" ++ zero_pad 2 d ++ " ".

Definition file_line (tz : Z -> Z) (f : string * stat) : string :=
  let '(path, st) := f in
  access_text (st_mode st) ++
  date_text (civil (utc_day (st_mtime st + tz (st_mtime st)))) ++
  (pad " " 8 (dec (u64 (st_size st))) ++ " ") ++ path ++ nl.

Definition cat (l : list string) : string := foldr String.append "" l.

(** The entries of a directory that are walked. *)
Definition visited (es : list (string * node)) : list (string * node) :=
  List.filter (fun e => negb (is_dot (fst e))) es.

(** The files of a tree that satisfy [f], with their paths, in the order of the
    walk. *)
Fixpoint files (f : Z -> bool) (path : string) (n : node) : list (string * stat) :=
  match n with
  | Node None _ => []
  | Node (Some st) dir =>
      if S_ISDIR (st_mode st) then
        match dir with
        | None => []
        | Some es =>
            List.concat (map (fun '(name, m) => if is_dot name then [] else files f (join path name) m) es)
        end
      else if f (st_mode st) then [(path, st)] else []
  end.

(** What cannot be looked into. *)
Fixpoint problems (n : node) : list string :=
  match n with
  | Node None _ => ["lstat failed"]
  | Node (Some st) dir =>
      if S_ISDIR (st_mode st) then
        match dir with
        | None => ["Cannot open directory"]
        | Some es => List.concat (map (fun '(name, m) => if is_dot name then [] else problems m) es)
        end
      else []
  end.

(** Every path of the walk fits into the buffer. *)
Fixpoint fits (path : string) (n : node) : bool :=
  match n with
  | Node (Some st) (Some es) =>
      if S_ISDIR (st_mode st) then
        forallb (fun '(name, m) => is_dot name ||
          ((strlen (join path name) <? PATH_MAX) && fits (join path name) m)) es
      else true
  | _ => true
  end.

(** The years of a time fit into an [int]. *)
Definition year_ok (t : Z) : bool :=
  let y := fst (fst (civil (utc_day t))) in is_int (y - 1900) && is_int y.
Definition time_ok (tz : Z -> Z) (st : stat) : bool :=
  year_ok (st_mtime st) && year_ok (st_mtime st + tz (st_mtime st)).
Definition date_ok (d : date) : Prop :=
  INT_MIN + 1900 <= year d <= INT_MAX /\ INT_MIN + 1 <= month d <= INT_MAX.

(** ** A file *)

Lemma civil_month t y m dd : civil t = (y, m, dd) -> 1 <= m <= 12 /\ 1 <= dd <= 31.
Proof.
  intros E. pose proof (civil_valid t) as H. rewrite E in H. unfold valid_date, days_in_month in H.
  repeat case_match; lia.
Qed.

Lemma gmtime_civil t : year_ok t = true ->
  let '(y, m, d) := civil (utc_day t) in
  gmtime t = Some (Tm (y - 1900) (m - 1) d) /\ is_int y = true.
Proof.
  unfold year_ok, gmtime. fold (utc_day t). destruct (civil (utc_day t)) as [[y m] d]. simpl.
  intros H. apply andb_true_iff in H as [H1 H2]. by rewrite H1.
Qed.

Lemma int_op_is {S} (z : Z) (s : S) : is_int z = true -> int_op z s = Done z s.
Proof. unfold int_op. by intros ->. Qed.

(** [check_time] on every date, also one that no calendar has. *)
Lemma check_time_spec t cond d w : year_ok t = true -> date_ok d ->
  check_time t cond d w =
  Done (if cond_holds cond (date_cmp (civil (utc_day t)) (date3_of d)) then 0 else 1) w.
Proof.
  intros Ht [Hy Hm]. pose proof (gmtime_civil t Ht) as Hg. unfold check_time.
  destruct (civil (utc_day t)) as [[y m] dd] eqn:E. destruct (civil_month _ _ _ _ E).
  destruct Hg as [-> Hyi]. unfold is_int in Hyi.
  unfold compare_dates, date3_of, date_cmp, mbind, cm_bind. simpl.
  rewrite int_op_ok by (unfold INT_MIN, INT_MAX in *; lia).
  destruct (Z.compare_spec y (year d)), (Z.ltb_spec (year d - 1900) (y - 1900)),
    (Z.ltb_spec (y - 1900) (year d - 1900)); try lia; try by destruct cond.
  rewrite int_op_ok by (unfold INT_MIN, INT_MAX in *; lia).
  destruct (Z.compare_spec m (month d)), (Z.ltb_spec (month d - 1) (m - 1)),
    (Z.ltb_spec (m - 1) (month d - 1)); try lia; try by destruct cond.
  destruct (Z.compare_spec dd (day d)), (Z.ltb_spec (day d) dd), (Z.ltb_spec dd (day d));
    try lia; by destruct cond.
Qed.

(** Writing is appending. *)
Definition emit (txt : string) (errs : list string) (w : io) : io :=
  Io (stdout w ++ txt) (stderr w ++ errs)%list.

Lemma emit_nil w : emit "" [] w = w.
Proof. destruct w as [o e]. unfold emit. simpl. by rewrite str_app_nil_r, app_nil_r. Qed.

Lemma emit_emit a b e e' w : emit b e' (emit a e w) = emit (a ++ b) (e ++ e')%list w.
Proof. unfold emit. simpl. by rewrite str_app_assoc, app_assoc. Qed.

Lemma print_emit s w : print s w = Done tt (emit s [] w).
Proof. unfold print, modify, emit. by rewrite app_nil_r. Qed.

Lemma eprint_emit s w : eprint s w = Done tt (emit "" [s] w).
Proof. unfold eprint, modify, emit. by rewrite str_app_nil_r. Qed.

Lemma print_access0_emit test c w :
  print_access0 test c w = Done tt (emit (if test =? 0 then "-" else c) [] w).
Proof. unfold print_access0. destruct (test =? 0); apply print_emit. Qed.

(** Two prints one after the other. *)
Lemma seq_emit {A} (m : cm io unit) (k : unit -> cm io A) s e w :
  m w = Done tt (emit s e w) -> (m ≫= k) w = k tt (emit s e w).
Proof. intros E. unfold mbind, cm_bind. by rewrite E. Qed.

Lemma print_access_emit st w : print_access st w = Done tt (emit (access_text (st_mode st)) [] w).
Proof.
  unfold print_access, access_text.
  rewrite !(seq_emit _ _ _ _ _ (print_access0_emit _ _ _)), print_emit, !emit_emit.
  done.
Qed.

Lemma print_last_mod_emit tz st w : year_ok (st_mtime st + tz (st_mtime st)) = true ->
  print_last_mod tz st w =
  Done tt (emit (date_text (civil (utc_day (st_mtime st + tz (st_mtime st))))) [] w).
Proof.
  intros Hy. unfold print_last_mod, localtime. pose proof (gmtime_civil _ Hy) as Hg.
  destruct (civil _) as [[y m] d] eqn:E. destruct (civil_month _ _ _ _ E) as [Hm Hd].
  destruct Hg as [-> Hi]. unfold mbind, cm_bind. simpl.
  replace (y - 1900 + 1900) with y by lia. replace (m - 1 + 1) with m by lia.
  rewrite int_op_is by done. rewrite int_op_ok by (unfold INT_MIN, INT_MAX; lia).
  apply print_emit.
Qed.

(** A regular file: its line, or nothing. *)
Lemma show_file_emit tz cond d st path w : time_ok tz st = true -> date_ok d ->
  show_file tz cond d st path w =
  Done tt (emit (if passes cond d st then file_line tz (path, st) else "") [] w).
Proof.
  intros Ht Hd. apply andb_true_iff in Ht as [Ht Hl]. unfold show_file, passes.
  unfold mbind at 1, cm_bind at 1. rewrite check_time_spec by done.
  destruct (cond_holds _ _); [|by rewrite emit_nil].
  change (0 =? 0) with true. cbv iota.
  rewrite (seq_emit _ _ _ _ _ (print_access_emit st w)).
  rewrite (seq_emit _ _ _ _ _ (print_last_mod_emit tz st _ Hl)).
  unfold print_size. rewrite (seq_emit _ _ _ _ _ (print_emit _ _)), print_emit, !emit_emit.
  reflexivity.
Qed.

(** ** Paths *)

Lemma strlen_app a b : strlen (a ++ b) = strlen a + strlen b.
Proof. unfold strlen. induction a as [|c a IH]; [done|]. simpl String.append. simpl String.length. lia. Qed.

Lemma last_char s : s <> "" -> exists c, String.get (String.length s - 1) s = Some c.
Proof.
  intros Hs. destruct s as [|c s]; [done|]. simpl. rewrite Nat.sub_0_r.
  clear Hs. revert c. induction s as [|c' s IH]; intros c; [by exists c|]. simpl. apply IH.
Qed.

Lemma make_path_ok dirname name w : dirname <> "" -> strlen (join dirname name) < PATH_MAX ->
  make_path dirname name w = Done (join dirname name) w.
Proof.
  intros Hd. destruct (last_char dirname Hd) as [c Hc]. unfold join, make_path, strcat_path. rewrite Hc.
  assert (0 <= strlen name) by (unfold strlen; lia).
  unfold mbind, cm_bind, check, lift, mret, cm_ret. change ("" ++ dirname) with dirname.
  change (strlen "") with 0.
  destruct (Ascii.eqb c "/"); rewrite !strlen_app; change (strlen "/") with 1; intros Hl.
  - replace (0 + strlen dirname <? PATH_MAX) with true by lia.
    by replace (strlen dirname + strlen name <? PATH_MAX) with true by lia.
  - replace (0 + strlen dirname <? PATH_MAX) with true by lia.
    replace (strlen dirname + 1 <? PATH_MAX) with true by lia.
    cbv beta iota. rewrite strlen_app. change (strlen "/") with 1.
    replace (strlen dirname + 1 + strlen name <? PATH_MAX) with true by lia.
    cbv beta iota. by rewrite str_app_assoc.
Qed.

Lemma join_nonempty dirname name : dirname <> "" -> join dirname name <> "".
Proof. intros Hd. unfold join. destruct dirname as [|c s]; [done|]. by repeat case_match. Qed.

(** ** The walk of list_files_dir.c *)

Section Walk.
Context (tz : Z -> Z) (cond : cond_t) (d : date) (Hd : date_ok d).

(** The text of the files that pass. *)
Definition listing (fs : list (string * stat)) : string :=
  cat (map (file_line tz) (List.filter (fun f => passes cond d (snd f)) fs)).

Lemma cat_app l l' : cat (l ++ l')%list = cat l ++ cat l'.
Proof. induction l as [|s l IH]; [done|]. simpl. by rewrite IH, str_app_assoc. Qed.

Lemma listing_app fs fs' : listing (fs ++ fs')%list = listing fs ++ listing fs'.
Proof. unfold listing. by rewrite List.filter_app, map_app, cat_app. Qed.

Definition times_ok (fs : list (string * stat)) : Prop := Forall (fun f => time_ok tz (snd f) = true) fs.

(** One object, and the objects below it. *)
Definition file_lists (path : string) (n : node) : Prop := forall w,
  path <> "" -> fits path n = true -> times_ok (files S_ISREG path n) ->
  list_file tz cond d path n w = Done tt (emit (listing (files S_ISREG path n)) (problems n) w).

Lemma list_entries_emit path es w : path <> "" ->
  Forall (fun e => forall p, file_lists p (snd e)) es ->
  forallb (fun '(name, m) => is_dot name ||
    ((strlen (join path name) <? PATH_MAX) && fits (join path name) m)) es = true ->
  times_ok (List.concat (map (fun '(name, m) =>
    if is_dot name then [] else files S_ISREG (join path name) m) es)) ->
  list_entries (list_file tz cond d) path es w =
  Done tt (emit
    (listing (List.concat (map (fun '(name, m) =>
      if is_dot name then [] else files S_ISREG (join path name) m) es)))
    (List.concat (map (fun '(name, m) => if is_dot name then [] else problems m) es)) w).
Proof.
  intros Hp Hes. revert w. induction Hes as [|[name m] es Hm _ IH]; intros w Hf Ht.
  - by rewrite emit_nil.
  - simpl in *. apply andb_true_iff in Hf as [Hf1 Hf2]. apply Forall_app in Ht as [Ht1 Ht2].
    rewrite listing_app, <- emit_emit. unfold mbind at 1, cm_bind at 1.
    destruct (is_dot name); simpl in *; [by rewrite emit_nil, IH|].
    apply andb_true_iff in Hf1 as [Hl Hf1]. unfold mbind at 1, cm_bind at 1.
    rewrite make_path_ok by lia || done.
    rewrite Hm by (done || by apply join_nonempty). by rewrite IH.
Qed.

Lemma list_file_emit n path : file_lists path n.
Proof.
  revert path. induction n as [st dir IH] using node_ind. intros path w Hp Hf Ht.
  destruct st as [st|]; [|apply eprint_emit]. simpl in *.
  destruct (S_ISDIR (st_mode st)) eqn:Ed; [|destruct (S_ISREG (st_mode st)) eqn:Er].
  - destruct dir as [es|]; [|apply eprint_emit]. simpl in *. by apply list_entries_emit.
  - apply Forall_cons in Ht as [Ht _]. rewrite show_file_emit by done. unfold listing. simpl.
    destruct (passes cond d st); [|done]. simpl. by rewrite str_app_nil_r.
  - by rewrite emit_nil.
Qed.

(** ** The walk of list_files_nftw.c *)

(** What [nftw] takes for a file: all but directories and symbolic links. *)
Definition not_link (mode : Z) : bool := negb (S_ISLNK mode).

Definition nftw_lists (path : string) (n : node) : Prop := forall w,
  times_ok (files not_link path n) ->
  nftw_walk (treewalk tz cond d) path n w =
  Done 0 (emit (listing (files not_link path n)) [] w).

Lemma nftw_entries_emit path es w :
  Forall (fun e => forall p, nftw_lists p (snd e)) es ->
  times_ok (List.concat (map (fun '(name, m) =>
    if is_dot name then [] else files not_link (join path name) m) es)) ->
  nftw_entries (nftw_walk (treewalk tz cond d)) path es w =
  Done 0 (emit (listing (List.concat (map (fun '(name, m) =>
    if is_dot name then [] else files not_link (join path name) m) es))) [] w).
Proof.
  intros Hes. revert w. induction Hes as [|[name m] es Hm _ IH]; intros w Ht.
  - by rewrite emit_nil.
  - simpl in *. apply Forall_app in Ht as [Ht1 Ht2]. unfold mbind at 1, cm_bind at 1.
    rewrite listing_app. destruct (is_dot name); [by apply IH|].
    rewrite Hm by done. change (0 =? 0) with true. cbv iota. rewrite IH by done.
    by rewrite emit_emit.
Qed.

Lemma nftw_walk_emit n path : nftw_lists path n.
Proof.
  revert path. induction n as [st dir IH] using node_ind. intros path w Ht.
  destruct st as [st|]; [|by rewrite emit_nil]. simpl in *.
  destruct (S_ISDIR (st_mode st)) eqn:Ed; [|unfold not_link in *; destruct (S_ISLNK (st_mode st)) eqn:Er].
  - destruct dir as [es|]; [|by rewrite emit_nil]. by apply nftw_entries_emit.
  - by rewrite emit_nil.
  - apply Forall_cons in Ht as [Ht _]. unfold mbind, cm_bind. rewrite show_file_emit by done.
    unfold listing. simpl. destruct (passes cond d st); [|done]. simpl. by rewrite str_app_nil_r.
Qed.
End Walk.

(** Every object that is walked is a directory, a regular file or a link. *)
Fixpoint ordinary (n : node) : bool :=
  match n with
  | Node None _ => true
  | Node (Some st) dir =>
      if S_ISDIR (st_mode st) then
        match dir with
        | None => true
        | Some es => forallb (fun '(name, m) => is_dot name || ordinary m) es
        end
      else S_ISREG (st_mode st) || S_ISLNK (st_mode st)
  end.

Lemma ordinary_files n path : ordinary n = true -> files not_link path n = files S_ISREG path n.
Proof.
  revert path. induction n as [st dir IH] using node_ind. intros path Ho.
  destruct st as [st|]; [|done]. simpl in *. destruct (S_ISDIR (st_mode st)).
  - destruct dir as [es|]; [|done]. simpl in *. f_equal. revert Ho.
    induction IH as [|[name m] es Hm _ IHes]; intros Ho; [done|]. simpl in *.
    apply andb_true_iff in Ho as [Ho1 Ho2]. rewrite IHes by done.
    destruct (is_dot name); [done|]. by rewrite Hm.
  - unfold not_link, S_ISREG, S_ISLNK in *. change (S_IFREG) with 32768 in *. change S_IFLNK with 40960 in *.
    destruct (Z.eqb_spec (Z.land (st_mode st) S_IFMT) 32768) as [->|], (Z.eqb_spec (Z.land (st_mode st) S_IFMT) 40960);
      done.
Qed.

(** ** Properties *)

(** The condition compares days: for a date of the calendar, a time
    passes exactly if the day it falls on, in UTC, lies before, on or after the
    day of the date; no arithmetic overflows. *)
Theorem check_time_compares_days t cond d w
  (Ht : year_ok t = true) (Hd : date_ok d) (Hv : valid_date (date3_of d)) :
  check_time t cond d w =
  Done (if cond_holds cond (t / 86400 ?= day_number (date3_of d)) then 0 else 1) w.
Proof.
  rewrite check_time_spec by done. rewrite date_cmp_number by (done || apply civil_valid).
  by rewrite day_number_civil.
Qed.

(** C29.  The walk with directory streams prints, for a directory whose paths
    all fit into the buffer, one line per regular file below it that passes the
    condition, in the order of the walk, and one message per object that cannot be
    looked into; nothing is undefined. *)
Theorem list_files_lists tz cond d dirname st dir w
  (Hd : date_ok d) (Hp : dirname <> "") (Hdir : S_ISDIR (st_mode st) = true)
  (Hf : fits dirname (Node (Some st) dir) = true)
  (Ht : times_ok tz (files S_ISREG dirname (Node (Some st) dir))) :
  list_files tz cond d dirname (Node (Some st) dir) w =
  Done tt (emit (listing tz cond d (files S_ISREG dirname (Node (Some st) dir)))
                (problems (Node (Some st) dir)) w).
Proof.
  rewrite <- (list_file_emit tz cond d Hd _ _ w Hp Hf Ht). simpl. by rewrite Hdir.
Qed.

(** C28.  The two programs print the same: on a directory without special
    files, the walk with directory streams and the walk with [nftw] write the same
    text. *)
Theorem walks_agree tz cond d dirname st dir w
  (Hd : date_ok d) (Hp : dirname <> "") (Hdir : S_ISDIR (st_mode st) = true)
  (Hf : fits dirname (Node (Some st) dir) = true)
  (Ht : times_ok tz (files S_ISREG dirname (Node (Some st) dir)))
  (Ho : ordinary (Node (Some st) dir) = true) :
  exists w1 w2,
    list_files tz cond d dirname (Node (Some st) dir) w = Done tt w1 /\
    list_files_nftw tz cond d dirname (Node (Some st) dir) w = Done tt w2 /\
    stdout w1 = stdout w2.
Proof.
  assert (list_files tz cond d dirname (Node (Some st) dir) w = list_file tz cond d dirname (Node (Some st) dir) w)
    as E by (simpl; by rewrite Hdir).
  eexists _, _. split; [rewrite E; by apply list_file_emit|].
  rewrite <- (ordinary_files _ dirname Ho) in *. split; [|shelve].
  unfold list_files_nftw, mbind, cm_bind, nftw. by rewrite nftw_walk_emit.
  Unshelve. done.
Qed.

(** Nothing checks the length of a path: an entry whose path needs more
    than [PATH_MAX] bytes is copied over the end of the buffer. *)
Theorem long_path_overflows tz cond d dirname st name m es w
  (Hp : dirname <> "") (Hn : is_dot name = false) (Hl : PATH_MAX <= strlen (join dirname name)) :
  list_files tz cond d dirname (Node st (Some ((name, m) :: es))) w = Undef UB_bounds.
Proof.
  simpl. unfold mbind at 1, cm_bind at 1. rewrite Hn. unfold mbind at 1, cm_bind at 1.
  assert (make_path dirname name w = Undef UB_bounds) as ->; [|done].
  destruct (last_char dirname Hp) as [c Hc]. revert Hl. unfold join, make_path, strcat_path. rewrite Hc.
  unfold mbind, cm_bind, check, lift, mret, cm_ret. change ("" ++ dirname) with dirname.
  change (strlen "") with 0. destruct (Z.ltb_spec (0 + strlen dirname) PATH_MAX); [|done].
  destruct (Ascii.eqb c "/"); rewrite !strlen_app; change (strlen "/") with 1; intros Hl.
  - by replace (strlen dirname + strlen name <? PATH_MAX) with false by lia.
  - destruct (Z.ltb_spec (strlen dirname + 1) PATH_MAX); [|done].
    cbv beta iota. rewrite strlen_app. change (strlen "/") with 1.
    by replace (strlen dirname + 1 + strlen name <? PATH_MAX) with false by lia.
Qed.

(** ** main *)

Section Main.
Context (tz : Z -> Z) (realpath : string -> option string) (at_path : string -> node) (NFTW : bool).

(** A number and what follows it. *)
Lemma scan_d_dec z r w : 0 <= z <= INT_MAX -> starts (fun c => negb (isdigit c)) r = true ->
  scan_d (dec z ++ r) w = Done (Some (z, r)) w.
Proof.
  intros Hz Hr. unfold scan_d. rewrite scan_dec by (lia || done). unfold mbind, cm_bind, check.
  by replace (is_int z) with true by (unfold is_int, INT_MIN, INT_MAX in *; lia).
Qed.

Lemma scan_date_ok y m d w : 0 <= y <= INT_MAX -> 0 <= m <= INT_MAX -> 0 <= d <= INT_MAX ->
  scan_date (dec y ++ "-" ++ dec m ++ "-" ++ dec d) w = Done (Some (Date y m d)) w.
Proof.
  intros Hy Hm Hd. unfold scan_date.
  unfold mbind at 1, cm_bind at 1. rewrite scan_d_dec by done. simpl.
  change ("" ++ dec m ++ "-" ++ dec d) with (dec m ++ "-" ++ dec d).
  unfold mbind at 1, cm_bind at 1. rewrite scan_d_dec by done. simpl.
  change ("" ++ dec d) with (dec d). pose proof (scan_d_dec d "" w Hd eq_refl) as H.
  rewrite str_app_nil_r in H. unfold mbind at 1, cm_bind at 1. by rewrite H.
Qed.

(** What the program does with its arguments: without exactly three of
    them, with a date it cannot read, with another condition than [<], [=] and [>]
    or with a directory that cannot be resolved it lists nothing and exits with 1,
    2, 3 and 5; else it lists the directory, with the condition that was asked for,
    and exits with 0. *)
Theorem main_outcome prog dir condv y m d w
  (Hy : 0 <= y <= INT_MAX) (Hm : 0 <= m <= INT_MAX) (Hd : 0 <= d <= INT_MAX) :
  let datev := dec y ++ "-" ++ dec m ++ "-" ++ dec d in
  (exists w', main tz realpath at_path NFTW [prog; dir; condv] w = Done 1 w') /\
  (exists w', main tz realpath at_path NFTW [prog; dir; condv; "tomorrow"] w = Done 2 w') /\
  match parse_cond condv with
  | None => exists w', main tz realpath at_path NFTW [prog; dir; condv; datev] w = Done 3 w'
  | Some cond =>
      match realpath dir with
      | None => exists w', main tz realpath at_path NFTW [prog; dir; condv; datev] w = Done 5 w'
      | Some dirr =>
          main tz realpath at_path NFTW [prog; dir; condv; datev] w =
          match (if NFTW then list_files_nftw tz cond (Date y m d) dirr (at_path dirr) w
                 else list_files tz cond (Date y m d) dirr (at_path dirr) w) with
          | Done _ w' => Done 0 w'
          | Exited c w' => Exited c w' | Undef u => Undef u | NoFuel => NoFuel
          end
      end
  end.
Proof.
  intros datev. split; [by eexists|]. split; [by eexists|].
  pose proof (fun w => scan_date_ok y m d w Hy Hm Hd) as Hs. fold datev in Hs. clearbody datev.
  unfold main, parse_args. destruct (parse_cond condv); [destruct (realpath dir)|];
    unfold mbind, cm_bind; rewrite Hs; [by destruct NFTW|by eexists|by eexists].
Qed.
End Main.

(** ** A small tree *)

(** 2018-03-17 23:30:00 UTC, and a zone one hour ahead. *)
Definition late_evening : Z := 1521329400.
Definition cet (t : Z) : Z := 3600.
Definition demo_file : stat := Stat 33188 late_evening 12.
Definition demo_dir (es : list (string * node)) : node := Node (Some (Stat 16877 late_evening 4096)) (Some es).
Definition demo_tree : node :=
  demo_dir [("." , Node None None); ("..", Node None None);
            ("a", Node (Some demo_file) None);
            ("sub", demo_dir [("b", Node (Some (Stat 33188 0 345)) None)]);
            ("link", Node (Some (Stat 41471 0 3)) None)].

Definition demo_date : date := Date 2018 3 17.

(** The condition looks at the day in UTC and the line shows the day of
    the zone: asked for the files of 2018-03-17, the program lists one with the date
    2018-03-18. *)
Theorem listed_date_contradicts_condition :
  list_files cet EQ demo_date "/d" demo_tree (Io "" []) =
  Done tt (Io ("rw-r--r-- 2018-03-18       12 /d/a" ++ nl) []).
Proof. by vm_compute. Qed.

(** ** The theorems at the small tree *)

Definition quiet : io := Io "" [].

Lemma demo_date_ok : date_ok demo_date.
Proof. split; simpl; unfold INT_MIN, INT_MAX; lia. Qed.

Lemma check_time_compares_days_witness :
  check_time late_evening EQ demo_date quiet = Done 0 quiet.
Proof.
  rewrite (check_time_compares_days late_evening EQ demo_date quiet);
    [reflexivity|reflexivity|exact demo_date_ok|].
  unfold valid_date, days_in_month. simpl. lia.
Defined.

Lemma demo_times : times_ok cet (files S_ISREG "/d" demo_tree).
Proof. repeat constructor. Qed.

Lemma list_files_lists_witness :
  list_files cet LT demo_date "/d" demo_tree quiet =
  Done tt (Io ("rw-r--r-- 1970-01-01      345 /d/sub/b" ++ nl) []).
Proof.
  refine (list_files_lists cet LT demo_date "/d" (Stat 16877 late_evening 4096) _ quiet
            demo_date_ok _ _ _ demo_times); [done|reflexivity|vm_compute; reflexivity].
Defined.

Lemma walks_agree_witness :
  exists w1 w2,
    list_files cet LT demo_date "/d" demo_tree quiet = Done tt w1 /\
    list_files_nftw cet LT demo_date "/d" demo_tree quiet = Done tt w2 /\
    stdout w1 = stdout w2.
Proof.
  refine (walks_agree cet LT demo_date "/d" (Stat 16877 late_evening 4096) _ quiet
            demo_date_ok _ _ _ demo_times _); [done|reflexivity|vm_compute; reflexivity|reflexivity].
Defined.

Lemma long_path_overflows_witness :
  list_files cet LT demo_date (String "/" (string_of_list_ascii (replicate 4094 "x"%char)))
    (demo_dir [("b", Node (Some demo_file) None)]) quiet = Undef UB_bounds.
Proof.
  apply (long_path_overflows cet LT demo_date _ _ "b" _ [] quiet);
    [done|reflexivity|vm_compute; discriminate].
Defined.

Lemma main_outcome_witness :
  main cet (fun _ => Some "/d") (fun _ => demo_tree) false ["lf"; "d"; "<"; "2018-3-17"] quiet =
  Done 0 (Io ("rw-r--r-- 1970-01-01      345 /d/sub/b" ++ nl) []).
Proof.
  destruct (main_outcome cet (fun _ => Some "/d") (fun _ => demo_tree) false "lf" "d" "<" 2018 3 17 quiet)
    as (_ & _ & H); [unfold INT_MAX; lia..|].
  exact H.
Defined.
