(* ===== verification/ForkList.v ===== *)
(** The listing of cw03/zad1 (list_files.c, main.c): as that of cw02
    ([ListFiles]), with a process for every entry of a directory.

    A process has a copy of the buffer of stdout that its parent had when it
    forked; it writes its buffer when it exits, after it has waited for its
    children.  Processes take their steps in any order. *)
From S2P Require Import Prelude CString Scan Calendar ListFiles.
From Stdlib Require Import Ascii String.
#[local] Open Scope string_scope.
#[local] Open Scope Z_scope.
Local Abbreviation length := Datatypes.length.

(** The file has its own copies of the functions that print a line. *)
Definition print_size := ListFiles.print_size.
Definition print_last_mod := ListFiles.print_last_mod.
Definition print_access := ListFiles.print_access.
Definition check_time := ListFiles.check_time.
Definition show_file := ListFiles.show_file.

(** What a process has on its stack of calls. *)
Inductive act :=
  | A_list_file (path : string) (n : node)                       (* list_file(path, ...) *)
  | A_list_files (dirname : string) (n : node)                   (* list_files(dirname, ...) *)
  | A_entries (dirname : string) (es : list (string * node)).    (* the loop over the entries *)

(** Running; in the loop of [wait(NULL)]; ended; waited for by its parent. *)
Inductive status := PRun | PWait | PZombie | PReaped.

Record proc := Proc { stack : list act; buf : string; stat_of : status; parent : nat }.

(** The processes, what has been written to the file behind stdout, one piece
    per [write], and the messages of stderr, which has no buffer. *)
Record fk := Fk { procs : list proc; file : list string; errs : list string }.

(** A step of process [i]; [fork_ok]: does [fork] succeed, if it is called? *)
Record fk_label := Lbl { who : nat; fork_ok : bool }.

Section ForkList.
Context (tz : Z -> Z) (cond : cond_t) (d : date).
(** Is stdout a terminal? Then its buffer is written at the end of each line. *)
Context (tty : bool).
(** Can [fork] fail? *)
Context (may_fail : bool).

Definition set_proc (i : nat) (p : proc) (s : fk) : fk := Fk (<[i := p]> (procs s)) (file s) (errs s).
Definition with_stack (p : proc) (st : list act) : proc := Proc st (buf p) (stat_of p) (parent p).
Definition with_status (p : proc) (x : status) : proc := Proc (stack p) (buf p) x (parent p).
Definition add_errs (es : list string) (s : fk) : fk := Fk (procs s) (file s) (errs s ++ es)%list.
Definition write (txt : string) (s : fk) : fk := Fk (procs s) (file s ++ [txt])%list (errs s).
Definition spawn (c : proc) (s : fk) : fk := Fk (procs s ++ [c])%list (file s) (errs s).

(** [printf] of a line by process [i], which goes on with [st]. *)
Definition output (i : nat) (p : proc) (st : list act) (txt : string) (s : fk) : fk :=
  if tty then set_proc i (Proc st "" (stat_of p) (parent p)) (write txt s)
  else set_proc i (Proc st txt (stat_of p) (parent p)) s.

Definition run_proc (i : nat) (ok : bool) (p : proc) (s : fk) : sres fk :=
  match stack p with
  | [] => Step (set_proc i (with_status p PWait) s)
  | A_list_file path n :: st =>
      match n with
      | Node None _ => Step (add_errs ["lstat failed"] (set_proc i (with_stack p st) s))
      | Node (Some sb) dir =>
          if S_ISDIR (st_mode sb) then Step (set_proc i (with_stack p (A_list_files path n :: st)) s)
          else if S_ISREG (st_mode sb) then
            match show_file tz cond d sb path (Io (buf p) []) with
            | Done _ w => Step (output i p st (stdout w) s)
            | Undef u => Fault u
            | _ => Blocked
            end
          else Step (set_proc i (with_stack p st) s)
      end
  | A_list_files dirname (Node _ dir) :: st =>
      match dir with
      | None => Step (add_errs ["Cannot open directory"] (set_proc i (with_stack p st) s))
      | Some es => Step (set_proc i (with_stack p (A_entries dirname es :: st)) s)
      end
  | A_entries dirname [] :: st => Step (set_proc i (with_stack p st) s)
  | A_entries dirname ((name, n) :: es) :: st =>
      if is_dot name then Step (set_proc i (with_stack p (A_entries dirname es :: st)) s)
      else
        match make_path dirname name (Io "" []) with
        | Done path _ =>
            if ok then
              Step (spawn (Proc [A_list_file path n] (buf p) PRun i)
                (set_proc i (with_stack p (A_entries dirname es :: st)) s))
            else if may_fail then
              Step (add_errs ["Cannot instantiate process"; "Continuing within the same process"]
                (set_proc i (with_stack p (A_list_file path n :: A_entries dirname es :: st)) s))
            else Blocked
        | Undef u => Fault u
        | _ => Blocked
        end
  end.

(** A child of [i], by what has become of it. *)
Definition child_in (i : nat) (x : status -> bool) (p : proc) : bool :=
  Nat.eqb (parent p) i && x (stat_of p).
Definition is_zombie (x : status) : bool := match x with PZombie => true | _ => false end.
Definition not_reaped (x : status) : bool := match x with PReaped => false | _ => true end.

(** The first process from index [k] on that satisfies a test. *)
Fixpoint find_proc (f : proc -> bool) (ps : list proc) (k : nat) : option nat :=
  match ps with
  | [] => None
  | p :: ps' => if f p then Some k else find_proc f ps' (S k)
  end.

(** [wait(NULL)]: one child that has ended, or an error when there are none;
    then the process ends, which writes its buffer.  Process 0, the first one,
    is not a child of anyone here. *)
Definition wait_proc (i : nat) (p : proc) (s : fk) : sres fk :=
  match find_proc (child_in i is_zombie) (drop 1 (procs s)) 1 with
  | Some j =>
      match procs s !! j with
      | Some c => Step (set_proc j (with_status c PReaped) s)
      | None => Blocked
      end
  | None =>
      match find_proc (child_in i not_reaped) (drop 1 (procs s)) 1 with
      | Some _ => Blocked
      | None => Step (write (buf p) (set_proc i (with_status p PZombie) s))
      end
  end.

Definition fk_exec (l : fk_label) (s : fk) : sres fk :=
  match procs s !! who l with
  | None => Blocked
  | Some p =>
      match stat_of p with
      | PRun => run_proc (who l) (fork_ok l) p s
      | PWait => wait_proc (who l) p s
      | PZombie | PReaped => Blocked
      end
  end.
End ForkList.

(** The process of [main], about to call [list_files(dirr, cond, sdate)]. *)
Definition fk_init (dirr : string) (n : node) : fk :=
  Fk [Proc [A_list_files dirr n] "" PRun 0] [] [].

(** [main]: an exit code, or the condition, the date and the first process. *)
Definition main (realpath : string -> option string) (at_path : string -> node) (argv : list string) :
    cm io (Z + cond_t * date * fk) :=
  r ← parse_args realpath argv;
  match r with
  | inl code => mret (inl code)
  | inr (dirr, cond, sdate) => mret (inr (cond, sdate, fk_init dirr (at_path dirr)))
  end.
