(* ===== verification/ForkListSpec.v ===== *)
(** What the processes of [ForkList.v] do together: they all end, in every
    order of their steps, and if no [fork] fails they print every line of the
    sequential listing exactly once. *)
From S2P Require Import Prelude CString Scan Calendar ListFiles ListFilesSpec ForkList.
From Stdlib Require Import Ascii String.
#[local] Open Scope string_scope.
#[local] Open Scope Z_scope.
Local Abbreviation length := Datatypes.length.
Local Abbreviation concat := List.concat.

(** ** Termination *)

(** The steps an object can cause: an entry is one turn of the loop, one
    process, and what is below it. *)
Fixpoint weight (n : node) : nat :=
  let '(Node _ dir) := n in
  match dir with
  | None => 3
  | Some es => 4 + list_sum (map (fun '(_, m) => 6 + weight m)%nat es)
  end.
Definition weight_entries (es : list (string * node)) : nat :=
  1 + list_sum (map (fun '(_, m) => 6 + weight m)%nat es).

Definition act_weight (a : act) : nat :=
  match a with
  | A_list_file _ n => weight n
  | A_list_files _ (Node _ None) => 1
  | A_list_files _ (Node _ (Some es)) => 1 + weight_entries es
  | A_entries _ es => weight_entries es
  end.

Definition proc_weight (p : proc) : nat :=
  match stat_of p with
  | PRun => 3 + list_sum (map act_weight (stack p))
  | PWait => 2
  | PZombie => 1
  | PReaped => 0
  end.

Definition total_weight (s : fk) : nat := list_sum (map proc_weight (procs s)).

Lemma find_proc_lookup f ps k j : find_proc f ps k = Some j ->
  exists p, (k <= j)%nat /\ ps !! (j - k)%nat = Some p /\ f p = true.
Proof.
  revert k. induction ps as [|p ps IH]; intros k Hf; [done|]. simpl in Hf.
  destruct (f p) eqn:E.
  - simplify_eq. exists p. rewrite Nat.sub_diag. eauto.
  - destruct (IH _ Hf) as (q & Hk & Hq & Hfq). exists q. split; [lia|]. split; [|done].
    by replace (j - k)%nat with (S (j - S k)) by lia.
Qed.

Lemma find_proc_none f ps k : find_proc f ps k = None -> Forall (fun p => f p = false) ps.
Proof.
  revert k. induction ps as [|p ps IH]; intros k Hf; simpl in Hf; [constructor|].
  destruct (f p) eqn:E; [done|]. constructor; eauto.
Qed.

(** A child that [wait] finds. *)
Lemma find_child i x s j : find_proc (child_in i x) (drop 1 (procs s)) 1 = Some j ->
  exists c, procs s !! j = Some c /\ (0 < j)%nat /\ parent c = i /\ x (stat_of c) = true.
Proof.
  intros Hf. apply find_proc_lookup in Hf as (c & Hj & Hc & Hx). exists c.
  rewrite lookup_drop in Hc. replace (1 + (j - 1))%nat with j in Hc by lia.
  unfold child_in in Hx. apply andb_true_iff in Hx as [Hp Hx]. apply Nat.eqb_eq in Hp. auto.
Qed.

Lemma find_no_child i x s : find_proc (child_in i x) (drop 1 (procs s)) 1 = None ->
  forall j c, (0 < j)%nat -> procs s !! j = Some c -> parent c = i -> x (stat_of c) = false.
Proof.
  intros Hf j c Hj Hc Hp. apply find_proc_none in Hf.
  assert (drop 1 (procs s) !! (j - 1)%nat = Some c) as Hd
    by (rewrite lookup_drop; by replace (1 + (j - 1))%nat with j by lia).
  pose proof (Forall_lookup_1 _ _ _ _ Hf Hd) as H. unfold child_in in H.
  rewrite Hp, Nat.eqb_refl in H. done.
Qed.

Section Steps.
Context (tz : Z -> Z) (cond : cond_t) (d : date) (tty may_fail : bool).
#[local] Abbreviation fk_exec := (fk_exec tz cond d tty may_fail).

(** The weight of what a step leaves. *)
Lemma weight_set s i p p' : procs s !! i = Some p ->
  (total_weight (set_proc i p' s) + proc_weight p = total_weight s + proc_weight p')%nat.
Proof. intros H. by apply list_sum_insert. Qed.

Lemma run_proc_weight i ok p s s' : procs s !! i = Some p -> stat_of p = PRun ->
  run_proc tz cond d tty may_fail i ok p s = Step s' -> (total_weight s' < total_weight s)%nat.
Proof.
  intros Hp Hst Hrun. unfold run_proc in Hrun. destruct p as [st b x par]. simpl in *. subst x.
  pose proof (fun p' => weight_set s i _ p' Hp) as Hw.
  assert (forall p' s1, procs s1 = <[i := p']> (procs s) ->
    (proc_weight p' < proc_weight (Proc st b PRun par))%nat -> (total_weight s1 < total_weight s)%nat) as Hlt.
  { intros p' s1 E Hlt. specialize (Hw p'). unfold total_weight in *. rewrite E. simpl in Hw. lia. }
  unfold proc_weight in Hw, Hlt. simpl in Hw, Hlt.
  destruct st as [|[path n|dn [sb dir]|dn [|[name n] es]] st]; simpl in *.
  - simplify_eq. eapply Hlt; [done|simpl; lia].
  - destruct n as [[sb|] dir].
    + destruct (S_ISDIR (st_mode sb)).
      * simplify_eq. eapply Hlt; [done|]. unfold weight_entries. simpl. destruct dir; simpl; lia.
      * destruct (S_ISREG (st_mode sb)); [|simplify_eq; eapply Hlt; [done|simpl; destruct dir; simpl; lia]].
        destruct (show_file _ _ _ _ _ _) as [[] w| | |]; simplify_eq.
        unfold output. destruct tty; (eapply Hlt; [done|]); simpl; destruct dir; simpl; lia.
    + simplify_eq. eapply Hlt; [done|]. simpl. destruct dir; simpl; lia.
  - destruct dir as [es|]; simplify_eq; (eapply Hlt; [done|]); simpl; lia.
  - simplify_eq. eapply Hlt; [done|]. unfold weight_entries. simpl. lia.
  - destruct (is_dot name).
    + simplify_eq. eapply Hlt; [done|]. unfold weight_entries. simpl. lia.
    + destruct (make_path _ _ _) as [path w| | |]; simplify_eq.
      destruct ok; [|destruct may_fail]; simplify_eq.
      * specialize (Hw (Proc (A_entries dn es :: st) b PRun par)).
        unfold total_weight, spawn, with_stack in *. simpl in *. rewrite map_app, list_sum_app. simpl.
        unfold weight_entries in *. simpl in *. lia.
      * eapply Hlt; [done|]. unfold weight_entries. simpl. lia.
Qed.

Lemma fk_exec_weight l s s' : fk_exec l s = Step s' -> (total_weight s' < total_weight s)%nat.
Proof.
  unfold fk_exec. destruct (procs s !! who l) as [p|] eqn:Hp; [|done].
  destruct (stat_of p) eqn:Hst; [by apply run_proc_weight| |done|done].
  unfold wait_proc. destruct (find_proc _ _ _) as [j|] eqn:Ef.
  - apply find_child in Ef as (c & Hc & _ & _ & Hz). rewrite Hc. intros [= <-].
    pose proof (weight_set s j c (with_status c PReaped) Hc) as Hw.
    assert (proc_weight c = 1%nat) as Ec by (unfold proc_weight; by destruct (stat_of c)).
    change (proc_weight (with_status c PReaped)) with 0%nat in Hw. lia.
  - destruct (find_proc (child_in _ not_reaped) _ _); [done|]. intros ?; simplify_eq.
    pose proof (weight_set s (who l) p (with_status p PZombie) Hp) as Hw.
    assert (proc_weight p = 2%nat) as Ep by (unfold proc_weight; by rewrite Hst).
    change (proc_weight (with_status p PZombie)) with 1%nat in Hw.
    change (total_weight (write (buf p) (set_proc (who l) (with_status p PZombie) s)))
      with (total_weight (set_proc (who l) (with_status p PZombie) s)). lia.
Qed.

Lemma run_weight ls s s' : run fk_exec ls s = Some s' -> (length ls + total_weight s' <= total_weight s)%nat.
Proof.
  revert s. induction ls as [|l ls IH]; intros s Hr; simplify_eq/=; [lia|].
  destruct (fk_exec l s) eqn:E; try done. apply fk_exec_weight in E. specialize (IH _ Hr). lia.
Qed.

(** ** What the calls on the stacks have before them *)

Definition entry_files (path : string) (es : list (string * node)) : list (string * stat) :=
  concat (map (fun '(name, m) => if is_dot name then [] else files S_ISREG (join path name) m) es).
Definition entry_fits (path : string) (es : list (string * node)) : bool :=
  forallb (fun '(name, m) => is_dot name ||
    ((strlen (join path name) <? PATH_MAX) && fits (join path name) m)) es.

Definition act_path (a : act) : string :=
  match a with A_list_file p _ | A_list_files p _ | A_entries p _ => p end.
Definition act_files (a : act) : list (string * stat) :=
  match a with
  | A_list_file path n => files S_ISREG path n
  | A_list_files path (Node _ dir) => entry_files path (default [] dir)
  | A_entries path es => entry_files path es
  end.
Definition act_fits (a : act) : bool :=
  match a with
  | A_list_file path n => fits path n
  | A_list_files path (Node _ dir) => entry_fits path (default [] dir)
  | A_entries path es => entry_fits path es
  end.

Definition act_ok (a : act) : Prop :=
  act_path a <> "" /\ act_fits a = true /\ times_ok tz (act_files a).

(** What a call leads to. *)
Lemma act_ok_dir path sb dir : S_ISDIR (st_mode sb) = true ->
  act_ok (A_list_file path (Node (Some sb) dir)) -> act_ok (A_list_files path (Node (Some sb) dir)) /\
  act_files (A_list_file path (Node (Some sb) dir)) = act_files (A_list_files path (Node (Some sb) dir)).
Proof.
  intros Hd (Hp & Hf & Ht). unfold act_ok in *. simpl in *. rewrite Hd in *.
  destruct dir as [es|]; simpl; [done|]. split; [|done]. split; [done|]. split; [done|constructor].
Qed.

Lemma act_ok_entries path sb es :
  act_ok (A_list_files path (Node sb (Some es))) -> act_ok (A_entries path es).
Proof. done. Qed.

Lemma act_ok_next path name n es : act_ok (A_entries path ((name, n) :: es)) ->
  act_ok (A_entries path es) /\
  (is_dot name = false ->
   make_path path name (Io "" []) = Done (join path name) (Io "" []) /\
   act_ok (A_list_file (join path name) n)) /\
  act_files (A_entries path ((name, n) :: es)) =
    ((if is_dot name then [] else files S_ISREG (join path name) n) ++ act_files (A_entries path es))%list.
Proof.
  intros (Hp & Hf & Ht). unfold act_ok, entry_fits, entry_files, times_ok in *. simpl in *.
  apply andb_true_iff in Hf as [Hf1 Hf2]. apply Forall_app in Ht as [Ht1 Ht2].
  split; [done|]. split; [|done]. intros Hdot. rewrite Hdot in *. simpl in *.
  apply andb_true_iff in Hf1 as [Hl Hf1]. split; [apply make_path_ok; [done|lia]|].
  split; [by apply join_nonempty|done].
Qed.

Context (Hd : date_ok d).

Lemma show_file_io sb path b : time_ok tz sb = true ->
  show_file tz cond d sb path (Io b []) =
  Done tt (Io (b ++ (if passes cond d sb then file_line tz (path, sb) else "")) []).
Proof. intros Ht. by apply (show_file_emit tz cond d sb path (Io b [])). Qed.

(** A process that runs never goes wrong, and can go on if [fork] succeeds. *)
Lemma run_proc_goes i p s : Forall act_ok (stack p) ->
  (exists s', run_proc tz cond d tty may_fail i true p s = Step s') /\
  forall ok u, run_proc tz cond d tty may_fail i ok p s <> Fault u.
Proof.
  intros Ha. unfold run_proc. destruct (stack p) as [|a st]; [by split; [eexists|]|].
  apply Forall_cons in Ha as [Ha _]. destruct a as [path n|dn [sb dir]|dn [|[name n] es]].
  - destruct n as [[sb|] dir]; [|by split; [eexists|]].
    destruct (S_ISDIR (st_mode sb)) eqn:Ed; [by split; [eexists|]|].
    destruct (S_ISREG (st_mode sb)) eqn:Er; [|by split; [eexists|]].
    destruct Ha as (_ & _ & Ht). simpl in Ht. rewrite Ed, Er in Ht. apply Forall_cons in Ht as [Ht _].
    rewrite show_file_io by done. by split; [eexists|].
  - destruct dir; (by split; [eexists|]).
  - by split; [eexists|].
  - destruct (act_ok_next _ _ _ _ Ha) as (_ & Hn & _). destruct (is_dot name); [by split; [eexists|]|].
    destruct Hn as [-> _]; [done|]. split; [by eexists|]. intros [] u; [done|by destruct may_fail].
Qed.

(** ** The tree of processes *)

Definition ended (p : proc) : Prop := match stat_of p with PZombie | PReaped => True | _ => False end.

(** The first process is nobody's child; a parent is older than its children
    and does not end before it has waited for them. *)
Record tree (ps : list proc) : Prop := {
  tree_root : exists p, ps !! 0%nat = Some p /\ stat_of p <> PReaped;
  tree_child j p : (0 < j)%nat -> ps !! j = Some p ->
    exists q, ps !! parent p = Some q /\ (parent p < j)%nat /\ (ended q -> stat_of p = PReaped);
}.

Lemma tree_set ps i p p' :
  tree ps -> ps !! i = Some p -> stat_of p <> PReaped -> parent p' = parent p ->
  (stat_of p' = PReaped -> (0 < i)%nat) ->
  (ended p' -> forall j c, (0 < j)%nat -> ps !! j = Some c -> parent c = i -> stat_of c = PReaped) ->
  tree (<[i := p']> ps).
Proof.
  intros [(p0 & H0 & Hr0) Hch] Hp Hr Hpar H0' Hend.
  assert (i < length ps)%nat as Hi by (by eapply lookup_lt_Some).
  split.
  - destruct (decide (i = 0%nat)) as [->|Hne].
    + exists p'. rewrite list_lookup_insert_eq by done. split; [done|]. intros E. specialize (H0' E). lia.
    + exists p0. by rewrite list_lookup_insert_ne.
  - intros j c Hj Hc.
    assert (exists c0, ps !! j = Some c0 /\ parent c = parent c0 /\ (stat_of c0 = PReaped -> stat_of c = PReaped) /\ (j <> i -> c = c0))
      as (c0 & Hc0 & Epar & Hkeep & Hsame).
    { destruct (decide (i = j)) as [->|Hne].
      - rewrite list_lookup_insert_eq in Hc by done. simplify_eq. exists p. by repeat split.
      - rewrite list_lookup_insert_ne in Hc by done. by exists c. }
    destruct (Hch j c0 Hj Hc0) as (q & Hq & Hlt & Hqe). rewrite Epar.
    destruct (decide (i = parent c0)) as [Ei|Hne].
    + exists p'. rewrite Ei, list_lookup_insert_eq by (by rewrite <- Ei). split; [done|]. split; [done|].
      intros He. apply Hkeep, (Hend He j); done.
    + exists q. rewrite list_lookup_insert_ne by done. auto.
Qed.

Lemma tree_spawn ps i p c :
  tree ps -> ps !! i = Some p -> ~ ended p -> parent c = i -> stat_of c <> PReaped -> tree (ps ++ [c]).
Proof.
  intros [(p0 & H0 & Hr0) Hch] Hp He Hpar Hc. split.
  - exists p0. split; [by apply lookup_app_l_Some|done].
  - intros j x Hj Hx. apply lookup_app_Some in Hx as [Hx|[Hlen Hx]].
    + destruct (Hch j x Hj Hx) as (q & Hq & ? & ?). exists q. split; [by apply lookup_app_l_Some|done].
    + destruct (j - length ps)%nat eqn:E; [|done]. simplify_eq/=.
      exists p. split; [by apply lookup_app_l_Some|]. split; [|done]. apply lookup_lt_Some in Hp. lia.
Qed.

(** When the first process has ended, so have all others. *)
Lemma tree_all_done ps p0 : tree ps -> ps !! 0%nat = Some p0 -> ended p0 ->
  forall j p, (0 < j)%nat -> ps !! j = Some p -> stat_of p = PReaped.
Proof.
  intros [_ Hch] H0 He j. induction j as [j IH] using lt_wf_ind. intros p Hj Hp.
  destruct (Hch j p Hj Hp) as (q & Hq & Hlt & Hqe). apply Hqe.
  destruct (decide (parent p = 0%nat)) as [E|Hne].
  - rewrite E in Hq. by simplify_eq.
  - unfold ended. by rewrite (IH _ Hlt q ltac:(lia) Hq).
Qed.

(** ** The lines on their way *)

Definition nonempty (s : string) : list string := match s with "" => [] | _ => [s] end.
Definition lines_of (fs : list (string * stat)) : list string :=
  map (file_line tz) (List.filter (fun f => passes cond d (snd f)) fs).

(** What a process and the calls on its stack have still to write. *)
Definition owed (p : proc) : list string :=
  match stat_of p with
  | PRun => (nonempty (buf p) ++ lines_of (concat (map act_files (stack p))))%list
  | PWait => nonempty (buf p)
  | _ => []
  end.

(** A process has something in its buffer only when it does nothing else. *)
Definition neat (p : proc) : Prop :=
  (length (stack p) <= 1)%nat /\ (buf p = "" \/ stack p = []) /\ (stat_of p <> PRun -> stack p = []).

Lemma lines_of_app fs fs' : lines_of (fs ++ fs')%list = (lines_of fs ++ lines_of fs')%list.
Proof. unfold lines_of. by rewrite List.filter_app, map_app. Qed.

Lemma str_app_not_empty a b : b <> "" -> a ++ b <> "".
Proof. by destruct a. Qed.

Lemma file_line_not_empty f : file_line tz f <> "".
Proof. destruct f as [path st]. unfold file_line. repeat apply str_app_not_empty. done. Qed.

Lemma nonempty_line f : nonempty (file_line tz f) = [file_line tz f].
Proof. pose proof (file_line_not_empty f). by destruct (file_line tz f). Qed.

(** What a step of a running process does to it, to the processes and to the
    output. *)
Record effect (i : nat) (p : proc) (s s' : fk) : Prop := {
  eff_ex : exists p' cs pieces,
    procs s' = (<[i := p']> (procs s) ++ cs)%list /\ file s' = (file s ++ pieces)%list /\
    parent p' = parent p /\ stat_of p' <> PZombie /\ stat_of p' <> PReaped /\
    Forall act_ok (stack p') /\
    Forall (fun c => stack c <> [] /\ stat_of c = PRun /\ parent c = i /\ buf c = buf p /\
              Forall act_ok (stack c)) cs /\
    (length cs <= 1)%nat /\
    (may_fail = false -> neat p ->
     neat p' /\ Forall neat cs /\
     (concat (map nonempty pieces) ++ owed p' ++ concat (map owed cs))%list ≡ₚ owed p)
}.

(** The call on top of the stack is replaced by others with the same files
    before them. *)
Lemma effect_calls i b par s s' a st st' :
  procs s' = <[i := Proc (st' ++ st) b PRun par]> (procs s) -> file s' = file s ->
  Forall act_ok st -> Forall act_ok st' -> (may_fail = false -> length st' <= 1)%nat ->
  concat (map act_files st') = act_files a ->
  effect i (Proc (a :: st) b PRun par) s s'.
Proof.
  intros Ep Ef Hst Hst' Hlen Hfs.
  constructor; exists (Proc (st' ++ st) b PRun par), [], []; rewrite ?app_nil_r.
  repeat match goal with |- _ /\ _ => split end; try done; [by apply Forall_app|simpl; lia|].
  intros Hm (H1 & H2 & H3). specialize (Hlen Hm). simpl in H1. destruct st as [|x st]; [|simpl in H1; lia].
  simpl in H2. destruct H2 as [->|]; [|done]. rewrite app_nil_r.
  split; [by split; [|split; [left|]]|]. split; [done|].
  unfold owed. cbn [stat_of buf stack map List.concat nonempty app]. by rewrite Hfs, !app_nil_r.
Qed.

(** The line of a regular file is printed. *)
Lemma effect_print i b par s path sb st :
  Forall act_ok st ->
  (forall a, act_files a = [(path, sb)] ->
   effect i (Proc (a :: st) b PRun par) s
     (output tty i (Proc (a :: st) b PRun par) st
        (b ++ (if passes cond d sb then file_line tz (path, sb) else "")) s)).
Proof.
  intros Hst a Ha. set (txt := if passes cond d sb then file_line tz (path, sb) else "").
  assert (lines_of [(path, sb)] = nonempty txt) as El.
  { unfold lines_of, txt. cbn [List.filter snd]. destruct (passes cond d sb); cbn [map]; [|done].
    by rewrite nonempty_line. }
  assert (neat (Proc (a :: st) b PRun par) -> b = "" /\ st = []) as Hneat.
  { intros (H1 & H2 & H3). destruct st as [|x st]; [|simpl in H1; lia]. by destruct H2. }
  unfold output. destruct tty.
  - constructor; exists (Proc st "" PRun par), [], [b ++ txt]; rewrite ?app_nil_r.
    repeat match goal with |- _ /\ _ => split end; try done; [simpl; lia|].
    intros _ Hn. destruct (Hneat Hn) as [-> ->].
    split; [by split; [simpl; lia|split; [left|]]|]. split; [done|].
    unfold owed. cbn [stat_of buf stack map List.concat nonempty app]. rewrite Ha. cbn [app]. rewrite El.
    by rewrite !app_nil_r.
  - constructor; exists (Proc st (b ++ txt) PRun par), [], []; rewrite ?app_nil_r.
    repeat match goal with |- _ /\ _ => split end; try done; [simpl; lia|].
    intros _ Hn. destruct (Hneat Hn) as [-> ->].
    split; [by split; [simpl; lia|split; [right|]]|]. split; [done|].
    unfold owed. cbn [stat_of buf stack map List.concat nonempty app]. rewrite Ha. cbn [app]. rewrite El.
    by rewrite !app_nil_r.
Qed.

(** A process is started for an entry. *)
Lemma effect_fork i b par s path n dn a es st :
  Forall act_ok st -> act_ok (A_entries dn es) -> act_ok (A_list_file path n) ->
  act_files a = (act_files (A_list_file path n) ++ act_files (A_entries dn es))%list ->
  effect i (Proc (a :: st) b PRun par) s
    (spawn (Proc [A_list_file path n] b PRun i)
       (set_proc i (Proc (A_entries dn es :: st) b PRun par) s)).
Proof.
  intros Hst He Hf Ha.
  constructor; exists (Proc (A_entries dn es :: st) b PRun par), [Proc [A_list_file path n] b PRun i], [];
    rewrite ?app_nil_r.
  repeat match goal with |- _ /\ _ => split end; try done; [by constructor|apply Forall_singleton; do 4 (split; [done|]); by apply Forall_singleton|].
  intros _ (H1 & H2 & H3). simpl in H1, H2. destruct st as [|x st]; [|simpl in H1; lia].
  destruct H2 as [->|]; [|done].
  split; [by split; [simpl; lia|split; [left|]]|].
  split; [constructor; [by split; [simpl; lia|split; [left|]]|done]|].
  unfold owed. cbn [stat_of buf stack map List.concat nonempty app]. rewrite Ha, !app_nil_r, lines_of_app.
  apply Permutation_app_comm.
Qed.

Lemma run_proc_effect i ok p s s' : stat_of p = PRun -> Forall act_ok (stack p) ->
  run_proc tz cond d tty may_fail i ok p s = Step s' -> effect i p s s'.
Proof.
  intros Hst Ha Hrun. unfold run_proc in Hrun. destruct p as [st b x par]. simpl in *. subst x.
  destruct st as [|a st].
  { simplify_eq. constructor; exists (Proc [] b PWait par), [], []; rewrite ?app_nil_r.
    repeat match goal with |- _ /\ _ => split end; try done; [simpl; lia|].
    intros _ (H1 & H2 & H3). split; [by split|]. split; [done|]. unfold owed. simpl. by rewrite app_nil_r. }
  apply Forall_cons in Ha as [Ha Hst]. destruct a as [path n|dn [sb dir]|dn [|[name n] es]].
  - destruct n as [[sb|] dir]; [|simplify_eq; by apply (effect_calls _ _ _ _ _ _ _ []); try (intros; simpl; lia)].
    destruct (S_ISDIR (st_mode sb)) eqn:Ed; [|destruct (S_ISREG (st_mode sb)) eqn:Er].
    + destruct (act_ok_dir _ _ _ Ed Ha) as [Ha' Ef]. simplify_eq.
      apply (effect_calls _ _ _ _ _ _ _ [A_list_files path (Node (Some sb) dir)]); try done; [by constructor|].
      by rewrite Ef; cbn [map List.concat]; rewrite app_nil_r.
    + assert (act_files (A_list_file path (Node (Some sb) dir)) = [(path, sb)]) as Ef by (simpl; by rewrite Ed, Er).
      destruct Ha as (_ & _ & Ht). rewrite Ef in Ht. apply Forall_cons in Ht as [Ht _].
      rewrite show_file_io in Hrun by done. simplify_eq. by apply effect_print.
    + simplify_eq. apply (effect_calls _ _ _ _ _ _ _ []); try done; [simpl; lia|]. simpl. by rewrite Ed, Er.
  - destruct dir as [es|]; simplify_eq.
    + apply (effect_calls _ _ _ _ _ _ _ [A_entries dn es]); try done; [by constructor|]. simpl. by rewrite app_nil_r.
    + apply (effect_calls _ _ _ _ _ _ _ []); try done; simpl; lia.
  - simplify_eq. apply (effect_calls _ _ _ _ _ _ _ []); try done; simpl; lia.
  - destruct (act_ok_next _ _ _ _ Ha) as (He & Hn & Hfs). destruct (is_dot name) eqn:Edot.
    + simplify_eq. apply (effect_calls _ _ _ _ _ _ _ [A_entries dn es]); try done; [by constructor|].
      rewrite Hfs. simpl. by rewrite app_nil_r.
    + destruct Hn as [Hmk Hf]; [done|]. rewrite Hmk in Hrun. destruct ok; [|destruct may_fail eqn:Em]; simplify_eq.
      * by apply effect_fork.
      * apply (effect_calls _ _ _ _ _ _ _ [A_list_file (join dn name) n; A_entries dn es]); try done;
          [by apply Forall_cons_2; [|apply Forall_singleton]|congruence|].
        rewrite Hfs. simpl. by rewrite app_nil_r.
Qed.

(** ** The invariant *)

Record fk_inv (all : list string) (s : fk) : Prop := {
  fi_acts : Forall (fun p => Forall act_ok (stack p)) (procs s);
  fi_tree : tree (procs s);
  fi_neat : may_fail = false -> Forall neat (procs s);
  fi_lines : may_fail = false ->
    (concat (map nonempty (file s)) ++ concat (map owed (procs s)))%list ≡ₚ all;
}.

Lemma run_inv all i p s s' : fk_inv all s -> procs s !! i = Some p -> stat_of p = PRun ->
  effect i p s s' -> fk_inv all s'.
Proof.
  intros [Ha Ht Hn Hl] Hp Hst [(p' & cs & pieces & Ep & Ef & Hpar & Hz & Hr & Hacts & Hcs & Hlen & Hown)].
  assert (forall q, stat_of q <> PZombie -> stat_of q <> PReaped -> ~ ended q) as Hne.
  { intros q H1 H2 He. unfold ended in He. by destruct (stat_of q). }
  assert (tree (<[i := p']> (procs s))) as Ht'.
  { eapply tree_set; [done|done|congruence|done|done|]. intros He. by destruct (Hne p'). }
  split; rewrite ?Ep.
  - apply Forall_app. split; [by apply Forall_insert|].
    apply (Forall_impl _ _ _ Hcs). by intros c (_ & _ & _ & _ & ?).
  - destruct cs as [|c [|c' cs]]; [by rewrite app_nil_r| |simpl in Hlen; lia].
    apply Forall_cons in Hcs as [(_ & Hcs & Hcp & _) _].
    apply (tree_spawn _ i p'); [done| |by apply Hne|done|congruence].
    apply list_lookup_insert_eq. by eapply lookup_lt_Some.
  - intros Hm. destruct (Hown Hm (Forall_lookup_1 _ _ _ _ (Hn Hm) Hp)) as (Hp' & Hc & _).
    apply Forall_app. split; [apply Forall_insert; auto|done].
  - intros Hm. destruct (Hown Hm (Forall_lookup_1 _ _ _ _ (Hn Hm) Hp)) as (_ & _ & Hperm).
    rewrite Ef, map_app, concat_app, map_app, concat_app, app_assoc.
    pose proof (move_to_pile owed (procs s) i p p' (concat (map nonempty (file s)))
      (concat (map nonempty pieces) ++ concat (map owed cs))%list all Hp (Hl Hm)) as H.
    rewrite <- H.
    + rewrite <- !app_assoc. do 2 apply Permutation_app_head. apply Permutation_app_comm.
    + rewrite <- Hperm, <- app_assoc. apply Permutation_app_head, Permutation_app_comm.
Qed.

Lemma wait_inv all i p s s' : fk_inv all s -> procs s !! i = Some p -> stat_of p = PWait ->
  wait_proc i p s = Step s' -> fk_inv all s'.
Proof.
  intros [Ha Ht Hn Hl] Hp Hst Hw. unfold wait_proc in Hw.
  destruct (find_proc (child_in i is_zombie) _ _) as [j|] eqn:Ef.
  - apply find_child in Ef as (c & Hc & Hj & Hpar & Hz). rewrite Hc in Hw. simplify_eq.
    assert (stat_of c = PZombie) as Ec by (by destruct (stat_of c)).
    split; simpl.
    + apply Forall_insert; [done|]. by apply (Forall_lookup_1 _ _ _ _ Ha Hc).
    + eapply tree_set; [done|done|congruence|done|done|].
      intros _ k ch Hk Hch Hpc. destruct (tree_child _ Ht k ch Hk Hch) as (q & Hq & _ & He).
      rewrite Hpc in Hq. simplify_eq. apply He. unfold ended. by rewrite Ec.
    + intros Hm. apply Forall_insert; [auto|].
      destruct (Forall_lookup_1 _ _ _ _ (Hn Hm) Hc) as (H1 & H2 & H3).
      split; [done|]. split; [done|]. intros _. apply H3. by rewrite Ec.
    + intros Hm. rewrite <- (app_nil_r (concat (map nonempty (file s)))).
      apply (move_to_pile owed _ _ _ _ _ [] _ Hc (Hl Hm)). unfold owed. by rewrite Ec.
  - destruct (find_proc (child_in i not_reaped) _ _) eqn:Er; simplify_eq. split; simpl.
    + apply Forall_insert; [done|]. by apply (Forall_lookup_1 _ _ _ _ Ha Hp).
    + eapply tree_set; [done|done|congruence|done|done|].
      intros _ k ch Hk Hch Hpc. pose proof (find_no_child _ _ _ Er k ch Hk Hch Hpc) as H.
      by destruct (stat_of ch).
    + intros Hm. apply Forall_insert; [auto|].
      destruct (Forall_lookup_1 _ _ _ _ (Hn Hm) Hp) as (H1 & H2 & H3).
      split; [done|]. split; [done|]. intros _. apply H3. by rewrite Hst.
    + intros Hm. rewrite map_app, concat_app. simpl. rewrite app_nil_r.
      apply (move_to_pile owed _ _ _ _ _ _ _ Hp (Hl Hm)). unfold owed. rewrite Hst. simpl.
      by rewrite app_nil_r.
Qed.

Lemma fk_exec_inv all l s s' : fk_inv all s -> fk_exec l s = Step s' -> fk_inv all s'.
Proof.
  intros Hi. unfold fk_exec. destruct (procs s !! who l) as [p|] eqn:Hp; [|done].
  destruct (stat_of p) eqn:Hst; [|by eapply wait_inv|done|done].
  intros Hrun. eapply run_inv; [done..|]. eapply run_proc_effect; [done| |done].
  exact (Forall_lookup_1 _ _ _ _ (fi_acts _ _ Hi) Hp).
Qed.

(** The first process, about to list a directory. *)
Lemma fk_init_inv dirr n : act_ok (A_list_files dirr n) ->
  fk_inv (lines_of (act_files (A_list_files dirr n))) (fk_init dirr n).
Proof.
  intros Ha. split; simpl.
  - apply Forall_singleton. simpl. by apply Forall_singleton.
  - split; [by eexists|]. intros [|[|j]] p Hj Hp; [lia|done..].
  - intros _. apply Forall_singleton. split; [simpl; lia|]. by split; [left|].
  - intros _. unfold owed. simpl. by rewrite !app_nil_r.
Qed.

(** No process goes wrong, and if none can go on the first one has ended. *)
Lemma fk_inv_safe all s : fk_inv all s -> safe fk_exec s.
Proof.
  intros Hi l u. unfold fk_exec. destruct (procs s !! who l) as [p|] eqn:Hp; [|done].
  pose proof (Forall_lookup_1 _ _ _ _ (fi_acts _ _ Hi) Hp) as Ha. simpl in Ha.
  destruct (stat_of p); [by apply run_proc_goes| |done|done].
  unfold wait_proc. destruct (find_proc (child_in _ is_zombie) _ _); [by case_match|].
  by destruct (find_proc _ _ _).
Qed.

(** Somewhere there is a last process that has not ended. *)
Lemma last_active (ps : list proc) (i : nat) p : ps !! i = Some p -> ~ ended p ->
  exists k q, ps !! k = Some q /\ ~ ended q /\ forall j c, (k < j)%nat -> ps !! j = Some c -> ended c.
Proof.
  revert i p. induction ps as [|x ps IH] using rev_ind; intros i p Hp Hn; [done|].
  destruct (stat_of x) eqn:Ex.
  1, 2: exists (length ps), x; (split; [by apply list_lookup_middle|]);
    (split; [intros He; unfold ended in He; by rewrite Ex in He|]); intros j c Hj Hc; apply lookup_lt_Some in Hc;
    rewrite length_app in Hc; simpl in Hc; lia.
  all: apply lookup_app_Some in Hp as [Hp|[Hlen Hp]];
    [|destruct (i - length ps)%nat; [|done]; simplify_eq/=; destruct Hn; unfold ended; by rewrite Ex].
  all: destruct (IH i p Hp Hn) as (k & q & Hq & Hqn & Hrest); exists k, q;
    (split; [by apply lookup_app_l_Some|]); (split; [done|]); intros j c Hj Hc;
    apply lookup_app_Some in Hc as [Hc|[_ Hc]]; [by eapply Hrest|];
    destruct (j - length ps)%nat; [|done]; simplify_eq/=; unfold ended; by rewrite Ex.
Qed.

Lemma fk_stuck_ended all s : fk_inv all s -> stuck fk_exec s -> Forall ended (procs s).
Proof.
  intros Hi Hst. apply Forall_lookup. intros i p Hp.
  assert (ended p \/ ~ ended p) as [He|Hne] by (unfold ended; destruct (stat_of p); auto); [done|exfalso].
  destruct (last_active _ _ _ Hp Hne) as (k & q & Hq & Hqn & Hrest).
  specialize (Hst (Lbl k true)). unfold ForkList.fk_exec in Hst. simpl in Hst. rewrite Hq in Hst.
  pose proof (Forall_lookup_1 _ _ _ _ (fi_acts _ _ Hi) Hq) as Ha. simpl in Ha.
  destruct (stat_of q) eqn:Eq; [| |by destruct Hqn; unfold ended; rewrite Eq..].
  - destruct (run_proc_goes k q s Ha) as [[s' E] _]. by rewrite E in Hst.
  - unfold wait_proc in Hst. destruct (find_proc (child_in k is_zombie) _ _) as [j|] eqn:Ez.
    { apply find_child in Ez as (c & Hc & _). by rewrite Hc in Hst. }
    destruct (find_proc (child_in k not_reaped) _ _) as [j|] eqn:Er; [|done].
    apply find_child in Er as (c & Hc & Hj & Hpar & Hr).
    pose proof (find_no_child _ _ _ Ez j c Hj Hc Hpar) as Hnz.
    destruct (tree_child _ (fi_tree _ _ Hi) j c Hj Hc) as (q' & _ & Hlt & _). rewrite Hpar in Hlt.
    specialize (Hrest j c Hlt Hc). unfold ended in Hrest. by destruct (stat_of c).
Qed.
End Steps.

(** ** Properties *)

(** The processes come to an end: whatever the order of their steps and
    whichever calls of [fork] fail, a listing takes no more steps than its weight,
    which is fixed by the tree. *)
Theorem fork_listing_terminates tz cond d tty may_fail dirr n ls s
  (Hr : run (fk_exec tz cond d tty may_fail) ls (fk_init dirr n) = Some s) :
  (length ls <= 3 + act_weight (A_list_files dirr n))%nat.
Proof.
  apply run_weight in Hr. unfold total_weight, fk_init, proc_weight in Hr. simpl in *. lia.
Qed.

Section Listing.
Context (tz : Z -> Z) (cond : cond_t) (d : date) (tty may_fail : bool).
Context (dirr : string) (sb : stat) (dir : option (list (string * node))).
#[local] Abbreviation root := (Node (Some sb) dir).

Lemma root_ok : dirr <> "" -> S_ISDIR (st_mode sb) = true -> fits dirr root = true ->
  times_ok tz (files S_ISREG dirr root) ->
  act_ok tz (A_list_files dirr root) /\ act_files (A_list_files dirr root) = files S_ISREG dirr root.
Proof.
  intros Hp Hdir Hf Ht. destruct (act_ok_dir tz dirr sb dir Hdir) as [H1 H2]; [done|].
  split; [done|]. by rewrite <- H2.
Qed.

(** C26.  No process goes wrong, and no process is left behind: in every
    order of the steps, even if calls of [fork] fail, nothing is undefined, and
    when no process can go on the first one has ended and all others have ended
    and been waited for. *)
Theorem fork_listing_leaves_no_process s
  (Hd : date_ok d) (Hp : dirr <> "") (Hdir : S_ISDIR (st_mode sb) = true)
  (Hf : fits dirr root = true) (Ht : times_ok tz (files S_ISREG dirr root))
  (Hs : reach (fk_exec tz cond d tty may_fail) (fk_init dirr root) s) :
  safe (fk_exec tz cond d tty may_fail) s /\
  (stuck (fk_exec tz cond d tty may_fail) s ->
   forall i p, procs s !! i = Some p -> stat_of p = if decide (i = 0)%nat then PZombie else PReaped).
Proof.
  destruct (root_ok Hp Hdir Hf Ht) as [Ha _].
  assert (fk_inv tz cond d may_fail (lines_of tz cond d (act_files (A_list_files dirr root))) s) as Hi.
  { revert Hs. apply (reach_inv _ (fk_inv tz cond d may_fail _)); [by apply fk_init_inv|].
    intros l s1 s2 H1 H2. by eapply fk_exec_inv. }
  split; [by eapply fk_inv_safe|]. intros Hst i p Hpi.
  pose proof (fk_stuck_ended _ _ _ _ _ Hd _ _ Hi Hst) as He.
  destruct (tree_root _ (fi_tree _ _ _ _ _ _ Hi)) as (p0 & H0 & Hr0).
  pose proof (Forall_lookup_1 _ _ _ _ He H0) as He0. simpl in He0. destruct (decide (i = 0%nat)) as [->|Hne].
  - assert (p0 = p) as -> by congruence. unfold ended in He0. by destruct (stat_of p).
  - eapply tree_all_done; [apply Hi|exact H0|exact He0| |exact Hpi]. lia.
Qed.

(** C2.  The processes print what one process would: if no call of [fork]
    fails, then in every order of the steps, to a terminal or to a file, what is in
    the end written is the lines of the sequential listing of cw02, each of them
    once and in one piece, in some order. *)
Theorem fork_listing_prints_all s
  (Hd : date_ok d) (Hp : dirr <> "") (Hdir : S_ISDIR (st_mode sb) = true)
  (Hf : fits dirr root = true) (Ht : times_ok tz (files S_ISREG dirr root))
  (Hs : reach (fk_exec tz cond d tty false) (fk_init dirr root) s)
  (Hst : stuck (fk_exec tz cond d tty false) s) :
  exists lines w,
    list_files tz cond d dirr root (Io "" []) = Done tt w /\ stdout w = cat lines /\
    concat (map nonempty (file s)) ≡ₚ lines.
Proof.
  destruct (root_ok Hp Hdir Hf Ht) as [Ha Efs].
  exists (lines_of tz cond d (files S_ISREG dirr root)).
  assert (fk_inv tz cond d false (lines_of tz cond d (act_files (A_list_files dirr root))) s) as Hi.
  { revert Hs. apply (reach_inv _ (fk_inv tz cond d false _)); [by apply fk_init_inv|].
    intros l s1 s2 H1 H2. by eapply fk_exec_inv. }
  eexists. split; [|split].
  - assert (list_files tz cond d dirr root (Io "" []) = list_file tz cond d dirr root (Io "" [])) as ->
      by (simpl; by rewrite Hdir). by apply list_file_emit.
  - done.
  - rewrite <- Efs. rewrite <- (fi_lines _ _ _ _ _ _ Hi eq_refl).
    pose proof (fk_stuck_ended _ _ _ _ _ Hd _ _ Hi Hst) as He.
    rewrite (concat_map_nil (owed tz cond d)), app_nil_r; [done|]. apply (Forall_impl _ _ _ He).
    intros p. unfold ended, owed. by destruct (stat_of p).
Qed.
End Listing.

(** ** Small listings *)

Definition old_dir : node := demo_dir [("a", Node (Some (Stat 33188 0 1)) None); ("l", Node (Some (Stat 41471 0 3)) None)].

(** The first process lists [a] by itself, because [fork] fails, and then makes
    a child for the link: the child takes a copy of the line along, and both write
    it. *)
Definition duplicating_schedule : list fk_label :=
  [Lbl 0 true; Lbl 0 false; Lbl 0 true; Lbl 0 true; Lbl 0 true; Lbl 0 true;
   Lbl 1 true; Lbl 1 true; Lbl 1 true; Lbl 0 true; Lbl 0 true].

(** When a call of [fork] fails, and the output goes to a file, a line
    can be written twice: the process goes on by itself with the line in its
    buffer, and the next child inherits the buffer. *)
Theorem failed_fork_duplicates_line :
  exists s,
    reach (fk_exec cet LT demo_date false true) (fk_init "/d" old_dir) s /\
    stuck (fk_exec cet LT demo_date false true) s /\
    let line := "rw-r--r-- 1970-01-01        1 /d/a" ++ nl in file s = [line; line].
Proof.
  destruct (run (fk_exec cet LT demo_date false true) duplicating_schedule (fk_init "/d" old_dir))
    as [s|] eqn:E; [|by vm_compute in E].
  exists s. split; [by eapply run_reachable|]. vm_compute in E. injection E as <-.
  split; [|by vm_compute]. by intros [[|[|i]] ok].
Qed.

(** The two children and the first process one after the other. *)
Definition demo_forks : list fk_label :=
  [Lbl 0 true; Lbl 0 true; Lbl 0 true; Lbl 0 true; Lbl 0 true;
   Lbl 1 true; Lbl 1 true; Lbl 1 true; Lbl 2 true; Lbl 2 true; Lbl 2 true;
   Lbl 0 true; Lbl 0 true; Lbl 0 true].
Definition demo_listed (may_fail : bool) : fk :=
  match run (fk_exec cet LT demo_date false may_fail) demo_forks (fk_init "/d" old_dir) with
  | Some s => s
  | None => fk_init "/d" old_dir
  end.

Lemma demo_forks_run may_fail :
  run (fk_exec cet LT demo_date false may_fail) demo_forks (fk_init "/d" old_dir) = Some (demo_listed may_fail).
Proof. destruct may_fail; by vm_compute. Qed.

Lemma demo_forks_stuck may_fail : stuck (fk_exec cet LT demo_date false may_fail) (demo_listed may_fail).
Proof. destruct may_fail; by intros [[|[|[|i]]] ok]. Qed.

Lemma old_times : times_ok cet (files S_ISREG "/d" old_dir).
Proof. repeat constructor. Qed.

Lemma fork_listing_terminates_witness :
  (length demo_forks <= 3 + act_weight (A_list_files "/d" old_dir))%nat.
Proof.
  exact (fork_listing_terminates cet LT demo_date false true "/d" old_dir demo_forks _ (demo_forks_run true)).
Defined.

Lemma fork_listing_leaves_no_process_witness :
  safe (fk_exec cet LT demo_date false true) (demo_listed true).
Proof.
  refine (proj1 (fork_listing_leaves_no_process cet LT demo_date false true "/d" (Stat 16877 late_evening 4096) _
    (demo_listed true) demo_date_ok _ _ _ old_times _)); [done|reflexivity|reflexivity|].
  exact (run_reachable _ _ _ _ (demo_forks_run true)).
Defined.

Lemma fork_listing_prints_all_witness :
  exists lines w,
    list_files cet LT demo_date "/d" old_dir (Io "" []) = Done tt w /\ stdout w = cat lines /\
    concat (map nonempty (file (demo_listed false))) ≡ₚ lines.
Proof.
  refine (fork_listing_prints_all cet LT demo_date false "/d" (Stat 16877 late_evening 4096) _
    (demo_listed false) demo_date_ok _ _ _ old_times _ (demo_forks_stuck false)); [done|reflexivity|reflexivity|].
  exact (run_reachable _ _ _ _ (demo_forks_run false)).
Defined.
