(* ===== verification/Permits.v ===== *)
(** The parent and the children of cw04/zad2 (main.c, children.c), which ask for
    permission to end with signals.

    A process is what the signals make of it: a standard signal is pending or
    not, however often it was sent, and carries the sender of the first one;
    the handler runs when its process is between two calls.  The real-time
    signals, which the parent only reports, and its reports are left out. *)
From S2P Require Import Prelude CString.
#[local] Open Scope Z_scope.

Inductive chld_state := RUNNING | REQUESTED | TERMINATED.
#[export] Instance chld_state_eq_dec : EqDecision chld_state.
Proof. solve_decision. Defined.

(** A child: in [children_main] up to [kill(getppid(), SIGUSR1)]; in the loop of
    [pause]; with the permission (SIGUSR1) pending; ended; waited for. *)
Inductive child_pc := CH_start | CH_paused | CH_granted | CH_zombie (code : Z) | CH_reaped.

Record child := Child { ch_pid : Z; ch_pc : child_pc; ch_seconds : Z }.

(** The parent: at turn [i] of the loop that forks; about to store the pid it
    got; in the loop of [run]; ended. *)
Inductive parent_pc := P_fork (i : Z) | P_store (i pid : Z) | P_wait | P_exit (code : Z).

(** [children] and [children_states] are arrays of the stack: their elements
    are indeterminate until they are stored.  [pending]: SIGUSR1 for the parent,
    with its sender.  [lost] counts the requests that found one pending. *)
Record sys := Sys {
  ppc : parent_pc;
  request_count : Z;
  children : list (option Z);
  children_states : list chld_state;
  pending : option Z;
  procs : list child;
  lost : Z;
}.

Inductive sig_label :=
  | L_parent (fork_ok : bool) (pid seconds : Z)   (* its next call; the pid and the delay of a child it forks *)
  | L_wait (j : nat)                              (* [wait] returns for process [j] *)
  | L_usr1                                        (* usr1_handler *)
  | L_int                                         (* SIGINT arrives: int_handler *)
  | L_child (j : nat).                            (* the next call of child [j] *)

Section Permits.
Context (children_count request_threshold : Z).
(** May SIGINT arrive? *)
Context (intr : bool).

Definition set_ppc x s := Sys x (request_count s) (children s) (children_states s) (pending s) (procs s) (lost s).
Definition set_count x s := Sys (ppc s) x (children s) (children_states s) (pending s) (procs s) (lost s).
Definition set_children x s := Sys (ppc s) (request_count s) x (children_states s) (pending s) (procs s) (lost s).
Definition set_states x s := Sys (ppc s) (request_count s) (children s) x (pending s) (procs s) (lost s).
Definition set_pending x s := Sys (ppc s) (request_count s) (children s) (children_states s) x (procs s) (lost s).
Definition set_procs x s := Sys (ppc s) (request_count s) (children s) (children_states s) (pending s) x (lost s).
Definition set_lost x s := Sys (ppc s) (request_count s) (children s) (children_states s) (pending s) (procs s) x.

Definition goto (c : child) (pc : child_pc) : child := Child (ch_pid c) pc (ch_seconds c).

(** [children[i]] *)
Definition child_at (i : Z) : cm sys Z :=
  cs ← gets children;
  c ← lift UB_bounds (aget cs i);
  lift UB_uninit c.
Definition state_at (i : Z) : cm sys chld_state := st ← gets children_states; lift UB_bounds (aget st i).
Definition set_state (i : Z) (x : chld_state) : cm sys unit :=
  st ← gets children_states;
  st ← lift UB_bounds (aset st i x);
  modify (set_states st).

(** [kill(pid, SIGUSR1)] and [kill(pid, SIGKILL)] of a child: nothing happens
    to one that has ended.  (No permission is sent to a child that has not asked;
    the invariant of [PermitsSpec] says so.) *)
Definition grant (c : child) : child :=
  match ch_pc c with CH_start | CH_paused => goto c CH_granted | _ => c end.
Definition sigkill (c : child) : child :=
  match ch_pc c with CH_start | CH_paused | CH_granted => goto c (CH_zombie 0) | _ => c end.
Definition kill (f : child -> child) (pid : Z) : cm sys unit :=
  modify (fun s => set_procs (map (fun c => if ch_pid c =? pid then f c else c) (procs s)) s).

(** The loops of the handlers over the children. *)
Definition for_children (body : Z -> cm sys unit) : cm sys unit :=
  for_range (Z.to_nat children_count) 0 body.

Definition mark_requested (sender : Z) : cm sys unit :=
  for_children (fun i =>
    c ← child_at i;
    if c =? sender then set_state i REQUESTED else mret tt).

Definition give_permissions : cm sys unit :=
  for_children (fun i =>
    st ← state_at i;
    if decide (st = REQUESTED) then
      set_state i RUNNING ;;
      c ← child_at i;
      kill grant c
    else mret tt).

Definition usr1_handler (sender : Z) : cm sys unit :=
  n ← gets request_count;
  n ← int_op (n + 1);
  modify (set_count n) ;;
  mark_requested sender ;;
  if n <? request_threshold then mret tt else give_permissions.

Definition int_handler : cm sys unit :=
  for_children (fun i =>
    st ← state_at i;
    if decide (st = TERMINATED) then mret tt
    else
      set_state i TERMINATED ;;
      c ← child_at i;
      kill sigkill c) ;;
  modify (set_ppc (P_exit 0)).

Definition all_children_terminated (s : sys) : bool :=
  forallb (fun st => bool_decide (st = TERMINATED)) (take (Z.to_nat children_count) (children_states s)).

(** [run]: a child that [wait] returned, or the error when there is none. *)
Definition mark_terminated (pid : Z) : cm sys unit :=
  for_children (fun i =>
    c ← child_at i;
    if c =? pid then set_state i TERMINATED else mret tt).

Definition after_wait (pid : Z) : cm sys unit :=
  mark_terminated pid ;;
  s ← get;
  if all_children_terminated s then modify (set_ppc (P_exit 0)) else mret tt.

Definition waited_for (c : child) : bool := match ch_pc c with CH_reaped => true | _ => false end.

(** The next call of [main] and of [run]. *)
Definition parent_step (fork_ok : bool) (pid seconds : Z) (s : sys) : sres sys :=
  match ppc s with
  | P_fork i =>
      if i <? children_count then
        if fork_ok then
          Step (set_ppc (P_store i pid) (set_procs (procs s ++ [Child pid CH_start seconds]) s))
        else Step s
      else Step (set_ppc P_wait s)
  | P_store i p =>
      match aset (children s) i (Some p) with
      | Some cs => Step (set_ppc (P_fork (i + 1)) (set_children cs s))
      | None => Fault UB_bounds
      end
  | P_wait => if forallb waited_for (procs s) then Step (set_ppc (P_exit 0) s) else Blocked
  | P_exit _ => Blocked
  end.

(** What a piece of the parent's code makes of the system. *)
Definition parent_runs (m : cm sys unit) (s : sys) : sres sys :=
  match m s with Done _ s' => Step s' | Undef u => Fault u | _ => Blocked end.

Definition is_exit (pc : parent_pc) : bool := match pc with P_exit _ => true | _ => false end.

(** The calls of a child that matter: the request, and the end in its
    [usr1_handler], which fails if the parent is gone. *)
Definition child_step (j : nat) (c : child) (s : sys) : sres sys :=
  match ch_pc c with
  | CH_start =>
      let s' := set_procs (<[j := goto c CH_paused]> (procs s)) s in
      match pending s with
      | None => Step (set_pending (Some (ch_pid c)) s')
      | Some _ => Step (set_lost (lost s + 1) s')
      end
  | CH_granted =>
      let code := if is_exit (ppc s) then 255 else ch_seconds c in
      Step (set_procs (<[j := goto c (CH_zombie code)]> (procs s)) s)
  | CH_paused | CH_zombie _ | CH_reaped => Blocked
  end.

Definition sig_exec (l : sig_label) (s : sys) : sres sys :=
  match l with
  | L_parent ok pid seconds => parent_step ok pid seconds s
  | L_wait j =>
      match ppc s, procs s !! j with
      | P_wait, Some c =>
          match ch_pc c with
          | CH_zombie _ =>
              parent_runs (after_wait (ch_pid c)) (set_procs (<[j := goto c CH_reaped]> (procs s)) s)
          | _ => Blocked
          end
      | _, _ => Blocked
      end
  | L_usr1 =>
      match pending s with
      | Some sender => if is_exit (ppc s) then Blocked else parent_runs (usr1_handler sender) (set_pending None s)
      | None => Blocked
      end
  | L_int => if intr && negb (is_exit (ppc s)) then parent_runs int_handler s else Blocked
  | L_child j => match procs s !! j with Some c => child_step j c s | None => Blocked end
  end.

(** [main], when the arrays are there and [children_states] is filled. *)
Definition sig_start : sys :=
  Sys (P_fork 0) 0 (replicate (Z.to_nat children_count) None)
    (replicate (Z.to_nat children_count) RUNNING) None [] 0.
End Permits.

(** [main] with its arguments: it returns 1, exits with -1, or starts with a
    number of children and a threshold; the arrays need a positive size. *)
Definition sig_main (argv : list string) : cm unit (Z + Z * Z * sys) :=
  match argv with
  | [_; a1; a2; _] =>
      children_count ← atoi a1;
      request_threshold ← atoi a2;
      if children_count <? request_threshold then exit_ 255
      else
        check (0 <? children_count) UB_bounds ;;
        mret (inr (children_count, request_threshold, sig_start children_count))
  | _ => mret (inl 1)
  end.
