(* ===== verification/PermitsSpec.v ===== *)
(** What the signals of [Permits.v] achieve: the table of children matches what
    they do, no child ends before enough requests have arrived, and the parent
    ends with its children unless a request was lost; when one is, it can wait
    forever. *)
From S2P Require Import Prelude CString Permits.
#[local] Open Scope Z_scope.

(** ** The loops of the handlers *)

Section Loops.
Context (children_count request_threshold : Z).

(** The arrays are filled, with distinct pids. *)
Record filled (s : sys) : Prop := {
  fl_children : children s = map (fun c => Some (ch_pid c)) (procs s);
  fl_procs : length (procs s) = Z.to_nat children_count;
  fl_states : length (children_states s) = Z.to_nat children_count;
  fl_pids : NoDup (map ch_pid (procs s));
}.

Lemma child_at_ok s i c : filled s -> procs s !! i = Some c -> child_at (Z.of_nat i) s = Done (ch_pid c) s.
Proof.
  intros Hf Hc. unfold child_at. cm_step. rewrite aget_nat, (fl_children s Hf), list_lookup_fmap, Hc.
  by repeat cm_step.
Qed.

Lemma set_state_ok s i x : filled s -> (i < Z.to_nat children_count)%nat ->
  set_state (Z.of_nat i) x s = Done tt (set_states (<[i := x]> (children_states s)) s).
Proof.
  intros Hf Hi. unfold set_state. cm_step. rewrite aset_ok by (rewrite (fl_states s Hf); lia).
  rewrite Nat2Z.id. by repeat cm_step.
Qed.

Lemma filled_states s l : filled s -> length l = length (children_states s) -> filled (set_states l s).
Proof. intros [H1 H2 H3 H4] Hl. split; simpl; congruence. Qed.

(** Looking for a pid in the table and setting its state. *)
Lemma mark_spec s i c x : filled s -> procs s !! i = Some c ->
  for_children children_count (fun k =>
    p ← child_at k; if p =? ch_pid c then set_state k x else mret tt) s =
  Done tt (set_states (<[i := x]> (children_states s)) s).
Proof.
  intros Hf Hc. assert (i < Z.to_nat children_count)%nat as Hi.
  { rewrite <- (fl_procs s Hf). by eapply lookup_lt_Some. }
  unfold for_children. apply wp_unit_eq.
  apply (wp_mono _ (fun _ s' => s' = if Z.of_nat i <? 0 + Z.of_nat (Z.to_nat children_count)
      then set_states (<[i := x]> (children_states s)) s else s) _ (fun _ _ => False));
    [|intros _ s' ->; destruct (Z.ltb_spec (Z.of_nat i) (0 + Z.of_nat (Z.to_nat children_count))); [done|lia]|done].
  apply (wp_for_range_idx (fun k s' => s' = if Z.of_nat i <? k
      then set_states (<[i := x]> (children_states s)) s else s)); [|by replace (Z.of_nat i <? 0) with false by lia].
  intros k s' Hk ->.
  destruct (lookup_lt_is_Some_2 (procs s) (Z.to_nat k)) as [ck Hck]; [rewrite (fl_procs s Hf); lia|].
  assert (ch_pid ck = ch_pid c <-> Z.to_nat k = i) as Hpid.
  { split; [|by intros <-; rewrite Hc in Hck; simplify_eq].
    intros E. apply (NoDup_lookup _ _ _ (ch_pid c) (fl_pids s Hf)); rewrite list_lookup_fmap;
      [by rewrite Hck; simpl; rewrite E|by rewrite Hc]. }
  set (s1 := if Z.of_nat i <? k then _ else _).
  assert (filled s1) as Hf1.
  { unfold s1. case_match; [|done]. apply filled_states; [done|apply length_insert]. }
  assert (procs s1 = procs s) as Ep by (unfold s1; by case_match).
  apply wp_bind. eapply wp_done.
  { replace k with (Z.of_nat (Z.to_nat k)) at 1 by lia. apply child_at_ok; [done|]. by rewrite Ep. }
  destruct (Z.eqb_spec (ch_pid ck) (ch_pid c)) as [E|E].
  - apply Hpid in E. eapply wp_done.
    { replace k with (Z.of_nat i) by lia. by apply set_state_ok. }
    unfold s1. replace (Z.of_nat i <? k) with false by lia. by replace (Z.of_nat i <? k + 1) with true by lia.
  - unfold wp, mret, cm_ret, s1. destruct (Z.ltb_spec (Z.of_nat i) k), (Z.ltb_spec (Z.of_nat i) (k + 1)); try done.
    all: destruct E; apply Hpid; lia.
Qed.

(** A child and its state. *)
#[local] Abbreviation cell := (chld_state * child)%type.
Definition cells (s : sys) : list cell := zip (children_states s) (procs s).

Definition permit (x : cell) : cell :=
  let '(st, c) := x in if decide (st = REQUESTED) then (RUNNING, grant c) else (st, c).

Lemma grant_pid c : ch_pid (grant c) = ch_pid c.
Proof. unfold grant. by destruct (ch_pc c). Qed.

Lemma permit_pid x : ch_pid (permit x).2 = ch_pid x.2.
Proof. destruct x as [st c]. simpl. case_decide; [apply grant_pid|done]. Qed.

(** The tables after the first [k] turns of the loop that gives permissions. *)
Record permitted (s : sys) (k : Z) (s' : sys) : Prop := {
  pm_procs : length (procs s') = length (procs s);
  pm_states : length (children_states s') = length (children_states s);
  pm_cell j st c : children_states s !! j = Some st -> procs s !! j = Some c ->
    let x := if Z.of_nat j <? k then permit (st, c) else (st, c) in
    children_states s' !! j = Some x.1 /\ procs s' !! j = Some x.2;
  pm_ppc : ppc s' = ppc s;
  pm_count : request_count s' = request_count s;
  pm_pending : pending s' = pending s;
  pm_lost : lost s' = lost s;
  pm_children : children s' = children s;
}.

(** A child is there exactly if its state is. *)
Lemma filled_both s j : filled s -> (j < Z.to_nat children_count)%nat ->
  exists st c, children_states s !! j = Some st /\ procs s !! j = Some c.
Proof.
  intros Hf Hj. destruct (lookup_lt_is_Some_2 (procs s) j) as [c Hc]; [by rewrite (fl_procs s Hf)|].
  destruct (lookup_lt_is_Some_2 (children_states s) j) as [st Hst]; [by rewrite (fl_states s Hf)|]. eauto.
Qed.

Lemma permitted_filled s k s' : filled s -> permitted s k s' -> filled s'.
Proof.
  intros Hf [H1 H2 H3 _ _ _ _ H4].
  assert (map ch_pid (procs s') = map ch_pid (procs s)) as E.
  { apply (list_eq_same_length _ _ (length (procs s))); rewrite ?length_map; [done..|].
    intros j x y Hj Hx Hy. rewrite list_lookup_fmap in Hx, Hy.
    destruct (filled_both s j Hf) as (st & c & Hst & Hc); [by rewrite <- (fl_procs s Hf)|].
    destruct (H3 j st c Hst Hc) as [_ Hp]. rewrite Hp in Hx. rewrite Hc in Hy. simplify_eq/=.
    case_match; [apply (permit_pid (st, c))|done]. }
  split; [|by rewrite H1; apply Hf|by rewrite H2; apply Hf|rewrite E; apply Hf].
  assert (forall l, map (fun c => Some (ch_pid c)) l = map Some (map ch_pid l)) as Em
    by (intros l; by rewrite map_map).
  by rewrite H4, (fl_children s Hf), !Em, E.
Qed.

(** One turn. *)
Lemma permit_turn s k s' : filled s -> 0 <= k < 0 + Z.of_nat (Z.to_nat children_count) -> permitted s k s' ->
  wp (st ← state_at k;
      if decide (st = REQUESTED) then set_state k RUNNING ;; c ← child_at k; kill grant c else mret tt)
     (fun _ => permitted s (k + 1)) (fun _ _ => False) s'.
Proof.
  intros Hf Hk Hp. pose proof (permitted_filled _ _ _ Hf Hp) as Hf'.
  set (i := Z.to_nat k). assert (k = Z.of_nat i) as Ek by (unfold i; lia).
  assert (i < Z.to_nat children_count)%nat as Hi by (unfold i; lia).
  destruct (filled_both s i Hf Hi) as (st & c & Hst & Hc).
  destruct (pm_cell _ _ _ Hp i st c Hst Hc) as [Hst' Hc'].
  replace (Z.of_nat i <? k) with false in Hst', Hc' by lia. simpl in Hst', Hc'.
  assert (forall j, (Z.of_nat j <? k + 1) = if decide (j = i) then true else (Z.of_nat j <? k)) as Hlt
    by (intros j; case_decide; lia).
  apply wp_bind. eapply wp_done.
  { unfold state_at. cm_step. rewrite Ek, aget_nat, Hst'. by repeat cm_step. }
  case_decide as Hreq.
  - subst st. apply wp_bind. eapply wp_done; [rewrite Ek; by apply set_state_ok|].
    apply wp_bind. eapply wp_done; [rewrite Ek; apply child_at_ok; [|exact Hc']|].
    { apply filled_states; [done|apply length_insert]. }
    unfold kill, modify, wp. destruct Hp as [H1 H2 H3 H4 H5 H6 H7 H8].
    split; simpl; rewrite ?length_insert, ?length_map; try done.
    intros j st c' Hj Hcj. destruct (H3 j st c' Hj Hcj) as [E1 E2]. rewrite Hlt.
    rewrite list_lookup_fmap, E2. case_decide as Hji.
    + subst j. simplify_eq. rewrite Z.ltb_irrefl || replace (Z.of_nat i <? k) with false by lia.
      rewrite list_lookup_insert_eq by (by eapply lookup_lt_Some). simpl.
      by rewrite Z.eqb_refl.
    + rewrite list_lookup_insert_ne by done. split; [done|].
      assert (ch_pid (if Z.of_nat j <? k then permit (st, c') else (st, c')).2 = ch_pid c') as Hpid
        by (case_match; [apply (permit_pid (st, c'))|done]).
      set (x := if Z.of_nat j <? k then permit (st, c') else (st, c')) in *. simpl. f_equal.
      destruct (Z.eqb_spec (ch_pid x.2) (ch_pid c)) as [E'|]; [|done].
      destruct Hji. apply (NoDup_lookup _ _ _ (ch_pid c) (fl_pids s Hf)); rewrite list_lookup_fmap; [|by rewrite Hc].
      rewrite Hcj. simpl. change (ch_pid x.2 = ch_pid c') in Hpid. congruence.
  - unfold wp, mret, cm_ret. destruct Hp as [H1 H2 H3 H4 H5 H6 H7 H8]. split; try done.
    intros j st' c' Hj Hcj. rewrite Hlt. case_decide as Hji; [|by apply H3].
    subst j. simplify_eq. simpl. case_decide; [done|]. by split.
Qed.

(** Everyone who asked gets a permission, and nobody else. *)
Lemma give_permissions_spec s : filled s ->
  exists s', give_permissions children_count s = Done tt s' /\ filled s' /\
    cells s' = map permit (cells s) /\ ppc s' = ppc s /\ request_count s' = request_count s /\
    pending s' = pending s /\ lost s' = lost s /\ children s' = children s.
Proof.
  intros Hf.
  assert (wp (give_permissions children_count) (fun _ => permitted s (0 + Z.of_nat (Z.to_nat children_count)))
            (fun _ _ => False) s) as Hwp.
  { apply (wp_for_range_idx (permitted s)).
    - intros k s' Hk Hp. by apply permit_turn.
    - split; try done. intros j st c Hst Hc. cbv zeta. by destruct (Z.ltb_spec (Z.of_nat j) 0); [lia|]. }
  unfold wp in Hwp. destruct (give_permissions children_count s) as [[] s'| | |]; try done.
  exists s'. split; [done|]. split; [by eapply permitted_filled|].
  destruct Hwp as [H1 H2 H3 H4 H5 H6 H7 H8]. split; [|done].
  unfold cells. apply (list_eq_same_length _ _ (Z.to_nat children_count)).
  - rewrite length_map, length_zip_with, (fl_procs s Hf), (fl_states s Hf). lia.
  - rewrite length_zip_with, H1, H2, (fl_procs s Hf), (fl_states s Hf). lia.
  - intros j x y Hj Hx Hy. destruct (filled_both s j Hf Hj) as (st & c & Hst & Hc).
    destruct (H3 j st c Hst Hc) as [E1 E2].
    assert ((Z.of_nat j <? 0 + Z.of_nat (Z.to_nat children_count)) = true) as Ej by (apply Z.ltb_lt; lia).
    rewrite Ej in E1, E2.
    rewrite lookup_zip_with, E1 in Hx. simpl in Hx. rewrite E2 in Hx. simpl in Hx.
    rewrite list_lookup_fmap, lookup_zip_with, Hst in Hy. simpl in Hy. rewrite Hc in Hy. simpl in Hy.
    simplify_eq. simpl. by case_decide.
Qed.

Lemma cells_lookup s i st c : children_states s !! i = Some st -> procs s !! i = Some c ->
  cells s !! i = Some (st, c).
Proof. intros H1 H2. unfold cells. by rewrite lookup_zip_with, H1; simpl; rewrite H2. Qed.

Lemma cells_inv s i st c : cells s !! i = Some (st, c) ->
  children_states s !! i = Some st /\ procs s !! i = Some c.
Proof.
  unfold cells. rewrite lookup_zip_with. destruct (children_states s !! i); [|done].
  simpl. destruct (procs s !! i); [|done]. simpl. by intros [= -> ->].
Qed.

Lemma cells_set_state s i x c : procs s !! i = Some c ->
  cells (set_states (<[i := x]> (children_states s)) s) = <[i := (x, c)]> (cells s).
Proof. intros Hc. unfold cells. simpl. by rewrite insert_zip_with, (list_insert_id (procs s)). Qed.

Lemma cells_set_proc s i c' st : children_states s !! i = Some st ->
  cells (set_procs (<[i := c']> (procs s)) s) = <[i := (st, c')]> (cells s).
Proof. intros Hst. unfold cells. simpl. by rewrite insert_zip_with, (list_insert_id (children_states s)). Qed.

(** The handler of a request that child [i] has made. *)
Lemma usr1_handler_spec s i c : filled s -> procs s !! i = Some c ->
  INT_MIN <= request_count s + 1 <= INT_MAX ->
  exists s', usr1_handler children_count request_threshold (ch_pid c) s = Done tt s' /\ filled s' /\
    request_count s' = request_count s + 1 /\ ppc s' = ppc s /\ pending s' = pending s /\ lost s' = lost s /\
    cells s' = (if request_count s + 1 <? request_threshold then fun l => l else map permit)
                 (<[i := (REQUESTED, c)]> (cells s)).
Proof.
  intros Hf Hc Hn. unfold usr1_handler.
  unfold mbind at 1, cm_bind at 1, gets at 1. unfold mbind at 1, cm_bind at 1. rewrite int_op_ok by done.
  unfold mbind at 1, cm_bind at 1, modify at 1. unfold mbind at 1, cm_bind at 1, mark_requested.
  assert (filled (set_count (request_count s + 1) s)) as Hf1 by (by destruct Hf).
  pose proof (mark_spec _ i c REQUESTED Hf1 Hc) as E0. cbn [procs set_count children_states] in E0. rewrite E0. clear E0.
  set (s1 := set_states _ _).
  assert (filled s1) as Hf2 by (apply filled_states; [done|apply length_insert]).
  assert (cells s1 = <[i := (REQUESTED, c)]> (cells s)) as Ec by exact (cells_set_state (set_count (request_count s + 1) s) i REQUESTED c Hc).
  destruct (request_count s + 1 <? request_threshold).
  - exists s1. by rewrite Ec.
  - destruct (give_permissions_spec s1 Hf2) as (s' & E & Hf' & Hc' & H1 & H2 & H3 & H4 & H5).
    exists s'. rewrite <- Ec. by rewrite E, Hc', H1, H2, H3, H4.
Qed.

(** ** Invariant *)

(** A child and its entry in the table. *)
Definition typed (n : Z) (x : cell) : Prop :=
  let '(st, c) := x in
  (st = REQUESTED -> n < request_threshold) /\
  match ch_pc c with
  | CH_start => st = RUNNING
  | CH_paused => st = REQUESTED \/ st = RUNNING
  | CH_granted | CH_zombie _ => st = RUNNING /\ request_threshold <= n
  | CH_reaped => st = TERMINATED /\ request_threshold <= n
  end.

(** Children that wait although their request is not in the table. *)
Definition unheard (x : cell) : bool :=
  match x with (RUNNING, c) => match ch_pc c with CH_paused => true | _ => false end | _ => false end.
Definition has_asked (x : cell) : bool := match ch_pc x.2 with CH_start => false | _ => true end.
Definition terminated (x : cell) : bool := bool_decide (x.1 = TERMINATED).

Definition in_flight (pend : option Z) : Z := match pend with Some _ => 1 | None => 0 end.

(** The table after [n] requests, with one possibly pending and some lost. *)
Record table_ok (n : Z) (l : list cell) (pend : option Z) (lost : Z) : Prop := {
  to_typed : Forall (typed n) l;
  to_pending p : pend = Some p -> exists i c, l !! i = Some (RUNNING, c) /\ ch_pid c = p /\ ch_pc c = CH_paused;
  to_unheard : Z.of_nat (countb unheard l) = lost + in_flight pend;
  to_asked : Z.of_nat (countb has_asked l) = n + lost + in_flight pend;
  to_lost : 0 <= lost /\ 0 <= n;
}.

Record sig_inv (s : sys) : Prop := {
  si_filled : filled s;
  si_pc : (ppc s = P_wait /\ forallb terminated (cells s) = false) \/
          (ppc s = P_exit 0 /\ forallb terminated (cells s) = true);
  si_table : table_ok (request_count s) (cells s) (pending s) (lost s);
}.

Lemma cells_length s : filled s -> length (cells s) = Z.to_nat children_count.
Proof. intros Hf. unfold cells. rewrite length_zip_with, (fl_procs s Hf), (fl_states s Hf). lia. Qed.

(** Changing child [i]. *)
Lemma cell_counts f (l : list cell) i x y : l !! i = Some x ->
  (countb f (<[i := y]> l) + (if f x then 1 else 0) = countb f l + (if f y then 1 else 0))%nat.
Proof. apply countb_insert. Qed.

Lemma typed_mono n n' x : n <= n' -> x.1 <> REQUESTED -> typed n x -> typed n' x.
Proof. destruct x as [st c]. simpl. intros Hn Hr [_ H]. split; [done|]. destruct (ch_pc c); intuition lia. Qed.
(** ** The steps keep the invariant *)

Context (Hcount : 0 < children_count <= INT_MAX).

Lemma permit_typed n x : typed n x -> n + 1 < request_threshold \/ typed (n + 1) (permit x).
Proof.
  destruct x as [st c]. intros [H1 H2]. destruct (Z.ltb_spec (n + 1) request_threshold); [by left|right].
  simpl. case_decide as E.
  - subst st. split; [done|]. unfold grant. destruct (ch_pc c) eqn:Epc; simpl; rewrite ?Epc; intuition (lia || congruence).
  - split; [done|]. destruct (ch_pc c); intuition (lia || congruence).
Qed.

Lemma permit_unheard n x : typed n x -> unheard (permit x) = unheard x.
Proof.
  destruct x as [st c]. intros [_ H]. simpl. case_decide as E; [|done]. subst st.
  unfold grant, unheard. destruct (ch_pc c) eqn:Epc; simpl; rewrite ?Epc; naive_solver.
Qed.

Lemma permit_has_asked n x : typed n x -> has_asked (permit x) = has_asked x.
Proof.
  destruct x as [st c]. intros [_ H]. simpl. case_decide as E; [|done]. subst st.
  unfold grant, has_asked. simpl. destruct (ch_pc c) eqn:Epc; simpl; rewrite ?Epc; naive_solver.
Qed.

Lemma permit_terminated x : terminated (permit x) = terminated x.
Proof. destruct x as [st c]. simpl. case_decide as E; [by subst|done]. Qed.

(** One entry is not a terminated child's: the table is not done. *)
Lemma not_all_terminated (l : list cell) i x : l !! i = Some x -> terminated x = false -> forallb terminated l = false.
Proof.
  intros Hi Hx. destruct (forallb terminated l) eqn:E; [|done].
  rewrite forallb_forall in E. rewrite <- Hx. symmetry. apply E.
  apply list_elem_of_In. by eapply list_elem_of_lookup_2.
Qed.

Lemma all_terminated_insert (l : list cell) i x y : l !! i = Some x -> terminated x = terminated y ->
  forallb terminated (<[i := y]> l) = forallb terminated l.
Proof.
  revert i. induction l as [|z l IH]; intros [|i] Hi E; [done..| |].
  - simpl in *. simplify_eq. by rewrite E.
  - simpl in *. by rewrite (IH i).
Qed.

(** The table as the code tests it. *)
Lemma all_terminated_cells s : filled s -> all_children_terminated children_count s = forallb terminated (cells s).
Proof.
  intros Hf. unfold all_children_terminated. rewrite take_ge by (rewrite (fl_states s Hf); lia).
  unfold cells. assert (length (children_states s) = length (procs s)) as E
    by (rewrite (fl_states s Hf), (fl_procs s Hf); done).
  revert E. generalize (procs s). induction (children_states s) as [|st l IH]; intros [|c cs] E; try done.
  simpl. simpl in E. rewrite (IH cs) by lia. done.
Qed.

(** What a step gives: it cannot be taken, or the invariant holds after it. *)
Definition steps_to_inv (r : sres sys) : Prop :=
  match r with Step s' => sig_inv s' | Blocked => True | Fault _ => False end.

Lemma filled_set_proc s i c c' : filled s -> procs s !! i = Some c -> ch_pid c' = ch_pid c ->
  filled (set_procs (<[i := c']> (procs s)) s).
Proof.
  intros [H1 H2 H3 H4] Hc Hp.
  assert (forall (B : Type) (f : Z -> B), map (fun c => f (ch_pid c)) (<[i := c']> (procs s)) = map (fun c => f (ch_pid c)) (procs s)) as E.
  { intros B f. rewrite (list_fmap_insert (fun c => f (ch_pid c))). simpl. rewrite Hp.
    apply list_insert_id. by rewrite list_lookup_fmap, Hc. }
  split; simpl; rewrite ?length_insert; try done.
  - by rewrite (E _ Some).
  - assert (map ch_pid (<[i := c']> (procs s)) = map ch_pid (procs s)) as -> by exact (E Z (fun x => x)). done.
Qed.

(** A child asks. *)
Lemma table_ask n l pend lost j c : table_ok n l pend lost -> l !! j = Some (RUNNING, c) -> ch_pc c = CH_start ->
  table_ok n (<[j := (RUNNING, goto c CH_paused)]> l)
    (match pend with None => Some (ch_pid c) | Some p => Some p end) (match pend with None => lost | Some _ => lost + 1 end).
Proof.
  intros [Ht Hp Hu Ha Hl] Hj Hpc. set (y := (RUNNING, goto c CH_paused)).
  pose proof (cell_counts unheard _ _ _ y Hj) as Cu. pose proof (cell_counts has_asked _ _ _ y Hj) as Ca.
  assert (unheard (RUNNING, c) = false /\ has_asked (RUNNING, c) = false) as [E1 E2]
    by (unfold unheard, has_asked; simpl; by rewrite Hpc).
  assert (unheard y = true /\ has_asked y = true) as [Y1 Y2] by done. rewrite E1, Y1 in Cu. rewrite E2, Y2 in Ca.
  assert (j < length l)%nat as Hlt by (by eapply lookup_lt_Some).
  split.
  - apply Forall_insert; [done|]. split; [done|by right].
  - intros p E. destruct pend as [p'|]; simplify_eq.
    + destruct (Hp p eq_refl) as (i & c1 & Hi & E3 & E4). exists i, c1.
      rewrite list_lookup_insert_ne by (intros ->; congruence). done.
    + exists j, (goto c CH_paused). by rewrite list_lookup_insert_eq.
  - destruct pend; cbn [in_flight] in *; lia.
  - destruct pend; cbn [in_flight] in *; lia.
  - destruct pend; lia.
Qed.

(** A child that does not wait changes, and not to one that does. *)
Lemma table_same n l pend lost j x y : table_ok n l pend lost -> l !! j = Some x -> ch_pc x.2 <> CH_paused ->
  typed n y -> unheard x = unheard y -> has_asked x = has_asked y -> table_ok n (<[j := y]> l) pend lost.
Proof.
  intros [Ht Hp Hu Ha Hl] Hj Hx Hy Eu Ea.
  pose proof (cell_counts unheard _ _ _ y Hj) as Cu. pose proof (cell_counts has_asked _ _ _ y Hj) as Ca.
  rewrite Eu in Cu. rewrite Ea in Ca. split; [by apply Forall_insert| |lia|lia|done].
  intros p E. destruct (Hp p E) as (i & c1 & Hi & E3 & E4). exists i, c1.
  rewrite list_lookup_insert_ne; [done|]. intros ->. rewrite Hi in Hj. by simplify_eq.
Qed.

(** The pending request is heard. *)
Lemma table_heard n l p lost i c : table_ok n l (Some p) lost -> l !! i = Some (RUNNING, c) -> ch_pc c = CH_paused ->
  table_ok (n + 1) ((if n + 1 <? request_threshold then fun l => l else map permit) (<[i := (REQUESTED, c)]> l)) None lost.
Proof.
  intros [Ht Hp Hu Ha Hl] Hi Hpc. cbn [in_flight] in Hu, Ha.
  pose proof (cell_counts unheard _ _ _ (REQUESTED, c) Hi) as Cu.
  pose proof (cell_counts has_asked _ _ _ (REQUESTED, c) Hi) as Ca.
  assert (unheard (RUNNING, c) = true /\ has_asked (RUNNING, c) = true /\ has_asked (REQUESTED, c) = true) as (E1 & E2 & E3)
    by (unfold unheard, has_asked; simpl; by rewrite Hpc).
  assert (unheard (REQUESTED, c) = false) as E4 by done.
  rewrite E1, E4 in Cu. rewrite E2, E3 in Ca.
  assert (Forall (fun x => forall b, b = (n + 1 <? request_threshold) ->
            typed (n + 1) (if b then x else permit x) /\ unheard (permit x) = unheard x /\ has_asked (permit x) = has_asked x)
            (<[i := (REQUESTED, c)]> l)) as H.
  { apply Forall_insert.
    - apply (Forall_impl _ _ _ Ht). intros x Hx b ->. split; [|by split; [eapply permit_unheard|eapply permit_has_asked]].
      destruct (Z.ltb_spec (n + 1) request_threshold); [|destruct (permit_typed n x Hx); [lia|done]].
      destruct (decide (x.1 = REQUESTED)) as [E|]; [|by apply (typed_mono n); [lia|..]].
      destruct x as [st c']. simpl in E. subst st. destruct Hx as [_ Hx]. split; [done|].
      destruct (ch_pc c'); intuition (lia || done).
    - intros b ->. assert (permit (REQUESTED, c) = (RUNNING, goto c CH_granted)) as -> by (unfold permit, grant; by rewrite Hpc).
      rewrite E3, E4. split; [|done].
      destruct (Z.ltb_spec (n + 1) request_threshold); [|by repeat split].
      split; [done|]. rewrite Hpc. by left. }
  set (l' := <[i := (REQUESTED, c)]> l) in *.
  assert (countb unheard (map permit l') = countb unheard l' /\ countb has_asked (map permit l') = countb has_asked l') as [Eu Ea].
  { rewrite !countb_map. split; apply countb_same, (Forall_impl _ _ _ H); intros x Hx; by apply (Hx _ eq_refl). }
  assert (Forall (typed (n + 1)) ((if n + 1 <? request_threshold then fun l => l else map permit) l')) as Ht'.
  { destruct (n + 1 <? request_threshold) eqn:E.
    - apply (Forall_impl _ _ _ H). intros x Hx. by apply (Hx true).
    - apply Forall_map, (Forall_impl _ _ _ H). intros x Hx. by apply (Hx false). }
  split; [done|done| | |lia]; destruct (n + 1 <? request_threshold); cbn [in_flight]; lia.
Qed.
Lemma terminated_all (l : list cell) i x : forallb terminated l = true -> l !! i = Some x -> x.1 = TERMINATED.
Proof.
  intros H Hi. rewrite forallb_forall in H. apply (bool_decide_eq_true_1 (x.1 = TERMINATED)), H, list_elem_of_In.
  by eapply list_elem_of_lookup_2.
Qed.

Lemma waits s i st c : sig_inv s -> cells s !! i = Some (st, c) -> st <> TERMINATED -> ppc s = P_wait.
Proof.
  intros [_ [[Hp _]|[_ Ht]] _] Hi Hst; [done|]. by pose proof (terminated_all _ _ _ Ht Hi).
Qed.

Lemma child_cell s j c : filled s -> procs s !! j = Some c -> exists st, cells s !! j = Some (st, c) /\ children_states s !! j = Some st.
Proof.
  intros Hf Hc. destruct (lookup_lt_is_Some_2 (children_states s) j) as [st Hst].
  { rewrite (fl_states s Hf), <- (fl_procs s Hf). by eapply lookup_lt_Some. }
  exists st. split; [by apply cells_lookup|done].
Qed.

(** A step that changes one child. *)
Lemma inv_set_proc s j st c c' pend n : sig_inv s -> procs s !! j = Some c -> children_states s !! j = Some st ->
  ch_pid c' = ch_pid c ->
  table_ok (request_count s) (<[j := (st, c')]> (cells s)) pend n ->
  sig_inv (set_lost n (set_pending pend (set_procs (<[j := c']> (procs s)) s))).
Proof.
  intros [Hf Hpc _] Hc Hst Hp Ht. pose proof (cells_lookup _ _ _ _ Hst Hc) as Hx.
  assert (cells (set_lost n (set_pending pend (set_procs (<[j := c']> (procs s)) s))) = <[j := (st, c')]> (cells s)) as E
    by exact (cells_set_proc s j c' st Hst).
  destruct (filled_set_proc s j c c' Hf Hc Hp) as [F1 F2 F3 F4].
  split; [by split| |by rewrite E]. by rewrite E, (all_terminated_insert _ _ _ _ Hx).
Qed.

Lemma child_step_inv s j c : sig_inv s -> procs s !! j = Some c -> steps_to_inv (child_step j c s).
Proof.
  intros Hi Hc. pose proof Hi as [Hf Hpc Ht]. destruct (child_cell s j c Hf Hc) as (st & Hx & Hst).
  pose proof (Forall_lookup_1 _ _ _ _ (to_typed _ _ _ _ Ht) Hx) as [_ Htx].
  unfold child_step. destruct (ch_pc c) eqn:Epc; try done.
  - subst st. pose proof (table_ask _ _ _ _ _ _ Ht Hx Epc) as Ht'.
    pose proof (inv_set_proc s j RUNNING c (goto c CH_paused) _ _ Hi Hc Hst eq_refl Ht') as H.
    destruct (pending s) as [p|] eqn:Epend; [|exact H].
    replace (set_pending (Some p) _) with (set_procs (<[j := goto c CH_paused]> (procs s)) s) in H
      by (unfold set_pending, set_procs; simpl; by rewrite <- Epend). exact H.
  - destruct Htx as [-> Hthr]. set (c' := goto c _).
    assert (table_ok (request_count s) (<[j := (RUNNING, c')]> (cells s)) (pending s) (lost s)) as Ht'.
    { apply (table_same _ _ _ _ _ _ _ Ht Hx); simpl; [by rewrite Epc|by repeat split|by rewrite Epc|].
      unfold has_asked. simpl. by rewrite Epc. }
    exact (inv_set_proc s j RUNNING c c' _ _ Hi Hc Hst eq_refl Ht').
Qed.

(** A request is handled. *)
Lemma usr1_inv s p : sig_inv s -> pending s = Some p ->
  exists s', parent_runs (usr1_handler children_count request_threshold p) (set_pending None s) = Step s' /\
    sig_inv s' /\ request_count s' = request_count s + 1 /\ pending s' = None /\
    exists i c, cells s !! i = Some (RUNNING, c) /\ ch_pid c = p /\
      cells s' = (if request_count s + 1 <? request_threshold then fun l => l else map permit)
                   (<[i := (REQUESTED, c)]> (cells s)).
Proof.
  intros Hi Hp. pose proof Hi as [Hf Hpc Ht].
  destruct (to_pending _ _ _ _ Ht p Hp) as (i & c & Hx & Hpid & Hpause). subst p.
  pose proof (waits s i _ c Hi Hx) as Hw. specialize (Hw ltac:(done)). pose proof (cells_inv _ _ _ _ Hx) as [Hst Hc].
  pose proof (countb_le has_asked (cells s)) as Hle. rewrite (cells_length s Hf) in Hle.
  pose proof (to_asked _ _ _ _ Ht) as Ha. pose proof (to_lost _ _ _ _ Ht) as Hl. rewrite Hp in Ha. cbn [in_flight] in Ha.
  assert (filled (set_pending None s)) as Hf' by (by destruct Hf).
  destruct (usr1_handler_spec (set_pending None s) i c Hf' Hc) as (s' & E & F & H1 & H2 & H3 & H4 & H5).
  { unfold INT_MIN, INT_MAX in *. simpl. lia. }
  change (cells (set_pending None s)) with (cells s) in H5. simpl in H1, H2, H3, H4, H5.
  exists s'. split; [by unfold parent_runs; rewrite E|]. split; [|split; [done|split; [done|exists i, c; done]]].
  rewrite Hp in Ht. pose proof (table_heard _ _ _ _ _ _ Ht Hx Hpause) as Ht'. rewrite <- H5 in Ht'.
  assert (length (<[i := (REQUESTED, c)]> (cells s)) = length (cells s)) as El by apply length_insert.
  split; [done| |by rewrite H1, H3, H4]. left. split; [by rewrite H2|].
  destruct (request_count s + 1 <? request_threshold); rewrite H5.
  - apply (not_all_terminated _ i (REQUESTED, c)); [|done].
    apply list_lookup_insert_eq. by eapply lookup_lt_Some.
  - apply (not_all_terminated _ i (permit (REQUESTED, c))); [|by rewrite permit_terminated].
    rewrite list_lookup_fmap, list_lookup_insert_eq by (by eapply lookup_lt_Some). done.
Qed.

(** A child that has ended is waited for. *)
Lemma after_wait_inv s j c code : sig_inv s -> ppc s = P_wait -> procs s !! j = Some c -> ch_pc c = CH_zombie code ->
  exists s', parent_runs (after_wait children_count (ch_pid c)) (set_procs (<[j := goto c CH_reaped]> (procs s)) s) = Step s' /\
    sig_inv s'.
Proof.
  intros Hi Hw Hc Epc. pose proof Hi as [Hf Hpc Ht]. destruct (child_cell s j c Hf Hc) as (st & Hx & Hst).
  pose proof (Forall_lookup_1 _ _ _ _ (to_typed _ _ _ _ Ht) Hx) as [_ Htx]. rewrite Epc in Htx. destruct Htx as [-> Hthr].
  set (c' := goto c CH_reaped). set (s1 := set_procs _ s).
  assert (filled s1) as Hf1 by (by apply (filled_set_proc s j c c')).
  assert (procs s1 !! j = Some c') as Hc1 by (apply list_lookup_insert_eq; by eapply lookup_lt_Some).
  assert (cells s1 = <[j := (RUNNING, c')]> (cells s)) as Ec1 by exact (cells_set_proc s j c' RUNNING Hst).
  set (s2 := set_states (<[j := TERMINATED]> (children_states s1)) s1).
  assert (filled s2) as Hf2 by (apply filled_states; [done|apply length_insert]).
  assert (cells s2 = <[j := (TERMINATED, c')]> (cells s)) as Ec2.
  { unfold s2. rewrite (cells_set_state s1 j TERMINATED c' Hc1), Ec1. apply list_insert_insert_eq. }
  assert (table_ok (request_count s2) (cells s2) (pending s2) (lost s2)) as Ht2.
  { rewrite Ec2. apply (table_same _ _ _ _ _ _ _ Ht Hx); [simpl; by rewrite Epc|by repeat split| |].
    - simpl. by rewrite Epc.
    - unfold has_asked. simpl. by rewrite Epc. }
  unfold parent_runs, after_wait, mark_terminated. unfold mbind at 1, cm_bind at 1.
  pose proof (mark_spec s1 j c' TERMINATED Hf1 Hc1) as E0. change (ch_pid c') with (ch_pid c) in E0.
  rewrite E0. fold s2. unfold mbind, cm_bind, get. rewrite (all_terminated_cells s2 Hf2).
  assert (ppc s2 = P_wait) as Hw2 by done.
  destruct (forallb terminated (cells s2)) eqn:Eall; simpl; eexists; (split; [done|]); split; auto. by destruct Hf2.
Qed.

Lemma sig_exec_inv l s : sig_inv s -> steps_to_inv (sig_exec children_count request_threshold false l s).
Proof.
  intros Hi. pose proof Hi as [Hf Hpc Ht]. destruct l as [ok pid seconds|j| | |j]; simpl.
  - unfold parent_step. destruct Hpc as [[-> Hall]|[-> _]]; [|done].
    destruct (forallb waited_for (procs s)) eqn:E; [|done]. exfalso.
    assert (forallb terminated (cells s) = true) as E'; [|congruence].
    rewrite forallb_forall. intros [st c] Hin. apply list_elem_of_In, list_elem_of_lookup_1 in Hin as [i Hx].
    pose proof (Forall_lookup_1 _ _ _ _ (to_typed _ _ _ _ Ht) Hx) as [_ Htx].
    apply cells_inv in Hx as [_ Hc]. rewrite forallb_forall in E.
    assert (waited_for c = true) as Hr by (apply E, list_elem_of_In; by eapply list_elem_of_lookup_2).
    unfold waited_for in Hr. destruct (ch_pc c); try done. destruct Htx as [-> _]. done.
  - destruct (ppc s) eqn:Ep; try done. destruct (procs s !! j) as [c|] eqn:Hc; [|done].
    destruct (ch_pc c) eqn:Epc; try done.
    destruct (after_wait_inv s j c _ Hi Ep Hc Epc) as (s' & E & Hi'). by rewrite E.
  - destruct (pending s) as [p|] eqn:Ep; [|done].
    destruct (usr1_inv s p Hi Ep) as (s' & E & Hi' & _). destruct (is_exit (ppc s)); [done|]. by rewrite E.
  - done.
  - destruct (procs s !! j) as [c|] eqn:Hc; [|done]. by apply child_step_inv.
Qed.

(** ** From the start *)

Definition forking (pc : parent_pc) : bool := match pc with P_fork _ | P_store _ _ => true | _ => false end.

(** The system in which nobody asks and nobody interrupts, and [fork] returns
    pids that are not in use, until the parent has made all children. *)
Definition patient_exec (l : sig_label) (s : sys) : sres sys :=
  if forking (ppc s) then
    match l with
    | L_parent ok pid seconds =>
        if decide (pid ∈ map ch_pid (procs s)) then Blocked else parent_step children_count ok pid seconds s
    | _ => Blocked
    end
  else sig_exec children_count request_threshold false l s.

(** The arrays while children are made: [ps] are in it already. *)
Record making (ps : list child) (s : sys) : Prop := {
  mk_children : children s = map (fun c => Some (ch_pid c)) ps ++ replicate (Z.to_nat children_count - length ps) None;
  mk_len : (length ps <= Z.to_nat children_count)%nat;
  mk_states : children_states s = replicate (Z.to_nat children_count) RUNNING;
  mk_start : Forall (fun c => ch_pc c = CH_start) (procs s);
  mk_pids : NoDup (map ch_pid (procs s));
  mk_rest : request_count s = 0 /\ pending s = None /\ lost s = 0;
}.

Definition fork_inv (s : sys) : Prop :=
  match ppc s with
  | P_fork i => i = Z.of_nat (length (procs s)) /\ making (procs s) s
  | P_store i pid => exists ps sec, procs s = ps ++ [Child pid CH_start sec] /\ i = Z.of_nat (length ps) /\
      i < children_count /\ making ps s
  | _ => sig_inv s
  end.

Lemma sig_start_inv : fork_inv (sig_start children_count).
Proof.
  unfold fork_inv, sig_start. simpl. split; [done|]. split; simpl; rewrite ?Nat.sub_0_r; try done; [lia|].
  apply NoDup_nil_2.
Qed.

(** All children are made. *)
Lemma made_inv s : length (procs s) = Z.to_nat children_count -> making (procs s) s -> sig_inv (set_ppc P_wait s).
Proof.
  intros Hl [M1 M2 M3 M4 M5 (M6 & M7 & M8)].
  assert (filled (set_ppc P_wait s)) as Hf.
  { split; simpl; try done; [|by rewrite M3, length_replicate].
    rewrite M1. replace (Z.to_nat children_count - length (procs s))%nat with 0%nat by lia. apply app_nil_r. }
  assert (Forall (fun x : cell => x.1 = RUNNING /\ ch_pc x.2 = CH_start) (cells s)) as Hall.
  { apply Forall_lookup_2. intros i [st c] Hi. apply cells_inv in Hi as [H1 H2]. rewrite M3 in H1.
    apply lookup_replicate in H1 as [-> _]. split; [done|]. by apply (Forall_lookup_1 _ _ _ _ M4 H2). }
  assert (forall f : cell -> bool, (forall c, ch_pc c = CH_start -> f (RUNNING, c) = false) -> countb f (cells s) = 0%nat) as Hz.
  { intros f H. apply countb_zero. intros i [st c] Hi. destruct (Forall_lookup_1 _ _ _ _ Hall Hi) as [E1 E2].
    simpl in E1. subst st. by apply H. }
  split; [done| |split].
  - left. split; [done|]. destruct (lookup_lt_is_Some_2 (cells s) 0) as [x Hx].
    { pose proof (cells_length _ Hf) as E. change (cells (set_ppc P_wait s)) with (cells s) in E. lia. }
    apply (not_all_terminated _ 0 x); [done|]. destruct (Forall_lookup_1 _ _ _ _ Hall Hx) as [E _].
    unfold terminated. by rewrite E.
  - apply (Forall_impl _ _ _ Hall). intros [st c] [E1 E2]. simpl in *. subst st. by rewrite E2.
  - intros p E. simpl in E. congruence.
  - change (cells (set_ppc P_wait s)) with (cells s). cbn [pending lost set_ppc]. rewrite M7, M8. rewrite (Hz unheard); [done|]. intros c E. unfold unheard. by rewrite E.
  - change (cells (set_ppc P_wait s)) with (cells s). cbn [request_count pending lost set_ppc]. rewrite M6, M7, M8. rewrite (Hz has_asked); [done|]. intros c E. unfold has_asked. simpl. by rewrite E.
  - simpl. rewrite M6, M8. lia.
Qed.

Lemma patient_inv l s : fork_inv s ->
  match patient_exec l s with Step s' => fork_inv s' | Blocked => True | Fault _ => False end.
Proof.
  intros Hi. unfold patient_exec. destruct (forking (ppc s)) eqn:Efork.
  2:{ assert (sig_inv s) as Hs by (unfold fork_inv in Hi; by destruct (ppc s)).
      pose proof (sig_exec_inv l s Hs) as H. unfold steps_to_inv in H.
      destruct (sig_exec _ _ _ _ _) as [s'| |u]; try done.
      unfold fork_inv. by destruct (si_pc _ H) as [[-> _]|[-> _]]. }
  destruct l as [ok pid sec| | | |]; try done. case_decide as Hfresh; [done|].
  unfold parent_step, fork_inv in *. destruct (ppc s) as [i|i pid0| |] eqn:Ep; try done.
  - destruct Hi as [-> Hm]. pose proof (mk_len _ _ Hm) as Hlen. destruct (Z.ltb_spec (Z.of_nat (length (procs s))) children_count).
    + destruct ok; [|by rewrite Ep]. simpl. exists (procs s), sec. split; [done|]. split; [done|]. split; [done|].
      destruct Hm as [M1 M2 M3 M4 M5 M6]. split; simpl; try done.
      * apply Forall_app. split; [done|]. by apply Forall_singleton.
      * rewrite map_app. apply NoDup_app. split; [done|]. split; [|apply NoDup_singleton].
        intros x Hx ->%list_elem_of_singleton. done.
    + simpl. apply made_inv; [lia|done].
  - destruct Hi as (ps & sec0 & Hps & -> & Hlt & Hm). destruct Hm as [M1 M2 M3 M4 M5 M6].
    assert (length (map (fun c => Some (ch_pid c)) ps) = length ps) as El by apply length_map.
    destruct (Z.to_nat children_count - length ps)%nat as [|k] eqn:Ek; [lia|].
    rewrite M1, aset_ok by (rewrite length_app, length_replicate; lia).
    simpl. split; [rewrite Hps, length_app; simpl; lia|].
    split; simpl; try done; [|rewrite Hps, length_app; simpl; lia].
    rewrite Nat2Z.id, Hps, map_app, length_app. simpl.
    replace (length ps) with (length (map (fun c => Some (ch_pid c)) ps) + 0)%nat at 1 by lia.
    rewrite insert_app_r. replace (Z.to_nat children_count - (length ps + 1))%nat with k by lia.
    simpl. by rewrite <- app_assoc.
Qed.

Lemma patient_reach_inv s : reach patient_exec (sig_start children_count) s -> fork_inv s.
Proof.
  apply reach_inv; [apply sig_start_inv|]. intros l s1 s2 H1 H2. pose proof (patient_inv l s1 H1) as H. by rewrite H2 in H.
Qed.

Lemma patient_made s : reach patient_exec (sig_start children_count) s -> forking (ppc s) = false -> sig_inv s.
Proof. intros Hr Hk. apply patient_reach_inv in Hr. unfold fork_inv in Hr. by destruct (ppc s). Qed.

(** ** The end *)

Definition child_weight (c : child) : nat :=
  match ch_pc c with CH_start => 5 | CH_paused | CH_granted => 2 | CH_zombie _ => 1 | CH_reaped => 0 end.
Definition weight (s : sys) : nat :=
  (list_sum (map child_weight (procs s)) + match pending s with Some _ => 1 | None => 0 end)%nat.

Lemma child_weight_le l : (list_sum (map child_weight l) <= 5 * length l)%nat.
Proof. induction l as [|c l IH]; [done|]. simpl. unfold child_weight at 1. destruct (ch_pc c); lia. Qed.

Lemma weight_insert l i c c' : l !! i = Some c ->
  (list_sum (map child_weight (<[i := c']> l)) + child_weight c = list_sum (map child_weight l) + child_weight c')%nat.
Proof.
  revert i. induction l as [|x l IH]; intros [|i] Hi; [done..| |]; simpl in *; [simplify_eq; lia|].
  specialize (IH i Hi). lia.
Qed.

Lemma grant_weight c : (child_weight (grant c) <= child_weight c)%nat.
Proof. unfold grant, child_weight. destruct (ch_pc c) eqn:E; simpl; rewrite ?E; lia. Qed.

(** The weight is the same for any two tables whose children are. *)
Lemma cells_procs s : filled s -> map snd (cells s) = procs s.
Proof.
  intros Hf. unfold cells. apply snd_zip. rewrite (fl_states s Hf), (fl_procs s Hf). lia.
Qed.

Lemma permit_weight l : (list_sum (map child_weight (map snd (map permit l))) <= list_sum (map child_weight (map snd l)))%nat.
Proof.
  induction l as [|[st c] l IH]; [done|]. simpl in *. case_decide; simpl; [|lia].
  pose proof (grant_weight c). lia.
Qed.

(** Every step of the system makes it lighter. *)
Lemma sig_step_weight l s s' : sig_inv s -> sig_exec children_count request_threshold false l s = Step s' ->
  (weight s' < weight s)%nat.
Proof.
  intros Hi Hs. pose proof Hi as [Hf Hpc Ht]. pose proof (sig_exec_inv l s Hi) as Hi'. rewrite Hs in Hi'. simpl in Hi'.
  destruct l as [ok pid seconds|j| | |j]; simpl in Hs.
  - unfold parent_step in Hs. destruct Hpc as [[Ep Hall]|[Ep _]]; rewrite Ep in Hs; [|done].
    destruct (forallb waited_for (procs s)) eqn:E; [|done]. simplify_eq. exfalso.
    pose proof (si_pc _ Hi') as [[E1 _]|[_ E1]]; [done|].
    change (cells (set_ppc (P_exit 0) s)) with (cells s) in E1. congruence.
  - destruct (ppc s) eqn:Ep; try done. destruct (procs s !! j) as [c|] eqn:Hc; [|done].
    destruct (ch_pc c) as [| | |code|] eqn:Epc; try done.
    set (s1 := set_procs _ s) in Hs.
    assert (procs s1 !! j = Some (goto c CH_reaped)) as Hc1 by (apply list_lookup_insert_eq; by eapply lookup_lt_Some).
    assert (filled s1) as Hf1 by (by apply (filled_set_proc s j c)).
    unfold parent_runs, after_wait, mark_terminated in Hs. unfold mbind at 1, cm_bind at 1 in Hs.
    pose proof (mark_spec s1 j _ TERMINATED Hf1 Hc1) as E0. change (ch_pid (goto c CH_reaped)) with (ch_pid c) in E0.
    rewrite E0 in Hs. unfold mbind, cm_bind, get in Hs.
    pose proof (weight_insert (procs s) j c (goto c CH_reaped) Hc) as Hw. unfold child_weight in Hw at 2 4.
    rewrite Epc in Hw. simpl in Hw.
    assert (procs s' = procs s1 /\ pending s' = pending s) as [E1 E2] by (destruct (all_children_terminated _ _); cbn in Hs; by simplify_eq).
    unfold weight. rewrite E1, E2. unfold s1. simpl. lia.
  - destruct (pending s) as [p|] eqn:Ep; [|done]. destruct (is_exit (ppc s)); [done|].
    destruct (usr1_inv s p Hi Ep) as (s1 & E & Hi1 & _ & E2 & i & c & Hx & _ & Hcells). rewrite E in Hs. simplify_eq.
    unfold weight. rewrite Ep, E2, <- (cells_procs s Hf), <- (cells_procs s' (si_filled _ Hi1)), Hcells.
    assert (map snd (<[i := (REQUESTED, c)]> (cells s)) = map snd (cells s)) as E3.
    { rewrite list_fmap_insert. apply list_insert_id. by rewrite list_lookup_fmap, Hx. }
    pose proof (permit_weight (<[i := (REQUESTED, c)]> (cells s))) as Hw. rewrite E3 in Hw.
    destruct (request_count s + 1 <? request_threshold); [rewrite E3|]; lia.
  - done.
  - destruct (procs s !! j) as [c|] eqn:Hc; [|done]. unfold child_step in Hs.
    destruct (ch_pc c) eqn:Epc; try done.
    + pose proof (weight_insert _ _ _ (goto c CH_paused) Hc) as Hw. unfold child_weight in Hw at 2 4. rewrite Epc in Hw.
      unfold weight. destruct (pending s) eqn:Ep; simplify_eq; simpl in *; rewrite ?Ep; lia.
    + set (c' := goto c _) in Hs. pose proof (weight_insert _ _ _ c' Hc) as Hw. unfold child_weight in Hw at 2 4. rewrite Epc in Hw.
      unfold weight. simplify_eq; simpl in *; lia.
Qed.

Lemma made_stays l s s' : forking (ppc s) = false -> sig_inv s -> patient_exec l s = Step s' ->
  sig_exec children_count request_threshold false l s = Step s' /\ sig_inv s' /\ forking (ppc s') = false.
Proof.
  intros Hk Hi Hs. unfold patient_exec in Hs. rewrite Hk in Hs. split; [done|].
  pose proof (sig_exec_inv l s Hi) as H. rewrite Hs in H. split; [done|]. by destruct (si_pc _ H) as [[-> _]|[-> _]].
Qed.

Lemma made_run ls s s' : forking (ppc s) = false -> sig_inv s -> run patient_exec ls s = Some s' ->
  (length ls + weight s' <= weight s)%nat /\ sig_inv s' /\ forking (ppc s') = false.
Proof.
  revert s. induction ls as [|l ls IH]; intros s Hk Hi Hr; simplify_eq/=; [done|].
  destruct (patient_exec l s) as [s1| |] eqn:E; try done. destruct (made_stays l s s1 Hk Hi E) as (E1 & Hi1 & Hk1).
  pose proof (sig_step_weight l s s1 Hi E1). destruct (IH s1 Hk1 Hi1 Hr) as (Hw & H1 & H2). split; [lia|done].
Qed.

(** When nothing can happen and no request was lost, all is done. *)
Lemma stuck_done s : request_threshold <= children_count -> sig_inv s ->
  stuck (sig_exec children_count request_threshold false) s -> lost s = 0 ->
  ppc s = P_exit 0 /\ Forall (fun c => ch_pc c = CH_reaped) (procs s).
Proof.
  intros Hthr Hi Hst Hlost. pose proof Hi as [Hf Hpc Ht].
  assert (pending s = None) as Hp.
  { destruct (pending s) as [p|] eqn:E; [|done]. destruct (usr1_inv s p Hi E) as (s' & E1 & _ & _ & _ & i & c & Hx & _).
    specialize (Hst L_usr1). simpl in Hst. rewrite E, (waits s i _ c Hi Hx), E1 in Hst by done. done. }
  assert (forall i st c, cells s !! i = Some (st, c) -> ch_pc c = CH_reaped \/ (ch_pc c = CH_paused /\ ppc s = P_wait)) as Hend.
  { intros i st c Hx. pose proof (cells_inv _ _ _ _ Hx) as [_ Hc].
    pose proof (Forall_lookup_1 _ _ _ _ (to_typed _ _ _ _ Ht) Hx) as [_ Htx].
    destruct (ch_pc c) as [| | |code|] eqn:Epc; [| | | |by left].
    - specialize (Hst (L_child i)). simpl in Hst. rewrite Hc in Hst. unfold child_step in Hst. by rewrite Epc, Hp in Hst.
    - right. split; [done|]. apply (waits s i st c Hi Hx). by destruct Htx as [-> | ->].
    - specialize (Hst (L_child i)). simpl in Hst. rewrite Hc in Hst. unfold child_step in Hst. by rewrite Epc in Hst.
    - destruct Htx as [-> _]. pose proof (waits s i RUNNING c Hi Hx ltac:(done)) as Hw.
      specialize (Hst (L_wait i)). simpl in Hst. rewrite Hw, Hc, Epc in Hst.
      destruct (after_wait_inv s i c code Hi Hw Hc Epc) as (s' & E & _). by rewrite E in Hst. }
  assert (forall i st c, cells s !! i = Some (st, c) -> ch_pc c = CH_reaped) as Hreaped.
  { intros i st c Hx. destruct (Hend i st c Hx) as [|[Epc Hw]]; [done|]. exfalso.
    pose proof (Forall_lookup_1 _ _ _ _ (to_typed _ _ _ _ Ht) Hx) as [Hreq Htx]. rewrite Epc in Htx.
    pose proof (to_unheard _ _ _ _ Ht) as Hu. pose proof (to_asked _ _ _ _ Ht) as Ha.
    rewrite Hp, Hlost in Hu, Ha. cbn [in_flight] in Hu, Ha.
    assert (countb has_asked (cells s) = length (cells s)) as Hall.
    { apply countb_full. intros i' [st' c'] Hx'. unfold has_asked. simpl.
      by destruct (Hend i' st' c' Hx') as [->|[-> _]]. }
    rewrite Hall, (cells_length s Hf) in Ha. destruct Htx as [->| ->]; [specialize (Hreq eq_refl); lia|].
    pose proof (countb_pos unheard (cells s) i _ Hx) as Hpos. unfold unheard in Hpos at 1. rewrite Epc in Hpos.
    specialize (Hpos eq_refl). lia. }
  assert (Forall (fun c => ch_pc c = CH_reaped) (procs s)) as Hr.
  { apply Forall_lookup_2. intros i c Hc. destruct (child_cell s i c Hf Hc) as (st & Hx & _). by eapply Hreaped. }
  split; [|done]. destruct Hpc as [[_ Hall]|[Hw _]]; [|done]. exfalso.
  assert (forallb terminated (cells s) = true) as E; [|congruence].
  apply forallb_forall. intros [st c] Hin. apply list_elem_of_In, list_elem_of_lookup_1 in Hin as [i Hx].
  pose proof (Forall_lookup_1 _ _ _ _ (to_typed _ _ _ _ Ht) Hx) as [_ Htx].
  rewrite (Hreaped i st c Hx) in Htx. by destruct Htx as [-> _].
Qed.
End Loops.

(** ** Properties *)

Lemma sig_main_params argv n t s0 : sig_main argv () = Done (inr (n, t, s0)) () ->
  0 < n <= INT_MAX /\ t <= n /\ s0 = sig_start n.
Proof.
  unfold sig_main. destruct argv as [|a0 [|a1 [|a2 [|a3 [|? ?]]]]]; try done. unfold mbind, cm_bind.
  destruct (atoi a1 ()) as [z1 []| | |] eqn:E1; try done. apply atoi_range in E1.
  destruct (atoi a2 ()) as [z2 []| | |]; try done.
  destruct (Z.ltb_spec z1 z2); [done|]. unfold check. destruct (Z.ltb_spec 0 z1); [|done].
  intros [= <- <- <-]. repeat split; lia.
Qed.


(** C15.  The protocol comes to an end: once the children are made, no more than
    five steps per child can follow, in whatever order, and when nothing can
    follow and no request was lost, every child has ended and been waited for, and
    the parent has exited with 0. *)
Theorem permits_end argv n t s0 s ls s'
  (Hm : sig_main argv () = Done (inr (n, t, s0)) ())
  (Hs : reach (patient_exec n t) s0 s) (Hk : forking (ppc s) = false)
  (Hr : run (patient_exec n t) ls s = Some s') :
  (length ls <= 5 * Z.to_nat n + 1)%nat /\
  (stuck (patient_exec n t) s' -> lost s' = 0 ->
   ppc s' = P_exit 0 /\ Forall (fun c => ch_pc c = CH_reaped) (procs s')).
Proof.
  apply sig_main_params in Hm as (Hn & Htn & ->). pose proof (patient_made n t Hn s Hs Hk) as Hi.
  destruct (made_run n t Hn ls s s' Hk Hi Hr) as (Hw & Hi' & Hk'). split.
  - pose proof (child_weight_le (procs s)) as Hle. rewrite (fl_procs _ s (si_filled _ _ _ Hi)) in Hle.
    unfold weight in Hw at 2. destruct (pending s); lia.
  - intros Hst Hlost. apply (stuck_done n t Hn s' Htn Hi'); [|done].
    intros l. specialize (Hst l). unfold patient_exec in Hst. by rewrite Hk' in Hst.
Qed.

(** Two children are made. *)
Definition two_children : list sig_label :=
  [L_parent true 101 1; L_parent true 0 0; L_parent true 102 1; L_parent true 0 0; L_parent true 0 0].
Definition two_argv : list string := ["permits"; "2"; "2"; "11111"]%string.

(** A request can be lost and the program then hangs: with two children and
    a threshold of two, both ask before the handler runs, SIGUSR1 is pending only
    once, one request is counted, and nothing can happen any more: the parent waits
    for children who wait for it. *)
Theorem coalesced_request_hangs :
  exists s0 s, sig_main two_argv () = Done (inr (2, 2, s0)) () /\
    reach (patient_exec 2 2) s0 s /\ stuck (patient_exec 2 2) s /\
    ppc s = P_wait /\ request_count s = 1 /\ map ch_pc (procs s) = [CH_paused; CH_paused].
Proof.
  exists (sig_start 2). destruct (run (patient_exec 2 2) (two_children ++ [L_child 0; L_child 1; L_usr1]) (sig_start 2))
    as [s|] eqn:E; [|by vm_compute in E].
  exists s. split; [by vm_compute|]. split; [by eapply run_reachable|]. vm_compute in E. injection E as <-.
  split; [|by vm_compute]. intros [ok pid sec|[|[|j]]| | |[|[|j]]]; done.
Qed.

(** A request that comes while [main] still makes children compares its
    sender with elements of [children] that have no value yet: the child asks at
    once if [rand() % 11] is 0. *)
Theorem early_request_undefined :
  exists s0 s, sig_main two_argv () = Done (inr (2, 2, s0)) () /\
    reach (sig_exec 2 2 false) s0 s /\ sig_exec 2 2 false L_usr1 s = Fault UB_uninit.
Proof.
  exists (sig_start 2).
  destruct (run (sig_exec 2 2 false) [L_parent true 101 0; L_parent true 101 0; L_child 0] (sig_start 2)) as [s|] eqn:E;
    [|by vm_compute in E].
  exists s. split; [by vm_compute|]. split; [by eapply run_reachable|]. vm_compute in E. by injection E as <-.
Qed.

(** Both children ask in turn and end. *)
Definition two_end : list sig_label :=
  [L_child 0; L_usr1; L_child 1; L_usr1; L_child 0; L_child 1; L_wait 1; L_wait 0].
Definition two_made : sys := default (sig_start 2) (run (patient_exec 2 2) two_children (sig_start 2)).
Definition two_ended : sys := default (sig_start 2) (run (patient_exec 2 2) two_end two_made).

Lemma two_made_reach : reach (patient_exec 2 2) (sig_start 2) two_made.
Proof. apply (run_reachable _ _ two_children). by vm_compute. Qed.
Lemma two_ended_run : run (patient_exec 2 2) two_end two_made = Some two_ended.
Proof. by vm_compute. Qed.


Lemma permits_end_witness : ppc two_ended = P_exit 0 /\ Forall (fun c => ch_pc c = CH_reaped) (procs two_ended).
Proof.
  refine (proj2 (permits_end two_argv 2 2 (sig_start 2) two_made two_end two_ended _ two_made_reach _ two_ended_run) _ _);
    [by vm_compute|by vm_compute| |by vm_compute].
  intros [ok pid sec|[|[|j]]| | |[|[|j]]]; vm_compute; done.
Defined.
