(* ===== verification/SigToggle.v ===== *)
(** cw04/zad1/src/main.c: SIGTSTP starts and stops a process that prints the
    date.  What the process prints is left out. *)
From S2P Require Import Prelude.
#[local] Open Scope Z_scope.

(** A child: runs; was killed; has ended by itself, as [execl] failed or the
    script ended.  Nobody waits for it. *)
Inductive child_stat := Running | Killed | Ended.
#[export] Instance child_stat_eq_dec : EqDecision child_stat.
Proof. solve_decision. Defined.

(** The program: [child_pid], the children made, and its exit code. *)
Record toggle := Toggle { child_pid : Z; made : list (Z * child_stat); ended : option Z }.

(** [struct sigaction]: the parts that [main] sets or leaves as they are. *)
Record sigaction_t := Act { sa_mask : option Z; sa_flags : option Z }.

Inductive toggle_label :=
  | L_tstp (pid : option Z)   (* SIGTSTP; the pid that [fork] returns, if it is called and succeeds *)
  | L_int                     (* SIGINT *)
  | L_ends (k : nat).         (* child [k] ends by itself *)

Definition is_pid (pid : Z) (x : Z * child_stat) : bool := x.1 =? pid.

(** [kill(child_pid, SIGKILL)]: a child that has ended stays as it is. *)
Definition kill_pid (pid : Z) (l : list (Z * child_stat)) : list (Z * child_stat) :=
  map (fun x => if is_pid pid x && bool_decide (x.2 = Running) then (x.1, Killed) else x) l.

Definition tstp_handler (pid : option Z) (s : toggle) : toggle :=
  if 0 <? child_pid s then Toggle (-1) (kill_pid (child_pid s) (made s)) (ended s)
  else
    match pid with
    | Some p => Toggle p (made s ++ [(p, Running)]) (ended s)
    | None => Toggle (-1) (made s) (ended s)
    end.

Definition int_handler (s : toggle) : toggle := Toggle (child_pid s) (made s) (Some 0).

(** [fork] returns a positive pid that no child has, ended ones included, as
    they are not waited for. *)
Definition fresh (pid : option Z) (s : toggle) : bool :=
  match pid with Some p => (0 <? p) && forallb (fun x => negb (is_pid p x)) (made s) | None => true end.

Definition toggle_exec (l : toggle_label) (s : toggle) : sres toggle :=
  match ended s with
  | Some _ => Blocked
  | None =>
      match l with
      | L_tstp pid => if fresh pid s then Step (tstp_handler pid s) else Blocked
      | L_int => Step (int_handler s)
      | L_ends k =>
          match made s !! k with
          | Some (p, Running) => Step (Toggle (child_pid s) (<[k := (p, Ended)]> (made s)) (ended s))
          | _ => Blocked
          end
      end
  end.

(** [sigaction(SIGTSTP, &act, NULL)] reads all of [act]. *)
Definition sigaction {S} (a : sigaction_t) : cm S unit :=
  lift UB_uninit (sa_mask a) ;; lift UB_uninit (sa_flags a) ;; mret tt.

(** [main] up to the loop: [garbage] is what [act] holds, where only the handler
    is set; then a first call of the handler. *)
Definition toggle_main (garbage : sigaction_t) (pid : option Z) : cm unit toggle :=
  sigaction garbage ;;
  mret (tstp_handler pid (Toggle (-1) [] None)).

(** ** Properties *)

(** What runs is the child that [child_pid] names, and no other. *)
Definition toggle_inv (s : toggle) : Prop :=
  NoDup (map fst (made s)) /\ Forall (fun x => 0 < x.1 /\ (x.2 = Running -> x.1 = child_pid s)) (made s).

Lemma kill_pid_fst pid l : map fst (kill_pid pid l) = map fst l.
Proof.
  induction l as [|[p st] l IH]; [done|]. unfold kill_pid in *. simpl. rewrite IH. by destruct (_ && _).
Qed.

Lemma tstp_inv pid s : toggle_inv s -> fresh pid s = true -> toggle_inv (tstp_handler pid s).
Proof.
  intros [Hn Hf] Hfr. unfold tstp_handler. destruct (Z.ltb_spec 0 (child_pid s)) as [Hc|Hc].
  - split; simpl; [by rewrite kill_pid_fst|]. apply Forall_map, (Forall_impl _ _ _ Hf). intros [p st] [H1 H2]. simpl in *.
    unfold is_pid. simpl. destruct (Z.eqb_spec p (child_pid s)); simpl.
    + case_bool_decide; simpl; split; [done|done|done|by intros ->].
    + split; [done|]. intros Hr. by apply H2 in Hr.
  - assert (Forall (fun x => 0 < x.1 /\ x.2 <> Running) (made s)) as Hno.
    { apply (Forall_impl _ _ _ Hf). intros x [H1 H2]. split; [done|]. intros Hr. apply H2 in Hr. lia. }
    assert (forall q, Forall (fun x => 0 < x.1 /\ (x.2 = Running -> x.1 = q)) (made s)) as Hany.
    { intros q. apply (Forall_impl _ _ _ Hno). intros x [H1 H2]. by split. }
    destruct pid as [p|]; [|by split; simpl]. unfold fresh in Hfr. apply andb_true_iff in Hfr as [Hp Hfr].
    split; simpl.
    + rewrite map_app. apply NoDup_app. split; [done|]. split; [|apply NoDup_singleton].
      intros x Hx Hp'. simpl in Hp'. apply list_elem_of_singleton in Hp' as ->. apply list_elem_of_fmap in Hx as (y & Ey & Hy).
      rewrite forallb_forall in Hfr. apply list_elem_of_In in Hy. apply Hfr in Hy. unfold is_pid in Hy. rewrite <- Ey in Hy. by rewrite Z.eqb_refl in Hy.
    + apply Forall_app. split; [done|]. apply Forall_singleton. simpl. split; [lia|done].
Qed.

(** At most one child runs, and it is the one that the next SIGTSTP would
    kill: whatever signals arrive, whichever calls of [fork] fail, and whenever
    children end by themselves. *)
Theorem one_child_runs garbage pid s0 s
  (Hm : toggle_main garbage pid () = Done s0 ()) (Hpid : fresh pid (Toggle (-1) [] None) = true)
  (Hs : reach toggle_exec s0 s) :
  NoDup (map fst (made s)) /\
  forall k p, made s !! k = Some (p, Running) -> p = child_pid s /\ 0 < child_pid s.
Proof.
  assert (toggle_inv s0) as H0.
  { unfold toggle_main, sigaction, mbind, cm_bind in Hm. destruct (sa_mask garbage), (sa_flags garbage); try done.
    injection Hm as <-. apply tstp_inv; [|done]. split; [apply NoDup_nil_2|apply Forall_nil_2]. }
  assert (toggle_inv s) as [Hn Hf].
  { revert Hs. apply reach_inv; [done|]. intros l s1 s2 [Hn Hf] E. unfold toggle_exec in E.
    destruct (ended s1); [done|]. destruct l as [q| |k].
    - destruct (fresh q s1) eqn:Hq; [|done]. injection E as <-. by apply tstp_inv.
    - by injection E as <-.
    - destruct (made s1 !! k) as [[p [| |]]|] eqn:Hk; try done. injection E as <-. split; simpl.
      + rewrite list_fmap_insert. simpl. rewrite list_insert_id; [done|]. by rewrite list_lookup_fmap, Hk.
      + apply Forall_insert; [done|]. split; [|done]. by apply (Forall_lookup_1 _ _ _ _ Hf Hk). }
  split; [done|]. intros k p Hk. destruct (Forall_lookup_1 _ _ _ _ Hf Hk) as [H1 H2]. simpl in *.
  specialize (H2 eq_refl). by subst.
Qed.

(** [main] passes to [sigaction] a structure of which only the handler is
    set: with indeterminate flags and mask nothing is promised. *)
Theorem toggle_main_undefined pid : toggle_main (Act None None) pid () = Undef UB_uninit.
Proof. done. Qed.

Lemma one_child_runs_witness :
  let s := Toggle 12 [(10, Killed); (11, Killed); (12, Running)] None in
  NoDup (map fst (made s)) /\ forall k p, made s !! k = Some (p, Running) -> p = child_pid s /\ 0 < child_pid s.
Proof.
  refine (one_child_runs (Act (Some 0) (Some 0)) (Some 10) (Toggle 10 [(10, Running)] None) _ eq_refl eq_refl _).
  apply (run_reachable _ _ [L_tstp None; L_tstp (Some 11); L_tstp None; L_tstp None; L_tstp (Some 12)]). by vm_compute.
Defined.
