(* ===== verification/SigCount.v ===== *)
(** The parent and the child of cw04/zad3 (main.c, child.c), which count the
    signals they exchange.

    A standard signal is pending or not; of a real-time signal each one sent is
    pending.  A handler can be interrupted by another signal's, not by its own
    signal's; what it does between two calls is one step. *)
From S2P Require Import Prelude CString.
#[local] Open Scope Z_scope.

(** SIGUSR1, SIGRTMIN + 1 and SIGUSR2 for the child. *)
Inductive csig := S_USR1 | S_RT1 | S_USR2.
#[export] Instance csig_eq_dec : EqDecision csig.
Proof. solve_decision. Defined.

(** [signal_handler] of the child: entered; counted; the reply is sent. *)
Inductive frame_pc := F_enter | F_counted | F_replied.

(** The child has installed [k] of its handlers; was killed by a signal that it
    does not handle yet; has called [exit(0)]. *)
Inductive child_status := C_run (k : Z) | C_killed | C_exited.

(** The parent: at the top of its loop; has sent signal [i] and is about to
    count it; waits for the reply ([mode] 2); after the loop; has sent SIGUSR2; has
    printed its counts. *)
Inductive count_pc := Q_top (i : Z) | Q_sent (i : Z) | Q_wait (i : Z) | Q_last | Q_last_sent | Q_exit.

Record cnt := Cnt {
  q_pc : count_pc;
  sent : Z;
  received : Z;
  usr1_received : bool;
  p_usr1 : bool;                          (* SIGUSR1 pending for the parent *)
  p_rt : nat;                             (* SIGRTMIN + 1, so many *)
  child_st : child_status;
  received_count : Z;
  frames : list (csig * frame_pc);        (* the child's handlers, the running one first *)
  c_usr1 : bool;
  c_usr2 : bool;
  c_rt : nat;
}.

Inductive cnt_label :=
  | L_parent                (* the next call of the parent *)
  | L_int                   (* SIGINT arrives at the parent *)
  | L_deliver (rt : bool)   (* a reply is delivered to the parent *)
  | L_child                 (* the next call of the child *)
  | L_signal (s : csig).    (* a signal is delivered to the child *)

Definition set_q_pc x s := Cnt x (sent s) (received s) (usr1_received s) (p_usr1 s) (p_rt s) (child_st s)
  (received_count s) (frames s) (c_usr1 s) (c_usr2 s) (c_rt s).
Definition set_sent x s := Cnt (q_pc s) x (received s) (usr1_received s) (p_usr1 s) (p_rt s) (child_st s)
  (received_count s) (frames s) (c_usr1 s) (c_usr2 s) (c_rt s).
Definition set_received x f s := Cnt (q_pc s) (sent s) x f (p_usr1 s) (p_rt s) (child_st s)
  (received_count s) (frames s) (c_usr1 s) (c_usr2 s) (c_rt s).
Definition set_parent_pending u r s := Cnt (q_pc s) (sent s) (received s) (usr1_received s) u r (child_st s)
  (received_count s) (frames s) (c_usr1 s) (c_usr2 s) (c_rt s).
Definition set_child st n fs s := Cnt (q_pc s) (sent s) (received s) (usr1_received s) (p_usr1 s) (p_rt s) st n fs
  (c_usr1 s) (c_usr2 s) (c_rt s).
Definition set_child_pending u1 u2 r s := Cnt (q_pc s) (sent s) (received s) (usr1_received s) (p_usr1 s) (p_rt s)
  (child_st s) (received_count s) (frames s) u1 u2 r.

Section SigCount.
(** [argv], and whether SIGINT may arrive. *)
Context (signal_count mode : Z) (intr : bool).

(** [kill(pid, sig)] of the child, which is never waited for: it succeeds. *)
Definition kill_child (sig : csig) (s : cnt) : cnt :=
  match sig with
  | S_USR1 => set_child_pending true (c_usr2 s) (c_rt s) s
  | S_USR2 => set_child_pending (c_usr1 s) true (c_rt s) s
  | S_RT1 => set_child_pending (c_usr1 s) (c_usr2 s) (S (c_rt s)) s
  end.

(** [++x] *)
Definition incr (x : Z) (k : Z -> cnt) : sres cnt := if is_int (x + 1) then Step (k (x + 1)) else Fault UB_overflow.

(** The signals that the loop of [mode] 2 blocks while it is not in
    [sigsuspend]. *)
Definition signals_blocked (s : cnt) : bool :=
  match q_pc s with
  | Q_sent _ => mode =? 2
  | Q_wait _ => usr1_received s
  | Q_exit => true
  | _ => false
  end.

Definition parent_step (s : cnt) : sres cnt :=
  match q_pc s with
  | Q_top i =>
      if i <? signal_count then
        Step (set_q_pc (Q_sent i) (kill_child (if (mode =? 1) || (mode =? 2) then S_USR1 else S_RT1) s))
      else Step (set_q_pc Q_last s)
  | Q_sent i => incr (sent s) (fun n => set_q_pc (if mode =? 2 then Q_wait i else Q_top (i + 1)) (set_sent n s))
  | Q_wait i =>
      if usr1_received s then Step (set_q_pc (Q_top (i + 1)) (set_received (received s) false s)) else Blocked
  | Q_last => Step (set_q_pc Q_last_sent (kill_child S_USR2 s))
  | Q_last_sent => incr (sent s) (fun n => set_q_pc Q_exit (set_sent n s))
  | Q_exit => Blocked
  end.

(** [signal_handler] of the parent. *)
Definition signal_handler (s : cnt) : sres cnt := incr (received s) (fun n => set_received n true s).
Definition int_handler (s : cnt) : sres cnt :=
  match incr (received s) (fun n => set_received n (usr1_received s) (kill_child S_USR2 s)) with
  | Step s' => incr (sent s') (fun n => set_q_pc Q_exit (set_sent n s'))
  | r => r
  end.

Definition deliver (rt : bool) (s : cnt) : sres cnt :=
  if signals_blocked s then Blocked
  else if rt then
    match p_rt s with
    | O => Blocked
    | S r => signal_handler (set_parent_pending (p_usr1 s) r s)
    end
  else if p_usr1 s then signal_handler (set_parent_pending false (p_rt s) s)
  else Blocked.

(** [kill(getppid(), sig)]: a reply to a parent that has ended goes to another
    process, which does not care. *)
Definition reply (sig : csig) (s : cnt) : cnt :=
  match q_pc s, sig with
  | Q_exit, _ | _, S_USR2 => s
  | _, S_USR1 => set_parent_pending true (p_rt s) s
  | _, S_RT1 => set_parent_pending (p_usr1 s) (S (p_rt s)) s
  end.

(** The child's next call: in the handler that runs, or in [setup_signals], or
    [pause]. *)
Definition child_step (s : cnt) : sres cnt :=
  match child_st s, frames s with
  | C_run k, (sig, F_enter) :: fs => incr (received_count s) (fun n => set_child (C_run k) n ((sig, F_counted) :: fs) s)
  | C_run k, (S_USR2, F_counted) :: fs => Step (set_child C_exited (received_count s) [] s)
  | C_run k, (sig, F_counted) :: fs =>
      Step (reply sig (set_child (C_run k) (received_count s) ((sig, F_replied) :: fs) s))
  | C_run k, (_, F_replied) :: fs => Step (set_child (C_run k) (received_count s) fs s)
  | C_run k, [] => if k <? 4 then Step (set_child (C_run (k + 1)) (received_count s) [] s) else Blocked
  | _, _ => Blocked
  end.

(** Is the handler installed: SIGUSR1's is first, SIGUSR2's third. *)
Definition installed (sig : csig) (k : Z) : bool :=
  match sig with S_USR1 => 1 <=? k | S_RT1 => 2 <=? k | S_USR2 => 3 <=? k end.

(** A pending signal is taken. *)
Definition take_signal (sig : csig) (s : cnt) : option cnt :=
  match sig with
  | S_USR1 => if c_usr1 s then Some (set_child_pending false (c_usr2 s) (c_rt s) s) else None
  | S_USR2 => if c_usr2 s then Some (set_child_pending (c_usr1 s) false (c_rt s) s) else None
  | S_RT1 => match c_rt s with O => None | S r => Some (set_child_pending (c_usr1 s) (c_usr2 s) r s) end
  end.

Definition child_signal (sig : csig) (s : cnt) : sres cnt :=
  match child_st s, take_signal sig s with
  | C_run k, Some s' =>
      if bool_decide (sig ∈ map fst (frames s)) then Blocked
      else if installed sig k then Step (set_child (C_run k) (received_count s') ((sig, F_enter) :: frames s') s')
      else Step (set_child C_killed (received_count s') [] s')
  | _, _ => Blocked
  end.

Definition cnt_exec (l : cnt_label) (s : cnt) : sres cnt :=
  match l with
  | L_parent => parent_step s
  | L_int => if intr && negb (signals_blocked s) then int_handler s else Blocked
  | L_deliver rt => deliver rt s
  | L_child => child_step s
  | L_signal sig => child_signal sig s
  end.

(** After [fork]. *)
Definition cnt_start : cnt := Cnt (Q_top 0) 0 0 false false 0 (C_run 0) 0 [] false false 0.
End SigCount.

(** [main] with its arguments: it returns 1 or goes on with a count and a mode. *)
Definition cnt_main (argv : list string) : cm unit (Z + Z * Z) :=
  match argv with
  | [_; a1; a2] =>
      signal_count ← atoi a1;
      mode ← atoi a2;
      mret (inr (signal_count, mode))
  | _ => mret (inl 1)
  end.
