(* ===== verification/SigCountSpec.v ===== *)
(** What the counts of [SigCount.v] say: nobody counts more signals than were
    sent; the mode that waits for each reply counts exactly, once the child is
    ready; the other modes, and an early signal, lose some. *)
From S2P Require Import Prelude CString SigCount.
#[local] Open Scope Z_scope.

(** ** Nothing is counted that was not sent *)

Section Counts.
Context (signal_count mode : Z).

#[local] Abbreviation exec := (cnt_exec signal_count mode false).
#[local] Abbreviation total := (Z.max 0 signal_count).

Definition b2z (b : bool) : Z := if b then 1 else 0.

(** Handlers of the child that have not counted, or not replied, yet. *)
Definition uncounted (f : csig * frame_pc) : bool := match f.2 with F_enter => true | _ => false end.
Definition unreplied (f : csig * frame_pc) : bool :=
  match f with (S_USR2, _) | (_, F_replied) => false | _ => true end.

(** Signals sent, counted by the parent or not yet; without SIGUSR2. *)
Definition kills (s : cnt) : Z := sent s + match q_pc s with Q_sent _ | Q_last_sent => 1 | _ => 0 end.
Definition requests (s : cnt) : Z := sent s + match q_pc s with Q_sent _ => 1 | Q_exit => -1 | _ => 0 end.

Record cnt_inv (s : cnt) : Prop := {
  ci_pc : match q_pc s with
          | Q_top i => sent s = i /\ i <= total
          | Q_sent i => sent s = i /\ i < total
          | Q_wait i => sent s = i + 1 /\ i < total
          | Q_last | Q_last_sent => sent s = total
          | Q_exit => sent s = total + 1
          end;
  ci_parent : received s + b2z (p_usr1 s) + Z.of_nat (p_rt s) + Z.of_nat (countb unreplied (frames s)) +
                b2z (c_usr1 s) + Z.of_nat (c_rt s) <= requests s;
  ci_child : received_count s + Z.of_nat (countb uncounted (frames s)) +
               b2z (c_usr1 s) + b2z (c_usr2 s) + Z.of_nat (c_rt s) <= kills s;
  ci_pos : 0 <= sent s /\ 0 <= received s /\ 0 <= received_count s;
}.

Lemma cnt_start_inv : cnt_inv cnt_start.
Proof. split; unfold kills, requests, countb; simpl; lia. Qed.

Lemma incr_ok x k : 0 <= x < INT_MAX -> incr x k = Step (k (x + 1)).
Proof.
  intros H. unfold incr. replace (is_int (x + 1)) with true; [done|]. unfold is_int, INT_MIN, INT_MAX in *. lia.
Qed.

(** What a step gives, with the invariant. *)
Definition inv_step (P : cnt -> Prop) (r : sres cnt) : Prop :=
  match r with Step s' => P s' | Blocked => True | Fault _ => False end.

Context (Hcount : signal_count < INT_MAX).

(** The parts of the invariant, for a state with its fields in sight. *)
Ltac open_inv :=
  match goal with H : cnt_inv ?s |- _ =>
    destruct s as [pc snt rcv flag pu pr st rc fs cu1 cu2 cr]; destruct H as [Hpc Hpar Hch Hpos];
    unfold kills, requests in Hpar, Hch; simpl in *
  end.
Ltac close_inv :=
  unfold inv_step; split; unfold kills, requests; cbn -[Z.max countb]; rewrite ?countb_cons, ?countb_nil in *;
  cbn -[Z.max countb] in *; try (unfold b2z in *; repeat case_match; lia).

Lemma parent_step_inv s : cnt_inv s -> inv_step cnt_inv (parent_step signal_count mode s).
Proof.
  intros H. open_inv. unfold parent_step. simpl.
  assert (0 <= total <= INT_MAX - 1) as Ht by (unfold INT_MAX in *; lia).
  destruct pc as [i|i|i| | |]; simpl; try done.
  - destruct (Z.ltb_spec i signal_count); [|by close_inv].
    destruct ((mode =? 1) || (mode =? 2)); close_inv.
  - rewrite incr_ok by lia. destruct (mode =? 2); close_inv.
  - destruct flag; [|done]. close_inv.
  - close_inv.
  - rewrite incr_ok by lia. close_inv.
Qed.

Lemma deliver_inv rt s : cnt_inv s -> inv_step cnt_inv (deliver mode rt s).
Proof.
  intros H. assert (received s < INT_MAX) as Hr.
  { destruct H as [H1 H2 _ H3]. unfold requests, b2z, INT_MAX in *. destruct (q_pc s), (p_usr1 s), (c_usr1 s); lia. }
  open_inv. unfold deliver. destruct (signals_blocked _ _); [done|]. simpl. destruct rt.
  - destruct pr as [|r]; [done|]. unfold signal_handler. simpl. rewrite incr_ok by lia. close_inv.
  - destruct pu; [|done]. unfold signal_handler. simpl. rewrite incr_ok by lia. close_inv.
Qed.

Lemma cnt_child_step_inv s : cnt_inv s -> inv_step cnt_inv (child_step s).
Proof.
  intros H. open_inv. unfold child_step. simpl.
  destruct st as [k| |]; try done. destruct fs as [|[sig fp] fs].
  { destruct (k <? 4); [close_inv|done]. }
  rewrite !countb_cons in *.
  destruct fp, sig; simpl in *; try (unfold reply; destruct pc; simpl in *; by close_inv);
    (rewrite incr_ok; [by close_inv|]); unfold b2z, INT_MAX in *; destruct pc, cu1, cu2; simpl in *; lia.
Qed.

Lemma child_signal_inv sig s : cnt_inv s -> inv_step cnt_inv (child_signal sig s).
Proof.
  intros H. open_inv. unfold child_signal, take_signal. simpl.
  destruct st as [k| |]; try done. destruct sig; simpl.
  - destruct cu1; [|done]. simpl. case_bool_decide; [done|]. destruct (1 <=? k); close_inv.
  - destruct cr; [done|]. simpl. case_bool_decide; [done|]. destruct (2 <=? k); close_inv.
  - destruct cu2; [|done]. simpl. case_bool_decide; [done|]. destruct (3 <=? k); close_inv.
Qed.

Lemma cnt_exec_inv l s : cnt_inv s -> inv_step cnt_inv (exec l s).
Proof.
  intros H. destruct l; [by apply parent_step_inv|done|by apply deliver_inv|by apply cnt_child_step_inv|by apply child_signal_inv].
Qed.
End Counts.

(** ** The mode that waits for each reply *)

Section Handshake.
Context (signal_count : Z).
Context (Hcount : signal_count < INT_MAX).
#[local] Abbreviation exec := (cnt_exec signal_count 2 false).
#[local] Abbreviation total := (Z.max 0 signal_count).

(** The handler of the last turn may not have returned yet. *)
Definition tail (fs : list (csig * frame_pc)) : bool :=
  match fs with [] | [(S_USR1, F_replied)] => true | _ => false end.

(** Signal [i] on its way to the child and back: what the parent has received
    and whether it knows, whether the reply is pending, what the child has
    received, its handlers, and whether the signal is pending. *)
Inductive turn (i : Z) : Z -> bool -> bool -> Z -> list (csig * frame_pc) -> bool -> Prop :=
  | turn_sent fs : tail fs = true -> turn i i false false i fs true
  | turn_enter : turn i i false false i [(S_USR1, F_enter)] false
  | turn_counted : turn i i false false (i + 1) [(S_USR1, F_counted)] false
  | turn_replied fs : tail fs = true -> turn i i false true (i + 1) fs false
  | turn_back fs : tail fs = true -> turn i (i + 1) true false (i + 1) fs false.

(** SIGUSR2 on its way to the child, which has received [n] signals before. *)
Inductive last (n : Z) : child_status -> Z -> list (csig * frame_pc) -> bool -> Prop :=
  | last_sent fs : tail fs = true -> last n (C_run 4) n fs true
  | last_enter fs : tail fs = true -> last n (C_run 4) n ((S_USR2, F_enter) :: fs) false
  | last_counted fs : tail fs = true -> last n (C_run 4) (n + 1) ((S_USR2, F_counted) :: fs) false
  | last_exit : last n C_exited (n + 1) [] false.

Inductive hs_inv : cnt -> Prop :=
  | hs_top i fs : 0 <= i <= total -> tail fs = true ->
      hs_inv (Cnt (Q_top i) i i false false 0 (C_run 4) i fs false false 0)
  | hs_sent i r flag pu rc fs cu : 0 <= i < total -> turn i r flag pu rc fs cu ->
      hs_inv (Cnt (Q_sent i) i r flag pu 0 (C_run 4) rc fs cu false 0)
  | hs_wait i r flag pu rc fs cu : 0 <= i < total -> turn i r flag pu rc fs cu ->
      hs_inv (Cnt (Q_wait i) (i + 1) r flag pu 0 (C_run 4) rc fs cu false 0)
  | hs_last fs : tail fs = true ->
      hs_inv (Cnt Q_last total total false false 0 (C_run 4) total fs false false 0)
  | hs_last_sent st rc fs cu : last total st rc fs cu ->
      hs_inv (Cnt Q_last_sent total total false false 0 st rc fs false cu 0)
  | hs_exit st rc fs cu : last total st rc fs cu ->
      hs_inv (Cnt Q_exit (total + 1) total false false 0 st rc fs false cu 0).

(** How much is left to do. *)
Definition frame_weight (f : csig * frame_pc) : Z :=
  match f with
  | (S_USR2, F_enter) => 2
  | (S_USR2, F_counted) => 1
  | (S_USR2, F_replied) => 0
  | (_, F_enter) => 4
  | (_, F_counted) => 3
  | (_, F_replied) => 1
  end.
Definition hs_weight (s : cnt) : Z :=
  match q_pc s with
  | Q_top i => 8 * (total - i) + 6
  | Q_sent i => 8 * (total - i)
  | Q_wait i => 8 * (total - i) - 1
  | Q_last => 5
  | Q_last_sent => 1
  | Q_exit => 0
  end + (if p_usr1 s then 1 else 0) + (if c_usr1 s then 5 else 0) + (if c_usr2 s then 3 else 0) +
  foldr (fun f acc => frame_weight f + acc) 0 (frames s).

#[local] Hint Constructors turn last hs_inv : core.
#[local] Hint Extern 2 (_ <= _ < _) => lia : core.
#[local] Hint Extern 2 (_ <= _ <= _) => lia : core.

Lemma tail_cases fs : tail fs = true -> fs = [] \/ fs = [(S_USR1, F_replied)].
Proof. destruct fs as [|[[] []] [|]]; try done; auto. Qed.

Ltac open_hs :=
  repeat match goal with
    | H : turn _ _ _ _ _ _ _ |- _ => destruct H
    | H : last _ _ _ _ _ |- _ => destruct H
    | H : tail _ = true |- _ => apply tail_cases in H as [-> | ->]
    end.

Definition hs_step (s : cnt) (r : sres cnt) : Prop :=
  match r with Step s' => hs_inv s' /\ hs_weight s' < hs_weight s /\ 0 <= hs_weight s' | Blocked => True | Fault _ => False end.

Lemma hs_weight_nonneg s : hs_inv s -> 0 <= hs_weight s.
Proof.
  destruct 1 as [i fs Hi H|i r flag pu rc fs cu Hi H|i r flag pu rc fs cu Hi H|fs H|st rc fs cu H|st rc fs cu H];
    open_hs; unfold hs_weight; cbn -[Z.mul Z.add Z.sub Z.max]; lia.
Qed.

Lemma hs_exec_inv l s : hs_inv s -> hs_step s (exec l s).
Proof.
  assert (total < INT_MAX) as Ht by (unfold INT_MAX in *; lia).
  destruct 1 as [i fs Hi H|i r flag pu rc fs cu Hi H|i r flag pu rc fs cu Hi H|fs H|st rc fs cu H|st rc fs cu H].
  all: open_hs.
  all: destruct l as [| |[]| |[]]; try exact I.
  all: cbn -[Z.mul Z.add Z.sub Z.max Z.ltb incr signal_handler]; unfold signal_handler; cbn -[Z.mul Z.add Z.sub Z.max Z.ltb incr].
  all: rewrite ?incr_ok by lia.
  all: try (case_match; try done).
  all: try (split; [|unfold hs_weight; cbn -[Z.mul Z.add Z.sub Z.max]; lia]).
  all: unfold set_child, set_q_pc, set_sent, set_received, set_parent_pending, set_child_pending; cbn -[Z.mul Z.add Z.sub Z.max].
  all: try (by eauto 6).
  all: assert (i = total) as -> by lia; by eauto.
Qed.

Lemma hs_run ls s s' : hs_inv s -> run exec ls s = Some s' ->
  hs_inv s' /\ Z.of_nat (length ls) + hs_weight s' <= hs_weight s.
Proof.
  revert s. induction ls as [|l ls IH]; intros s Hi Hr; simplify_eq/=; [split; [done|lia]|].
  pose proof (hs_exec_inv l s Hi) as H. destruct (exec l s) as [s1| |]; try done. destruct H as (H1 & H2 & _).
  destruct (IH s1 H1 Hr) as [H3 H4]. split; [done|lia].
Qed.

(** Somebody can go on until the child has exited. *)
Lemma hs_stuck s : hs_inv s -> stuck exec s ->
  q_pc s = Q_exit /\ sent s = total + 1 /\ received s = total /\ child_st s = C_exited /\ received_count s = total + 1.
Proof.
  assert (total < INT_MAX) as Ht by (unfold INT_MAX in *; lia).
  intros Hi Hst. pose proof (Hst L_parent) as H1. pose proof (Hst L_child) as H2. pose proof (Hst (L_deliver false)) as H3.
  pose proof (Hst (L_signal S_USR1)) as H4. pose proof (Hst (L_signal S_USR2)) as H5. clear Hst.
  destruct Hi; open_hs; cbn -[Z.mul Z.add Z.sub Z.max Z.ltb incr signal_handler] in *; try done.
  all: unfold signal_handler in *; rewrite ?incr_ok in * by (cbn; lia); try done.
  all: by case_match.
Qed.
End Handshake.

(** ** Properties *)

Lemma cnt_main_params argv n mode : cnt_main argv () = Done (inr (n, mode)) () -> INT_MIN <= n <= INT_MAX.
Proof.
  unfold cnt_main. destruct argv as [|a0 [|a1 [|a2 [|? ?]]]]; try done. unfold mbind, cm_bind.
  destruct (atoi a1 ()) as [z1 []| | |] eqn:E1; try done. apply atoi_range in E1.
  destruct (atoi a2 ()) as [z2 []| | |]; try done. by intros [= <- <-].
Qed.

(** C37.  In every mode, and in whatever order the signals arrive, nothing
    overflows and nobody counts more than was sent: when the parent prints its
    counts it has sent one signal more than it was asked to, SIGUSR2, and received
    no more replies than it was asked to provoke, and the child's count does not
    exceed the parent's. *)
Theorem counts_bounded argv n mode s
  (Hm : cnt_main argv () = Done (inr (n, mode)) ()) (Hn : n <> INT_MAX)
  (Hs : reach (cnt_exec n mode false) cnt_start s) :
  safe (cnt_exec n mode false) s /\
  0 <= received s <= Z.max 0 n /\ 0 <= received_count s <= sent s + 1 /\
  (q_pc s = Q_exit -> sent s = Z.max 0 n + 1 /\ received_count s <= sent s).
Proof.
  apply cnt_main_params in Hm. assert (n < INT_MAX) as Hn' by lia.
  assert (cnt_inv n s) as Hi.
  { revert Hs. apply reach_inv; [apply cnt_start_inv|]. intros l s1 s2 H1 H2.
    pose proof (cnt_exec_inv n mode Hn' l s1 H1) as H. by rewrite H2 in H. }
  split.
  { intros l u E. pose proof (cnt_exec_inv n mode Hn' l s Hi) as H. by rewrite E in H. }
  destruct Hi as [H1 H2 H3 H4]. unfold kills, requests, b2z in *.
  repeat split; try lia; destruct (q_pc s), (p_usr1 s), (c_usr1 s), (c_usr2 s); try done; lia.
Qed.

(** The child installs its handlers before anything else happens. *)
Definition ready : list cnt_label := [L_child; L_child; L_child; L_child].

(** C27.  Waiting for each reply makes the counts exact.  In [mode] 2, if the child
    has installed its handlers before the first signal, every schedule is at most
    eight steps per signal and six more, and when nothing more can happen the
    parent has sent every signal and SIGUSR2, received every reply, and the child
    has received all that was sent and has exited. *)
Theorem handshake_counts_all argv n s0 ls s
  (Hm : cnt_main argv () = Done (inr (n, 2)) ()) (Hn : n <> INT_MAX)
  (H0 : run (cnt_exec n 2 false) ready cnt_start = Some s0)
  (Hr : run (cnt_exec n 2 false) ls s0 = Some s) :
  Z.of_nat (length ls) <= 8 * Z.max 0 n + 6 /\
  (stuck (cnt_exec n 2 false) s ->
   q_pc s = Q_exit /\ sent s = Z.max 0 n + 1 /\ received s = Z.max 0 n /\
   child_st s = C_exited /\ received_count s = sent s).
Proof.
  apply cnt_main_params in Hm. assert (n < INT_MAX) as Hn' by lia.
  assert (hs_inv n s0) as Hi0 by (injection H0 as <-; by apply hs_top; [lia|]).
  assert (hs_weight n s0 = 8 * Z.max 0 n + 6) as Hw0
    by (injection H0 as <-; unfold hs_weight; cbn -[Z.mul Z.add Z.sub Z.max]; lia).
  destruct (hs_run n Hn' ls s0 s Hi0 Hr) as [Hi Hw]. pose proof (hs_weight_nonneg n s Hi). split; [lia|].
  intros Hst. destruct (hs_stuck n Hn' s Hi Hst) as (E1 & E2 & E3 & E4 & E5). by rewrite E2, E5.
Qed.

(** Without waiting, signals are lost: in [mode] 1 two of three SIGUSR1
    find one pending, so that the child counts two signals of four. *)
Theorem unwaited_signals_coalesce :
  exists s, reach (cnt_exec 3 1 false) cnt_start s /\ stuck (cnt_exec 3 1 false) s /\
    sent s = 4 /\ received s = 1 /\ child_st s = C_exited /\ received_count s = 2.
Proof.
  destruct (run (cnt_exec 3 1 false) (ready ++ repeat L_parent 7 ++
      [L_signal S_USR1; L_child; L_child; L_deliver false; L_child; L_parent; L_signal S_USR2; L_child; L_child; L_parent])
      cnt_start) as [s|] eqn:E; [|by vm_compute in E].
  exists s. split; [by eapply run_reachable|]. vm_compute in E. injection E as <-.
  split; [|by vm_compute]. by intros [| |[]| |[]].
Qed.

(** The real-time signals do not help: in [mode] 3 SIGUSR2 can overtake
    the three signals that are pending, and the child exits after the first
    signal it takes, while the parent prints at once that it received none. *)
Theorem real_time_signals_overtaken :
  exists s, reach (cnt_exec 3 3 false) cnt_start s /\ stuck (cnt_exec 3 3 false) s /\
    sent s = 4 /\ received s = 0 /\ child_st s = C_exited /\ received_count s = 1.
Proof.
  destruct (run (cnt_exec 3 3 false) (ready ++ repeat L_parent 9 ++ [L_signal S_USR2; L_child; L_child])
      cnt_start) as [s|] eqn:E; [|by vm_compute in E].
  exists s. split; [by eapply run_reachable|]. vm_compute in E. injection E as <-.
  split; [|by vm_compute]. by intros [| |[]| |[]].
Qed.

(** The parent does not wait for the child's handlers: a SIGUSR1 before
    the first of them kills the child, and in [mode] 2 the parent then waits
    forever for the reply. *)
Theorem early_signal_hangs :
  exists s, reach (cnt_exec 3 2 false) cnt_start s /\ stuck (cnt_exec 3 2 false) s /\
    q_pc s = Q_wait 0 /\ child_st s = C_killed.
Proof.
  destruct (run (cnt_exec 3 2 false) [L_parent; L_parent; L_signal S_USR1] cnt_start) as [s|] eqn:E; [|by vm_compute in E].
  exists s. split; [by eapply run_reachable|]. vm_compute in E. injection E as <-.
  split; [|by vm_compute]. by intros [| |[]| |[]].
Qed.

Definition one_signal : list cnt_label :=
  [L_parent; L_parent; L_signal S_USR1; L_child; L_child; L_child; L_deliver false; L_parent; L_parent; L_parent; L_parent;
   L_signal S_USR2; L_child; L_child].
Definition count_argv : list string := ["count"; "1"; "2"]%string.
Definition one_ready : cnt := default cnt_start (run (cnt_exec 1 2 false) ready cnt_start).
Definition one_counted : cnt := default cnt_start (run (cnt_exec 1 2 false) one_signal one_ready).

Lemma counts_bounded_witness : safe (cnt_exec 1 2 false) one_counted /\ received one_counted = 1.
Proof.
  split; [|by vm_compute]. refine (proj1 (counts_bounded count_argv 1 2 one_counted _ _ _)); [by vm_compute|done|].
  apply (run_reachable _ _ (ready ++ one_signal)). by vm_compute.
Defined.

Lemma handshake_counts_all_witness : child_st one_counted = C_exited /\ received_count one_counted = 2.
Proof.
  destruct (proj2 (handshake_counts_all count_argv 1 one_ready one_signal one_counted
    ltac:(by vm_compute) ltac:(done) ltac:(by vm_compute) ltac:(by vm_compute))) as (_ & E1 & _ & E2 & E3).
  { by intros [| |[]| |[]]. }
  split; [exact E2|]. by rewrite E3, E1.
Defined.
