(* ===== verification/Challoc.v ===== *)
(** Tables of blocks of characters: cw01/zad1/src/challoc.c, over a heap of
    allocated objects and the static table. *)
From S2P Require Import Prelude.
#[local] Open Scope Z_scope.

(** What [calloc] gives out: the array of a table, or a block. *)
Inductive obj :=
  | Blocks (ptrs : list Z)
  | Content (c : list Z).

(** The heap by address, the static table, and how often [rand] was called. *)
Record mem := Mem { objs : gmap Z obj; s_chtable : list (list Z); rands : Z }.

Definition set_objs o m := Mem o (s_chtable m) (rands m).

Definition NULL : Z := 0.

(** [struct blk_table], passed by value: copies share the array [blks]. *)
Record blk_table := Tbl { blk_count : Z; blk_size : Z; blks : Z }.

Section Challoc.
(** The allocator: the address it gives for a size, if it does; and [rand]. *)
Context (alloc : gmap Z obj -> Z -> option Z) (rand : Z -> Z).
(** The two macros that are set when the library is compiled. *)
Context (CHALLOC_STATIC_BLK_SIZE CHALLOC_STATIC_BLK_COUNT : Z).

Definition calloc (size : Z) (o : obj) : cm mem Z :=
  m ← get;
  if 2 ^ 64 <=? size then mret NULL
  else
    match alloc (objs m) size with
    | None => mret NULL
    | Some p => put (set_objs (<[p := o]> (objs m)) m) ;; mret p
    end.

Definition free (p : Z) : cm mem unit :=
  if p =? NULL then mret tt
  else
    m ← get;
    match objs m !! p with
    | None => undef UB_freed
    | Some _ => put (set_objs (delete p (objs m)) m)
    end.

(** [tbl.blks[i]], read and written. *)
Definition blks_of (tbl : blk_table) : cm mem (list Z) :=
  m ← get;
  if blks tbl =? NULL then undef UB_null
  else match objs m !! blks tbl with Some (Blocks ptrs) => mret ptrs | _ => undef UB_freed end.
Definition get_blk (tbl : blk_table) (i : Z) : cm mem Z :=
  ptrs ← blks_of tbl; lift UB_bounds (aget ptrs i).
Definition set_blk (tbl : blk_table) (i p : Z) : cm mem unit :=
  ptrs ← blks_of tbl;
  ptrs ← lift UB_bounds (aset ptrs i p);
  modify (fun m => set_objs (<[blks tbl := Blocks ptrs]> (objs m)) m).

Definition challoc (blk_count blk_size : Z) : cm mem blk_table :=
  p ← calloc (blk_count * 8) (Blocks (replicate (Z.to_nat blk_count) NULL));
  if p =? NULL then mret (Tbl 0 blk_size p) else mret (Tbl blk_count blk_size p).

Definition chfree_blk (tbl : blk_table) (blk_no : Z) : cm mem unit :=
  if blks tbl =? NULL then mret tt
  else
    p ← get_blk tbl blk_no;
    if p =? NULL then mret tt
    else free p ;; set_blk tbl blk_no NULL.

Definition chfree (tbl : blk_table) : cm mem unit :=
  if (blk_count tbl =? 0) || (blks tbl =? NULL) then mret tt
  else
    for_range (Z.to_nat (blk_count tbl)) 0 (chfree_blk tbl) ;;
    free (blks tbl).

Definition challoc_blk (tbl : blk_table) (blk_no : Z) : cm mem Z :=
  if blks tbl =? NULL then mret (-2)
  else
    p ← get_blk tbl blk_no;
    (if negb (p =? NULL) then chfree_blk tbl blk_no else mret tt) ;;
    q ← calloc (blk_size tbl) (Content (replicate (Z.to_nat (blk_size tbl)) 0));
    set_blk tbl blk_no q ;;
    r ← get_blk tbl blk_no;
    if r =? NULL then mret (-1) else mret 0.

(** The sum of [n] characters from [i], in a [long long]. *)
Fixpoint sum_chars (n : nat) (c : list Z) (i ret : Z) : cm mem Z :=
  match n with
  | O => mret ret
  | S n' =>
      x ← lift UB_bounds (aget c i);
      check ((- 2 ^ 63 <=? ret + x) && (ret + x <? 2 ^ 63)) UB_overflow ;;
      sum_chars n' c (i + 1) (ret + x)
  end.

Definition chblk_sum (tbl : blk_table) (blk_no : Z) : cm mem Z :=
  if blks tbl =? NULL then mret (-2)
  else
    blk ← get_blk tbl blk_no;
    if blk =? NULL then mret (-1)
    else
      m ← get;
      match objs m !! blk with
      | Some (Content c) => sum_chars (Z.to_nat (blk_size tbl)) c 0 0
      | _ => undef UB_freed
      end.

(** [abs] of the standard library, on an [int]. *)
Definition abs (x : Z) : cm mem Z :=
  if s32 x =? INT_MIN then undef UB_overflow else mret (Z.abs (s32 x)).

Definition ll_sub (a b : Z) : cm mem Z :=
  check ((- 2 ^ 63 <=? a - b) && (a - b <? 2 ^ 63)) UB_overflow ;; mret (a - b).

(** The sums of the blocks from [i]. *)
Fixpoint all_sums (sum : Z -> cm mem Z) (n : nat) (i : Z) : cm mem (list Z) :=
  match n with
  | O => mret []
  | S n' => x ← sum i; l ← all_sums sum n' (i + 1); mret (x :: l)
  end.

(** The loop that looks for the closest sum; [index] and [diff] are carried
    along, and the comparison is in [uintmax_t]. *)
Fixpoint closest (n : nat) (i blk_no : Z) (sums : list Z) (c_sum index diff : Z) : cm mem (Z * Z) :=
  match n with
  | O => mret (index, diff)
  | S n' =>
      if i =? blk_no then closest n' (i + 1) blk_no sums c_sum index diff
      else
        s ← lift UB_bounds (aget sums index);
        d ← ll_sub c_sum s;
        d ← abs d;
        let diff2 := u64 d in
        if diff2 <? u64 diff then closest n' (i + 1) blk_no sums c_sum i diff2
        else closest n' (i + 1) blk_no sums c_sum index diff
  end.

(** The body shared by [chfind] and [s_chfind], once the sums are known. *)
Definition find_sum (blk_count blk_no : Z) (sums : list Z) : cm mem (Z * Z) :=
  c_sum ← lift UB_bounds (aget sums blk_no);
  check (negb (blk_count =? 0)) UB_div0 ;;
  let index := u64 (blk_no + 1) mod blk_count in
  s ← lift UB_bounds (aget sums index);
  d ← ll_sub c_sum s;
  diff ← abs d;
  closest (Z.to_nat blk_count) 0 blk_no sums c_sum index diff.

(** The result is the index with what is stored in [*difference]. *)
Definition chfind (tbl : blk_table) (blk_no : Z) : cm mem (Z * Z) :=
  p ← get_blk tbl blk_no;
  if p =? NULL then mret (blk_no, 0)
  else
    sums ← all_sums (chblk_sum tbl) (Z.to_nat (blk_count tbl)) 0;
    r ← find_sum (blk_count tbl) blk_no sums;
    s ← lift UB_bounds (aget sums r.1);
    if s =? -1 then mret (blk_no, 0) else mret r.

(** ** The static table *)

Definition s_blk (blk_no : Z) : cm mem (list Z) :=
  m ← get; lift UB_bounds (aget (s_chtable m) blk_no).

(** The address of a block: here its index, once it is known to exist. *)
Definition s_chgetblk (blk_no : Z) : cm mem Z := _ ← s_blk blk_no; mret blk_no.

Definition s_chblk_sum (blk_no : Z) : cm mem Z :=
  c ← s_blk blk_no; sum_chars (Z.to_nat CHALLOC_STATIC_BLK_SIZE) c 0 0.

Definition s_chfind (blk_no : Z) : cm mem (Z * Z) :=
  sums ← all_sums s_chblk_sum (Z.to_nat CHALLOC_STATIC_BLK_COUNT) 0;
  find_sum CHALLOC_STATIC_BLK_COUNT blk_no sums.

Definition s_set (blk_no i x : Z) : cm mem unit :=
  c ← s_blk blk_no;
  c ← lift UB_bounds (aset c i x);
  m ← get;
  t ← lift UB_bounds (aset (s_chtable m) blk_no c);
  put (Mem (objs m) t (rands m)).

Definition next_rand : cm mem Z :=
  m ← get; put (Mem (objs m) (s_chtable m) (rands m + 1)) ;; mret (rand (rands m)).

Definition s_chrndfill (blk_no : Z) : cm mem unit :=
  for_range (Z.to_nat CHALLOC_STATIC_BLK_SIZE) 0 (fun i => x ← next_rand; s_set blk_no i (s8 x)).

Definition s_chvoid (blk_no : Z) : cm mem unit :=
  for_range (Z.to_nat CHALLOC_STATIC_BLK_SIZE) 0 (fun i => s_set blk_no i 0).
End Challoc.
