(* ===== verification/ChallocSpec.v ===== *)
(** What the tables of [Challoc.v] promise: a table is a list of optional
    blocks, nothing leaks; and what [chfind] finds. *)
From S2P Require Import Prelude Challoc.
#[local] Open Scope Z_scope.

(** The table [tbl] holds the blocks [bs] on a heap that is [F] elsewhere. *)
Record table_repr (F : gmap Z obj) (tbl : blk_table) (bs : list (option (list Z))) (ptrs : list Z) (m : mem) : Prop := {
  tr_blks : blks tbl <> NULL /\ F !! blks tbl = None;
  tr_array : objs m !! blks tbl = Some (Blocks ptrs);
  tr_len : length ptrs = length bs /\ blk_count tbl = Z.of_nat (length bs);
  tr_none : forall i, bs !! i = Some None -> ptrs !! i = Some NULL;
  tr_some : forall i c, bs !! i = Some (Some c) -> exists p, ptrs !! i = Some p /\ p <> NULL /\ p <> blks tbl /\
    F !! p = None /\ objs m !! p = Some (Content c) /\ Z.of_nat (length c) = blk_size tbl;
  tr_distinct : forall i j p, ptrs !! i = Some p -> ptrs !! j = Some p -> p <> NULL -> i = j;
  tr_frame : forall q, q <> blks tbl -> (q ∈ ptrs -> q = NULL) -> objs m !! q = F !! q;
}.

Definition holds (F : gmap Z obj) (tbl : blk_table) (bs : list (option (list Z))) (m : mem) : Prop :=
  exists ptrs, table_repr F tbl bs ptrs m.

(** Everything but the heap is as it was. *)
Definition same_rest (m m' : mem) : Prop := s_chtable m' = s_chtable m /\ rands m' = rands m.

Section Spec.
Context (alloc : gmap Z obj -> Z -> option Z).
(** The allocator gives addresses that are not in use. *)
Context (alloc_fresh : forall h n p, alloc h n = Some p -> p <> NULL /\ h !! p = None).

Lemma get_blk_at F tbl bs ptrs m i p :
  table_repr F tbl bs ptrs m -> ptrs !! i = Some p -> get_blk tbl (Z.of_nat i) m = Done p m.
Proof.
  intros [[Hb _] Ha _ _ _ _ _] Hp. unfold get_blk, blks_of. cm_step.
  destruct (Z.eqb_spec (blks tbl) NULL); [done|]. rewrite Ha. simpl.
  by rewrite aget_nat, Hp.
Qed.

Lemma set_blk_at F tbl bs ptrs m i q :
  table_repr F tbl bs ptrs m -> (i < length ptrs)%nat ->
  set_blk tbl (Z.of_nat i) q m = Done tt (set_objs (<[blks tbl := Blocks (<[i := q]> ptrs)]> (objs m)) m).
Proof.
  intros [[Hb _] Ha _ _ _ _ _] Hi. unfold set_blk, blks_of. cm_step.
  destruct (Z.eqb_spec (blks tbl) NULL); [done|]. rewrite Ha. simpl.
  rewrite aset_ok by lia. simpl. by rewrite Nat2Z.id.
Qed.

Lemma blocks_lookup {A} (bs : list (option A)) i :
  (i < length bs)%nat -> bs !! i = Some None \/ exists c, bs !! i = Some (Some c).
Proof.
  intros Hi. destruct (lookup_lt_is_Some_2 bs i Hi) as [[c|] Hc]; [right; by exists c|by left].
Qed.

(** Dropping the block at [i]: its object goes, its pointer becomes null. *)
Lemma repr_drop F tbl bs ptrs m i c p :
  table_repr F tbl bs ptrs m -> bs !! i = Some (Some c) -> ptrs !! i = Some p ->
  table_repr F tbl (<[i := None]> bs) (<[i := NULL]> ptrs)
    (set_objs (<[blks tbl := Blocks (<[i := NULL]> ptrs)]> (delete p (objs m))) m).
Proof.
  intros [[Hb HF] Ha [Hl Hn] Hnone Hsome Hd Hfr] Hc Hp.
  destruct (Hsome i c Hc) as (p' & Hp' & Hp0 & Hpb & HFp & Hobj & Hlen). simplify_eq.
  split; simpl.
  - done.
  - by rewrite lookup_insert_eq.
  - by rewrite !length_insert.
  - intros j Hj. apply list_lookup_insert_Some in Hj as [(<- & _ & _)|(Hij & Hj)].
    + apply list_lookup_insert_eq. by eapply lookup_lt_Some.
    + rewrite list_lookup_insert_ne by done. by apply Hnone.
  - intros j c' Hj. apply list_lookup_insert_Some in Hj as [(_ & ? & _)|(Hij & Hj)]; [done|].
    destruct (Hsome j c' Hj) as (q & Hq & Hq0 & Hqb & HFq & Hqo & Hql).
    exists q. rewrite list_lookup_insert_ne by done.
    rewrite lookup_insert_ne by done. rewrite lookup_delete_ne; [done|].
    intros ->. destruct Hij. by eapply Hd.
  - intros j k q Hj Hk Hq0. apply list_lookup_insert_Some in Hj as [(_ & ? & _)|(_ & Hj)]; [done|].
    apply list_lookup_insert_Some in Hk as [(_ & ? & _)|(_ & Hk)]; [done|]. by eapply Hd.
  - intros q Hqb Hq. rewrite lookup_insert_ne by done.
    destruct (decide (q = p)) as [->|Hqp]; [by rewrite lookup_delete_eq, HFp|].
    rewrite lookup_delete_ne by done. apply Hfr; [done|]. intros Hin. apply Hq.
    apply list_elem_of_lookup in Hin as [j Hj]. apply list_elem_of_lookup. exists j.
    rewrite list_lookup_insert_ne; [done|]. intros ->. congruence.
Qed.

(** Filling the empty slot [i] with a fresh block. *)
Lemma repr_fill F tbl bs ptrs m i c q :
  table_repr F tbl bs ptrs m -> bs !! i = Some None -> q <> NULL -> objs m !! q = None ->
  Z.of_nat (length c) = blk_size tbl ->
  table_repr F tbl (<[i := Some c]> bs) (<[i := q]> ptrs)
    (set_objs (<[blks tbl := Blocks (<[i := q]> ptrs)]> (<[q := Content c]> (objs m))) m).
Proof.
  intros [[Hb HF] Ha [Hl Hn] Hnone Hsome Hd Hfr] Hi Hq0 Hq Hc.
  pose proof (Hnone i Hi) as Hpi. pose proof (lookup_lt_Some _ _ _ Hi) as Hlt.
  assert (q <> blks tbl) as Hqb by congruence.
  assert (q ∉ ptrs) as Hqp.
  { intros [j Hj]%list_elem_of_lookup. pose proof (lookup_lt_Some _ _ _ Hj) as Hjl.
    destruct (blocks_lookup bs j) as [Hbj|[cj Hbj]]; [lia| |].
    - rewrite (Hnone j Hbj) in Hj. congruence.
    - destruct (Hsome j cj Hbj) as (p & Hp & _ & _ & _ & Ho & _). congruence. }
  assert (F !! q = None) as HFq by (rewrite <- Hfr; done).
  split; simpl.
  - done.
  - by rewrite lookup_insert_eq.
  - by rewrite !length_insert.
  - intros j Hj. apply list_lookup_insert_Some in Hj as [(_ & ? & _)|(Hij & Hj)]; [done|].
    rewrite list_lookup_insert_ne by done. by apply Hnone.
  - intros j c' Hj. apply list_lookup_insert_Some in Hj as [(<- & E & _)|(Hij & Hj)].
    + exists q. rewrite list_lookup_insert_eq by lia. rewrite lookup_insert_ne by done.
      rewrite lookup_insert_eq. by simplify_eq.
    + destruct (Hsome j c' Hj) as (p & Hp & Hp0 & Hpb & HFp & Ho & Hpl).
      exists p. rewrite list_lookup_insert_ne by done. rewrite !lookup_insert_ne by congruence. done.
  - intros j k p Hj Hk Hp0. apply list_lookup_insert_Some in Hj as [(<- & <- & _)|(Hij & Hj)];
      apply list_lookup_insert_Some in Hk as [(<- & E & _)|(Hik & Hk)].
    + done.
    + destruct Hqp. by eapply list_elem_of_lookup_2.
    + subst. destruct Hqp. by eapply list_elem_of_lookup_2.
    + by eapply Hd.
  - intros p Hpb Hp. rewrite lookup_insert_ne by done.
    destruct (decide (p = q)) as [->|Hne].
    + destruct Hq0. apply Hp. apply list_elem_of_lookup. exists i. apply list_lookup_insert_eq. lia.
    + rewrite lookup_insert_ne by done. apply Hfr; [done|]. intros [j Hj]%list_elem_of_lookup.
      destruct (decide (i = j)) as [->|Hij]; [congruence|]. apply Hp. apply list_elem_of_lookup.
      exists j. by rewrite list_lookup_insert_ne.
Qed.

Lemma chfree_blk_spec F tbl bs m i :
  holds F tbl bs m -> (i < length bs)%nat ->
  exists m', chfree_blk tbl (Z.of_nat i) m = Done tt m' /\ holds F tbl (<[i := None]> bs) m' /\ same_rest m m'.
Proof.
  intros [ptrs HR] Hi. pose proof HR as [[Hb HF] Ha [Hl Hn] Hnone Hsome Hd Hfr].
  unfold chfree_blk. destruct (Z.eqb_spec (blks tbl) NULL); [done|].
  destruct (blocks_lookup bs i Hi) as [Hbi|[c Hbi]].
  - unfold mbind at 1, cm_bind at 1. erewrite get_blk_at by (done || by apply Hnone).
    rewrite Z.eqb_refl. exists m. split; [done|]. split; [|done]. exists ptrs. by rewrite list_insert_id.
  - destruct (Hsome i c Hbi) as (p & Hp & Hp0 & Hpb & HFp & Ho & Hlc).
    unfold mbind at 1, cm_bind at 1. erewrite get_blk_at by done.
    destruct (Z.eqb_spec p NULL); [done|]. unfold free. destruct (Z.eqb_spec p NULL); [done|].
    cm_step. rewrite Ho. unfold set_blk, blks_of. cm_step.
    destruct (Z.eqb_spec (blks tbl) NULL); [done|].
    rewrite lookup_delete_ne, Ha by done. simpl. rewrite aset_ok by lia. simpl. rewrite Nat2Z.id.
    eexists. split; [done|]. split; [|done]. exists (<[i := NULL]> ptrs).
    by eapply (repr_drop F tbl bs ptrs m i c p).
Qed.

Lemma challoc_blk_spec F tbl bs m i :
  0 <= blk_size tbl -> holds F tbl bs m -> (i < length bs)%nat ->
  exists code m', challoc_blk alloc tbl (Z.of_nat i) m = Done code m' /\ same_rest m m' /\
    (code = 0 /\ holds F tbl (<[i := Some (replicate (Z.to_nat (blk_size tbl)) 0)]> bs) m' \/
     code = -1 /\ holds F tbl (<[i := None]> bs) m').
Proof.
  intros Hsz HH Hi. pose proof HH as [ptrs HR]. pose proof HR as [[Hb _] _ [Hl _] _ _ _ _].
  assert (exists p, ptrs !! i = Some p) as [p Hp] by (apply lookup_lt_is_Some_2; lia).
  destruct (chfree_blk_spec F tbl bs m i HH Hi) as (m1 & E1 & [ptrs1 HR1] & Hs1).
  assert ((if negb (p =? NULL) then chfree_blk tbl (Z.of_nat i) else mret tt) m = Done tt m1) as E1'.
  { destruct (Z.eqb_spec p NULL) as [->|]; [|exact E1].
    revert E1. unfold chfree_blk. destruct (Z.eqb_spec (blks tbl) NULL); [done|].
    unfold mbind at 1, cm_bind at 1. erewrite get_blk_at by done. by rewrite Z.eqb_refl. }
  unfold challoc_blk. destruct (Z.eqb_spec (blks tbl) NULL); [done|].
  unfold mbind at 1, cm_bind at 1. erewrite get_blk_at by done.
  unfold mbind at 1, cm_bind at 1. rewrite E1'.
  pose proof HR1 as [_ _ [Hl1 _] Hnone1 _ _ _]. rewrite length_insert in Hl1.
  assert (<[i := None]> bs !! i = Some None) as Hbi by by apply list_lookup_insert_eq.
  (* writing the pointer that calloc gave, and testing it *)
  assert (forall q m2 bs2 ptrs2, table_repr F tbl bs2 ptrs2 m2 -> ptrs2 !! i = Some q ->
    (r ← get_blk tbl (Z.of_nat i); if r =? NULL then mret (-1) else mret 0) m2 =
    Done (if q =? NULL then -1 else 0) m2) as Htest.
  { intros q m2 bs2 ptrs2 HR2 Hq. unfold mbind, cm_bind. erewrite get_blk_at by done. by destruct (q =? NULL). }
  assert (forall m2 q, blks_of tbl m2 = Done ptrs1 m2 ->
    set_blk tbl (Z.of_nat i) q m2 = Done tt (set_objs (<[blks tbl := Blocks (<[i := q]> ptrs1)]> (objs m2)) m2)) as Hset.
  { intros m2 q Hbo. unfold set_blk. unfold mbind at 1, cm_bind at 1. rewrite Hbo. cm_step.
    rewrite aset_ok by lia. cm_step. by rewrite Nat2Z.id. }
  pose proof HR1 as [_ Ha1 _ _ _ _ _].
  unfold calloc. unfold mbind at 1, cm_bind at 1. cm_step.
  destruct (2 ^ 64 <=? blk_size tbl); [|destruct (alloc (objs m1) (blk_size tbl)) as [q|] eqn:Eq].
  2: { destruct (alloc_fresh _ _ _ Eq) as [Hq0 Hqf].
    assert (q <> blks tbl) by congruence.
    rewrite Hset by (unfold blks_of; cm_step; destruct (Z.eqb_spec (blks tbl) NULL); [done|];
      by rewrite lookup_insert_ne, Ha1 by done).
    pose proof (repr_fill F tbl _ ptrs1 m1 i (replicate (Z.to_nat (blk_size tbl)) 0) q HR1 Hbi Hq0 Hqf
      ltac:(rewrite length_replicate; lia)) as HR2.
    rewrite list_insert_insert_eq in HR2.
    exists 0. eexists. split; [refine (eq_trans (Htest q _ _ _ HR2 _) _)|].
    - apply list_lookup_insert_eq. lia.
    - by destruct (Z.eqb_spec q NULL).
    - split; [exact Hs1|left]. split; [done|]. eexists. exact HR2. }
  all: rewrite Hset by (unfold blks_of; cm_step; destruct (Z.eqb_spec (blks tbl) NULL); [done|by rewrite Ha1]);
    assert (table_repr F tbl (<[i:=None]> bs) (<[i := NULL]> ptrs1)
      (set_objs (<[blks tbl := Blocks (<[i := NULL]> ptrs1)]> (objs m1)) m1)) as HR2
      by (rewrite (list_insert_id ptrs1) by (by apply Hnone1); rewrite insert_id by done;
          by destruct m1);
    exists (-1); eexists; (split; [refine (eq_trans (Htest NULL _ _ _ HR2 _) _)|]);
    [apply list_lookup_insert_eq; lia|done|split; [exact Hs1|right; split; [done|eexists; exact HR2]]].
Qed.

Lemma challoc_spec n sz m :
  0 <= n ->
  exists tbl m', challoc alloc n sz m = Done tbl m' /\ same_rest m m' /\ blk_size tbl = sz /\
    (holds (objs m) tbl (replicate (Z.to_nat n) None) m' \/ (blks tbl = NULL /\ blk_count tbl = 0 /\ m' = m)).
Proof.
  intros Hn. unfold challoc, calloc. cm_step.
  destruct (2 ^ 64 <=? n * 8); [by do 2 eexists; split; [done|]; split; [done|]; split; [done|right]|].
  destruct (alloc (objs m) (n * 8)) as [p|] eqn:E;
    [|by do 2 eexists; split; [done|]; split; [done|]; split; [done|right]].
  destruct (alloc_fresh _ _ _ E) as [Hp Hf]. destruct (Z.eqb_spec p NULL); [done|].
  do 2 eexists. split; [done|]. split; [done|]. split; [done|left].
  exists (replicate (Z.to_nat n) NULL). split; simpl.
  - done.
  - by rewrite lookup_insert_eq.
  - rewrite !length_replicate. lia.
  - intros i [_ Hi]%lookup_replicate. by apply lookup_replicate.
  - by intros i c [? _]%lookup_replicate.
  - intros i j q [-> _]%lookup_replicate. done.
  - intros q Hq _. by rewrite lookup_insert_ne.
Qed.

(** Freeing the blocks one by one leaves a table of empty slots. *)
Lemma chfree_blks_spec F tbl bs m :
  holds F tbl bs m ->
  wp (for_range (length bs) 0 (chfree_blk tbl))
    (fun _ m' => holds F tbl (replicate (length bs) None) m' /\ same_rest m m') (fun _ _ => False) m.
Proof.
  intros HH.
  pose proof (wp_for_range_idx (fun k m' => holds F tbl (replicate (Z.to_nat k) None ++ drop (Z.to_nat k) bs) m' /\ same_rest m m')
    (fun _ _ => False) (chfree_blk tbl) (length bs) 0 m) as H.
  eapply wp_mono; [apply H| |done].
  - intros k s Hk [Hs Hrest].
    destruct (chfree_blk_spec F tbl _ s (Z.to_nat k) Hs) as (m' & E & Hh & Hr).
    { rewrite length_app, length_replicate, length_drop. lia. }
    rewrite Z2Nat.id in E by lia. eapply wp_done; [exact E|]. split.
    + destruct (lookup_lt_is_Some_2 bs (Z.to_nat k)) as [x Hx]; [lia|].
      rewrite (drop_S _ x) in Hh by done. rewrite insert_app_r_alt in Hh by (rewrite length_replicate; lia).
      rewrite length_replicate, Nat.sub_diag in Hh. simpl in Hh.
      replace (Z.to_nat (k + 1)) with (Z.to_nat k + 1)%nat by lia.
      rewrite replicate_add, <- app_assoc. simpl. by rewrite Nat.add_1_r.
    + destruct Hrest, Hr. split; congruence.
  - simpl. by rewrite drop_0.
  - intros [] s. rewrite Z.add_0_l, Nat2Z.id, drop_all, app_nil_r. done.
Qed.

Lemma chfree_spec F tbl bs m :
  holds F tbl bs m -> bs <> [] ->
  exists m', chfree tbl m = Done tt m' /\ objs m' = F /\ same_rest m m'.
Proof.
  intros HH Hne. pose proof HH as [ptrs [[Hb _] _ [_ Hn] _ _ _ _]].
  unfold chfree. destruct bs as [|b bs]; [done|].
  destruct (Z.eqb_spec (blk_count tbl) 0); [simpl in Hn; lia|]. destruct (Z.eqb_spec (blks tbl) NULL); [done|].
  cbn [orb]. rewrite Hn, Nat2Z.id.
  pose proof (chfree_blks_spec F tbl (b :: bs) m HH) as H. unfold wp in H.
  unfold mbind at 1, cm_bind at 1. destruct (for_range _ 0 (chfree_blk tbl) m) as [[] m1| | |]; try done.
  destruct H as [[ptrs1 [[_ HF] Ha [Hl _] Hnone _ _ Hfr]] Hr].
  unfold free. destruct (Z.eqb_spec (blks tbl) NULL); [done|]. cm_step. rewrite Ha.
  eexists. split; [done|]. split; [|done]. simpl. apply map_eq. intros q.
  destruct (decide (q = blks tbl)) as [->|Hq]; [by rewrite lookup_delete_eq, HF|].
  rewrite lookup_delete_ne by done. apply Hfr; [done|]. intros [j Hj]%list_elem_of_lookup.
  pose proof (lookup_lt_Some _ _ _ Hj) as Hlt. rewrite Hl, length_replicate in Hlt.
  assert (replicate (length (b :: bs)) (@None (list Z)) !! j = Some None) as Hx by by apply lookup_replicate.
  apply Hnone in Hx. congruence.
Qed.
End Spec.

(** ** Sequences of calls on a table *)

Inductive call := CAlloc (i : nat) | CFree (i : nat).

Definition call_index (c : call) : nat := match c with CAlloc i | CFree i => i end.

(** What each call returns ([chfree_blk] nothing). *)
Definition do_call (alloc : gmap Z obj -> Z -> option Z) (tbl : blk_table) (c : call) : cm mem Z :=
  match c with
  | CAlloc i => challoc_blk alloc tbl (Z.of_nat i)
  | CFree i => chfree_blk tbl (Z.of_nat i) ;; mret 0
  end.

Fixpoint do_calls (alloc : gmap Z obj -> Z -> option Z) (tbl : blk_table) (cs : list call) : cm mem (list Z) :=
  match cs with
  | [] => mret []
  | c :: cs' => r ← do_call alloc tbl c; rs ← do_calls alloc tbl cs'; mret (r :: rs)
  end.

(** The abstract table after the calls, given what they returned. *)
Definition abs_call (sz : Z) (bs : list (option (list Z))) (c : call) (code : Z) : list (option (list Z)) :=
  match c with
  | CAlloc i => <[i := if code =? 0 then Some (replicate (Z.to_nat sz) 0) else None]> bs
  | CFree i => <[i := None]> bs
  end.

Fixpoint abs_calls (sz : Z) (bs : list (option (list Z))) (cs : list call) (codes : list Z) : list (option (list Z)) :=
  match cs, codes with
  | c :: cs', r :: codes' => abs_calls sz (abs_call sz bs c r) cs' codes'
  | _, _ => bs
  end.

Lemma length_abs_call sz bs c r : length (abs_call sz bs c r) = length bs.
Proof. destruct c; apply length_insert. Qed.

Lemma length_abs_calls sz cs : forall bs codes, length (abs_calls sz bs cs codes) = length bs.
Proof.
  induction cs as [|c cs IH]; intros bs [|r codes]; simpl; try done. by rewrite IH, length_abs_call.
Qed.

Lemma do_calls_spec alloc (Hal : forall h n p, alloc h n = Some p -> p <> NULL /\ h !! p = None) F tbl cs :
  forall bs m, 0 <= blk_size tbl -> holds F tbl bs m -> Forall (fun c => (call_index c < length bs)%nat) cs ->
  exists codes m', do_calls alloc tbl cs m = Done codes m' /\ length codes = length cs /\
    holds F tbl (abs_calls (blk_size tbl) bs cs codes) m' /\ same_rest m m'.
Proof.
  induction cs as [|c cs IH]; intros bs m Hsz HH Hcs; [by exists [], m|].
  apply Forall_cons in Hcs as [Hc Hcs].
  assert (exists r m1, do_call alloc tbl c m = Done r m1 /\ same_rest m m1 /\
    holds F tbl (abs_call (blk_size tbl) bs c r) m1) as (r & m1 & E & Hs1 & H1).
  { destruct c as [i|i]; simpl in *.
    - destruct (challoc_blk_spec alloc Hal F tbl bs m i Hsz HH Hc) as (r & m1 & E & Hs & [[-> ?]|[-> ?]]);
        [exists 0, m1|exists (-1), m1]; done.
    - destruct (chfree_blk_spec F tbl bs m i HH Hc) as (m1 & E & Hh & Hs).
      exists 0, m1. unfold mbind, cm_bind. by rewrite E. }
  destruct (IH (abs_call (blk_size tbl) bs c r) m1) as (codes & m' & E' & Hl & Hh & Hs2); [done|done| |].
  { eapply Forall_impl; [exact Hcs|]. intros c' Hc'. by rewrite length_abs_call. }
  exists (r :: codes), m'. simpl. unfold mbind, cm_bind. rewrite E, E'. split; [done|].
  split; [simpl; by rewrite Hl|]. split; [done|]. destruct Hs1, Hs2. split; congruence.
Qed.

(** ** The closest sum *)

(** The loop of [chfind] compares the same block with itself, whatever [i] is. *)
Lemma closest_idle n : forall i blk_no sums c_sum index diff s m,
  aget sums index = Some s -> - 2 ^ 63 <= c_sum - s < 2 ^ 63 -> s32 (c_sum - s) <> INT_MIN ->
  diff = Z.abs (s32 (c_sum - s)) ->
  closest n i blk_no sums c_sum index diff m = Done (index, diff) m.
Proof.
  induction n as [|n IH]; intros i blk_no sums c_sum index diff s m Hs Hr Hm Hd; [done|].
  simpl. destruct (i =? blk_no); [by eapply IH|].
  unfold ll_sub, abs. cm_step. rewrite Hs. simpl.
  destruct (_ && _) eqn:E; [|lia]. simpl. destruct (Z.eqb_spec (s32 (c_sum - s)) INT_MIN); [done|]. simpl.
  rewrite <- Hd, Z.ltb_irrefl. by eapply IH.
Qed.

Lemma find_sum_next count blk_no sums m c s :
  0 <= blk_no < count -> count < 2 ^ 63 -> Z.of_nat (length sums) = count ->
  aget sums blk_no = Some c -> aget sums ((blk_no + 1) mod count) = Some s ->
  - 2 ^ 63 <= c - s < 2 ^ 63 -> s32 (c - s) <> INT_MIN ->
  find_sum count blk_no sums m = Done ((blk_no + 1) mod count, Z.abs (s32 (c - s))) m.
Proof.
  intros Hb Hc Hl Hbs Hss Hr Hm. unfold find_sum.
  assert (u64 (blk_no + 1) = blk_no + 1) as Hu by (apply Z.mod_small; lia).
  cbv zeta. rewrite !Hu. set (ix := (blk_no + 1) mod count) in *. clearbody ix. cm_step. rewrite Hbs. simpl. destruct (Z.eqb_spec count 0); [lia|]. simpl.
  rewrite Hss. simpl. unfold ll_sub, abs. cm_step.
  destruct (_ && _) eqn:E; [|lia]. simpl. destruct (Z.eqb_spec (s32 (c - s)) INT_MIN); [done|]. simpl.
  by apply (closest_idle _ _ _ _ _ _ _ s).
Qed.

(** The sum of a block, when it fits. *)
Definition sums_to (c : list Z) : Z := foldr Z.add 0 c.

(** Every character is one. *)
Definition chars (c : list Z) : Prop := Forall (fun x => -128 <= x <= 127) c.

Lemma sums_to_bound c : chars c -> - 128 * Z.of_nat (length c) <= sums_to c <= 127 * Z.of_nat (length c).
Proof. induction 1 as [|x c Hx _ IH]; cbn [sums_to foldr length]; [lia|]. unfold sums_to in IH. lia. Qed.

Lemma sum_chars_spec c : forall pre i ret m,
  chars c -> i = Z.of_nat (length pre) ->
  - 2 ^ 63 <= ret - 128 * Z.of_nat (length c) -> ret + 128 * Z.of_nat (length c) < 2 ^ 63 ->
  sum_chars (length c) (pre ++ c) i ret m = Done (ret + sums_to c) m.
Proof.
  induction c as [|x c IH]; intros pre i ret m Hc -> Hlo Hhi.
  - simpl. cm_step. by rewrite Z.add_0_r.
  - apply Forall_cons in Hc as [Hx Hc]. cbn [length sum_chars] in *. rewrite aget_nat.
    rewrite lookup_app_r, Nat.sub_diag by lia. cm_step.
    destruct (_ && _) eqn:E; [|lia]. cm_step.
    pose proof (IH (pre ++ [x]) (Z.of_nat (length pre) + 1) (ret + x) m Hc
      ltac:(rewrite length_app; simpl; lia) ltac:(lia) ltac:(lia)) as H.
    rewrite <- app_assoc in H. simpl in H. rewrite H. f_equal. lia.
Qed.

(** What [chblk_sum] says of a slot: -1 for an empty one. *)
Definition slot_sum (b : option (list Z)) : Z := match b with None => -1 | Some c => sums_to c end.

Definition slots_ok (bs : list (option (list Z))) : Prop := Forall (fun b => forall c, b = Some c -> chars c) bs.

Lemma chblk_sum_spec F tbl bs m i b :
  holds F tbl bs m -> 0 <= blk_size tbl < 2 ^ 55 -> slots_ok bs -> bs !! i = Some b ->
  chblk_sum tbl (Z.of_nat i) m = Done (slot_sum b) m.
Proof.
  intros [ptrs HR] Hsz Hok Hi. pose proof HR as [[Hb _] Ha [Hl _] Hnone Hsome _ _].
  unfold chblk_sum. destruct (Z.eqb_spec (blks tbl) NULL); [done|].
  unfold mbind at 1, cm_bind at 1. destruct b as [c|].
  - destruct (Hsome i c Hi) as (p & Hp & Hp0 & _ & _ & Ho & Hlc). erewrite get_blk_at by done.
    destruct (Z.eqb_spec p NULL); [done|]. cm_step. rewrite Ho. rewrite <- Hlc, Nat2Z.id.
    apply (sum_chars_spec c [] 0 0); [|done|lia|lia].
    by apply (Forall_lookup_1 _ _ _ _ Hok Hi).
  - erewrite get_blk_at by (done || by apply Hnone). by rewrite Z.eqb_refl.
Qed.

Lemma all_sums_spec (sum : Z -> cm mem Z) (l : list Z) m : forall i,
  (forall k x, l !! k = Some x -> sum (i + Z.of_nat k) m = Done x m) ->
  all_sums sum (length l) i m = Done l m.
Proof.
  induction l as [|x l IH]; intros i H; [done|]. cbn [length all_sums].
  unfold mbind at 1, cm_bind at 1. specialize (H 0%nat x eq_refl) as Hx. rewrite Z.add_0_r in Hx. rewrite Hx.
  unfold mbind at 1, cm_bind at 1. rewrite IH; [done|]. intros k y Hk.
  replace (i + 1 + Z.of_nat k) with (i + Z.of_nat (S k)) by lia. by apply H.
Qed.

Lemma chfind_eq F tbl bs m i c :
  holds F tbl bs m -> 0 <= blk_size tbl < 2 ^ 31 -> slots_ok bs -> Z.of_nat (length bs) < 2 ^ 63 ->
  bs !! i = Some (Some c) ->
  forall b, bs !! Z.to_nat ((Z.of_nat i + 1) mod Z.of_nat (length bs)) = Some b ->
  INT_MIN < sums_to c - slot_sum b <= INT_MAX ->
  chfind tbl (Z.of_nat i) m =
    Done (if slot_sum b =? -1 then (Z.of_nat i, 0)
          else ((Z.of_nat i + 1) mod Z.of_nat (length bs), Z.abs (sums_to c - slot_sum b))) m.
Proof.
  intros HH Hsz Hok Hlen Hi b Hb Hd. pose proof HH as [ptrs HR]. pose proof HR as [_ _ [_ Hn] _ Hsome _ _].
  destruct (Hsome i c Hi) as (p & Hp & Hp0 & _). pose proof (lookup_lt_Some _ _ _ Hi) as Hlt.
  pose proof (Z.mod_pos_bound (Z.of_nat i + 1) (Z.of_nat (length bs)) ltac:(lia)) as Hmod.
  unfold INT_MIN, INT_MAX in Hd.
  assert (s32 (sums_to c - slot_sum b) = sums_to c - slot_sum b) as Hs32 by (apply swrap_small; lia).
  assert (aget (map slot_sum bs) ((Z.of_nat i + 1) mod Z.of_nat (length bs)) = Some (slot_sum b)) as Hnext.
  { apply aget_Some. split; [lia|]. by rewrite list_lookup_fmap, Hb. }
  unfold chfind. unfold mbind at 1, cm_bind at 1. erewrite get_blk_at by done.
  destruct (Z.eqb_spec p NULL); [done|]. unfold mbind at 1, cm_bind at 1.
  rewrite Hn, Nat2Z.id. rewrite <- (length_map slot_sum bs) at 1. rewrite all_sums_spec.
  - unfold mbind at 1, cm_bind at 1.
    rewrite (find_sum_next _ _ _ _ (sums_to c) (slot_sum b)); try done; try lia.
    + rewrite Hs32. unfold fst at 1. cm_step. rewrite Hnext. simpl. by destruct (slot_sum b =? -1).
    + by rewrite length_map.
    + apply aget_Some. split; [lia|]. by rewrite Nat2Z.id, list_lookup_fmap, Hi.
    + rewrite Hs32. unfold INT_MIN. lia.
  - intros k x Hk. rewrite list_lookup_fmap in Hk. destruct (bs !! k) as [bk|] eqn:Hbk; simplify_eq/=.
    by eapply chblk_sum_spec; [done|lia|done|done].
Qed.

(** ** The static table *)

Section Static.
Context (SIZE COUNT : Z) (HSIZE : 0 <= SIZE < 2 ^ 31) (HCOUNT : 0 < COUNT < 2 ^ 31).

Definition static_ok (m : mem) : Prop :=
  Z.of_nat (length (s_chtable m)) = COUNT /\
  Forall (fun c => Z.of_nat (length c) = SIZE /\ chars c) (s_chtable m).

Lemma s_chblk_sum_spec m i c :
  static_ok m -> s_chtable m !! i = Some c -> s_chblk_sum SIZE (Z.of_nat i) m = Done (sums_to c) m.
Proof.
  intros [_ Hok] Hi. destruct (Forall_lookup_1 _ _ _ _ Hok Hi) as [Hl Hc].
  unfold s_chblk_sum, s_blk. cm_step. rewrite aget_nat, Hi. simpl.
  rewrite <- Hl, Nat2Z.id. by apply (sum_chars_spec c [] 0 0); [|done|lia|lia].
Qed.

Lemma s_chfind_eq m i c s :
  static_ok m -> s_chtable m !! i = Some c -> s_chtable m !! Z.to_nat ((Z.of_nat i + 1) mod COUNT) = Some s ->
  INT_MIN < sums_to c - sums_to s <= INT_MAX ->
  s_chfind SIZE COUNT (Z.of_nat i) m = Done ((Z.of_nat i + 1) mod COUNT, Z.abs (sums_to c - sums_to s)) m.
Proof.
  intros Hok Hi Hs Hd. pose proof Hok as [Hl _]. unfold INT_MIN, INT_MAX in Hd.
  pose proof (lookup_lt_Some _ _ _ Hi) as Hlt.
  pose proof (Z.mod_pos_bound (Z.of_nat i + 1) COUNT ltac:(lia)) as Hmod.
  assert (s32 (sums_to c - sums_to s) = sums_to c - sums_to s) as Hs32 by (apply swrap_small; lia).
  unfold s_chfind. unfold mbind at 1, cm_bind at 1.
  replace (Z.to_nat COUNT) with (length (map sums_to (s_chtable m))) by (rewrite length_map; lia).
  rewrite all_sums_spec.
  - rewrite (find_sum_next _ _ _ _ (sums_to c) (sums_to s)); try done; try lia.
    + by rewrite Hs32.
    + by rewrite length_map.
    + apply aget_Some. split; [lia|]. by rewrite Nat2Z.id, list_lookup_fmap, Hi.
    + apply aget_Some. split; [lia|]. by rewrite list_lookup_fmap, Hs.
    + rewrite Hs32. unfold INT_MIN. lia.
  - intros k x Hk. rewrite list_lookup_fmap in Hk. destruct (s_chtable m !! k) as [ck|] eqn:Hck; simplify_eq/=.
    by apply s_chblk_sum_spec.
Qed.

(** Setting a whole block, character by character. *)
Lemma s_set_spec m b c i x :
  s_chtable m !! b = Some c -> 0 <= i < Z.of_nat (length c) ->
  s_set (Z.of_nat b) i x m =
    Done tt (Mem (objs m) (<[b := <[Z.to_nat i := x]> c]> (s_chtable m)) (rands m)).
Proof.
  intros Hb Hi. pose proof (lookup_lt_Some _ _ _ Hb). unfold s_set, s_blk. cm_step. rewrite aget_nat, Hb. simpl.
  rewrite aset_ok by lia. simpl. rewrite aset_ok by lia. simpl. by rewrite Nat2Z.id.
Qed.

(** Filling a block: [x k] goes to position [k]. *)
Lemma fill_eq (x r : Z -> Z) (body : Z -> cm mem unit) m b c :
  s_chtable m !! b = Some c -> Z.of_nat (length c) = SIZE -> r 0 = rands m ->
  (forall k c' n, 0 <= k < SIZE -> (b < length n)%nat -> Z.of_nat (length c') = SIZE ->
    body k (Mem (objs m) (<[b := c']> n) (r k)) =
    Done tt (Mem (objs m) (<[b := <[Z.to_nat k := x k]> c']> n) (r (k + 1)))) ->
  for_range (Z.to_nat SIZE) 0 body m =
    Done tt (Mem (objs m) (<[b := map x (seqZ 0 SIZE)]> (s_chtable m)) (r SIZE)).
Proof.
  intros Hb Hl Hr Hbody. pose proof (lookup_lt_Some _ _ _ Hb) as Hlt. apply wp_unit_eq.
  pose proof (wp_for_range_idx (fun k m' => m' =
      Mem (objs m) (<[b := map x (seqZ 0 k) ++ drop (Z.to_nat k) c]> (s_chtable m)) (r k))
    (fun _ _ => False) body (Z.to_nat SIZE) 0 m) as H.
  eapply wp_mono; [apply H| |done].
  - intros k s Hk ->. eapply wp_done; [apply Hbody; [lia|done|]|].
    + rewrite length_app, length_map, length_seqZ, length_drop. lia.
    + simpl. do 2 f_equal. destruct (lookup_lt_is_Some_2 c (Z.to_nat k)) as [y Hy]; [lia|].
      rewrite (drop_S _ y) by done. rewrite insert_app_r_alt; rewrite length_map, length_seqZ; [|lia].
      rewrite Nat.sub_diag. simpl. replace (Z.to_nat (k + 1)) with (S (Z.to_nat k)) by lia.
      rewrite seqZ_app by lia. rewrite map_app, <- app_assoc. simpl.
      replace (seqZ (0 + k) 1) with [k] by done. done.
  - simpl. rewrite drop_0, list_insert_id, Hr by done. by destruct m.
  - intros _ s ->. rewrite Z.add_0_l, Z2Nat.id by lia. rewrite drop_ge, app_nil_r by lia. done.
Qed.

Lemma s_chvoid_eq m b c :
  s_chtable m !! b = Some c -> Z.of_nat (length c) = SIZE ->
  s_chvoid SIZE (Z.of_nat b) m =
    Done tt (Mem (objs m) (<[b := map (fun _ => 0) (seqZ 0 SIZE)]> (s_chtable m)) (rands m)).
Proof.
  intros Hb Hl. apply (fill_eq (fun _ => 0) (fun _ => rands m) _ m b c); try done.
  intros k c' n Hk Hn Hc'. erewrite s_set_spec; [|simpl; by apply list_lookup_insert_eq|lia].
  simpl. by rewrite list_insert_insert_eq.
Qed.

Lemma s_chrndfill_eq rand m b c :
  s_chtable m !! b = Some c -> Z.of_nat (length c) = SIZE ->
  s_chrndfill rand SIZE (Z.of_nat b) m =
    Done tt (Mem (objs m) (<[b := map (fun k => s8 (rand (rands m + k))) (seqZ 0 SIZE)]> (s_chtable m)) (rands m + SIZE)).
Proof.
  intros Hb Hl. apply (fill_eq (fun k => s8 (rand (rands m + k))) (fun k => rands m + k) _ m b c); try done; [lia|].
  intros k c' n Hk Hn Hc'. unfold next_rand. cm_step.
  erewrite s_set_spec; [|simpl; by apply list_lookup_insert_eq|lia].
  simpl. by rewrite list_insert_insert_eq, Z.add_assoc.
Qed.
End Static.

(** ** Properties *)

(** C21.  A table made by [challoc] behaves as a list of optional blocks under
    any calls of [challoc_blk] and [chfree_blk] on its slots (a block is
    zeroed when it is made; a failed [challoc_blk] loses the old block), no
    call is undefined, and [chfree] gives back all the memory. *)
Theorem table_refines_list (alloc : gmap Z obj -> Z -> option Z) (n sz : Z) (cs : list call) (m : mem)
  (Halloc : forall h k p, alloc h k = Some p -> p <> NULL /\ h !! p = None)
  (Hn : 0 < n) (Hsz : 0 <= sz) (Hcs : Forall (fun c => Z.of_nat (call_index c) < n) cs) :
  exists tbl m1, challoc alloc n sz m = Done tbl m1 /\
    (blks tbl = NULL /\ m1 = m \/
     exists codes m2 m3, do_calls alloc tbl cs m1 = Done codes m2 /\
       holds (objs m) tbl (abs_calls sz (replicate (Z.to_nat n) None) cs codes) m2 /\
       chfree tbl m2 = Done tt m3 /\ objs m3 = objs m).
Proof.
  destruct (challoc_spec alloc Halloc n sz m) as (tbl & m1 & E & _ & <- & [HH|(Hb & _ & ->)]); [lia| |].
  - exists tbl, m1. split; [done|]. right.
    destruct (do_calls_spec alloc Halloc (objs m) tbl cs _ m1 Hsz HH) as (codes & m2 & E2 & _ & H2 & _).
    { eapply Forall_impl; [exact Hcs|]. intros c Hc. simpl in Hc. rewrite length_replicate. lia. }
    destruct (chfree_spec (objs m) tbl _ m2 H2) as (m3 & E3 & Ho & _).
    { intros E0. apply (f_equal length) in E0. rewrite length_abs_calls, length_replicate in E0. simpl in E0. lia. }
    by exists codes, m2, m3.
  - exists tbl, m. split; [done|]. by left.
Qed.

(** [chfind] never looks further than the next block: for a block that
    exists it gives the following index (around the table) and the distance
    of the two sums, whatever the other blocks hold, or the block itself when
    the next one is not there or has the sum -1. *)
Theorem chfind_is_next_block (F : gmap Z obj) (tbl : blk_table) (bs : list (option (list Z))) (m : mem)
  (i : nat) (c : list Z) (b : option (list Z))
  (HH : holds F tbl bs m) (Hsz : 0 <= blk_size tbl < 2 ^ 31) (Hok : slots_ok bs)
  (Hlen : Z.of_nat (length bs) < 2 ^ 63) (Hi : bs !! i = Some (Some c))
  (Hb : bs !! Z.to_nat ((Z.of_nat i + 1) mod Z.of_nat (length bs)) = Some b)
  (Hd : INT_MIN < sums_to c - slot_sum b <= INT_MAX) :
  chfind tbl (Z.of_nat i) m =
    Done (if slot_sum b =? -1 then (Z.of_nat i, 0)
          else ((Z.of_nat i + 1) mod Z.of_nat (length bs), Z.abs (sums_to c - slot_sum b))) m.
Proof. by apply (chfind_eq F tbl bs m i c HH Hsz Hok Hlen Hi b). Qed.

(** The same of [s_chfind] on the static table. *)
Theorem s_chfind_is_next_block (SIZE COUNT : Z) (m : mem) (i : nat) (c s : list Z)
  (HSIZE : 0 <= SIZE < 2 ^ 31) (HCOUNT : 0 < COUNT < 2 ^ 31) (Hok : static_ok SIZE COUNT m)
  (Hi : s_chtable m !! i = Some c) (Hs : s_chtable m !! Z.to_nat ((Z.of_nat i + 1) mod COUNT) = Some s)
  (Hd : INT_MIN < sums_to c - sums_to s <= INT_MAX) :
  s_chfind SIZE COUNT (Z.of_nat i) m = Done ((Z.of_nat i + 1) mod COUNT, Z.abs (sums_to c - sums_to s)) m.
Proof. by apply s_chfind_eq. Qed.

(** The two ways of filling a static block set all of its characters and
    nothing else: to the next values of [rand], or to zero. *)
Theorem static_fill (rand : Z -> Z) (SIZE : Z) (m : mem) (b : nat) (c : list Z)
  (HSIZE : 0 <= SIZE < 2 ^ 31) (Hb : s_chtable m !! b = Some c) (Hl : Z.of_nat (length c) = SIZE) :
  s_chrndfill rand SIZE (Z.of_nat b) m =
    Done tt (Mem (objs m) (<[b := map (fun k => s8 (rand (rands m + k))) (seqZ 0 SIZE)]> (s_chtable m)) (rands m + SIZE)) /\
  s_chvoid SIZE (Z.of_nat b) m =
    Done tt (Mem (objs m) (<[b := map (fun _ => 0) (seqZ 0 SIZE)]> (s_chtable m)) (rands m)).
Proof. split; [by apply (s_chrndfill_eq _ HSIZE _ _ _ c)|by apply (s_chvoid_eq _ HSIZE _ _ c)]. Qed.

(** ** Witnesses *)

(** An allocator: the address after the highest one in use. *)
Definition demo_alloc (h : gmap Z obj) (n : Z) : option Z := Some (1 + map_fold (fun k _ acc => Z.max k acc) 0 h).

Lemma demo_alloc_fresh h n p : demo_alloc h n = Some p -> p <> NULL /\ h !! p = None.
Proof.
  unfold demo_alloc. intros [= <-].
  assert (0 <= map_fold (fun k _ acc => Z.max k acc) 0 h /\
    forall k o, h !! k = Some o -> k <= map_fold (fun k _ acc => Z.max k acc) 0 h) as [H0 H].
  { apply (map_fold_weak_ind (fun acc h => 0 <= acc /\ forall k o, h !! k = Some o -> k <= acc)).
    - split; [lia|]. intros k o. by rewrite lookup_empty.
    - intros k o h' acc Hk [Ha IH]. split; [lia|]. intros k' o' Hk'.
      apply lookup_insert_Some in Hk' as [[-> _]|[_ Hk']]; [lia|]. specialize (IH _ _ Hk'). lia. }
  split; [unfold NULL; lia|]. apply eq_None_not_Some. intros [o Ho]. specialize (H _ _ Ho). lia.
Qed.

Definition empty_mem : mem := Mem ∅ [] 0.

Lemma table_refines_list_witness :
  exists tbl m1, challoc demo_alloc 3 2 empty_mem = Done tbl m1 /\
    (blks tbl = NULL /\ m1 = empty_mem \/
     exists codes m2 m3, do_calls demo_alloc tbl [CAlloc 1; CFree 0; CAlloc 1] m1 = Done codes m2 /\
       holds (objs empty_mem) tbl (abs_calls 2 (replicate 3 None) [CAlloc 1; CFree 0; CAlloc 1] codes) m2 /\
       chfree tbl m2 = Done tt m3 /\ objs m3 = objs empty_mem).
Proof.
  apply (table_refines_list demo_alloc 3 2 [CAlloc 1; CFree 0; CAlloc 1] empty_mem demo_alloc_fresh);
    [lia|lia|]. repeat constructor; simpl; lia.
Defined.

(** Three blocks of one character, with the sums 0, 100 and 1. *)
Definition sums_mem : mem :=
  Mem {[1 := Blocks [2; 3; 4]; 2 := Content [0]; 3 := Content [100]; 4 := Content [1]]} [[0]; [100]; [1]] 0.

Lemma sums_mem_holds : holds ∅ (Tbl 3 1 1) [Some [0]; Some [100]; Some [1]] sums_mem.
Proof.
  exists [2; 3; 4]. split; simpl.
  - done.
  - done.
  - done.
  - by intros [|[|[|[|]]]].
  - intros [|[|[|[|]]]] c Hc; simplify_eq/=; eexists; (split; [done|]); done.
  - intros [|[|[|[|i]]]] [|[|[|[|j]]]] p; simpl; intros; simplify_eq; try done.
  - intros q Hq Hp. rewrite lookup_empty.
    assert (q <> 2 /\ q <> 3 /\ q <> 4) as (? & ? & ?).
    { repeat split; intros ->; discriminate (Hp ltac:(set_solver)). }
    by rewrite !lookup_insert_ne, lookup_singleton_ne by done.
Qed.

(** The third block is the closest to the first, and it is not found. *)
Lemma chfind_is_next_block_witness :
  chfind (Tbl 3 1 1) 0 sums_mem = Done (1, 100) sums_mem /\
  Z.abs (0 - 1) < 100.
Proof.
  split; [|lia].
  apply (chfind_is_next_block ∅ (Tbl 3 1 1) [Some [0]; Some [100]; Some [1]] sums_mem 0 [0] (Some [100])
    sums_mem_holds); try reflexivity; simpl; try lia.
  - repeat constructor; intros c [= <-]; repeat constructor; lia.
  - unfold INT_MIN, INT_MAX. lia.
Defined.

Lemma s_chfind_is_next_block_witness : s_chfind 1 3 0 sums_mem = Done (1, 100) sums_mem.
Proof.
  apply (s_chfind_is_next_block 1 3 sums_mem 0 [0] [100]); try reflexivity; try lia.
  - split; [reflexivity|]. repeat constructor; simpl; lia.
  - unfold INT_MIN, INT_MAX. simpl. lia.
Defined.

Lemma static_fill_witness :
  s_chrndfill (fun k => 200 + k) 1 1 sums_mem = Done tt (Mem (objs sums_mem) [[0]; [-56]; [1]] 1) /\
  s_chvoid 1 1 sums_mem = Done tt (Mem (objs sums_mem) [[0]; [0]; [1]] 0).
Proof. apply (static_fill (fun k => 200 + k) 1 sums_mem 1 [100]); [lia|reflexivity|reflexivity]. Defined.
