(* ===== verification/ChallocBench.v ===== *)
(** The benchmark of the block tables: cw01/zad2/src/main.c.  The stopwatch
    is left out: it reads the clocks and is printed. *)
From S2P Require Import Prelude CString Challoc ChallocSpec.
#[local] Open Scope Z_scope.

Inductive alloc_t := DYNAMIC | STATIC.

(** What is printed: the table's rows by operation, and the messages. *)
Inductive bmsg :=
  | BHelp
  | BHeader
  | BRow (op : string)
  | BTooMany
  | BNotSupported
  | BUnrecognizedOp (op : string)
  | BUnrecognizedAlloc (what : string).

(** The globals [table] and [alloc], with the memory of the library. *)
Record bench := Bench { bmem : mem; table : blk_table; mode : alloc_t; bout : list bmsg }.

Definition bsay (m : bmsg) : cm bench unit :=
  modify (fun s => Bench (bmem s) (table s) (mode s) (bout s ++ [m])).
Definition set_table (t : blk_table) : cm bench unit :=
  modify (fun s => Bench (bmem s) t (mode s) (bout s)).

(** A call of the library. *)
Definition lib {A} (c : cm mem A) : cm bench A := fun s =>
  match c (bmem s) with
  | Done a m => Done a (Bench m (table s) (mode s) (bout s))
  | Exited code m => Exited code (Bench m (table s) (mode s) (bout s))
  | Undef u => Undef u
  | NoFuel => NoFuel
  end.

Section Bench.
Context (alloc : gmap Z obj -> Z -> option Z) (rand : Z -> Z).
Context (CHALLOC_STATIC_BLK_SIZE CHALLOC_STATIC_BLK_COUNT : Z).
Local Abbreviation SIZE := CHALLOC_STATIC_BLK_SIZE.
Local Abbreviation COUNT := CHALLOC_STATIC_BLK_COUNT.

Definition check_times (times : Z) : cm bench Z :=
  s ← get;
  match mode s with
  | DYNAMIC => if blk_count (table s) <? times then bsay BTooMany ;; mret (-1) else mret 0
  | STATIC => if COUNT <? times then bsay BTooMany ;; mret (-1) else mret 0
  end.

(** [for (int i = 0; i < times; ++i)] *)
Definition for_int (times : Z) (body : Z -> cm bench unit) : cm bench unit :=
  for_range (Z.to_nat times) 0 (fun i => body i ;; _ ← int_op (i + 1); mret tt).

Definition op_remove_and_add (times : Z) : cm bench unit :=
  r ← check_times times;
  if negb ((r : Z) =? 0) then mret tt
  else for_int times (fun i =>
    s ← get;
    match mode s with
    | DYNAMIC => _ ← lib (challoc_blk alloc (table s) i); lib (chfree_blk (table s) i)
    | STATIC => lib (s_chrndfill rand SIZE i) ;; lib (s_chvoid SIZE i)
    end).

Definition op_add (times : Z) : cm bench unit :=
  r ← check_times times;
  if negb ((r : Z) =? 0) then mret tt
  else for_int times (fun i =>
    s ← get;
    match mode s with
    | DYNAMIC => _ ← lib (challoc_blk alloc (table s) i); mret tt
    | STATIC => lib (s_chrndfill rand SIZE i)
    end).

Definition op_remove (times : Z) : cm bench unit :=
  r ← check_times times;
  if negb ((r : Z) =? 0) then mret tt
  else for_int times (fun i =>
    s ← get;
    match mode s with
    | DYNAMIC => lib (chfree_blk (table s) i)
    | STATIC => lib (s_chvoid SIZE i)
    end).

Definition op_search_element (times blk_no : Z) : cm bench unit :=
  for_int times (fun i =>
    s ← get;
    match mode s with
    | DYNAMIC => _ ← lib (chfind (table s) blk_no); mret tt
    | STATIC => _ ← lib (s_chfind SIZE COUNT blk_no); mret tt
    end).

Definition op_create_table (times blk_count blk_size : Z) : cm bench unit :=
  for_int times (fun i =>
    s ← get;
    lib (chfree (table s)) ;;
    t ← lib (challoc alloc blk_count blk_size);
    set_table t).

(** [atoi(argv[curr++])] as a [size_t]; the end of [argv] is a null pointer. *)
Definition arg (args : list string) : cm bench (Z * list string) :=
  match args with
  | [] => undef UB_null
  | a :: rest => n ← atoi a; mret (u64 n, rest)
  end.

(** The loop over the operations, with fuel for the arguments. *)
Fixpoint run_ops (fuel : nat) (args : list string) : cm bench unit :=
  match fuel, args with
  | _, [] => mret tt
  | O, _ => nofuel
  | S fuel', name :: rest =>
      if streq name "create_table" then
        a ← arg rest; b ← arg a.2; c ← arg b.2;
        s ← get;
        match mode s with
        | STATIC => bsay BNotSupported ;; run_ops fuel' c.2
        | DYNAMIC => op_create_table c.1 a.1 b.1 ;; bsay (BRow name) ;; run_ops fuel' c.2
        end
      else if streq name "search_element" then
        a ← arg rest; b ← arg a.2;
        op_search_element b.1 a.1 ;; bsay (BRow name) ;; run_ops fuel' b.2
      else if streq name "remove" then
        a ← arg rest; op_remove a.1 ;; bsay (BRow name) ;; run_ops fuel' a.2
      else if streq name "add" then
        a ← arg rest; op_add a.1 ;; bsay (BRow name) ;; run_ops fuel' a.2
      else if streq name "remove_and_add" then
        a ← arg rest; op_remove_and_add a.1 ;; bsay (BRow name) ;; run_ops fuel' a.2
      else bsay (BUnrecognizedOp name) ;; run_ops fuel' rest
  end.

Definition main (argv : list string) : cm bench Z :=
  match argv with
  | _ :: kind :: ops =>
      let go m :=
        modify (fun s => Bench (bmem s) (table s) m (bout s)) ;;
        bsay BHeader ;; run_ops (length ops) ops ;; mret 0 in
      if streq kind "static" then go STATIC
      else if streq kind "dynamic" then go DYNAMIC
      else
        (* it is [argv[3]] that is printed *)
        what ← lift UB_null (nth_error ops 1); bsay (BUnrecognizedAlloc what) ;; mret 2
  | _ => bsay BHelp ;; mret 1
  end.
End Bench.

(** The start: no table. *)
Definition bench_start (m : mem) : bench := Bench m (Tbl 0 0 NULL) DYNAMIC [].

(** ** The dynamic operations are safe *)

Section Safe.
Context (alloc : gmap Z obj -> Z -> option Z) (rand : Z -> Z) (SIZE COUNT : Z).
Context (Halloc : forall h n p, alloc h n = Some p -> p <> NULL /\ h !! p = None).

(** The table is either not there or holds blocks. *)
Definition slots_of (s : bench) (n : nat) : Prop :=
  mode s = DYNAMIC /\ 0 <= blk_size (table s) /\
  (blks (table s) = NULL /\ blk_count (table s) = 0 /\ n = 0%nat \/
   exists F bs, holds F (table s) bs (bmem s) /\ length bs = n).

Definition table_ok (s : bench) : Prop := exists n, slots_of s n.

Local Abbreviation fine := (fun (_ : Z) (_ : bench) => False).

Lemma slots_count s n : slots_of s n -> blk_count (table s) = Z.of_nat n.
Proof.
  intros (_ & _ & [(_ & -> & ->)|(F & bs & [ptrs [_ _ [_ ->] _ _ _ _]] & ->)]); done.
Qed.

Lemma wp_lib {A} (c : cm mem A) a m (Q : A -> bench -> Prop) E s :
  c (bmem s) = Done a m -> Q a (Bench m (table s) (mode s) (bout s)) -> wp (lib c) Q E s.
Proof. intros Hc HQ. unfold wp, lib. by rewrite Hc. Qed.

Lemma wp_for_int (P : bench -> Prop) times body s :
  times <= INT_MAX -> (forall k s, 0 <= k < times -> P s -> wp (body k) (fun _ => P) fine s) ->
  P s -> wp (for_int times body) (fun _ => P) fine s.
Proof.
  intros Ht Hb HP. unfold for_int. apply wp_for_range; [|done].
  intros k s' Hk HP'. apply wp_bind. eapply wp_mono; [apply Hb; [lia|done]| |done].
  intros [] s2 HP2. apply wp_bind. eapply wp_done; [apply int_op_ok; unfold INT_MIN; lia|done].
Qed.

Lemma slots_free s n k :
  slots_of s n -> (Z.to_nat k < n)%nat -> 0 <= k ->
  wp (lib (chfree_blk (table s) k)) (fun _ s' => slots_of s' n /\ table s' = table s) fine s.
Proof.
  intros (Hm & Hz & [(_ & _ & ->)|(F & bs & HH & Hl)]) Hk H0; [lia|].
  destruct (chfree_blk_spec F _ bs (bmem s) (Z.to_nat k) HH) as (m' & E & Hh & _); [lia|].
  rewrite Z2Nat.id in E by lia. eapply wp_lib; [exact E|]. split; [|done].
  split; [done|]. split; [done|]. right. exists F, (<[Z.to_nat k := None]> bs). split; [done|]. by rewrite length_insert.
Qed.

Lemma slots_alloc s n k :
  slots_of s n -> (Z.to_nat k < n)%nat -> 0 <= k ->
  wp (lib (challoc_blk alloc (table s) k)) (fun _ s' => slots_of s' n /\ table s' = table s) fine s.
Proof.
  intros (Hm & Hz & [(_ & _ & ->)|(F & bs & HH & Hl)]) Hk H0; [lia|].
  destruct (challoc_blk_spec alloc Halloc F _ bs (bmem s) (Z.to_nat k) Hz HH) as (r & m' & E & _ & Hh); [lia|].
  rewrite Z2Nat.id in E by lia. eapply wp_lib; [exact E|]. split; [|done].
  split; [done|]. split; [done|]. right. exists F.
  destruct Hh as [[_ Hh]|[_ Hh]]; eexists; (split; [exact Hh|by rewrite length_insert]).
Qed.

(** The operations on the first [times] slots, once [check_times] passed. *)
Lemma op_slots times body s n :
  slots_of s n -> times <= INT_MAX ->
  (forall k s', slots_of s' n -> 0 <= k < Z.of_nat n -> wp (body k) (fun _ s2 => slots_of s2 n) fine s') ->
  wp (r ← check_times COUNT times; if negb ((r : Z) =? 0) then mret tt else for_int times body)
    (fun _ s' => slots_of s' n) fine s.
Proof.
  intros Hs Ht Hb. pose proof (slots_count s n Hs) as Hn. pose proof Hs as (Hm & _).
  unfold check_times. apply wp_bind. unfold wp at 1. unfold mbind, cm_bind, get. rewrite Hm.
  destruct (Z.ltb_spec (blk_count (table s)) times); [exact Hs|]. cbn [mret cm_ret].
  apply (wp_for_int (fun s' => slots_of s' n)); [done| |done].
  intros k s' Hk Hs'. apply Hb; [done|lia].
Qed.

Lemma op_remove_safe times s n :
  slots_of s n -> times <= INT_MAX ->
  wp (op_remove SIZE COUNT times) (fun _ s' => slots_of s' n) fine s.
Proof.
  intros Hs Ht. apply op_slots; [done|done|]. intros k s' Hs' Hk. pose proof Hs' as (Hm & _).
  apply wp_bind. unfold wp at 1, get. rewrite Hm.
  eapply wp_mono; [apply (slots_free _ n); [done|lia|lia]| |done]. by intros [] s2 [? _].
Qed.

Lemma op_add_safe times s n :
  slots_of s n -> times <= INT_MAX ->
  wp (op_add alloc rand SIZE COUNT times) (fun _ s' => slots_of s' n) fine s.
Proof.
  intros Hs Ht. apply op_slots; [done|done|]. intros k s' Hs' Hk. pose proof Hs' as (Hm & _).
  apply wp_bind. unfold wp at 1, get. rewrite Hm. apply wp_bind.
  eapply wp_mono; [apply (slots_alloc _ n); [done|lia|lia]| |done]. by intros r s2 [? _].
Qed.

Lemma op_remove_and_add_safe times s n :
  slots_of s n -> times <= INT_MAX ->
  wp (op_remove_and_add alloc rand SIZE COUNT times) (fun _ s' => slots_of s' n) fine s.
Proof.
  intros Hs Ht. apply op_slots; [done|done|]. intros k s' Hs' Hk. pose proof Hs' as (Hm & _).
  apply wp_bind. unfold wp at 1, get. rewrite Hm. apply wp_bind.
  eapply wp_mono; [apply (slots_alloc _ n); [done|lia|lia]| |done]. intros r s2 [Hs2 Ht2].
  rewrite <- Ht2. eapply wp_mono; [apply (slots_free _ n); [done|lia|lia]| |done]. by intros [] s3 [? _].
Qed.

Lemma op_create_safe times c z s :
  table_ok s -> times <= INT_MAX -> 0 <= c -> 0 <= z ->
  wp (op_create_table alloc times c z) (fun _ => table_ok) fine s.
Proof.
  intros Hs Ht Hc Hz. apply (wp_for_int table_ok); [done| |done].
  intros k s' Hk [n (Hm & Hsz & Hcase)]. apply wp_bind. unfold wp at 1, get. apply wp_bind.
  assert (exists m', chfree (table s') (bmem s') = Done tt m') as [m' Em].
  { destruct Hcase as [(Hb & Hn & _)|(F & bs & HH & _)].
    - exists (bmem s'). unfold chfree. by rewrite Hn.
    - destruct bs as [|b bs].
      + exists (bmem s'). destruct HH as [ptrs [_ _ [_ Hn] _ _ _ _]]. unfold chfree. by rewrite Hn.
      + destruct (chfree_spec F _ (b :: bs) (bmem s') HH) as (m' & E & _); [done|]. by exists m'. }
  eapply wp_lib; [exact Em|]. apply wp_bind.
  destruct (challoc_spec alloc Halloc c z m' Hc) as (t & m2 & E & _ & <- & Hcase2).
  eapply wp_lib; [exact E|]. unfold wp, set_table, modify.
  destruct Hcase2 as [HH|(Hb & Hn & ->)].
  - exists (Z.to_nat c). split; [done|]. split; [done|]. right. do 2 eexists. split; [exact HH|]. apply length_replicate.
  - exists 0%nat. split; [done|]. split; [done|]. by left.
Qed.
End Safe.

(** ** Properties *)

(** One operation of the command line, search apart. *)
Inductive bop :=
  | OCreate (blk_count blk_size times : Z)
  | OAdd (times : Z)
  | ORemove (times : Z)
  | ORemoveAndAdd (times : Z).

(** The numbers are those [atoi] gives for a non-negative argument. *)
Definition bop_ok (o : bop) : Prop :=
  match o with
  | OCreate c z t => 0 <= c /\ 0 <= z /\ t <= INT_MAX
  | OAdd t | ORemove t | ORemoveAndAdd t => t <= INT_MAX
  end.

Definition do_bop alloc rand SIZE COUNT (o : bop) : cm bench unit :=
  match o with
  | OCreate c z t => op_create_table alloc t c z
  | OAdd t => op_add alloc rand SIZE COUNT t
  | ORemove t => op_remove SIZE COUNT t
  | ORemoveAndAdd t => op_remove_and_add alloc rand SIZE COUNT t
  end.

Fixpoint do_bops alloc rand SIZE COUNT (os : list bop) : cm bench unit :=
  match os with
  | [] => mret tt
  | o :: os' => do_bop alloc rand SIZE COUNT o ;; do_bops alloc rand SIZE COUNT os'
  end.

(** The benchmark in dynamic mode never goes wrong while it creates
    tables and adds and removes blocks, in any order and with any numbers:
    the check of [check_times] keeps every index inside the table, and the
    table is sound after each operation. *)
Theorem bench_dynamic_safe (alloc : gmap Z obj -> Z -> option Z) (rand : Z -> Z) (SIZE COUNT : Z)
  (os : list bop) (m : mem)
  (Halloc : forall h k p, alloc h k = Some p -> p <> NULL /\ h !! p = None)
  (Hos : Forall bop_ok os) :
  exists s, do_bops alloc rand SIZE COUNT os (bench_start m) = Done tt s /\ table_ok s.
Proof.
  assert (forall s, table_ok s -> wp (do_bops alloc rand SIZE COUNT os) (fun _ => table_ok) (fun _ _ => False) s) as H.
  { induction Hos as [|o os Ho _ IH]; intros s Hs; [exact Hs|].
    cbn [do_bops]. apply wp_bind. apply (wp_mono _ (fun _ => table_ok) _ (fun _ _ => False)); [| |done].
    - destruct o as [c z t|t|t|t]; simpl in *.
      + destruct Ho as (? & ? & ?). by apply op_create_safe.
      + destruct Hs as [n Hs]. eapply wp_mono; [by apply op_add_safe| |done]. intros [] s' ?. by exists n.
      + destruct Hs as [n Hs]. eapply wp_mono; [by apply op_remove_safe| |done]. intros [] s' ?. by exists n.
      + destruct Hs as [n Hs]. eapply wp_mono; [by apply op_remove_and_add_safe| |done]. intros [] s' ?. by exists n.
    - intros [] s' Hs'. by apply IH. }
  assert (table_ok (bench_start m)) as Hstart by (exists 0%nat; split; [done|]; split; [simpl; lia|by left]).
  specialize (H _ Hstart). unfold wp in H.
  destruct (do_bops _ _ _ _ os (bench_start m)) as [[] s| | |]; [by exists s|done..].
Qed.

(** Searching is not checked: before a table is created it reads through
    a null pointer, and with a number that is not a slot it reads outside the
    table. *)
Theorem bench_search_unchecked (SIZE COUNT : Z) (times blk_no : Z) (m : mem)
  (F : gmap Z obj) (tbl : blk_table) (bs : list (option (list Z))) (out : list bmsg)
  (Ht : 0 < times) (HH : holds F tbl bs m) (Hno : Z.of_nat (length bs) <= blk_no) :
  op_search_element SIZE COUNT times blk_no (bench_start m) = Undef UB_null /\
  op_search_element SIZE COUNT times blk_no (Bench m tbl DYNAMIC out) = Undef UB_bounds.
Proof.
  unfold op_search_element, for_int. destruct (Z.to_nat times) as [|n] eqn:E; [lia|].
  split; [done|]. destruct HH as [ptrs [[Hb _] Ha [Hl _] _ _ _ _]]. cbn [for_range].
  unfold mbind at 1, cm_bind at 1. unfold mbind at 1, cm_bind at 1. unfold mbind at 1, cm_bind at 1, get at 1.
  cbn [mode]. unfold mbind at 1, cm_bind at 1. unfold lib. cbn [bmem table].
  unfold chfind, get_blk, blks_of. cm_step. destruct (Z.eqb_spec (blks tbl) NULL); [done|]. rewrite Ha. simpl.
  unfold aget, in_range. destruct (_ && _) eqn:Er; [lia|done].
Qed.

Lemma bench_dynamic_safe_witness :
  exists s, do_bops demo_alloc (fun k => k) 8 4 [OCreate 3 2 2; OAdd 2; OAdd 9; ORemove 3; ORemoveAndAdd 1]
    (bench_start empty_mem) = Done tt s /\ table_ok s.
Proof.
  apply (bench_dynamic_safe demo_alloc (fun k => k) 8 4 [OCreate 3 2 2; OAdd 2; OAdd 9; ORemove 3; ORemoveAndAdd 1]
    empty_mem demo_alloc_fresh).
  repeat (apply Forall_cons; split; [simpl; unfold INT_MAX; lia|]). by apply Forall_nil.
Defined.

Lemma bench_search_unchecked_witness :
  op_search_element 8 4 1 3 (bench_start sums_mem) = Undef UB_null /\
  op_search_element 8 4 1 3 (Bench sums_mem (Tbl 3 1 1) DYNAMIC []) = Undef UB_bounds.
Proof.
  apply (bench_search_unchecked 8 4 1 3 sums_mem ∅ (Tbl 3 1 1) [Some [0]; Some [100]; Some [1]] []);
    [lia|apply sums_mem_holds|simpl; lia].
Defined.
