(* ===== verification/ShellLine.v ===== *)
(** The command interpreter without limits: cw03/zad2/src/interpreter.c and
    command_runner.c, on the bytes of the file.  The parser of lines,
    [interpret_line], is the same in the two other interpreters. *)
From S2P Require Import Prelude.
#[local] Open Scope Z_scope.

Definition BUFFER_SIZE : Z := 8 * 1024.
Definition ARGS_MAX : Z := 256.
Definition QUOTE : Z := 34.
Definition EOL : Z := 10.

(** The byte of a white-space character. *)
Definition is_blank (b : Z) : bool := (b =? 32) || ((9 <=? b) && (b <=? 13)).

Definition is_eol (ch : Z) : bool := (ch =? 10) || (ch =? 0).

(** The locals of a line: the buffer, and [args] as positions in it (the first
    [argc] of its elements). *)
Record line_st := Line { buf : list Z; args : list Z }.

(** What the interpreters print (the texts of the source, named). *)
Inductive diag :=
  | DClosing
  | DSpace
  | DErrorAtLine (line : Z)
  | DRunFailed
  | DExited (name : list Z) (status line : Z)
  | DStatus (pid status line : Z)
  | DUsage (user sys : Z)
  | DNoUsage.

Definition at_pos (pos : Z) : cm line_st Z := s ← get; lift UB_bounds (aget (buf s) pos).
Definition put_pos (pos x : Z) : cm line_st unit :=
  s ← get; b ← lift UB_bounds (aset (buf s) pos x); put (Line b (args s)).

(** [args[( *argc)++] = &buf[pos]] and [args[*argc] = NULL]. *)
Definition push_arg (pos : Z) : cm line_st unit :=
  s ← get;
  check (Z.of_nat (length (args s)) <? ARGS_MAX) UB_bounds ;;
  put (Line (buf s) (args s ++ [pos])).
Definition end_args : cm line_st unit :=
  s ← get; check (Z.of_nat (length (args s)) <? ARGS_MAX) UB_bounds.

(** [do { ++pos; } while (!stop(buf[pos]))]. *)
Fixpoint scan (fuel : nat) (stop : Z -> bool) (pos : Z) : cm line_st Z :=
  match fuel with
  | O => nofuel
  | S fuel' =>
      b ← at_pos (pos + 1);
      if (stop b : bool) then mret (pos + 1) else scan fuel' stop (pos + 1)
  end.

(** One pass of the loop: the position to go on from, or the result. *)
Definition line_word (fuel : nat) (pos : Z) : cm line_st (Z + (Z * option diag)) :=
  b ← at_pos pos;
  if is_eol b then end_args ;; mret (inr (0, None))
  else
    (* an argument between quotes *)
    r ← (if b =? QUOTE then
           push_arg (pos + 1) ;;
           pos ← scan fuel (fun c => is_eol c || (c =? QUOTE)) pos;
           c ← at_pos pos;
           if is_eol c then mret (inr (-1, Some DClosing))
           else
             put_pos pos 0 ;;
             let pos := pos + 1 in
             c ← at_pos pos;
             if is_eol c then end_args ;; mret (inr (0, None))
             else if negb (is_blank c) then mret (inr (-1, Some DSpace))
             else mret (inl pos)
         else mret (inl pos));
    match r with
    | inr res => mret (inr res)
    | inl pos =>
        (* an argument of one word *)
        c ← at_pos pos;
        pos ← (if negb (is_blank c) then
                 push_arg pos ;;
                 pos ← scan fuel (fun c => is_eol c || is_blank c) pos;
                 put_pos pos 0 ;;
                 mret pos
               else mret pos);
        (* skip the blanks *)
        pos ← scan fuel (fun c => is_eol c || negb (is_blank c)) pos;
        mret (inl pos)
    end.

Fixpoint line_loop (n fuel : nat) (pos : Z) : cm line_st (Z * option diag) :=
  match n with
  | O => nofuel
  | S n' =>
      if pos <=? BUFFER_SIZE then
        r ← line_word fuel pos;
        match r with
        | inr res => mret res
        | inl pos' => line_loop n' fuel pos'
        end
      else end_args ;; mret (0, None)
  end.

(** Each pass and each step of a scan moves [pos] forward in the buffer. *)
Definition line_fuel : nat := Z.to_nat (BUFFER_SIZE + 2).

Definition interpret_line : cm line_st (Z * option diag) :=
  modify (fun s => Line (buf s) []) ;; line_loop line_fuel line_fuel 0.

(** The strings the arguments point at, once the line is parsed. *)
Definition arg_strings (s : line_st) : option (list (list Z)) :=
  mapM (fun p => c_string (drop (Z.to_nat p) (buf s))) (args s).

(** [fgets]: up to [n - 1] bytes, the last of them the first newline. *)
Fixpoint take_line (n : nat) (file : list Z) : list Z * list Z :=
  match n, file with
  | S n', b :: rest =>
      if b =? EOL then ([b], rest)
      else let '(l, rest') := take_line n' rest in (b :: l, rest')
  | _, _ => ([], file)
  end.
Definition fgets (n : nat) (file : list Z) : option (list Z * list Z) :=
  match file with
  | [] => None
  | _ => Some (take_line (n - 1) file)
  end.

(** The interpreter: what is left of the file, the buffer of [interpret_file],
    the commands run with their lines, and the diagnostics. *)
Record shell := Shell {
  file : list Z;
  line_buf : list Z;
  commands : list (list (list Z) * Z);
  diags : list diag;
}.

Definition complain (d : diag) : cm shell unit :=
  modify (fun s => Shell (file s) (line_buf s) (commands s) (diags s ++ [d])).

(** [fgets(buf, BUFFER_SIZE, fp)], the rest of the buffer staying as it was. *)
Definition read_line : cm shell bool :=
  s ← get;
  match fgets (Z.to_nat BUFFER_SIZE) (file s) with
  | None => mret false
  | Some (l, rest) =>
      put (Shell rest (overwrite (line_buf s) 0 (l ++ [0])) (commands s) (diags s)) ;; mret true
  end.

(** [interpret_line] on the buffer, with the strings of its arguments. *)
Definition parse_line : cm shell (Z * list (list Z)) :=
  s ← get;
  match interpret_line (Line (line_buf s) []) with
  | Done (code, d) l =>
      put (Shell (file s) (buf l) (commands s) (diags s ++ match d with Some d => [d] | None => [] end)) ;;
      if code <? 0 then mret (code, [])
      else strs ← lift UB_bounds (arg_strings l); mret (code, strs)
  | Exited c _ => exit_ c
  | Undef u => undef u
  | NoFuel => nofuel
  end.

Section Run.
(** The process: whether a child can be made and waited for, and the status
    [waitpid] gives for a command. *)
Context (spawn : list (list Z) -> option Z).

(** A command is started: it is in the log. *)
Definition start (argv : list (list Z)) (line : Z) : cm shell unit :=
  modify (fun s => Shell (file s) (line_buf s) (commands s ++ [(argv, line)]) (diags s)).

(** The result with the status of the child. *)
Definition run_command (argv : list (list Z)) (line : Z) : cm shell (Z * Z) :=
  start argv line ;;
  match spawn argv with
  | None => mret (-1, 0)
  | Some status => mret (0, status)
  end.

Definition WEXITSTATUS (status : Z) : Z := Z.land (Z.shiftr status 8) 255.

Fixpoint interpret_lines (fuel : nat) (line : Z) : cm shell Z :=
  match fuel with
  | O => nofuel
  | S fuel' =>
      more ← read_line;
      if negb more then mret 0
      else
        p ← parse_line;
        if p.1 <? 0 then complain (DErrorAtLine line) ;; mret (-1)
        else
          match p.2 with
          | [] => l ← int_op (line + 1); interpret_lines fuel' l
          | name :: _ =>
              r ← run_command p.2 line;
              if negb (r.1 =? 0) then complain DRunFailed ;; mret 0
              else if negb (WEXITSTATUS r.2 =? 0) then
                complain (DExited name (WEXITSTATUS r.2) line) ;; mret (-1)
              else l ← int_op (line + 1); interpret_lines fuel' l
          end
  end.

(** A line takes at least one byte of the file. *)
Definition interpret_file : cm shell Z := s ← get; interpret_lines (S (length (file s))) 1.
End Run.

(** The interpreter before it reads: [stack] is what the buffer holds. *)
Definition shell_start (input stack : list Z) : shell := Shell input stack [] [].

Definition text (s : string) : list Z := map (fun c => Z.of_N (Ascii.N_of_ascii c)) (String.list_ascii_of_string s).

Example stale_ex :
  match interpret_file (fun _ => Some 0) (shell_start (text "echo abcdef" ++ [10] ++ text "ls") (replicate (Z.to_nat 8192) 0)) with
  | Done c s => (c, commands s)
  | _ => (-7, [])
  end = (0, [([text "echo"; text "abcdef"], 1); ([text "ls"; text "o"; text "abcdef"], 2)]).
Proof. vm_compute. reflexivity. Qed.

(** ** What a line means *)

(** An argument, plain or between quotes. *)
Inductive token := Plain (w : list Z) | Quoted (w : list Z).

Definition word (t : token) : list Z := match t with Plain w | Quoted w => w end.
Definition print_token (t : token) : list Z :=
  match t with Plain w => w | Quoted w => QUOTE :: w ++ [QUOTE] end.

Definition plain_byte (b : Z) : bool := negb (is_eol b) && negb (is_blank b).
Definition quoted_byte (b : Z) : bool := negb (is_eol b) && negb (b =? QUOTE).

Definition token_ok (t : token) : Prop :=
  match t with
  | Plain w => w <> [] /\ head w <> Some QUOTE /\ Forall (fun b => plain_byte b = true) w
  | Quoted w => Forall (fun b => quoted_byte b = true) w
  end.

(** Tokens with the blanks before them (at least one), then [m] blanks and the
    end of the line. *)
Fixpoint line_tail (ts : list (nat * token)) (m : nat) : list Z :=
  match ts with
  | [] => replicate m 32 ++ [EOL; 0]
  | (k, t) :: ts' => replicate (S k) 32 ++ print_token t ++ line_tail ts' m
  end.

(** ** Lemmas *)

Lemma at_pos_app pre b r a :
  at_pos (Z.of_nat (length pre)) (Line (pre ++ b :: r) a) = Done b (Line (pre ++ b :: r) a).
Proof.
  unfold at_pos. cm_step. rewrite aget_nat, lookup_app_r, Nat.sub_diag by lia. done.
Qed.

Lemma put_pos_app pre b r a x :
  put_pos (Z.of_nat (length pre)) x (Line (pre ++ b :: r) a) = Done tt (Line (pre ++ x :: r) a).
Proof.
  unfold put_pos. cm_step. rewrite aset_ok by (rewrite length_app; simpl; lia). cm_step.
  rewrite Nat2Z.id, insert_app_r_alt, Nat.sub_diag by lia. done.
Qed.

Lemma push_arg_ok s p : Z.of_nat (length (args s)) < ARGS_MAX ->
  push_arg p s = Done tt (Line (buf s) (args s ++ [p])).
Proof. intros H. unfold push_arg. cm_step. by destruct (Z.ltb_spec (Z.of_nat (length (args s))) ARGS_MAX); [|lia]. Qed.

Lemma end_args_ok s : Z.of_nat (length (args s)) < ARGS_MAX -> end_args s = Done tt s.
Proof. intros H. unfold end_args. cm_step. by destruct (Z.ltb_spec (Z.of_nat (length (args s))) ARGS_MAX); [|lia]. Qed.

Lemma scan_app stop w : forall fuel pre x c r a,
  Forall (fun b => stop b = false) w -> stop c = true -> (length w < fuel)%nat ->
  scan fuel stop (Z.of_nat (length pre)) (Line (pre ++ x :: w ++ c :: r) a) =
    Done (Z.of_nat (length (pre ++ x :: w))) (Line (pre ++ x :: w ++ c :: r) a).
Proof.
  induction w as [|y w IH]; intros fuel pre x c r a Hw Hc Hf.
  all: destruct fuel as [|fuel]; [simpl in Hf; lia|]; cbn [scan];
    replace (Z.of_nat (length pre) + 1) with (Z.of_nat (length (pre ++ [x]))) by (rewrite length_app; simpl; lia).
  - change (pre ++ x :: [] ++ c :: r) with (pre ++ [x] ++ c :: r). rewrite app_assoc.
    unfold mbind at 1, cm_bind at 1. rewrite at_pos_app, Hc. done.
  - apply Forall_cons in Hw as [Hy Hw].
    assert (pre ++ x :: (y :: w) ++ c :: r = (pre ++ [x]) ++ y :: w ++ c :: r) as -> by by rewrite <- app_assoc.
    unfold mbind at 1, cm_bind at 1. rewrite at_pos_app, Hy.
    rewrite IH by (done || (simpl in Hf; lia)). by rewrite <- app_assoc.
Qed.

Lemma c_string_app_l l r w : c_string l = Some w -> c_string (l ++ r) = Some w.
Proof.
  revert w. induction l as [|b l IH]; intros w; simpl; [done|]. destruct (b =? 0); [done|].
  destruct (c_string l) eqn:E; simpl; [|done]. intros [= <-]. by rewrite (IH _ eq_refl).
Qed.

(** The blanks that follow a token, whatever comes after them. *)
Lemma line_tail_head ts m rest : Forall (fun t => token_ok t.2) ts ->
  exists k c r, line_tail ts m ++ rest = replicate k 32 ++ c :: r /\
    is_eol c || negb (is_blank c) = true /\ (k = 0%nat -> c = EOL /\ ts = []) /\
    c :: r = match ts with [] => EOL :: 0 :: rest | (_, t) :: ts' => print_token t ++ line_tail ts' m ++ rest end.
Proof.
  intros Hts. destruct ts as [|[k t] ts].
  - exists m, EOL, (0 :: rest). simpl. rewrite <- app_assoc. done.
  - apply Forall_cons in Hts as [Ht _]. simpl in Ht.
    assert (exists c r', print_token t = c :: r' /\ negb (is_blank c) = true) as (c & r' & E & Hc).
    { destruct t as [w|w]; simpl in *.
      - destruct w as [|c w]; [by destruct Ht|]. destruct Ht as (_ & _ & [Hb _]%Forall_cons).
        exists c, w. split; [done|]. unfold plain_byte in Hb. by apply andb_true_iff in Hb as [_ Hb].
      - by exists QUOTE, (w ++ [QUOTE]). }
    exists (S k), c, (r' ++ line_tail ts m ++ rest).
    cbn [line_tail]. rewrite E, <- !app_assoc. split; [done|]. split; [by rewrite Hc, orb_true_r|]. done.
Qed.

(** Skipping the blanks from a position in them. *)
Lemma skip_blanks k : forall fuel pre x c r a,
  is_eol c || negb (is_blank c) = true -> (k < fuel)%nat ->
  scan fuel (fun c => is_eol c || negb (is_blank c)) (Z.of_nat (length pre))
    (Line (pre ++ x :: replicate k 32 ++ c :: r) a) =
  Done (Z.of_nat (length (pre ++ x :: replicate k 32))) (Line (pre ++ x :: replicate k 32 ++ c :: r) a).
Proof.
  intros fuel pre x c r a Hc Hf. apply scan_app; [|done|by rewrite length_replicate].
  apply Forall_forall. intros b [j [-> _]%lookup_replicate]%list_elem_of_lookup. done.
Qed.

(** The buffer is at the end of the line. *)
Definition at_eol (l : list Z) : Prop := exists b r, l = b :: r /\ is_eol b = true.

(** The buffer after a token: at the next one, or at the end. *)
Definition at_next (ts : list (nat * token)) (m : nat) (rest l : list Z) : Prop :=
  match ts with
  | [] => at_eol l
  | (_, t) :: ts' => l = print_token t ++ line_tail ts' m ++ rest
  end.

(** What a pass of the loop makes of a token. *)
Definition token_step (fuel : nat) (pre : list Z) (t : token) (ts : list (nat * token)) (m : nat)
    (rest a : list Z) : Prop :=
  exists p suf nxt,
    let s' := Line (pre ++ suf ++ nxt) (a ++ [p]) in
    let s := Line (pre ++ print_token t ++ line_tail ts m ++ rest) a in
    (line_word fuel (Z.of_nat (length pre)) s = Done (inr (0, None)) s' /\ ts = [] \/
     line_word fuel (Z.of_nat (length pre)) s = Done (inl (Z.of_nat (length (pre ++ suf)))) s' /\
     at_next ts m rest nxt) /\
    0 <= p /\ c_string (drop (Z.to_nat p) (pre ++ suf)) = Some (word t) /\
    length (suf ++ nxt) = length (print_token t ++ line_tail ts m ++ rest).

Lemma plain_byte_facts b : plain_byte b = true ->
  is_eol b = false /\ is_blank b = false /\ b <> 0 /\ (is_eol b || is_blank b) = false.
Proof.
  unfold plain_byte, is_eol. rewrite andb_true_iff, !negb_true_iff. intros [H1 H2].
  split; [done|]. split; [done|]. split; [lia|]. by rewrite H1, H2.
Qed.

Lemma quoted_byte_facts b : quoted_byte b = true ->
  is_eol b = false /\ (is_eol b || (b =? QUOTE)) = false /\ b <> 0.
Proof.
  unfold quoted_byte, is_eol. rewrite andb_true_iff, !negb_true_iff. intros [H1 H2].
  split; [done|]. split; [by rewrite H1, H2|lia].
Qed.

Lemma word_no_zero (f : Z -> bool) w :
  (forall b, f b = true -> b <> 0) -> Forall (fun b => f b = true) w -> 0 ∉ w.
Proof. intros Hf Hw Hin. rewrite Forall_forall in Hw. by apply (Hf 0); [apply Hw|]. Qed.

(** A pass ends by skipping the blanks after the byte at [pos]. *)
Lemma skip_to_next fuel pre x k c r a ts m rest :
  is_eol c || negb (is_blank c) = true -> (k < fuel)%nat ->
  c :: r = match ts with [] => EOL :: 0 :: rest | (_, t) :: ts' => print_token t ++ line_tail ts' m ++ rest end ->
  (p ← scan fuel (fun c => is_eol c || negb (is_blank c)) (Z.of_nat (length pre)); mret (inl p))
    (Line (pre ++ x :: replicate k 32 ++ c :: r) a) =
  Done (inl (Z.of_nat (length (pre ++ x :: replicate k 32))) : Z + Z * option diag)
    (Line (pre ++ x :: replicate k 32 ++ c :: r) a) /\ at_next ts m rest (c :: r).
Proof.
  intros Hc Hf Hcr. unfold mbind, cm_bind. rewrite skip_blanks by done. split; [done|].
  unfold at_next. destruct ts as [|[k' t'] ts']; [|done]. injection Hcr as -> ->. by exists EOL, (0 :: rest).
Qed.

Lemma plain_step fuel pre w ts m rest a :
  token_ok (Plain w) -> Forall (fun t => token_ok t.2) ts -> Z.of_nat (length a) + 1 < ARGS_MAX ->
  (length (w ++ line_tail ts m ++ rest) < fuel)%nat ->
  token_step fuel pre (Plain w) ts m rest a.
Proof.
  intros (Hne & Hq & Hw) Hts Ha Hf. destruct (line_tail_head ts m rest Hts) as (k & c & r & El & Hc & Hk & Hcr).
  unfold token_step. rewrite El in *. cbn [print_token].
  assert (0 ∉ w) as H0 by (apply (word_no_zero plain_byte); [apply plain_byte_facts|done]).
  destruct w as [|w0 w]; [done|]. apply Forall_cons in Hw as [Hw0 Hw].
  destruct (plain_byte_facts w0 Hw0) as (He0 & Hb0 & _ & _).
  rewrite !length_app, length_replicate in Hf. cbn [length] in Hf.
  (* the byte after the word *)
  assert (exists y l, replicate k 32 ++ c :: r = y :: l /\ is_eol y || is_blank y = true /\
    match k with O => y = EOL /\ l = 0 :: rest /\ ts = [] | S k' => y = 32 /\ l = replicate k' 32 ++ c :: r end)
    as (y & l & Ey & Hy & Hky).
  { destruct k as [|k]; [|by exists 32, (replicate k 32 ++ c :: r)].
    destruct (Hk eq_refl) as [-> ->]. injection Hcr as ->. by exists EOL, (0 :: rest). }
  assert (line_word fuel (Z.of_nat (length pre)) (Line (pre ++ (w0 :: w) ++ y :: l) a) =
    (p ← scan fuel (fun c => is_eol c || negb (is_blank c)) (Z.of_nat (length (pre ++ w0 :: w))); mret (inl p))
      (Line ((pre ++ w0 :: w) ++ 0 :: l) (a ++ [Z.of_nat (length pre)]))) as Hhead.
  { unfold line_word. unfold mbind at 1, cm_bind at 1. cbn [app]. rewrite at_pos_app, He0.
    unfold mbind at 1, cm_bind at 1. destruct (Z.eqb_spec w0 QUOTE); [by subst; destruct Hq|].
    unfold mret at 1, cm_ret at 1. unfold mbind at 1, cm_bind at 1. rewrite at_pos_app, Hb0. cbn [negb].
    unfold mbind at 1, cm_bind at 1. unfold mbind at 1, cm_bind at 1.
    rewrite push_arg_ok by (simpl; lia). cbn [buf args].
    unfold mbind at 1, cm_bind at 1. rewrite scan_app; [| |done|simpl in Hf; lia].
    2: { eapply Forall_impl; [exact Hw|]. intros b Hb. by apply plain_byte_facts in Hb as (_ & _ & _ & ?). }
    unfold mbind at 1, cm_bind at 1.
    replace (pre ++ w0 :: w ++ y :: l) with ((pre ++ w0 :: w) ++ y :: l) by (by rewrite <- app_assoc).
    by rewrite put_pos_app. }
  rewrite Ey, Hhead. exists (Z.of_nat (length pre)). destruct k as [|k].
  - destruct Hky as (-> & -> & ->). exists ((w0 :: w) ++ [0]), (0 :: rest).
    split; [right; split; [|by exists 0, rest]|].
    + unfold mbind, cm_bind.
      rewrite (scan_app _ [] fuel (pre ++ w0 :: w) 0 0 rest) by (done || (simpl; lia)).
      unfold mret, cm_ret. rewrite <- !app_assoc. done.
    + split; [lia|]. rewrite Nat2Z.id, drop_app_length. split; [by apply c_string_app|].
      cbn [replicate]. list_len.
  - destruct Hky as (-> & ->).
    destruct (skip_to_next fuel (pre ++ w0 :: w) 0 k c r (a ++ [Z.of_nat (length pre)]) ts m rest) as [Es Hn];
      [done|lia|done|].
    exists ((w0 :: w) ++ 0 :: replicate k 32), (c :: r). rewrite Es. split; [right; split; [|done]|].
    + rewrite <- !app_assoc. done.
    + split; [lia|]. rewrite Nat2Z.id, drop_app_length. split; [by apply c_string_app|].
      cbn [replicate]. list_len.
Qed.

Lemma quoted_step fuel pre w ts m rest a :
  token_ok (Quoted w) -> Forall (fun t => token_ok t.2) ts -> Z.of_nat (length a) + 1 < ARGS_MAX ->
  (length (print_token (Quoted w) ++ line_tail ts m ++ rest) < fuel)%nat ->
  token_step fuel pre (Quoted w) ts m rest a.
Proof.
  intros Hw Hts Ha Hf. simpl in Hw.
  destruct (line_tail_head ts m rest Hts) as (k & c & r & El & Hc & Hk & Hcr).
  unfold token_step. rewrite El in *. cbn [print_token] in *.
  assert (0 ∉ w) as H0 by (apply (word_no_zero quoted_byte); [apply quoted_byte_facts|done]).
  rewrite !length_app, length_replicate in Hf. cbn [length] in Hf. rewrite length_app in Hf. cbn [length] in Hf.
  assert (Z.of_nat (length pre) + 1 = Z.of_nat (length (pre ++ [QUOTE]))) as Hp by (rewrite length_app; simpl; lia).
  set (p := Z.of_nat (length pre) + 1) in *.
  assert (forall l, Line (pre ++ (QUOTE :: w ++ [QUOTE]) ++ l) a = Line (pre ++ QUOTE :: w ++ QUOTE :: l) a) as Hl
    by (intros l; cbn [app]; by rewrite <- app_assoc).
  assert (forall l, scan fuel (fun c => is_eol c || (c =? QUOTE)) (Z.of_nat (length pre))
      (Line (pre ++ QUOTE :: w ++ QUOTE :: l) (a ++ [p])) =
    Done (Z.of_nat (length (pre ++ QUOTE :: w))) (Line ((pre ++ QUOTE :: w) ++ QUOTE :: l) (a ++ [p]))) as Hscan.
  { intros l. rewrite scan_app; [by rewrite <- app_assoc| |done|lia].
    eapply Forall_impl; [exact Hw|]. intros b Hb. by apply quoted_byte_facts in Hb as (_ & ? & _). }
  assert (forall l, c_string (drop (Z.to_nat p) (pre ++ QUOTE :: w ++ 0 :: l)) = Some w) as Hstr.
  { intros l. rewrite Hp, Nat2Z.id. change (pre ++ QUOTE :: w ++ 0 :: l) with (pre ++ [QUOTE] ++ w ++ 0 :: l).
    rewrite app_assoc, drop_app_length. by apply c_string_app. }
  assert (forall y l, line_word fuel (Z.of_nat (length pre)) (Line (pre ++ QUOTE :: w ++ QUOTE :: y :: l) a) =
    (if is_eol y then end_args ;; mret (inr (0, None))
     else if negb (is_blank y) then mret (inr (-1, Some DSpace))
     else p ← scan fuel (fun c => is_eol c || negb (is_blank c)) (Z.of_nat (length (pre ++ QUOTE :: w ++ [0]))); mret (inl p))
      (Line ((pre ++ QUOTE :: w ++ [0]) ++ y :: l) (a ++ [p]))) as Hhead.
  { intros y l. unfold line_word. unfold mbind at 1, cm_bind at 1. rewrite at_pos_app.
    change (is_eol QUOTE) with false. change (QUOTE =? QUOTE) with true. cbn iota.
    unfold mbind at 1, cm_bind at 1. unfold mbind at 1, cm_bind at 1.
    rewrite push_arg_ok by (simpl; lia). cbn [buf args]. fold p.
    unfold mbind at 1, cm_bind at 1. rewrite Hscan. unfold mbind at 1, cm_bind at 1. rewrite at_pos_app.
    change (is_eol QUOTE) with false. cbn iota.
    unfold mbind at 1, cm_bind at 1. rewrite put_pos_app.
    replace (Z.of_nat (length (pre ++ QUOTE :: w)) + 1) with (Z.of_nat (length (pre ++ QUOTE :: w ++ [0])))
      by (rewrite !length_app; cbn [length]; rewrite length_app; simpl; lia).
    replace ((pre ++ QUOTE :: w) ++ 0 :: y :: l) with ((pre ++ QUOTE :: w ++ [0]) ++ y :: l)
      by (rewrite <- !app_assoc; cbn [app]; by rewrite <- app_assoc).
    unfold mbind at 1, cm_bind at 1. rewrite at_pos_app.
    destruct (is_eol y); [unfold mbind, cm_bind, end_args; cm_step; by destruct (_ <? ARGS_MAX)|].
    destruct (is_blank y) eqn:Hby; [|done]. cbn [negb]. unfold mret at 1, cm_ret at 1.
    unfold mbind at 1, cm_bind at 1. rewrite at_pos_app, Hby. done. }
  rewrite Hl. exists p. destruct k as [|k].
  - destruct (Hk eq_refl) as [-> ->]. injection Hcr as ->. exists (QUOTE :: w ++ [0]), (EOL :: 0 :: rest).
    split; [left; split; [|done]|].
    + cbn [replicate app]. rewrite Hhead. change (is_eol EOL) with true. cbn iota. unfold mbind, cm_bind.
      rewrite end_args_ok by (simpl; rewrite length_app; simpl; lia). by rewrite <- app_assoc.
    + split; [lia|]. split; [apply Hstr|]. list_len.
  - exists (QUOTE :: w ++ 0 :: 32 :: replicate k 32), (c :: r). cbn [replicate app]. rewrite Hhead.
    change (is_eol 32) with false. change (negb (is_blank 32)) with false. cbn iota.
    destruct (skip_to_next fuel (pre ++ QUOTE :: w ++ [0]) 32 k c r (a ++ [p]) ts m rest) as [Es Hn]; [done|lia|done|].
    rewrite Es. split; [right; split; [|done]|].
    + list_assoc.
    + split; [lia|]. split; [apply Hstr|]. cbn [replicate]. list_len.
Qed.

Definition line_bytes (n0 : nat) (ts : list (nat * token)) (m : nat) : list Z :=
  replicate n0 32 ++ match ts with [] => [EOL; 0] | (_, t) :: ts' => print_token t ++ line_tail ts' m end.

Definition words (ts : list (nat * token)) : list (list Z) := map (fun t => word t.2) ts.

Definition strings_at (b : list Z) (ps : list Z) : option (list (list Z)) :=
  mapM (fun p => c_string (drop (Z.to_nat p) b)) ps.

Lemma c_string_drop_app b p r w :
  c_string (drop p b) = Some w -> c_string (drop p (b ++ r)) = Some w.
Proof.
  intros H. destruct (decide (p <= length b)%nat) as [Hp|Hp].
  - rewrite drop_app_le by done. by apply c_string_app_l.
  - rewrite drop_ge in H by lia. done.
Qed.

Lemma token_step_all fuel pre t ts m rest a :
  token_ok t -> Forall (fun t => token_ok t.2) ts -> Z.of_nat (length a) + 1 < ARGS_MAX ->
  (length (print_token t ++ line_tail ts m ++ rest) < fuel)%nat -> token_step fuel pre t ts m rest a.
Proof. destruct t; [apply plain_step|apply quoted_step]. Qed.

Lemma line_loop_spec m rest fuel ts : forall n pre l a,
  at_next ts m rest l -> Forall (fun t => token_ok t.2) ts ->
  Z.of_nat (length a + length ts) < ARGS_MAX -> Z.of_nat (length pre) <= BUFFER_SIZE ->
  Z.of_nat (length (pre ++ l)) <= BUFFER_SIZE -> (length (pre ++ l) < fuel)%nat -> (length ts < n)%nat ->
  exists ps l', line_loop n fuel (Z.of_nat (length pre)) (Line (pre ++ l) a) = Done (0, None) (Line (pre ++ l') (a ++ ps)) /\
    strings_at (pre ++ l') ps = Some (words ts) /\ length (pre ++ l') = length (pre ++ l).
Proof.
  induction ts as [|[k t] ts IH]; intros n pre l a Hnx Hts Ha Hpre Hlen Hf Hn.
  all: destruct n as [|n]; [simpl in Hn; lia|]; cbn [line_loop];
    (destruct (Z.leb_spec (Z.of_nat (length pre)) BUFFER_SIZE); [|lia]).
  - destruct Hnx as (b & r & -> & Hb). exists [], (b :: r). rewrite app_nil_r. split; [|by split].
    unfold mbind at 1, cm_bind at 1. unfold line_word. unfold mbind at 1, cm_bind at 1. rewrite at_pos_app, Hb.
    unfold mbind at 1, cm_bind at 1. rewrite end_args_ok by (simpl in *; lia). done.
  - apply Forall_cons in Hts as [Ht Hts]. simpl in Hnx, Ht. subst l. cbn [length] in Ha, Hn.
    rewrite !length_app in Hf. cbn [length] in *.
    destruct (token_step_all fuel pre t ts m rest a) as (p & suf & nxt & Hstep & Hp & Hstr & Hsl); try done.
    { lia. }
    { rewrite !length_app. lia. }
    cbn zeta in Hstep. unfold mbind at 1, cm_bind at 1.
    destruct Hstep as [[-> ->]|[-> Hnext]].
    + exists [p], (suf ++ nxt). split; [done|]. split.
      * unfold strings_at. simpl. by rewrite app_assoc, (c_string_drop_app _ _ nxt _ Hstr).
      * rewrite (length_app pre), Hsl, <- (length_app pre). done.
    + assert (length ((pre ++ suf) ++ nxt) = length (pre ++ print_token t ++ line_tail ts m ++ rest)) as Hsl'
        by (rewrite <- app_assoc, (length_app pre), Hsl, <- (length_app pre); done).
      destruct (IH n (pre ++ suf) nxt (a ++ [p])) as (ps & l' & E & Hs & Hl); try done.
      * rewrite length_app. simpl. lia.
      * rewrite length_app in Hsl'. lia.
      * lia.
      * rewrite Hsl', !length_app. lia.
      * lia.
      * exists (p :: ps), (suf ++ l'). rewrite !app_assoc in *. rewrite E. split; [by rewrite <- !app_assoc|].
        split; [|congruence]. unfold strings_at in *. simpl.
        rewrite (c_string_drop_app _ _ l' _ Hstr). simpl. by rewrite Hs.
Qed.

(** ** Termination *)

(** Everything the parser does keeps the size of the buffer. *)
Definition sized (n : nat) (s : line_st) : Prop := length (buf s) = n.

Lemma at_pos_halts n pos s : sized n s ->
  halts (at_pos pos) (fun _ s' => sized n s' /\ 0 <= pos < Z.of_nat n) s.
Proof.
  intros Hs. unfold halts, at_pos. cm_step. destruct (aget (buf s) pos) as [b|] eqn:E; [|done].
  apply aget_Some in E as [H0 E]. apply lookup_lt_Some in E. unfold sized in *. simpl. split; [done|lia].
Qed.

Lemma put_pos_halts n pos x s : sized n s -> halts (put_pos pos x) (fun _ s' => sized n s') s.
Proof.
  intros Hs. unfold halts, put_pos. cm_step. destruct (aset (buf s) pos x) as [b|] eqn:E; [|done].
  apply aset_Some in E as [_ ->]. unfold sized in *. simpl. by rewrite length_insert.
Qed.

Lemma push_arg_halts n p s : sized n s -> halts (push_arg p) (fun _ s' => sized n s') s.
Proof. intros Hs. unfold halts, push_arg. cm_step. by destruct (_ <? _). Qed.

Lemma end_args_halts n s : sized n s -> halts end_args (fun _ s' => sized n s') s.
Proof. intros Hs. unfold halts, end_args. cm_step. by destruct (_ <? _). Qed.

Lemma scan_halts n stop fuel : forall pos s, sized n s -> -1 <= pos -> Z.of_nat n - pos <= Z.of_nat fuel ->
  (0 < fuel)%nat ->
  halts (scan fuel stop pos) (fun pos' s' => sized n s' /\ pos < pos' < Z.of_nat n) s.
Proof.
  induction fuel as [|fuel IH]; intros pos s Hs Hp Hf H0; [lia|].
  cbn [scan]. apply halts_bind. eapply halts_mono; [by apply (at_pos_halts n)|].
  intros b s1 [Hs1 Hr]. destruct (stop b); [unfold halts, mret, cm_ret; split; [done|lia]|].
  eapply halts_mono; [apply IH; [done|lia|lia|lia]|]. intros p s2 [? ?]. split; [done|lia].
Qed.

Lemma line_word_halts n fuel pos s :
  sized n s -> 0 <= pos -> Z.of_nat n + 1 <= Z.of_nat fuel ->
  halts (line_word fuel pos) (fun r s' => sized n s' /\
    match r with inl pos' => pos < pos' < Z.of_nat n | inr _ => True end) s.
Proof.
  intros Hs Hp Hf. unfold line_word.
  apply halts_bind. eapply halts_mono; [by apply (at_pos_halts n)|]. intros b s1 [Hs1 Hr1].
  destruct (is_eol b).
  { apply halts_bind. eapply halts_mono; [by apply (end_args_halts n)|]. by intros [] s2 Hs2. }
  apply halts_bind.
  apply (halts_mono _ (fun r s' => sized n s' /\ match r with inl pos' => pos <= pos' < Z.of_nat n | inr _ => True end)).
  - destruct (b =? QUOTE); [|split; [done|lia]].
    apply halts_bind. eapply halts_mono; [by apply (push_arg_halts n)|]. intros [] s2 Hs2.
    apply halts_bind. eapply halts_mono; [apply (scan_halts n); [done|lia|lia|lia]|]. intros p s3 [Hs3 Hr3].
    apply halts_bind. eapply halts_mono; [by apply (at_pos_halts n)|]. intros c s4 [Hs4 _].
    destruct (is_eol c); [by split|].
    apply halts_bind. eapply halts_mono; [by apply (put_pos_halts n)|]. intros [] s5 Hs5.
    apply halts_bind. eapply halts_mono; [by apply (at_pos_halts n)|]. intros d s6 [Hs6 Hr6].
    destruct (is_eol d).
    { apply halts_bind. eapply halts_mono; [by apply (end_args_halts n)|]. by intros [] s7 Hs7. }
    destruct (negb (is_blank d)); [by split|]. split; [done|lia].
  - intros [p|res] s2 [Hs2 Hr2]; [|by split].
    apply halts_bind. eapply halts_mono; [by apply (at_pos_halts n)|]. intros c s3 [Hs3 Hr3].
    apply halts_bind. apply (halts_mono _ (fun p' s' => sized n s' /\ p <= p' < Z.of_nat n)).
    + destruct (negb (is_blank c)); [|split; [done|lia]].
      apply halts_bind. eapply halts_mono; [by apply (push_arg_halts n)|]. intros [] s4 Hs4.
      apply halts_bind. eapply halts_mono; [apply (scan_halts n); [done|lia|lia|lia]|]. intros q s5 [Hs5 Hr5].
      apply halts_bind. eapply halts_mono; [by apply (put_pos_halts n)|]. intros [] s6 Hs6. split; [done|lia].
    + intros q s4 [Hs4 Hr4]. apply halts_bind.
      eapply halts_mono; [apply (scan_halts n); [done|lia|lia|lia]|]. intros q' s5 [Hs5 Hr5].
      split; [done|lia].
Qed.

Lemma line_loop_halts n fuel k : forall pos s,
  sized n s -> 0 <= pos -> Z.of_nat n + 1 <= Z.of_nat fuel ->
  Z.of_nat n - pos < Z.of_nat k -> (0 < k)%nat ->
  halts (line_loop k fuel pos) (fun _ s' => sized n s') s.
Proof.
  induction k as [|k IH]; intros pos s Hs Hp Hf Hk H0; [lia|].
  cbn [line_loop]. destruct (pos <=? BUFFER_SIZE).
  - apply halts_bind. eapply halts_mono; [by apply (line_word_halts n)|].
    intros [pos'|res] s1 [Hs1 Hr1]; [|done]. apply IH; try done; lia.
  - apply halts_bind. eapply halts_mono; [by apply (end_args_halts n)|]. by intros [] s2 Hs2.
Qed.

Lemma interpret_line_halts s : sized (Z.to_nat BUFFER_SIZE) s ->
  halts interpret_line (fun _ s' => sized (Z.to_nat BUFFER_SIZE) s') s.
Proof.
  intros Hs. unfold interpret_line. apply halts_bind. unfold halts at 1, modify.
  apply (line_loop_halts (Z.to_nat BUFFER_SIZE)); [done|lia| | |]; unfold line_fuel, BUFFER_SIZE; lia.
Qed.

(** *** Reading and parsing a line *)

Lemma take_line_length n file l rest : take_line n file = (l, rest) ->
  length file = (length l + length rest)%nat /\ (length l <= n)%nat.
Proof.
  revert file l rest. induction n as [|n IH]; intros file l rest; [by intros [= <- <-]|].
  destruct file as [|b file]; [intros [= <- <-]; simpl; lia|]. simpl.
  destruct (b =? EOL); [intros [= <- <-]; simpl; lia|].
  destruct (take_line n file) as [l' rest'] eqn:E. intros [= <- <-].
  destruct (IH _ _ _ E). simpl. lia.
Qed.

Lemma take_line_cons n b f : (0 < n)%nat -> exists l r, take_line n (b :: f) = (b :: l, r).
Proof.
  intros Hn. destruct n as [|n]; [lia|]. simpl. destruct (b =? EOL); [by do 2 eexists|].
  destruct (take_line n f) as [l r]. by do 2 eexists.
Qed.

Definition buf_sized (s : shell) : Prop := length (line_buf s) = Z.to_nat BUFFER_SIZE.

#[local] Opaque take_line.

Lemma read_line_halts s : buf_sized s ->
  halts read_line (fun more s' => buf_sized s' /\
    (if more : bool then (length (file s') < length (file s))%nat else True)) s.
Proof.
  intros Hs. unfold halts, read_line, fgets. unfold mbind, cm_bind, get.
  destruct (file s) as [|b f] eqn:Ef; [done|].
  destruct (take_line (Z.to_nat BUFFER_SIZE - 1) (b :: f)) as [l rest] eqn:El.
  destruct (take_line_length _ _ _ _ El) as [Hlen Hle]. unfold buf_sized, mret, cm_ret, put in *.
  cbn [file line_buf]. unfold BUFFER_SIZE in *. split.
  - rewrite length_overwrite; [done|]. list_len.
  - destruct (take_line_cons (Z.to_nat (8 * 1024) - 1) b f) as (l' & r' & E'); [lia|]. rewrite E' in El. injection El as <- <-. simpl in *. lia.
Qed.

Lemma parse_line_halts s : buf_sized s ->
  halts parse_line (fun _ s' => buf_sized s' /\ file s' = file s) s.
Proof.
  intros Hs. pose proof (interpret_line_halts (Line (line_buf s) []) Hs) as H.
  unfold halts, parse_line in *. cm_step. destruct (interpret_line _) as [[code d] l| | |]; try done.
  cm_step. destruct (code <? 0); [done|]. by destruct (arg_strings l).
Qed.

Lemma interpret_lines_halts spawn fuel : forall line s,
  buf_sized s -> (length (file s) < fuel)%nat ->
  halts (interpret_lines spawn fuel line) (fun _ _ => True) s.
Proof.
  induction fuel as [|fuel IH]; intros line s Hs Hf; [lia|].
  cbn [interpret_lines]. apply halts_bind. eapply halts_mono; [by apply read_line_halts|].
  intros more s1 [Hs1 Hm]. destruct more; [|done]. cbn [negb].
  apply halts_bind. eapply halts_mono; [by apply parse_line_halts|].
  intros [code strs] s2 [Hs2 Hf2]. cbn [fst snd].
  assert (forall s3, buf_sized s3 -> file s3 = file s2 ->
    halts (l ← int_op (line + 1); interpret_lines spawn fuel l) (fun _ _ => True) s3) as Hnext.
  { intros s3 Hs3 Hf3. apply halts_bind. unfold halts at 1, int_op. destruct (is_int (line + 1)); [|done].
    apply IH; [done|]. rewrite Hf3, Hf2. lia. }
  destruct (code <? 0); [done|]. destruct strs as [|name strs]; [by apply Hnext|].
  apply halts_bind. unfold run_command, start. unfold halts at 1. cm_step.
  destruct (spawn (name :: strs)) as [status|]; cm_step; [|done].
  destruct (negb (WEXITSTATUS status =? 0)); [done|]. by apply Hnext.
Qed.
#[local] Transparent take_line.

(** A line is parsed into its arguments. *)
Lemma interpret_line_spec (n0 : nat) (ts : list (nat * token)) (m : nat) (rest a0 : list Z)
  (Hts : Forall (fun t => token_ok t.2) ts) (Hmax : Z.of_nat (length ts) < ARGS_MAX)
  (Hlen : Z.of_nat (length (line_bytes n0 ts m ++ rest)) = BUFFER_SIZE) :
  exists s, interpret_line (Line (line_bytes n0 ts m ++ rest) a0) = Done (0, None) s /\
    arg_strings s = Some (words ts).
Proof.
  unfold interpret_line, line_bytes in *. unfold mbind at 1, cm_bind at 1, modify. cbn [buf].
  set (first := match ts with [] => [EOL; 0] | (_, t) :: ts' => print_token t ++ line_tail ts' m end) in *.
  assert (at_next ts m rest (first ++ rest)) as Hnx.
  { unfold first. destruct ts as [|[k t] ts]; simpl; [by exists EOL, (0 :: rest)|by rewrite <- app_assoc]. }
  rewrite <- app_assoc in *.
  assert (forall k pre, (length ts < k)%nat -> Z.of_nat (length (pre ++ first ++ rest)) = BUFFER_SIZE ->
    exists s, line_loop k line_fuel (Z.of_nat (length pre)) (Line (pre ++ first ++ rest) []) = Done (0, None) s /\
      arg_strings s = Some (words ts)) as Hloop.
  { intros k pre Hk Hl.
    destruct (line_loop_spec m rest line_fuel ts k pre (first ++ rest) []) as (ps & l' & E & Hs & _); try done.
    - rewrite length_app in Hl. lia.
    - lia.
    - unfold line_fuel. lia.
    - by exists (Line (pre ++ l') ([] ++ ps)). }
  destruct n0 as [|n0]; [apply (Hloop line_fuel []); [unfold line_fuel, ARGS_MAX, BUFFER_SIZE in *; lia|done]|].
  (* the blanks before the first argument are one more pass *)
  change line_fuel with (S (Z.to_nat (BUFFER_SIZE + 1))) at 1. cbn [line_loop].
  change (0 <=? BUFFER_SIZE) with true. cbn iota.
  assert (exists c r, first ++ rest = c :: r /\ is_eol c || negb (is_blank c) = true /\
    c :: r = match ts with [] => EOL :: 0 :: rest | (_, t) :: ts' => print_token t ++ line_tail ts' m ++ rest end)
    as (c & r & Ecr & Hc & Hcr).
  { unfold first. destruct ts as [|[k t] ts]; [by exists EOL, (0 :: rest)|].
    apply Forall_cons in Hts as [Ht Hts].
    destruct (line_tail_head ((k, t) :: ts) m rest ltac:(by constructor)) as (k' & c & r & _ & Hc & _ & Hcr).
    exists c, r. rewrite Hcr, <- app_assoc. done. }
  assert (line_word line_fuel 0 (Line (replicate (S n0) 32 ++ first ++ rest) []) =
    Done (inl (Z.of_nat (length (replicate (S n0) 32)))) (Line (replicate (S n0) 32 ++ first ++ rest) [])) as Ew.
  { rewrite Ecr. cbn [replicate app].
    destruct (skip_to_next line_fuel [] 32 n0 c r [] ts m rest Hc) as [Es _]; [|exact Hcr|].
    - rewrite Ecr in Hlen. rewrite length_app, length_replicate in Hlen. unfold line_fuel. lia.
    - unfold line_word. unfold mbind at 1, cm_bind at 1.
      change (Line (32 :: replicate n0 32 ++ c :: r) []) with (Line ([] ++ 32 :: replicate n0 32 ++ c :: r) []).
      pose proof (at_pos_app [] 32 (replicate n0 32 ++ c :: r) []) as Hat.
      change (Z.of_nat (length (@nil Z))) with 0 in *. rewrite Hat.
      change (is_eol 32) with false. change (32 =? QUOTE) with false. cbn iota.
      unfold mbind at 1, cm_bind at 1, mret at 1, cm_ret at 1. unfold mbind at 1, cm_bind at 1. rewrite Hat.
      change (negb (is_blank 32)) with false. cbn iota. exact Es. }
  unfold mbind at 1, cm_bind at 1. rewrite Ew.
  apply Hloop; [unfold ARGS_MAX, BUFFER_SIZE in *; lia|done].
Qed.

(** ** Properties *)

(** C33.  A line of fewer than 256 arguments, each a word without blanks or a
    text between quotes, with blanks before, between and after them, is parsed
    into exactly those arguments, whatever the buffer held after it. *)
Theorem interpret_line_parses (n0 : nat) (ts : list (nat * token)) (m : nat) (rest a0 : list Z)
  (Hts : Forall (fun t => token_ok t.2) ts) (Hmax : Z.of_nat (length ts) < ARGS_MAX)
  (Hlen : Z.of_nat (length (line_bytes n0 ts m ++ rest)) = BUFFER_SIZE) :
  exists s, interpret_line (Line (line_bytes n0 ts m ++ rest) a0) = Done (0, None) s /\
    arg_strings s = Some (words ts).
Proof. by apply interpret_line_spec. Qed.

(** The interpreter comes to an end on every file: each line is parsed in
    finitely many steps whatever the buffer holds, and each read takes
    something off the file. *)
Theorem interpret_file_terminates (spawn : list (list Z) -> option Z) (input stack : list Z)
  (Hstack : Z.of_nat (length stack) = BUFFER_SIZE) :
  interpret_file spawn (shell_start input stack) <> NoFuel.
Proof.
  eapply halts_not_nofuel. unfold interpret_file. apply halts_bind.
  unfold halts at 1, get. apply interpret_lines_halts; [unfold buf_sized, shell_start; simpl; lia|lia].
Qed.

(** When the last line of a file does not end with a newline, its last
    word ends at the terminator of the string, which the parser steps over:
    what the previous line left in the buffer is taken for more arguments. *)
Theorem unterminated_line_takes_stale_words :
  exists s, interpret_file (fun _ => Some 0)
      (shell_start (text "echo abcdef" ++ [EOL] ++ text "ls") (replicate (Z.to_nat BUFFER_SIZE) 0)) = Done 0 s /\
    commands s = [([text "echo"; text "abcdef"], 1); ([text "ls"; text "o"; text "abcdef"], 2)].
Proof. eexists. split; [vm_compute; reflexivity|vm_compute; reflexivity]. Qed.

(** 256 words on a line, half of what fits in the buffer, overrun [args]. *)
Theorem many_words_overrun_args :
  interpret_file (fun _ => Some 0)
    (shell_start (concat (replicate 256 [97; 32]) ++ [EOL]) (replicate (Z.to_nat BUFFER_SIZE) 0)) = Undef UB_bounds.
Proof. vm_compute. reflexivity. Qed.

(** A command killed by a signal counts as one that succeeded: its exit
    status reads as 0 and the next line is run. *)
Theorem killed_command_is_success (signal : Z) (spawn : list (list Z) -> option Z) (line : Z)
  (argv : list (list Z)) (s : shell)
  (Hsig : 0 < signal < 128) (Hrun : spawn argv = Some signal) :
  exists s', run_command spawn argv line s = Done (0, signal) s' /\ WEXITSTATUS signal = 0.
Proof.
  unfold run_command, start. cm_step. rewrite Hrun. eexists. split; [done|].
  unfold WEXITSTATUS. rewrite Z.shiftr_div_pow2, Z.div_small by lia. done.
Qed.

Lemma interpret_line_parses_witness :
  exists s, interpret_line (Line (line_bytes 2 [(0, Plain (text "echo")); (1, Quoted (text "a b")); (0, Plain (text "x"))]%nat 1
      ++ replicate (Z.to_nat 8174) 88) []) = Done (0, None) s /\
    arg_strings s = Some [text "echo"; text "a b"; text "x"].
Proof.
  apply (interpret_line_parses 2 [(0, Plain (text "echo")); (1, Quoted (text "a b")); (0, Plain (text "x"))]%nat 1
    (replicate (Z.to_nat 8174) 88) []).
  - repeat constructor; discriminate.
  - reflexivity.
  - vm_compute. reflexivity.
Defined.

Lemma interpret_file_terminates_witness :
  interpret_file (fun _ => None) (shell_start (text "a") (replicate (Z.to_nat BUFFER_SIZE) 7)) <> NoFuel.
Proof. apply interpret_file_terminates. vm_compute. reflexivity. Defined.

Lemma killed_command_is_success_witness :
  exists s', run_command (fun _ => Some 9) [text "a"] 1 (shell_start [] []) = Done (0, 9) s' /\ WEXITSTATUS 9 = 0.
Proof. apply (killed_command_is_success 9 (fun _ => Some 9) 1 [text "a"]); [lia|reflexivity]. Defined.
