(* ===== verification/FifoLog.v ===== *)
(** The master and the slaves of cw05/zad2 (master.c, slave.c): lines with
    dates sent through a named pipe.

    A [write] of at most PIPE_BUF (4096) bytes is one piece of the pipe; the
    bytes that the slaves send are less.  The master reads until all slaves have
    closed their ends.  The pipe itself, its opening and SIGINT are in [FifoNet]. *)
From S2P Require Import Prelude CString Scan ShellLine.
#[local] Open Scope Z_scope.

(** ** slave.c *)

Definition MSG_MAX : Z := 1024.

(** [sprintf(pid, "%d\n", getpid())], into 10 bytes. *)
Definition pid_line {S} (pid : Z) : cm S (list Z) :=
  let s := bytes (dec pid) ++ [EOL] in
  check (Z.of_nat (length s) + 1 <=? 10) UB_bounds ;;
  mret s.

(** A turn of the loop up to the [write]: [out] is what the command printed, if
    [popen] could start it. *)
Definition date_line {S} (pid : Z) (out : option (list Z)) : cm S (list Z) :=
  match out with
  | None => undef UB_null
  | Some o =>
      let r := Z.min MSG_MAX (Z.of_nat (length o)) in
      check (r <? MSG_MAX) UB_bounds ;;
      date_buf ← lift UB_bounds (c_string (take (Z.to_nat r) o ++ [0]));
      let buf := bytes (dec pid) ++ [58; 32] ++ date_buf in
      check (Z.of_nat (length buf) + 1 <=? MSG_MAX) UB_bounds ;;
      mret buf
  end.

(** ** The pipe *)

(** About to write its pid; at turn [i]; ended. *)
Inductive slave_pc := SL_pid | SL_line (i : Z) | SL_done.

Record slave := Slave { sl_pid : Z; line_count : Z; sl_pc : slave_pc }.

(** What was written, by whom. *)
Record fifo := Fifo { slaves : list slave; pieces : list (nat * list Z) }.

Section Slaves.
(** What ["date"] prints for a slave at a turn. *)
Context (date : nat -> Z -> option (list Z)).

Definition send (j : nat) (s : slave) (pc : slave_pc) (msg : list Z) (f : fifo) : fifo :=
  Fifo (<[j := Slave (sl_pid s) (line_count s) pc]> (slaves f)) (pieces f ++ [(j, msg)]).

Definition slave_step (j : nat) (s : slave) (f : fifo) : sres fifo :=
  match sl_pc s with
  | SL_pid =>
      match pid_line (sl_pid s) () with
      | Done msg _ => Step (send j s (SL_line 0) msg f)
      | Undef u => Fault u
      | _ => Blocked
      end
  | SL_line i =>
      if i <? line_count s then
        match date_line (sl_pid s) (date j i) () with
        | Done msg _ => Step (send j s (SL_line (i + 1)) msg f)
        | Undef u => Fault u
        | _ => Blocked
        end
      else Step (Fifo (<[j := Slave (sl_pid s) (line_count s) SL_done]> (slaves f)) (pieces f))
  | SL_done => Blocked
  end.

Definition fifo_exec (j : nat) (f : fifo) : sres fifo :=
  match slaves f !! j with Some s => slave_step j s f | None => Blocked end.

(** [main] of the slaves, each with its pid and its [line_count]. *)
Definition fifo_start (ss : list (Z * Z)) : fifo := Fifo (map (fun '(p, n) => Slave p n SL_pid) ss) [].
End Slaves.

(** ** master.c *)

Definition BUF_LEN : Z := 8 * 1024.

(** The loop: a line, or as much as fits; [printf("%s", buffer)] prints up to
    the first null byte. *)
Fixpoint master_loop {S} (fuel : nat) (pipe : list Z) : cm S (list Z) :=
  match fuel with
  | O => nofuel
  | Datatypes.S fuel' =>
      match fgets (Z.to_nat BUF_LEN) pipe with
      | None => mret []
      | Some (l, rest) =>
          text ← lift UB_bounds (c_string (l ++ [0]));
          more ← master_loop fuel' rest;
          mret (text ++ more)
      end
  end.

Definition master {S} (pipe : list Z) : cm S (list Z) := master_loop (Datatypes.S (length pipe)) pipe.

Definition stream (f : fifo) : list Z := concat (map snd (pieces f)).

(** ** Lemmas *)

Lemma take_line_app n l a b : take_line n l = (a, b) -> l = a ++ b.
Proof.
  revert l a b. induction n as [|n IH]; intros [|x l] a b; simpl; try by intros [= <- <-].
  destruct (x =? EOL); [by intros [= <- <-]|]. destruct (take_line n l) as [a' b'] eqn:E.
  intros [= <- <-]. simpl. f_equal. by apply IH.
Qed.

(** The master prints what it reads. *)
Lemma master_loop_copies {S} fuel pipe (s : S) : 0 ∉ pipe -> (length pipe < fuel)%nat ->
  master_loop fuel pipe s = Done pipe s.
Proof.
  revert pipe. induction fuel as [|fuel IH]; intros pipe Hz Hf; [lia|]. cbn [master_loop].
  destruct pipe as [|x pipe]; [done|]. unfold fgets.
  destruct (take_line_cons (Z.to_nat BUF_LEN - 1) x pipe) as (l & r & E); [unfold BUF_LEN; lia|]. rewrite E.
  pose proof (take_line_app _ _ _ _ E) as Ea. rewrite Ea in Hz. apply not_elem_of_app in Hz as [Hz1 Hz2].
  unfold mbind, cm_bind. rewrite (c_string_app _ [] Hz1). unfold lift, mret, cm_ret.
  rewrite (IH r Hz2); [by rewrite Ea|]. pose proof (f_equal length Ea) as El. rewrite length_app in El. simpl in *. lia.
Qed.

Lemma dec_no_null z : 0 ∉ bytes (dec z).
Proof.
  assert (forall s, str_all isdigit s = true -> 0 ∉ bytes s) as H; [|apply H, dec_digits].
  induction s as [|c s IH]; simpl; [intros _; apply not_elem_of_nil|].
  intros [Hc Hs]%andb_true_iff. apply not_elem_of_cons. split; [|by apply IH].
  unfold isdigit, chr in *. lia.
Qed.

(** What a slave has sent when it is at [pc]. *)
Definition messages (date : nat -> Z -> option (list Z)) (j : nat) (s : slave) : list (list Z) :=
  let line i := match date j i with Some o => bytes (dec (sl_pid s)) ++ [58; 32] ++ o | None => [] end in
  let sent n := (bytes (dec (sl_pid s)) ++ [EOL]) :: map line (seqZ 0 n) in
  match sl_pc s with
  | SL_pid => []
  | SL_line i => sent i
  | SL_done => sent (Z.max 0 (line_count s))
  end.

(** The lines a slave can send: the pid is of at most eight digits, and the
    date is a short text. *)
Definition date_ok (pid : Z) (o : list Z) : Prop :=
  (0 ∉ o) /\ Z.of_nat (length o) < MSG_MAX /\ Z.of_nat (length (bytes (dec pid))) + Z.of_nat (length o) + 3 <= MSG_MAX.
Definition slave_ok (date : nat -> Z -> option (list Z)) (j : nat) (pid n : Z) : Prop :=
  Z.of_nat (length (bytes (dec pid))) <= 8 /\
  forall i, 0 <= i < n -> exists o, date j i = Some o /\ date_ok pid o.

Lemma pid_line_ok {S} pid (s : S) : Z.of_nat (length (bytes (dec pid))) <= 8 ->
  pid_line pid s = Done (bytes (dec pid) ++ [EOL]) s.
Proof.
  intros H. unfold pid_line, mbind, cm_bind, check. rewrite length_app. simpl.
  by destruct (Z.leb_spec (Z.of_nat (length (bytes (dec pid)) + 1) + 1) 10); [|lia].
Qed.

Lemma date_line_ok {S} pid o (s : S) : date_ok pid o ->
  date_line pid (Some o) s = Done (bytes (dec pid) ++ [58; 32] ++ o) s.
Proof.
  intros (H1 & H2 & H3). unfold date_line, mbind, cm_bind, check.
  rewrite Z.min_r by lia. replace (Z.of_nat (length o) <? MSG_MAX) with true by lia.
  rewrite take_ge by lia. rewrite (c_string_app o [] H1). unfold lift, mret, cm_ret.
  rewrite !length_app. cbn [length].
  match goal with |- context [?x <=? MSG_MAX] => by destruct (Z.leb_spec x MSG_MAX); [|lia] end.
Qed.

Lemma pid_no_null pid : 0 ∉ bytes (dec pid) ++ [EOL].
Proof. apply not_elem_of_app. split; [apply dec_no_null|]. by apply (bool_decide_unpack (0 ∉ [EOL])). Qed.

Lemma line_no_null pid o : 0 ∉ o -> 0 ∉ bytes (dec pid) ++ [58; 32] ++ o.
Proof. intros Ho. rewrite !not_elem_of_app. split; [apply dec_no_null|]. split; [|done].
  by apply (bool_decide_unpack (0 ∉ [58; 32])).
Qed.

Lemma seqZ_snoc i : 0 <= i -> seqZ 0 (i + 1) = seqZ 0 i ++ [i].
Proof.
  intros Hi. replace (i + 1) with (Z.of_nat (S (Z.to_nat i))) by lia. rewrite seqZ_S. by rewrite Z2Nat.id by lia.
Qed.

Section Run.
Context (date : nat -> Z -> option (list Z)) (ss : list (Z * Z)).
Context (Hok : forall (j : nat) p n, ss !! j = Some (p, n) -> slave_ok date j p n).

Definition sent_by (j : nat) (f : fifo) : list (list Z) := omap (fun x : nat * list Z => if decide (x.1 = j) then Some x.2 else None) (pieces f).

(** A slave is where the pipe says it is. *)
Definition fifo_inv (f : fifo) : Prop :=
  length (slaves f) = length ss /\ Forall (fun x => 0 ∉ x.2) (pieces f) /\
  forall (j : nat) s, slaves f !! j = Some s ->
    ss !! j = Some (sl_pid s, line_count s) /\
    match sl_pc s with SL_line i => 0 <= i <= Z.max 0 (line_count s) | _ => True end /\
    sent_by j f = messages date j s.

Lemma sent_by_send j s pc msg f k :
  sent_by k (send j s pc msg f) = sent_by k f ++ (if decide (j = k) then [msg] else []).
Proof. unfold sent_by, send. simpl. rewrite omap_app. simpl. by case_decide. Qed.

Lemma send_inv f j s pc msg : fifo_inv f -> (0 ∉ msg) -> slaves f !! j = Some s ->
  match pc with SL_line i => 0 <= i <= Z.max 0 (line_count s) | _ => True end ->
  messages date j (Slave (sl_pid s) (line_count s) pc) = messages date j s ++ [msg] ->
  fifo_inv (send j s pc msg f).
Proof.
  intros (Hl & Hz & Hi) Hmsg Hj Hpc Hm. split; [simpl; by rewrite length_insert|].
  split; [apply Forall_app; split; [done|by apply Forall_singleton]|].
  intros k s'. simpl. destruct (decide (j = k)) as [<-|Hne].
  - rewrite list_lookup_insert_eq by (by eapply lookup_lt_Some). intros [= <-]. simpl.
    destruct (Hi j s Hj) as (H1 & _ & H3). split; [done|]. split; [done|].
    rewrite sent_by_send, H3, Hm. by case_decide.
  - rewrite list_lookup_insert_ne by done. intros Hk. destruct (Hi k s' Hk) as (H1 & H2 & H3).
    split; [done|]. split; [done|]. rewrite sent_by_send, H3. case_decide; [done|]. apply app_nil_r.
Qed.

Lemma fifo_exec_inv j f : fifo_inv f ->
  match fifo_exec date j f with Step f' => fifo_inv f' | Blocked => True | Fault _ => False end.
Proof.
  intros Hi. unfold fifo_exec. destruct (slaves f !! j) as [s|] eqn:Hj; [|done].
  destruct (proj2 (proj2 Hi) j s Hj) as (Hs & Hpc & Hm). destruct (Hok j _ _ Hs) as [Hpid Hdate].
  unfold slave_step. destruct (sl_pc s) as [|i|] eqn:Epc; [| |done].
  - rewrite pid_line_ok by done. apply send_inv; [done|by apply pid_no_null|done|lia|]. unfold messages. by rewrite Epc.
  - destruct (Z.ltb_spec i (line_count s)).
    + destruct (Hdate i) as (o & Eo & Ho); [lia|]. rewrite Eo, date_line_ok by done.
      apply send_inv; [done|apply line_no_null, Ho|done|lia|]. unfold messages. rewrite Epc. simpl.
      rewrite seqZ_snoc by lia. rewrite map_app. simpl. by rewrite Eo.
    + split; [simpl; rewrite length_insert; apply Hi|]. split; [apply Hi|]. intros k s'. simpl. destruct (decide (j = k)) as [<-|Hne].
      * rewrite list_lookup_insert_eq by (by eapply lookup_lt_Some). intros [= <-]. simpl. split; [done|]. split; [done|].
        change (sent_by j _) with (sent_by j f). rewrite Hm. unfold messages. rewrite Epc. simpl.
        by replace (Z.max 0 (line_count s)) with i by lia.
      * rewrite list_lookup_insert_ne by done. intros Hk. by apply (proj2 (proj2 Hi)).
Qed.

Lemma fifo_start_inv : fifo_inv (fifo_start ss).
Proof.
  split; [simpl; by rewrite length_map|]. split; [apply Forall_nil_2|]. intros j s Hs. unfold fifo_start in Hs. simpl in Hs.
  rewrite list_lookup_fmap in Hs. destruct (ss !! j) as [[p n]|]; [|done]. simpl in Hs. by simplify_eq.
Qed.

Lemma fifo_reach_inv f : reach (fifo_exec date) (fifo_start ss) f -> fifo_inv f.
Proof.
  apply reach_inv; [apply fifo_start_inv|]. intros j f1 f2 H1 H2. pose proof (fifo_exec_inv j f1 H1) as H. by rewrite H2 in H.
Qed.
End Run.

(** ** Properties *)

(** The log is complete and its lines are whole: in whatever order the
    slaves write, nothing goes wrong, every slave can go on until it has ended,
    and what the master then prints is the messages one after the other, each in
    one piece, those of each slave being its pid and then its dated lines, in
    order. *)
Theorem log_is_complete date ss f
  (Hok : forall (j : nat) p n, ss !! j = Some (p, n) -> slave_ok date j p n)
  (Hf : reach (fifo_exec date) (fifo_start ss) f) :
  safe (fifo_exec date) f /\
  (stuck (fifo_exec date) f ->
   exists msgs : list (nat * list Z),
     master (stream f) () = Done (concat (map snd msgs)) () /\
     forall (j : nat) p n, ss !! j = Some (p, n) ->
       omap (fun x : nat * list Z => if decide (x.1 = j) then Some x.2 else None) msgs =
       (bytes (dec p) ++ [EOL]) ::
         map (fun i => bytes (dec p) ++ [58; 32] ++ default [] (date j i)) (seqZ 0 (Z.max 0 n))).
Proof.
  pose proof (fifo_reach_inv date ss Hok f Hf) as Hi. split.
  { intros j u E. pose proof (fifo_exec_inv date ss Hok j f Hi) as H. by rewrite E in H. }
  intros Hst. exists (pieces f).
  assert (forall (j : nat) p n, ss !! j = Some (p, n) -> sent_by j f = messages date j (Slave p n SL_done)) as Hsent.
  { intros j p n Hj. destruct Hi as (Hl & _ & Hi).
    destruct (lookup_lt_is_Some_2 (slaves f) j) as [s Hs]; [rewrite Hl; by eapply lookup_lt_Some|].
    destruct (Hi j s Hs) as (H1 & _ & H3). rewrite Hj in H1. simplify_eq. rewrite H3.
    specialize (Hst j). unfold fifo_exec in Hst. rewrite Hs in Hst. unfold slave_step in Hst.
    destruct (Hok j _ _ Hj) as [Hpid Hdate]. destruct s as [p n pc]. simpl in *. destruct pc as [|i|]; [| |done].
    - by rewrite pid_line_ok in Hst.
    - destruct (Z.ltb_spec i n); [|done]. destruct (Hi j _ Hs) as (_ & Hpc & _). simpl in Hpc.
      destruct (Hdate i) as (o & Eo & Ho); [lia|]. by rewrite Eo, date_line_ok in Hst. }
  split.
  - change (master (stream f) () = Done (stream f) ()). apply master_loop_copies; [|lia]. unfold stream. intros H. apply list_elem_of_In, in_concat in H as (l & Hl & H).
    apply in_map_iff in Hl as ([j msg] & <- & Hl). apply list_elem_of_In in H, Hl.
    pose proof (proj1 (Forall_forall _ _) (proj1 (proj2 Hi)) _ Hl). done.
  - intros j p n Hj. rewrite <- (map_ext_in (fun i => match date j i with Some o => bytes (dec p) ++ [58; 32] ++ o | None => [] end)).
    + exact (Hsent j p n Hj).
    + intros i Hin. apply list_elem_of_In, elem_of_seqZ in Hin. destruct (Hok j p n Hj) as [_ Hdate].
      destruct (Hdate i) as (o & Eo & _); [lia|]. by rewrite Eo.
Qed.

(** A slave overruns its buffers: when ["date"] prints 1024 bytes or more,
    [date_buf[r] = 0] is outside the array, and from 1022 bytes on together with
    the pid the line is longer than [buf]. *)
Theorem long_date_overflows {S} pid o (s : S)
  (Hlong : MSG_MAX <= Z.of_nat (length o) \/
    ((0 ∉ o) /\ MSG_MAX < Z.of_nat (length (bytes (dec pid))) + Z.of_nat (length o) + 3)) :
  date_line pid (Some o) s = Undef UB_bounds.
Proof.
  unfold date_line, mbind, cm_bind, check. destruct (Z.le_gt_cases MSG_MAX (Z.of_nat (length o))) as [H|H].
  - rewrite Z.min_l by lia. by rewrite Z.ltb_irrefl.
  - destruct Hlong as [|[Hz Hl]]; [lia|]. rewrite Z.min_r by lia.
    replace (Z.of_nat (length o) <? MSG_MAX) with true by lia.
    rewrite take_ge by lia. rewrite (c_string_app o [] Hz). unfold lift, mret, cm_ret.
    rewrite !length_app. cbn [length].
    match goal with |- context [?x <=? MSG_MAX] => by destruct (Z.leb_spec x MSG_MAX); [lia|] end.
Qed.

(** Two slaves that send a line each. *)
Definition demo_date (j : nat) (i : Z) : option (list Z) := Some (text "Mon" ++ [EOL]).
Definition demo_slaves : list (Z * Z) := [(71, 1); (72, 1)].
Definition demo_log : fifo :=
  default (fifo_start demo_slaves) (run (fifo_exec demo_date) [0; 1; 1; 0; 1; 0]%nat (fifo_start demo_slaves)).

Lemma log_is_complete_witness :
  stream demo_log = text "71" ++ [EOL] ++ text "72" ++ [EOL] ++ text "72: Mon" ++ [EOL] ++ text "71: Mon" ++ [EOL] /\
  safe (fifo_exec demo_date) demo_log.
Proof.
  split; [by vm_compute|]. refine (proj1 (log_is_complete demo_date demo_slaves demo_log _ _)).
  - intros [|[|j]] p n E; [| |done]; injection E as <- <-; (split; [vm_compute; discriminate|]);
      intros i _; eexists; (split; [reflexivity|]); (split; [by apply (bool_decide_unpack (0 ∉ text "Mon" ++ [EOL]))|split; by vm_compute]).
  - apply (run_reachable _ _ [0; 1; 1; 0; 1; 0]%nat). by vm_compute.
Defined.

Lemma long_date_overflows_witness : date_line 7 (Some (replicate 1024 65)) () = Undef UB_bounds.
Proof. apply (long_date_overflows 7 (replicate 1024 65) ()). left. rewrite length_replicate. by vm_compute. Defined.
