(* ===== verification/FifoNet.v ===== *)
(** The master and the slaves of cw05/zad2 as processes around one named pipe:
    [main] of master.c, from [mkfifo] to the end of the file, and [main] of
    slave.c, from [open] to [exit], in any order of their calls and with
    interrupts.  The texts they send are those of [FifoLog].

    The pipe is as pipe(7) and fifo(7) have it.  [open] waits for the other
    end; a process that waits there counts as one that has the pipe open.  A
    [write] of at most PIPE_BUF bytes is one piece, and waits for room for it;
    without a reader it kills the writer.  A [read] gives what there is, and the
    end of the file when nobody can write.  The name stays when the processes
    end.  SIGINT before the handlers are set, and the pause after a line, are
    left out. *)
From S2P Require Import Prelude CString Scan ShellLine FifoLog.
#[local] Open Scope Z_scope.

(** master.c, named by the call it makes next; [met] when somebody has opened
    the pipe to write since [open] was called. *)
Inductive ma_pc :=
  | MA_mkfifo             (* mkfifo(pipe_name, S_IRUSR | S_IWUSR) *)
  | MA_open               (* open(pipe_name, O_RDONLY) *)
  | MA_opening (met : bool)
  | MA_read               (* while (1) fgets, printf *)
  | MA_exit (code : Z).

Record master_t := Master {
  m_pc : ma_pc;
  m_buf : list Z;     (* read, and not yet taken by fgets *)
  m_line : list Z;    (* the line that fgets is reading *)
  m_eof : bool;       (* the end of the file has been seen *)
  m_out : list Z;     (* what it has printed *)
  m_int : bool;       (* history: interrupted *)
}.

(** slave.c. *)
Inductive sv_pc :=
  | SV_open               (* open(pipe_name, O_WRONLY) *)
  | SV_opening
  | SV_pid                (* sprintf(pid, ...); write(pipe_fd, pid, strlen(pid)) *)
  | SV_line (i : Z)       (* the loop at i, up to the write *)
  | SV_failed             (* "Cannot open pipe" *)
  | SV_done               (* exit(0) *)
  | SV_int                (* int_handler *)
  | SV_sigpipe.           (* killed in write *)

Record sv := Sv { sv_pid : Z; sv_count : Z; sv_at : sv_pc }.

Record fifo_net := Net {
  n_name : bool;                    (* the pipe exists *)
  n_pipe : list Z;                  (* the bytes in it *)
  n_master : master_t;
  n_slaves : list sv;
  n_pieces : list (nat * list Z);   (* history: what was written, by whom *)
}.

(** The master makes its next call, and reads [k] bytes if that is a [read];
    slave [j] makes its next call; SIGINT. *)
Inductive fifo_label := LMaster (k : nat) | LSlave (j : nat) | LIntMaster | LIntSlave (j : nat).

Definition set_master m s := Net (n_name s) (n_pipe s) m (n_slaves s) (n_pieces s).
Definition set_slave j v s := Net (n_name s) (n_pipe s) (n_master s) (<[j := v]> (n_slaves s)) (n_pieces s).
Definition set_pipe p s := Net (n_name s) p (n_master s) (n_slaves s) (n_pieces s).
Definition add_piece j msg s := Net (n_name s) (n_pipe s ++ msg) (n_master s) (n_slaves s) (n_pieces s ++ [(j, msg)]).
Definition goto_m (m : master_t) pc := Master pc (m_buf m) (m_line m) (m_eof m) (m_out m) (m_int m).
Definition goto_s (v : sv) pc := Sv (sv_pid v) (sv_count v) pc.

(** Who has the pipe open. *)
Definition reading (m : master_t) : bool := match m_pc m with MA_opening _ | MA_read => true | _ => false end.
Definition writing (v : sv) : bool := match sv_at v with SV_opening | SV_pid | SV_line _ => true | _ => false end.

(** stdio reads a pipe in pieces of this size. *)
Definition STDIO_BUF : Z := 4096.
Definition PIPE_BUF : Z := 4096.

(** [fgets] has all of a line, or as much of it as fits. *)
Definition fgets_full (l : list Z) : bool :=
  bool_decide (last l = Some EOL) || (BUF_LEN - 1 <=? Z.of_nat (length l)).

(** [printf("%s", buffer)], and on with what is buffered. *)
Definition print_line (m : master_t) (l rest : list Z) (eof : bool) : sres master_t :=
  match c_string (l ++ [0]) with
  | Some text => Step (Master MA_read rest [] eof (m_out m ++ text) (m_int m))
  | None => Fault UB_bounds
  end.

(** The loop of the master, up to a [read] or to a line. *)
Definition master_read (k : nat) (s : fifo_net) : sres fifo_net :=
  let m := n_master s in
  let '(a, b) := take_line (Z.to_nat (BUF_LEN - 1) - length (m_line m)) (m_buf m) in
  let l := m_line m ++ a in
  let on (r : sres master_t) := match r with Step m => Step (set_master m s) | Blocked => Blocked | Fault u => Fault u end in
  if fgets_full l then on (print_line m l b (m_eof m))
  else if m_eof m || (bool_decide (n_pipe s = []) && negb (existsb writing (n_slaves s))) then
    match l with
    | [] => Step (set_master (goto_m m (MA_exit 0)) s)
    | _ => on (print_line m l [] true)
    end
  else if (1 <=? Z.of_nat k) && (Z.of_nat k <=? Z.min STDIO_BUF (Z.of_nat (length (n_pipe s)))) then
    Step (set_pipe (drop k (n_pipe s)) (set_master (Master MA_read (take k (n_pipe s)) l false (m_out m) (m_int m)) s))
  else Blocked.

Definition master_step (k : nat) (s : fifo_net) : sres fifo_net :=
  let m := n_master s in
  match m_pc m with
  | MA_mkfifo =>
      if n_name s then Step (set_master (goto_m m (MA_exit 1)) s)
      else Step (Net true (n_pipe s) (goto_m m MA_open) (n_slaves s) (n_pieces s))
  | MA_open => Step (set_master (goto_m m (MA_opening (existsb writing (n_slaves s)))) s)
  | MA_opening met => if met then Step (set_master (goto_m m MA_read) s) else Blocked
  | MA_read => master_read k s
  | MA_exit _ => Blocked
  end.

(** Somebody opens the pipe to write. *)
Definition meet (m : master_t) : master_t :=
  match m_pc m with MA_opening _ => goto_m m (MA_opening true) | _ => m end.

Section Slaves.
(** The bytes that the pipe holds, and what ["date"] prints for a slave at a
    turn. *)
Context (capacity : Z) (date : nat -> Z -> option (list Z)).

(** [write(pipe_fd, msg, ...)]: then on to [pc]. *)
Definition pipe_write (j : nat) (v : sv) (msg : list Z) (pc : sv_pc) (s : fifo_net) : sres fifo_net :=
  if reading (n_master s) then
    if Z.of_nat (length (n_pipe s) + length msg) <=? capacity
    then Step (add_piece j msg (set_slave j (goto_s v pc) s))
    else Blocked
  else Step (set_slave j (goto_s v SV_sigpipe) s).

Definition sv_step (j : nat) (v : sv) (s : fifo_net) : sres fifo_net :=
  match sv_at v with
  | SV_open =>
      if n_name s then Step (set_slave j (goto_s v SV_opening) (set_master (meet (n_master s)) s))
      else Step (set_slave j (goto_s v SV_failed) s)
  | SV_opening => if reading (n_master s) then Step (set_slave j (goto_s v SV_pid) s) else Blocked
  | SV_pid =>
      match pid_line (sv_pid v) () with
      | Done msg _ => pipe_write j v msg (SV_line 0) s
      | Undef u => Fault u
      | _ => Blocked
      end
  | SV_line i =>
      if i <? sv_count v then
        match date_line (sv_pid v) (date j i) () with
        | Done msg _ => pipe_write j v msg (SV_line (i + 1)) s
        | Undef u => Fault u
        | _ => Blocked
        end
      else Step (set_slave j (goto_s v SV_done) s)
  | SV_failed | SV_done | SV_int | SV_sigpipe => Blocked
  end.

(** [int_handler] of either program, once it is set. *)
Definition int_master (s : fifo_net) : sres fifo_net :=
  let m := n_master s in
  match m_pc m with
  | MA_read => Step (set_master (Master (MA_exit 0) (m_buf m) (m_line m) (m_eof m) (m_out m) true) s)
  | _ => Blocked
  end.
Definition int_slave (j : nat) (v : sv) (s : fifo_net) : sres fifo_net :=
  match sv_at v with
  | SV_pid | SV_line _ => Step (set_slave j (goto_s v SV_int) s)
  | _ => Blocked
  end.

Definition on_slave (j : nat) (s : fifo_net) (f : sv -> sres fifo_net) : sres fifo_net :=
  match n_slaves s !! j with Some v => f v | None => Blocked end.

Definition fifo_net_exec (l : fifo_label) (s : fifo_net) : sres fifo_net :=
  match l with
  | LMaster k => master_step k s
  | LSlave j => on_slave j s (fun v => sv_step j v s)
  | LIntMaster => int_master s
  | LIntSlave j => on_slave j s (fun v => int_slave j v s)
  end.

(** The processes are started, with the pids and the numbers of lines of [ss];
    [exists_] when there is a file of that name already. *)
Definition fifo_net_start (exists_ : bool) (ss : list (Z * Z)) : fifo_net :=
  Net exists_ [] (Master MA_mkfifo [] [] false [] false) (map (fun '(p, n) => Sv p n SV_open) ss) [].
End Slaves.

(** ** What the slaves have to say *)

Definition slave_messages (date : nat -> Z -> option (list Z)) (j : nat) (p n : Z) : list (list Z) :=
  (bytes (dec p) ++ [EOL]) ::
  map (fun i => bytes (dec p) ++ [58; 32] ++ default [] (date j i)) (seqZ 0 (Z.max 0 n)).

(** What slave [j] has written. *)
Definition sent_of (j : nat) (pieces : list (nat * list Z)) : list (list Z) :=
  omap (fun x : nat * list Z => if decide (x.1 = j) then Some x.2 else None) pieces.

(** Lines as ["date"] prints them: short, and with a newline at their end. *)
Definition speaks (date : nat -> Z -> option (list Z)) (j : nat) (p n : Z) : Prop :=
  slave_ok date j p n /\ forall i o, 0 <= i < n -> date j i = Some o -> last o = Some EOL.

Definition msg_ok (msg : list Z) : Prop := (0 ∉ msg) /\ last msg = Some EOL /\ Z.of_nat (length msg) <= MSG_MAX.

Lemma pid_message date j p n : speaks date j p n ->
  exists msg, pid_line p () = Done msg () /\ slave_messages date j p n !! 0%nat = Some msg /\ msg_ok msg.
Proof.
  intros [[Hp _] _]. exists (bytes (dec p) ++ [EOL]). split; [by apply pid_line_ok|]. split; [done|].
  split; [apply pid_no_null|]. split; [apply last_snoc|]. rewrite length_app. unfold MSG_MAX. simpl. lia.
Qed.

Lemma line_message date j p n i : speaks date j p n -> 0 <= i < n ->
  exists msg, date_line p (date j i) () = Done msg () /\ slave_messages date j p n !! S (Z.to_nat i) = Some msg /\ msg_ok msg.
Proof.
  intros [[Hp Hd] Hn] Hi. destruct (Hd i Hi) as (o & Eo & Ho). exists (bytes (dec p) ++ [58; 32] ++ o). rewrite Eo.
  split; [by apply date_line_ok|]. split.
  - unfold slave_messages. etransitivity; [exact (list_lookup_fmap _ _ _)|]. rewrite lookup_seqZ_lt by lia. simpl.
    replace (0 + Z.of_nat (Z.to_nat i)) with i by lia. by rewrite Eo.
  - destruct Ho as (H1 & H2 & H3). split; [by apply line_no_null|]. split.
    + rewrite !last_app. by rewrite (Hn i o Hi Eo).
    + rewrite !length_app. cbn [length]. lia.
Qed.

Lemma slave_messages_length date j p n : length (slave_messages date j p n) = S (Z.to_nat (Z.max 0 n)).
Proof. unfold slave_messages. cbn [length]. by rewrite length_map, length_seqZ. Qed.

(** ** Invariant *)

(** Where a slave is, in terms of the messages it has sent. *)
Definition slave_inv (date : nat -> Z -> option (list Z)) (int : bool) (pieces : list (nat * list Z)) (j : nat) (v : sv) : Prop :=
  exists k, sent_of j pieces = take k (slave_messages date j (sv_pid v) (sv_count v)) /\
  match sv_at v with
  | SV_open | SV_opening | SV_pid | SV_failed => k = 0%nat
  | SV_line i => 0 <= i <= Z.max 0 (sv_count v) /\ k = S (Z.to_nat i)
  | SV_done => k = length (slave_messages date j (sv_pid v) (sv_count v))
  | SV_int => True
  | SV_sigpipe => int = true
  end.

(** Not started, or gone without having opened the pipe. *)
Definition outside (v : sv) : Prop := match sv_at v with SV_open | SV_failed => True | _ => False end.
(** Not started, or waiting in [open]. *)
Definition queued (v : sv) : Prop := match sv_at v with SV_open | SV_opening => True | _ => False end.
Definition before (v : sv) : Prop := match sv_at v with SV_open | SV_opening | SV_failed => True | _ => False end.
(** With nothing to do for the pipe. *)
Definition settled (v : sv) : Prop := match sv_at v with SV_pid | SV_line _ | SV_sigpipe => False | _ => True end.

Definition sent_bytes (s : fifo_net) : list Z := concat (map snd (n_pieces s)).

Definition fresh (s : fifo_net) : Prop :=
  n_pieces s = [] /\ n_pipe s = [] /\
  m_buf (n_master s) = [] /\ m_line (n_master s) = [] /\ m_eof (n_master s) = false /\
  m_out (n_master s) = [] /\ m_int (n_master s) = false.

(** Where the master is; [name0]: there was such a file at the start. *)
Definition master_inv (name0 : bool) (s : fifo_net) : Prop :=
  let m := n_master s in
  match m_pc m with
  | MA_mkfifo => fresh s /\ n_name s = name0 /\ Forall (if name0 then queued else outside) (n_slaves s)
  | MA_open => fresh s /\ n_name s = true /\ name0 = false /\ Forall before (n_slaves s)
  | MA_opening false => fresh s /\ n_name s = true /\ name0 = false /\ Forall outside (n_slaves s)
  | MA_opening true | MA_read =>
      n_name s = true /\ name0 = false /\ m_eof m = false /\ m_int m = false /\
      sent_bytes s = m_out m ++ m_line m ++ m_buf m ++ n_pipe s
  | MA_exit code =>
      n_name s = true /\
      if m_int m then name0 = false /\ code = 0 /\ exists rest, sent_bytes s = m_out m ++ rest
      else (code = 0 /\ name0 = false /\ sent_bytes s = m_out m /\ Forall settled (n_slaves s)) \/
           (code = 1 /\ name0 = true /\ fresh s /\ Forall queued (n_slaves s))
  end.

Record net_inv (date : nat -> Z -> option (list Z)) (name0 : bool) (ss : list (Z * Z)) (s : fifo_net) : Prop := {
  nt_slaves : map (fun v => (sv_pid v, sv_count v)) (n_slaves s) = ss;
  nt_sent : forall (j : nat) v, n_slaves s !! j = Some v -> slave_inv date (m_int (n_master s)) (n_pieces s) j v;
  nt_pieces : Forall (fun x => msg_ok x.2) (n_pieces s);
  nt_master : master_inv name0 s;
}.

Lemma net_start_inv date name0 ss : net_inv date name0 ss (fifo_net_start name0 ss).
Proof.
  split; simpl.
  - rewrite map_map. etransitivity; [|apply map_id]. apply map_ext. by intros [].
  - intros j v Hv. rewrite list_lookup_fmap in Hv. destruct (ss !! j) as [[p n]|]; [|done]. injection Hv as <-. by exists 0%nat.
  - constructor.
  - split; [by repeat split|]. split; [done|]. apply Forall_forall. intros v (x & -> & _)%list_elem_of_fmap. by destruct x, name0.
Qed.

(** ** Every call keeps it *)

Section Inv.
Context (capacity : Z) (date : nat -> Z -> option (list Z)) (name0 : bool) (ss : list (Z * Z)).
Local Abbreviation inv := (net_inv date name0 ss).

Lemma sent_of_app j p1 p2 : sent_of j (p1 ++ p2) = sent_of j p1 ++ sent_of j p2.
Proof. apply omap_app. Qed.

Lemma sent_of_one j k msg : sent_of j [(k, msg)] = if decide (k = j) then [msg] else [].
Proof. unfold sent_of. simpl. by case_decide. Qed.

(** A slave goes on, and has perhaps written [extra]. *)
Lemma slave_change s s' (j : nat) v pc extra : inv s -> n_slaves s !! j = Some v ->
  n_slaves s' = <[j := goto_s v pc]> (n_slaves s) -> n_pieces s' = n_pieces s ++ extra ->
  m_int (n_master s') = m_int (n_master s) ->
  Forall (fun x => x.1 = j /\ msg_ok x.2) extra ->
  slave_inv date (m_int (n_master s)) (n_pieces s ++ extra) j (goto_s v pc) ->
  master_inv name0 s' -> inv s'.
Proof.
  intros [H1 H2 H3 H4] Hj Es Ep Em He Hv Hm. split; [| | |done].
  - rewrite Es, <- H1. etransitivity; [exact (list_fmap_insert _ _ _ _)|]. apply list_insert_id.
    etransitivity; [exact (list_lookup_fmap _ _ _)|]. by rewrite Hj.
  - intros k w. rewrite Es, Ep, Em. destruct (decide (j = k)) as [<-|Hne].
    + rewrite list_lookup_insert_eq by (by eapply lookup_lt_Some). by intros [= <-].
    + rewrite list_lookup_insert_ne by done. intros Hk. destruct (H2 k w Hk) as (n & E & Hw). exists n. split; [|done].
      rewrite sent_of_app, E. assert (sent_of k extra = []) as ->; [|by rewrite app_nil_r].
      clear -He Hne. induction He as [|[a b] extra [Ea _] _ IH]; [done|]. unfold sent_of in *. simpl in *. subst a.
      by case_decide.
  - rewrite Ep. apply Forall_app. split; [done|]. eapply Forall_impl; [exact He|]. by intros x [_ Hx].
Qed.

(** The same without a write. *)
Lemma slave_moves s s' (j : nat) v pc : inv s -> n_slaves s !! j = Some v ->
  n_slaves s' = <[j := goto_s v pc]> (n_slaves s) -> n_pieces s' = n_pieces s ->
  m_int (n_master s') = m_int (n_master s) ->
  slave_inv date (m_int (n_master s)) (n_pieces s) j (goto_s v pc) ->
  master_inv name0 s' -> inv s'.
Proof.
  intros Hi Hj Es Ep Em Hv Hm. eapply (slave_change s s' j v pc []); try done; rewrite app_nil_r; done.
Qed.

(** The master goes on. *)
Lemma master_change s s' : inv s -> n_slaves s' = n_slaves s -> n_pieces s' = n_pieces s ->
  (m_int (n_master s) = true -> m_int (n_master s') = true) -> master_inv name0 s' -> inv s'.
Proof.
  intros [H1 H2 H3 H4] Es Ep Em Hm. split; [by rewrite Es| |by rewrite Ep|done].
  intros j v. rewrite Es, Ep. intros Hj. destruct (H2 j v Hj) as (k & E & Hv). exists k. split; [done|].
  destruct (sv_at v); auto.
Qed.

Definition working (v : sv) : Prop := match sv_at v with SV_pid | SV_line _ => True | _ => False end.

(** A slave that has opened the pipe finds the master reading, or interrupted. *)
Lemma working_master s (j : nat) v : inv s -> n_slaves s !! j = Some v -> working v ->
  n_name s = true /\ name0 = false /\
  match m_pc (n_master s) with
  | MA_opening true | MA_read =>
      m_eof (n_master s) = false /\ m_int (n_master s) = false /\
      sent_bytes s = m_out (n_master s) ++ m_line (n_master s) ++ m_buf (n_master s) ++ n_pipe s
  | MA_exit code => m_int (n_master s) = true /\ code = 0 /\ exists rest, sent_bytes s = m_out (n_master s) ++ rest
  | _ => False
  end.
Proof.
  intros Hi Hj Hw. pose proof (nt_master _ _ _ _ Hi) as Hm. unfold master_inv in Hm. unfold working in Hw.
  assert (forall P : sv -> Prop, Forall P (n_slaves s) -> P v) as Hall by by intros P HP; eapply Forall_lookup_1.
  destruct (m_pc (n_master s)) as [| |[]| |code].
  - destruct Hm as (_ & _ & Hf%Hall). destruct name0; unfold queued, outside in Hf; by destruct (sv_at v).
  - destruct Hm as (_ & _ & _ & Hf%Hall). unfold before in Hf. by destruct (sv_at v).
  - by destruct_and!.
  - destruct Hm as (_ & _ & _ & Hf%Hall). unfold outside in Hf. by destruct (sv_at v).
  - by destruct_and!.
  - destruct Hm as (Hn & Hm). destruct (m_int (n_master s)); [by destruct_and!|].
    destruct Hm as [(_ & _ & _ & Hf%Hall)|(_ & _ & _ & Hf%Hall)]; unfold settled, queued in Hf; by destruct (sv_at v).
Qed.

(** Such a slave goes on without a write. *)
Lemma working_moves s (j : nat) v pc : inv s -> n_slaves s !! j = Some v -> working v ->
  slave_inv date (m_int (n_master s)) (n_pieces s) j (goto_s v pc) -> inv (set_slave j (goto_s v pc) s).
Proof.
  intros Hi Hj Hw Hv. apply (slave_moves s (set_slave j (goto_s v pc) s) j v pc Hi Hj eq_refl eq_refl eq_refl Hv).
  destruct (working_master s j v Hi Hj Hw) as (Hn & H0 & Hm). unfold master_inv. cbn [n_master set_slave].
  destruct (m_pc (n_master s)) as [| |[]| |code]; try done; [by destruct_and!..|].
  destruct Hm as (Hm & -> & Hr). by rewrite Hm.
Qed.

Lemma pipe_write_inv s s' (j : nat) v msg pc k : inv s -> n_slaves s !! j = Some v -> working v ->
  sent_of j (n_pieces s) = take k (slave_messages date j (sv_pid v) (sv_count v)) ->
  slave_messages date j (sv_pid v) (sv_count v) !! k = Some msg -> msg_ok msg ->
  (forall pieces, sent_of j pieces = take (S k) (slave_messages date j (sv_pid v) (sv_count v)) ->
    slave_inv date (m_int (n_master s)) pieces j (goto_s v pc)) ->
  pipe_write capacity j v msg pc s = Step s' -> inv s'.
Proof.
  intros Hi Hj Hw Hs Hk Hok Hpc. destruct (working_master s j v Hi Hj Hw) as (Hn & H0 & Hm).
  unfold pipe_write, reading. intros Hst.
  assert (forall s0, Step (add_piece j msg (set_slave j (goto_s v pc) s)) = Step s0 ->
    m_eof (n_master s) = false /\ m_int (n_master s) = false /\
    sent_bytes s = m_out (n_master s) ++ m_line (n_master s) ++ m_buf (n_master s) ++ n_pipe s ->
    (m_pc (n_master s) = MA_opening true \/ m_pc (n_master s) = MA_read) -> inv s0) as Hadd.
  { intros s0 [= <-] (He & Hint & Hb) Hpm. apply (slave_change s (add_piece j msg (set_slave j (goto_s v pc) s)) j v pc [(j, msg)] Hi Hj eq_refl eq_refl eq_refl).
    - by apply Forall_singleton.
    - apply Hpc. rewrite sent_of_app, sent_of_one, Hs. rewrite decide_True by done. by rewrite (take_S_r _ _ _ Hk).
    - assert (sent_bytes (add_piece j msg (set_slave j (goto_s v pc) s)) =
        m_out (n_master s) ++ m_line (n_master s) ++ m_buf (n_master s) ++ n_pipe s ++ msg) as Hb'.
      { unfold sent_bytes. simpl. rewrite map_app, concat_app. simpl. rewrite app_nil_r. unfold sent_bytes in Hb.
        by rewrite Hb, <- !app_assoc. }
      unfold master_inv. cbn [n_master add_piece set_slave]. by destruct Hpm as [-> | ->]. }
  destruct (m_pc (n_master s)) as [| |[]| |code]; try done.
  - destruct (_ <=? capacity); [|done]. eauto.
  - destruct (_ <=? capacity); [|done]. eauto.
  - destruct Hm as (Hm & _). injection Hst as <-. apply (working_moves s j v SV_sigpipe); try done. exists k. by rewrite Hm.
Qed.
End Inv.

Section Steps.
Context (capacity : Z) (date : nat -> Z -> option (list Z)) (name0 : bool) (ss : list (Z * Z)).
Context (Hok : forall (j : nat) p n, ss !! j = Some (p, n) -> speaks date j p n).
Local Abbreviation inv := (net_inv date name0 ss).

Lemma slave_speaks s (j : nat) v : inv s -> n_slaves s !! j = Some v -> speaks date j (sv_pid v) (sv_count v).
Proof using Hok.
  intros Hi Hj. apply Hok. rewrite <- (nt_slaves _ _ _ _ Hi). etransitivity; [exact (list_lookup_fmap _ _ _)|]. by rewrite Hj.
Qed.

(** [open] of a slave. *)
Lemma sv_open_inv s (j : nat) v : inv s -> n_slaves s !! j = Some v -> sv_at v = SV_open ->
  match sv_step capacity date j v s with Step s' => inv s' | Blocked => True | Fault _ => False end.
Proof.
  intros Hi Hj Ev. unfold sv_step. rewrite Ev. pose proof (nt_master _ _ _ _ Hi) as Hm.
  destruct (nt_sent _ _ _ _ Hi j v Hj) as (k & Hs & Hk). rewrite Ev in Hk. subst k.
  destruct (n_name s) eqn:En.
  - apply (slave_moves date name0 ss s (set_slave j (goto_s v SV_opening) (set_master (meet (n_master s)) s)) j v SV_opening Hi Hj eq_refl eq_refl);
      [unfold meet; simpl; by destruct (m_pc (n_master s))|by exists 0%nat|].
    unfold master_inv, meet in *. cbn [n_master set_slave set_master n_slaves n_name] in *.
    destruct (m_pc (n_master s)) as [| |[]| |code] eqn:Epc; cbn [m_pc goto_m]; rewrite ?Epc.
    + destruct Hm as (Hf & Hn & Hq). split; [done|]. split; [done|]. rewrite En in Hn. subst name0. by apply Forall_insert.
    + destruct Hm as (Hf & Hn & H0 & Hq). split_and!; [done..|]. by apply Forall_insert.
    + done.
    + destruct Hm as (Hf & Hn & H0 & Hq). destruct Hf as (E1 & E2 & E3 & E4 & E5 & E6 & E7). cbn. unfold sent_bytes. cbn.
      by rewrite E1, E2, E3, E4, E6.
    + done.
    + destruct Hm as (Hn & Hm). split; [done|]. destruct (m_int (n_master s)); [done|].
      destruct Hm as [(H1 & H2 & H3 & H4)|(H1 & H2 & H3 & H4)]; [left|right]; (split_and!; [done..|]); by apply Forall_insert.
  - apply (slave_moves date name0 ss s (set_slave j (goto_s v SV_failed) s) j v SV_failed Hi Hj eq_refl eq_refl eq_refl); [by exists 0%nat|].
    unfold master_inv in *. cbn [n_master set_slave] in *.
    destruct (m_pc (n_master s)) as [| |[]| |code]; try (destruct_and?; congruence).
    destruct Hm as (Hf & Hn & Hq). split; [done|]. split; [done|]. rewrite En in Hn. subst name0. by apply Forall_insert.
Qed.

(** The end of a slave's [open]. *)
Lemma sv_opening_inv s (j : nat) v : inv s -> n_slaves s !! j = Some v -> sv_at v = SV_opening -> reading (n_master s) = true ->
  inv (set_slave j (goto_s v SV_pid) s).
Proof.
  intros Hi Hj Ev Hr. pose proof (nt_master _ _ _ _ Hi) as Hm.
  destruct (nt_sent _ _ _ _ Hi j v Hj) as (k & Hs & Hk). rewrite Ev in Hk. subst k.
  apply (slave_moves date name0 ss s (set_slave j (goto_s v SV_pid) s) j v SV_pid Hi Hj eq_refl eq_refl eq_refl); [by exists 0%nat|].
  unfold master_inv, reading in *. cbn [n_master set_slave] in *. destruct (m_pc (n_master s)) as [| |[]| |code]; try done.
  destruct Hm as (_ & _ & _ & Hf). pose proof (Forall_lookup_1 _ _ _ _ Hf Hj) as Hv. unfold outside in Hv. by rewrite Ev in Hv.
Qed.

Lemma sv_step_inv s (j : nat) v : inv s -> n_slaves s !! j = Some v ->
  match sv_step capacity date j v s with Step s' => inv s' | Blocked => True | Fault _ => False end.
Proof using Hok.
  intros Hi Hj. pose proof (slave_speaks s j v Hi Hj) as Hsp.
  destruct (nt_sent _ _ _ _ Hi j v Hj) as (k & Hs & Hk). destruct (sv_at v) as [| | |i| | | |] eqn:Ev; try (unfold sv_step; by rewrite Ev).
  - by apply sv_open_inv.
  - unfold sv_step. rewrite Ev. destruct (reading (n_master s)) eqn:Er; [|done]. by apply sv_opening_inv.
  - unfold sv_step. rewrite Ev. destruct (pid_message _ _ _ _ Hsp) as (msg & -> & Hmsg & Hm). subst k.
    destruct (pipe_write _ _ _ _ _ _) as [s'| |] eqn:E.
    + eapply (pipe_write_inv capacity date name0 ss s s' j v msg (SV_line 0) 0 Hi Hj); try done.
      * unfold working. by rewrite Ev.
      * intros pieces Hp. exists 1%nat. split; [done|]. simpl. lia.
    + done.
    + unfold pipe_write in E. by repeat case_match.
  - unfold sv_step. rewrite Ev. destruct Hk as [Hi' ->]. destruct (Z.ltb_spec i (sv_count v)) as [Hlt|Hge].
    + destruct (line_message _ _ _ _ i Hsp) as (msg & -> & Hmsg & Hm); [lia|].
      destruct (pipe_write _ _ _ _ _ _) as [s'| |] eqn:E.
      * eapply (pipe_write_inv capacity date name0 ss s s' j v msg (SV_line (i + 1)) (S (Z.to_nat i)) Hi Hj); try done.
        -- unfold working. by rewrite Ev.
        -- intros pieces Hp. exists (S (S (Z.to_nat i))). split; [done|]. simpl. lia.
      * done.
      * unfold pipe_write in E. by repeat case_match.
    + apply (working_moves date name0 ss s j v SV_done Hi Hj); [unfold working; by rewrite Ev|].
      exists (S (Z.to_nat i)). split; [done|].
      change (S (Z.to_nat i) = length (slave_messages date j (sv_pid v) (sv_count v))). rewrite slave_messages_length. lia.
Qed.

Lemma int_slave_inv s s' (j : nat) v : inv s -> n_slaves s !! j = Some v -> int_slave j v s = Step s' -> inv s'.
Proof.
  intros Hi Hj Hst. destruct (nt_sent _ _ _ _ Hi j v Hj) as (k & Hs & Hk). unfold int_slave in Hst.
  destruct (sv_at v) eqn:Ev; try done; injection Hst as <-; apply (working_moves date name0 ss s j v SV_int Hi Hj);
    try (unfold working; by rewrite Ev); exists k; by split.
Qed.

(** *** The master *)

Lemma take_line_rest n l a b : take_line n l = (a, b) -> b = [] \/ last a = Some EOL \/ length a = n.
Proof.
  revert l a b. induction n as [|n IH]; intros [|x l] a b; simpl; try (intros [= <- <-]; auto).
  destruct (Z.eqb_spec x EOL) as [->|]; [intros [= <- <-]; auto|]. destruct (take_line n l) as [a' b'] eqn:E.
  intros [= <- <-]. destruct (IH _ _ _ E) as [->|[H| <-]]; [auto| |auto]. right. left. destruct a'; [done|exact H].
Qed.

(** Without a whole line, everything that was read has been taken. *)
Lemma no_line_no_rest line n buf a b : n = (Z.to_nat (BUF_LEN - 1) - length line)%nat ->
  take_line n buf = (a, b) -> fgets_full (line ++ a) = false -> b = [].
Proof.
  intros -> Ht Hf. apply orb_false_iff in Hf as [Hf1 Hf2]. apply bool_decide_eq_false in Hf1. apply Z.leb_gt in Hf2.
  rewrite length_app in Hf2. destruct (take_line_rest _ _ _ _ Ht) as [|[H|H]]; [done| |lia].
  destruct Hf1. destruct a as [|x a]; [done|]. rewrite last_app. by rewrite H.
Qed.

Lemma sent_bytes_ok s : Forall (fun x => msg_ok x.2) (n_pieces s) ->
  (0 ∉ sent_bytes s) /\ (sent_bytes s = [] \/ last (sent_bytes s) = Some EOL).
Proof.
  unfold sent_bytes. induction (n_pieces s) as [|[j m] ps IH]; intros H; [split; [apply not_elem_of_nil|by left]|].
  apply Forall_cons in H as [(Hz & He & _) H]. destruct (IH H) as [IH1 IH2]. simpl in *. split; [by apply not_elem_of_app|].
  right. rewrite last_app. destruct IH2 as [-> | ->]; done.
Qed.

Lemma print_line_text m l rest eof : 0 ∉ l -> print_line m l rest eof = Step (Master MA_read rest [] eof (m_out m ++ l) (m_int m)).
Proof. intros Hz. unfold print_line. by rewrite (c_string_app l [] Hz). Qed.

(** What the loop of the master does. *)
Inductive read_case (k : nat) (s : fifo_net) : sres fifo_net -> Prop :=
  | Read_line l b (El : m_line (n_master s) ++ m_buf (n_master s) = l ++ b) (Hl : l <> []) :
      read_case k s (Step (set_master (Master MA_read b [] false (m_out (n_master s) ++ l) false) s))
  | Read_eof (Hp : n_pipe s = []) (Hw : existsb writing (n_slaves s) = false) (Hb : sent_bytes s = m_out (n_master s)) :
      read_case k s (Step (set_master (goto_m (n_master s) (MA_exit 0)) s))
  | Read_more l (El : m_line (n_master s) ++ m_buf (n_master s) = l) (Hk : (1 <= k <= length (n_pipe s))%nat) :
      read_case k s (Step (set_pipe (drop k (n_pipe s)) (set_master (Master MA_read (take k (n_pipe s)) l false (m_out (n_master s)) false) s)))
  | Read_blocked (Hb : (n_pipe s = [] /\ existsb writing (n_slaves s) = true) \/ k = 0%nat \/ 4096 < Z.of_nat k \/ (0 < length (n_pipe s) < k)%nat) :
      read_case k s Blocked.

Lemma master_read_case k s : inv s -> m_pc (n_master s) = MA_read -> read_case k s (master_read k s).
Proof.
  intros Hi Epc. pose proof (nt_master _ _ _ _ Hi) as Hm. unfold master_inv in Hm. rewrite Epc in Hm.
  destruct Hm as (_ & _ & Heof & Hint & Hb). destruct (sent_bytes_ok s (nt_pieces _ _ _ _ Hi)) as [Hz He]. unfold master_read.
  destruct (take_line _ (m_buf (n_master s))) as [a b] eqn:Et. pose proof (take_line_app _ _ _ _ Et) as Eb.
  assert (0 ∉ m_line (n_master s) ++ a) as Hza.
  { rewrite Hb, Eb in Hz. apply not_elem_of_app in Hz as [_ Hz]. rewrite app_assoc, <- app_assoc, <- app_assoc, (app_assoc _ a) in Hz.
    by apply not_elem_of_app in Hz as [Hz _]. }
  rewrite Heof. destruct (fgets_full _) eqn:Ef.
  - rewrite print_line_text, Hint by done. apply Read_line; [by rewrite Eb, app_assoc|].
    intros E. by rewrite E in Ef.
  - pose proof (no_line_no_rest _ _ _ _ _ eq_refl Et Ef) as ->. rewrite app_nil_r in Eb. subst a. cbn [orb].
    destruct (bool_decide_reflect (n_pipe s = [])) as [Hp|Hp]; [destruct (existsb writing (n_slaves s)) eqn:Ew|]; cbn [negb andb].
    + destruct (_ && _) eqn:Ek; [|apply Read_blocked; by left].
      apply andb_true_iff in Ek as [Ek1%Z.leb_le Ek2%Z.leb_le]. rewrite Hp in Ek2. simpl in Ek2. lia.
    + assert (m_line (n_master s) ++ m_buf (n_master s) = []) as El.
      { destruct (m_line (n_master s) ++ m_buf (n_master s)) eqn:El; [done|]. exfalso.
        rewrite Hp, app_nil_r, El in Hb. apply orb_false_iff in Ef as [Ef _]. apply bool_decide_eq_false in Ef.
        rewrite Hb in He. destruct He as [He|He]; [by apply app_eq_nil in He as [_ He]|]. rewrite last_app in He.
        destruct (last (z :: l)) eqn:Ez; [congruence|]. by apply last_None in Ez. }
      rewrite El. apply Read_eof; [done..|]. by rewrite Hb, Hp, app_nil_r, El, app_nil_r.
    + rewrite Hint. destruct (_ && _) eqn:Ek.
      * apply andb_true_iff in Ek as [Ek1%Z.leb_le Ek2%Z.leb_le]. apply Read_more; [done|lia].
      * apply Read_blocked. right. apply andb_false_iff in Ek. unfold STDIO_BUF in Ek. assert (0 < length (n_pipe s))%nat by (destruct (n_pipe s); [done|simpl; lia]). lia.
Qed.
End Steps.

(** Nothing can happen any more but an interrupt. *)
Definition interrupt (l : fifo_label) : bool := match l with LIntMaster | LIntSlave _ => true | _ => false end.
Definition idle (capacity : Z) (date : nat -> Z -> option (list Z)) (s : fifo_net) : Prop :=
  forall l, interrupt l = false -> fifo_net_exec capacity date l s = Blocked.

Section Runs.
Context (capacity : Z) (date : nat -> Z -> option (list Z)) (name0 : bool) (ss : list (Z * Z)).
Context (Hok : forall (j : nat) p n, ss !! j = Some (p, n) -> speaks date j p n).
Local Abbreviation inv := (net_inv date name0 ss).
Local Abbreviation exec := (fifo_net_exec capacity date).

Lemma fresh_bytes s : fresh s -> sent_bytes s = [] /\
  sent_bytes s = m_out (n_master s) ++ m_line (n_master s) ++ m_buf (n_master s) ++ n_pipe s.
Proof. intros (E1 & E2 & E3 & E4 & _ & E6 & _). unfold sent_bytes. by rewrite E1, E2, E3, E4, E6. Qed.

Lemma not_writing s : existsb writing (n_slaves s) = false ->
  Forall (fun v => writing v = false) (n_slaves s).
Proof.
  intros H. apply Forall_forall. intros v Hv. destruct (writing v) eqn:E; [|done]. exfalso.
  assert (existsb writing (n_slaves s) = true); [|congruence]. apply existsb_exists. exists v. by rewrite <- list_elem_of_In.
Qed.

Lemma not_sigpipe s : inv s -> m_int (n_master s) = false -> Forall (fun v => sv_at v <> SV_sigpipe) (n_slaves s).
Proof.
  intros Hi Hm. apply Forall_lookup. intros j v Hj E. destruct (nt_sent _ _ _ _ Hi j v Hj) as (k & _ & Hk).
  rewrite E in Hk. congruence.
Qed.

Lemma master_step_inv k s : inv s ->
  match master_step k s with Step s' => inv s' | Blocked => True | Fault _ => False end.
Proof.
  intros Hi. pose proof (nt_master _ _ _ _ Hi) as Hm. unfold master_step. destruct (m_pc (n_master s)) as [| |[]| |code] eqn:Epc.
  - unfold master_inv in Hm. rewrite Epc in Hm. destruct Hm as (Hf & Hn & Hq). destruct (n_name s) eqn:En; subst name0.
    + eapply (master_change date _ ss s); [exact Hi|reflexivity|reflexivity|done|]. split; [done|]. cbn.
      destruct Hf as (E1 & E2 & E3 & E4 & E5 & E6 & E7). rewrite E7. right. by split_and!.
    + eapply (master_change date _ ss s); [exact Hi|reflexivity|reflexivity|done|]. split_and!; [done..|]. cbn.
      eapply Forall_impl; [exact Hq|]. intros v. unfold outside, before. by destruct (sv_at v).
  - unfold master_inv in Hm. rewrite Epc in Hm. destruct Hm as (Hf & Hn & H0 & Hq).
    eapply (master_change date _ ss s); [exact Hi|reflexivity|reflexivity|done|]. unfold master_inv. cbn.
    destruct (existsb writing (n_slaves s)) eqn:Ew.
    + pose proof (fresh_bytes s Hf) as [_ Hb]. destruct Hf as (_ & _ & _ & _ & E5 & _ & E7). by split_and!.
    + split_and!; [done..|]. apply not_writing in Ew. apply Forall_forall. intros v Hv.
      pose proof (proj1 (Forall_forall _ _) Hq v Hv) as H1. pose proof (proj1 (Forall_forall _ _) Ew v Hv) as H2.
      unfold before, outside, writing in *. by destruct (sv_at v).
  - unfold master_inv in Hm. rewrite Epc in Hm.
    by eapply (master_change date _ ss s); [exact Hi|reflexivity|reflexivity|done|].
  - done.
  - unfold master_inv in Hm. rewrite Epc in Hm. destruct Hm as (Hn & H0 & He & Hint & Hb).
    destruct (master_read_case date name0 ss k s Hi Epc) as [l b El Hl|Hp Hw Hb'|l El Hk|]; [| | |done];
      (eapply (master_change date _ ss s); [exact Hi|reflexivity|reflexivity|cbn; congruence|]); unfold master_inv; cbn.
    + split_and!; try done. unfold sent_bytes in *. cbn. rewrite Hb, <- !app_assoc. f_equal.
      rewrite app_assoc, El, <- app_assoc. done.
    + split; [done|]. rewrite Hint. left. split_and!; try done. apply not_writing in Hw. pose proof (not_sigpipe s Hi Hint) as Hs.
      apply Forall_forall. intros v Hv. pose proof (proj1 (Forall_forall _ _) Hw v Hv) as H1.
      pose proof (proj1 (Forall_forall _ _) Hs v Hv) as H2. unfold settled, writing in *. by destruct (sv_at v).
    + split_and!; try done. unfold sent_bytes in *. cbn. rewrite Hb. f_equal. subst l. by rewrite <- !app_assoc, take_drop.
  - done.
Qed.

Lemma int_master_inv s s' : inv s -> int_master s = Step s' -> inv s'.
Proof.
  intros Hi Hst. pose proof (nt_master _ _ _ _ Hi) as Hm. unfold int_master, master_inv in *.
  destruct (m_pc (n_master s)) eqn:Epc; try done. injection Hst as <-. destruct Hm as (Hn & H0 & He & Hint & Hb).
  eapply (master_change date _ ss s); [exact Hi|reflexivity|reflexivity|done|]. unfold master_inv. cbn. split; [done|].
  split_and!; [done..|]. by eexists.
Qed.

Lemma net_exec_inv l s : inv s -> match exec l s with Step s' => inv s' | Blocked => True | Fault _ => False end.
Proof using Hok.
  intros Hi. destruct l as [k|j| |j]; cbn [fifo_net_exec]; unfold on_slave.
  - by apply master_step_inv.
  - destruct (n_slaves s !! j) eqn:Hj; [|done]. by apply (sv_step_inv capacity date name0 ss Hok).
  - destruct (int_master s) eqn:E; [by eapply int_master_inv|done|]. unfold int_master in E. by repeat case_match.
  - destruct (n_slaves s !! j) as [v|] eqn:Hj; [|done]. destruct (int_slave j v s) eqn:E; [by eapply int_slave_inv|done|].
    unfold int_slave in E. by repeat case_match.
Qed.

(** ** It comes to an end *)

(** What a slave has still to do, with two more for each byte it writes: one for
    the [read] and one for the [printf] of it. *)
Definition sv_rank (v : sv) : Z :=
  let n := Z.max 0 (sv_count v) in
  match sv_at v with
  | SV_open => 2049 * (n + 1) + 3
  | SV_opening => 2049 * (n + 1) + 2
  | SV_pid => 2049 * (n + 1) + 1
  | SV_line i => 2049 * (n - i) + 1
  | _ => 0
  end.
Definition ma_rank (pc : ma_pc) : Z :=
  match pc with MA_mkfifo => 4 | MA_open => 3 | MA_opening _ => 2 | MA_read => 1 | MA_exit _ => 0 end.
Definition net_rank (s : fifo_net) : Z :=
  ma_rank (m_pc (n_master s)) + 2 * Z.of_nat (length (n_pipe s)) +
  Z.of_nat (length (m_buf (n_master s))) + Z.of_nat (length (m_line (n_master s))) + sumz sv_rank (n_slaves s).

Lemma sv_rank_set j v pc s : n_slaves s !! j = Some v ->
  sumz sv_rank (<[j := goto_s v pc]> (n_slaves s)) = sumz sv_rank (n_slaves s) - sv_rank v + sv_rank (goto_s v pc).
Proof. intros Hj. by apply sumz_insert. Qed.

Ltac rank_simpl := cbn [set_master set_pipe set_slave add_piece n_master n_pipe n_slaves goto_m m_pc m_buf m_line ma_rank length].

Lemma master_step_rank k s s' : inv s -> master_step k s = Step s' -> net_rank s' < net_rank s.
Proof.
  intros Hi. unfold master_step, net_rank. destruct (m_pc (n_master s)) as [| |[]| |code] eqn:Epc; try done.
  - destruct (n_name s); intros [= <-]; rank_simpl; lia.
  - intros [= <-]; rank_simpl; lia.
  - intros [= <-]; rank_simpl; lia.
  - destruct (master_read_case date name0 ss k s Hi Epc) as [l b El Hl|Hp Hw Hb'|l El Hk|]; intros [= <-]; rank_simpl; [| |].
    + apply (f_equal length) in El. rewrite !length_app in El. destruct l; [done|]. simpl in *. lia.
    + lia.
    + apply (f_equal length) in El. rewrite length_app in El. rewrite length_take, length_drop. lia.
Qed.

Lemma pipe_write_rank s s' (j : nat) v msg pc : n_slaves s !! j = Some v -> Z.of_nat (length msg) <= MSG_MAX ->
  0 < sv_rank v -> sv_rank (goto_s v pc) + 2049 <= sv_rank v -> pipe_write capacity j v msg pc s = Step s' -> net_rank s' < net_rank s.
Proof.
  intros Hj Hl H0 Hr. unfold pipe_write, net_rank, MSG_MAX in *.
  destruct (reading _); [destruct (_ <=? _); [|done]|]; intros [= <-]; rank_simpl; rewrite (sv_rank_set _ _ _ _ Hj).
  - rewrite length_app. lia.
  - change (sv_rank (goto_s v SV_sigpipe)) with 0. lia.
Qed.

Lemma sv_moves_rank s s' (j : nat) v pc : n_slaves s !! j = Some v -> sv_rank (goto_s v pc) < sv_rank v ->
  n_slaves s' = <[j := goto_s v pc]> (n_slaves s) -> n_pipe s' = n_pipe s ->
  m_buf (n_master s') = m_buf (n_master s) -> m_line (n_master s') = m_line (n_master s) ->
  ma_rank (m_pc (n_master s')) = ma_rank (m_pc (n_master s)) -> net_rank s' < net_rank s.
Proof. intros Hj Hr E1 E2 E3 E4 E5. unfold net_rank. rewrite E1, E2, E3, E4, E5, (sv_rank_set _ _ _ _ Hj). lia. Qed.

Lemma sv_step_rank s s' (j : nat) v : inv s -> n_slaves s !! j = Some v -> sv_step capacity date j v s = Step s' -> net_rank s' < net_rank s.
Proof using Hok.
  intros Hi Hj. pose proof (slave_speaks date name0 ss Hok s j v Hi Hj) as Hsp.
  destruct (nt_sent _ _ _ _ Hi j v Hj) as (k & _ & Hk). unfold sv_step. destruct (sv_at v) as [| | |i| | | |] eqn:Ev; try done.
  - destruct (n_name s); intros [= <-]; eapply (sv_moves_rank s _ j v _ Hj); try reflexivity;
      try (unfold sv_rank; rewrite Ev; cbn [goto_s sv_at sv_count]; lia); unfold meet; cbn; by destruct (m_pc (n_master s)) eqn:E; cbn; rewrite ?E.
  - destruct (reading _); [|done]. intros [= <-]. eapply (sv_moves_rank s _ j v _ Hj); try reflexivity.
    unfold sv_rank. rewrite Ev; cbn [goto_s sv_at sv_count]; lia.
  - destruct (pid_message _ _ _ _ Hsp) as (msg & -> & _ & (_ & _ & Hl)). apply pipe_write_rank; try done; unfold sv_rank; rewrite Ev; cbn [goto_s sv_at sv_count]; lia.
  - destruct Hk as [Hi' _]. destruct (Z.ltb_spec i (sv_count v)).
    + destruct (line_message _ _ _ _ i Hsp) as (msg & -> & _ & (_ & _ & Hl)); [lia|].
      apply pipe_write_rank; try done; unfold sv_rank; rewrite Ev; cbn [goto_s sv_at sv_count]; lia.
    + intros [= <-]. eapply (sv_moves_rank s _ j v _ Hj); try reflexivity. unfold sv_rank. rewrite Ev; cbn [goto_s sv_at sv_count]; lia.
Qed.

Lemma net_exec_rank l s s' : inv s -> exec l s = Step s' -> net_rank s' < net_rank s.
Proof using Hok.
  intros Hi. destruct l as [k|j| |j]; cbn [fifo_net_exec]; unfold on_slave.
  - by apply master_step_rank.
  - destruct (n_slaves s !! j) eqn:Hj; [|done]. by apply sv_step_rank.
  - unfold int_master, net_rank. destruct (m_pc (n_master s)) eqn:E; try done. intros [= <-]; rank_simpl; lia.
  - destruct (n_slaves s !! j) as [v|] eqn:Hj; [|done]. destruct (nt_sent _ _ _ _ Hi j v Hj) as (k & _ & Hk). unfold int_slave.
    destruct (sv_at v) eqn:Ev; try done; intros [= <-]; (eapply (sv_moves_rank s _ j v _ Hj); try reflexivity);
      unfold sv_rank; rewrite Ev; cbn [goto_s sv_at sv_count]; lia.
Qed.

Lemma net_rank_nonneg s : inv s -> 0 <= net_rank s.
Proof.
  intros Hi. unfold net_rank. assert (0 <= ma_rank (m_pc (n_master s))) by (destruct (m_pc (n_master s)); simpl; lia).
  assert (0 <= sumz sv_rank (n_slaves s)); [|lia].
  assert (Forall (fun v => 0 <= sv_rank v) (n_slaves s)) as H1.
  { apply Forall_lookup. intros j v Hj. destruct (nt_sent _ _ _ _ Hi j v Hj) as (k & _ & Hk). unfold sv_rank.
    destruct (sv_at v); try lia. }
  clear -H1. induction H1 as [|v vs Hv _ IH]; [done|]. rewrite sumz_cons. lia.
Qed.

Lemma net_run ls s s' : inv s -> run exec ls s = Some s' -> inv s' /\ Z.of_nat (length ls) + net_rank s' <= net_rank s.
Proof using Hok.
  revert s. induction ls as [|l ls IH]; intros s Hi Hr; simplify_eq/=; [split; [done|lia]|].
  destruct (exec l s) as [s1| |] eqn:E; try done. pose proof (net_exec_inv l s Hi) as H1. rewrite E in H1.
  pose proof (net_exec_rank l s s1 Hi E). destruct (IH s1 H1 Hr). split; [done|]. lia.
Qed.

Lemma net_start_rank : net_rank (fifo_net_start name0 ss) = 4 + sumz (fun x => 2049 * (Z.max 0 x.2 + 1) + 3) ss.
Proof.
  unfold net_rank. cbn [fifo_net_start n_master m_pc ma_rank n_pipe m_buf m_line n_slaves length].
  assert (sumz sv_rank (map (fun '(p, n) => Sv p n SV_open) ss) = sumz (fun x : Z * Z => 2049 * (Z.max 0 x.2 + 1) + 3) ss); [|lia].
  clear. induction ss as [|[p n] l IH]; [done|]. cbn [map]. rewrite !sumz_cons, IH. done.
Qed.

(** ** Where it ends *)

(** The messages of a slave that is at work, and there is room for one. *)
Lemma pipe_write_goes s (j : nat) v msg pc : PIPE_BUF <= capacity -> n_pipe s = [] -> msg_ok msg ->
  pipe_write capacity j v msg pc s <> Blocked.
Proof.
  intros Hc Hp (_ & _ & Hl). unfold pipe_write. rewrite Hp. unfold MSG_MAX, PIPE_BUF in *.
  destruct (reading _); [|done]. cbn [length]. destruct (Z.leb_spec (Z.of_nat (0 + length msg)) capacity); [done|lia].
Qed.

(** A slave that does not wait for room can only wait in [open]. *)
Lemma idle_slave s (j : nat) v : inv s -> PIPE_BUF <= capacity -> idle capacity date s -> n_slaves s !! j = Some v ->
  n_pipe s = [] \/ reading (n_master s) = false ->
  match sv_at v with
  | SV_open | SV_pid | SV_line _ => False
  | SV_opening => reading (n_master s) = false
  | _ => True
  end.
Proof using Hok.
  intros Hi Hcap Hst Hj Hroom. pose proof (slave_speaks date name0 ss Hok s j v Hi Hj) as Hsp.
  destruct (nt_sent _ _ _ _ Hi j v Hj) as (k & _ & Hk).
  assert (forall msg pc, msg_ok msg -> pipe_write capacity j v msg pc s <> Blocked) as Hgo.
  { intros msg pc Hm. destruct Hroom as [Hp|Hr]; [by apply pipe_write_goes|]. unfold pipe_write. by rewrite Hr. }
  pose proof (Hst (LSlave j) eq_refl) as H. cbn [fifo_net_exec] in H. unfold on_slave in H. rewrite Hj in H. unfold sv_step in H.
  destruct (sv_at v) as [| | |i| | | |]; try done.
  - by destruct (n_name s).
  - by destruct (reading _).
  - destruct (pid_message _ _ _ _ Hsp) as (msg & E & _ & Hm). rewrite E in H. by apply Hgo in H.
  - destruct Hk as [Hi' _]. destruct (Z.ltb_spec i (sv_count v)); [|done].
    destruct (line_message _ _ _ _ i Hsp) as (msg & E & _ & Hm); [lia|]. rewrite E in H. by apply Hgo in H.
Qed.

(** A master at its [read] is never left waiting. *)
Lemma idle_master s : inv s -> PIPE_BUF <= capacity -> idle capacity date s ->
  match m_pc (n_master s) with MA_opening false | MA_exit _ => True | _ => False end.
Proof using Hok.
  intros Hi Hcap Hst. pose proof (Hst (LMaster 1) eq_refl) as H. cbn [fifo_net_exec] in H. unfold master_step in H.
  destruct (m_pc (n_master s)) as [| |[]| |code] eqn:Epc; try done; [by destruct (n_name s)|].
  destruct (master_read_case date name0 ss 1 s Hi Epc) as [| | |Hb]; try done.
  destruct Hb as [[Hp Hw]|[|[|Hl]]]; [|done|lia|lia].
  apply existsb_exists in Hw as (v & Hv & Hw). apply list_elem_of_In, list_elem_of_lookup in Hv as [j Hj].
  pose proof (idle_slave s j v Hi Hcap Hst Hj (or_introl Hp)) as Hs. unfold writing in Hw. unfold reading in Hs. rewrite Epc in Hs.
  by destruct (sv_at v).
Qed.
End Runs.

Section Ends.
Context (capacity : Z) (date : nat -> Z -> option (list Z)) (name0 : bool) (ss : list (Z * Z)).
Context (Hok : forall (j : nat) p n, ss !! j = Some (p, n) -> speaks date j p n) (Hcap : PIPE_BUF <= capacity).
Local Abbreviation inv := (net_inv date name0 ss).

(** What is printed has been written. *)
Lemma printed_prefix s : inv s -> exists rest, sent_bytes s = m_out (n_master s) ++ rest.
Proof.
  intros Hi. pose proof (nt_master _ _ _ _ Hi) as Hm. unfold master_inv in Hm.
  assert (fresh s -> exists rest, sent_bytes s = m_out (n_master s) ++ rest) as Hf by by intros [_ E]%fresh_bytes; eexists.
  destruct (m_pc (n_master s)) as [| |[]| |code]; try by apply Hf, Hm.
  - destruct Hm as (_ & _ & _ & _ & E). by eexists.
  - destruct Hm as (_ & _ & _ & _ & E). by eexists.
  - destruct Hm as (_ & Hm). destruct (m_int _); [by apply Hm|]. destruct Hm as [(_ & _ & E & _)|(_ & _ & E & _)]; [|by apply Hf].
    exists []. by rewrite app_nil_r.
Qed.

Lemma idle_cases s : inv s -> idle capacity date s -> m_int (n_master s) = false ->
  (name0 = true /\ m_pc (n_master s) = MA_exit 1 /\ m_out (n_master s) = [] /\
    Forall (fun v => sv_at v = SV_opening) (n_slaves s)) \/
  (name0 = false /\ m_pc (n_master s) = MA_opening false /\ m_out (n_master s) = [] /\
    Forall (fun v => sv_at v = SV_failed) (n_slaves s)) \/
  (name0 = false /\ m_pc (n_master s) = MA_exit 0 /\ m_out (n_master s) = sent_bytes s /\
    forall (j : nat) v, n_slaves s !! j = Some v ->
      (sv_at v = SV_done /\ sent_of j (n_pieces s) = slave_messages date j (sv_pid v) (sv_count v)) \/
      ((sv_at v = SV_failed \/ sv_at v = SV_opening) /\ sent_of j (n_pieces s) = []) \/ sv_at v = SV_int).
Proof using Hok Hcap.
  intros Hi Hst Hint. pose proof (idle_master capacity date name0 ss Hok s Hi Hcap Hst) as Hp.
  pose proof (nt_master _ _ _ _ Hi) as Hm. unfold master_inv in Hm.
  assert (forall (j : nat) v, n_slaves s !! j = Some v -> n_pipe s = [] \/ reading (n_master s) = false -> sv_at v <> SV_open) as Hopen.
  { intros j v Hj Hroom E. pose proof (idle_slave capacity date name0 ss Hok s j v Hi Hcap Hst Hj Hroom) as H. by rewrite E in H. }
  destruct (m_pc (n_master s)) as [| |[]| |code] eqn:Epc; try done.
  - destruct Hm as ((_ & E2 & _ & _ & _ & E6 & _) & _ & H0 & Hout). right. left. split_and!; [done..|].
    apply Forall_lookup. intros j v Hj. pose proof (Forall_lookup_1 _ _ _ _ Hout Hj) as Hv. pose proof (Hopen j v Hj (or_introl E2)).
    unfold outside in Hv. by destruct (sv_at v).
  - assert (reading (n_master s) = false) as Hr by by unfold reading; rewrite Epc. destruct Hm as (_ & Hm). rewrite Hint in Hm.
    destruct Hm as [(-> & H0 & Hb & Hset)|(-> & H0 & Hf & Hq)].
    + right. right. split_and!; [done..|]. intros j v Hj. pose proof (Forall_lookup_1 _ _ _ _ Hset Hj) as Hv.
      pose proof (Hopen j v Hj (or_intror Hr)). destruct (nt_sent _ _ _ _ Hi j v Hj) as (k & E & Hk). unfold settled in Hv.
      destruct (sv_at v); try done; [subst k; right; left; by auto..| |by auto].
      subst k. left. split; [done|]. by rewrite E, firstn_all.
    + left. destruct Hf as (_ & _ & _ & _ & _ & E6 & _). split_and!; [done..|]. apply Forall_lookup. intros j v Hj.
      pose proof (Forall_lookup_1 _ _ _ _ Hq Hj) as Hv. pose proof (Hopen j v Hj (or_intror Hr)). unfold queued in Hv. by destruct (sv_at v).
Qed.
End Ends.

(** ** Properties *)


(** Two slaves in time, and one that comes too late. *)
Definition net_schedule : list fifo_label :=
  [LMaster 0; LMaster 0; LSlave 0; LSlave 1; LMaster 0; LSlave 0; LSlave 1; LSlave 0; LSlave 1;
   LMaster 6; LMaster 0; LMaster 0; LSlave 0; LSlave 0; LSlave 1; LSlave 1;
   LMaster 16; LMaster 0; LMaster 0; LMaster 0; LSlave 2].
Definition net_slaves : list (Z * Z) := [(71, 1); (72, 1); (73, 5)].
Definition net_end : fifo_net :=
  default (fifo_net_start false net_slaves) (run (fifo_net_exec 65536 demo_date) net_schedule (fifo_net_start false net_slaves)).

Lemma net_end_run : run (fifo_net_exec 65536 demo_date) net_schedule (fifo_net_start false net_slaves) = Some net_end.
Proof. vm_compute. reflexivity. Qed.

Lemma net_end_idle : idle 65536 demo_date net_end.
Proof. intros [k|[|[|[|j]]]| |j] H; (discriminate || by vm_compute). Qed.

Lemma demo_speaks (j : nat) p n : length (bytes (dec p)) = 2%nat -> speaks demo_date j p n.
Proof.
  intros Hp. split; [split; [lia|]|by intros i o _ [= <-]]. intros i _. eexists. split; [reflexivity|].
  split; [by apply (bool_decide_unpack (0 ∉ text "Mon" ++ [EOL]))|]. rewrite Hp. split; by vm_compute.
Qed.

Lemma net_end_speaks (j : nat) p n : net_slaves !! j = Some (p, n) -> speaks demo_date j p n.
Proof. intros E. destruct j as [|[|[|j]]]; [..|done]; injection E as <- <-; by apply demo_speaks. Qed.


(** A slave that is started after the others have ended waits for ever, and is
    not in the log. *)
Theorem late_slave_waits :
  run (fifo_net_exec 65536 demo_date) net_schedule (fifo_net_start false net_slaves) = Some net_end /\
  idle 65536 demo_date net_end /\ m_int (n_master net_end) = false /\
  sv_at <$> (n_slaves net_end !! 2%nat) = Some SV_opening /\ sent_of 2 (n_pieces net_end) = [].
Proof. split; [exact net_end_run|]. split; [exact net_end_idle|]. by vm_compute. Qed.

(** A master that is started a second time ends at once, and its slaves wait. *)
Theorem second_start_fails :
  exists s, run (fifo_net_exec 65536 demo_date) [LMaster 0; LSlave 0] (fifo_net_start true [(71, 1)]) = Some s /\
    idle 65536 demo_date s /\ m_pc (n_master s) = MA_exit 1 /\ map sv_at (n_slaves s) = [SV_opening].
Proof.
  eexists. split; [by vm_compute|]. split; [|by vm_compute].
  intros [k|[|j]| |j] H; (discriminate || by vm_compute).
Qed.
