(* ===== verification/ShellLimits.v ===== *)
(** The command interpreter with limits: cw03/zad3/src/interpreter.c and
    command_runner.c. *)
From S2P Require Import Prelude ShellLine.
#[local] Open Scope Z_scope.

(** This file's copy of the parser of lines is that of [ShellLine.v]. *)
Definition interpret_line : cm line_st (Z * option diag) := ShellLine.interpret_line.

Record timeval := Timeval { tv_sec : Z; tv_usec : Z }.

(** [tvtos]: both terms are integers, the second a division in [long]. *)
Definition tvtos (from to : timeval) : Z :=
  tv_sec to - tv_sec from + Z.quot (tv_usec to - tv_usec from) 1000000.

Section Limits.
(** The child under a limit of CPU seconds and of bytes: [None] if it cannot
    be made or waited for; a limit that cannot be set makes it exit with 127.
    [usage] is what [getrusage] says of the children after a number of
    commands: user and system time. *)
Context (spawn : Z -> Z -> list (list Z) -> option Z) (usage : nat -> option (timeval * timeval)).

(** The limits the child sets: [int]s made into [rlim_t]. *)
Definition set_limits (secs megabytes : Z) : cm shell (Z * Z) :=
  kb ← int_op (megabytes * 1024);
  bytes ← int_op (kb * 1024);
  mret (u64 secs, u64 bytes).

Definition run_command (argv : list (list Z)) (line secs megabytes : Z) : cm shell (Z * Z) :=
  s ← get;
  let before := usage (length (commands s)) in
  (match before with None => complain DNoUsage | Some _ => mret tt end) ;;
  limits ← set_limits secs megabytes;
  start argv line ;;
  match spawn limits.1 limits.2 argv with
  | None => mret (-1, 0)
  | Some status =>
      (match before with
       | None => mret tt
       | Some (startu, starts) =>
           match usage (S (length (commands s))) with
           | None => complain DNoUsage
           | Some (u, y) => complain (DUsage (tvtos startu u) (tvtos starts y))
           end
       end) ;;
      mret (0, status)
  end.

Fixpoint interpret_lines (fuel : nat) (line secs megabytes : Z) : cm shell Z :=
  match fuel with
  | O => nofuel
  | S fuel' =>
      more ← read_line;
      if negb more then mret 0
      else
        p ← parse_line;
        if p.1 <? 0 then complain (DErrorAtLine line) ;; mret (-1)
        else
          match p.2 with
          | [] => l ← int_op (line + 1); interpret_lines fuel' l secs megabytes
          | name :: _ =>
              r ← run_command p.2 line secs megabytes;
              if negb (r.1 =? 0) then complain DRunFailed ;; mret 0
              else if negb (WEXITSTATUS r.2 =? 0) then
                complain (DExited name (WEXITSTATUS r.2) line) ;; mret (-1)
              else l ← int_op (line + 1); interpret_lines fuel' l secs megabytes
          end
  end.

Definition interpret_file (secs megabytes : Z) : cm shell Z :=
  s ← get; interpret_lines (S (length (file s))) 1 secs megabytes.
End Limits.

(** ** Properties *)

(** The times printed are whole seconds: the microseconds are divided as
    integers, so that a command that took less than a second took 0. *)
Theorem tvtos_whole_seconds (from to : timeval)
  (Hf : 0 <= tv_usec from < 1000000) (Ht : 0 <= tv_usec to < 1000000) :
  tvtos from to = tv_sec to - tv_sec from.
Proof.
  unfold tvtos.
  assert (Z.quot (tv_usec to - tv_usec from) 1000000 = 0) as ->; [|lia].
  apply Z.quot_small_iff; [done|]. lia.
Qed.

(** A limit of 2048 megabytes or more overflows an [int] before the child
    is given anything to run; below that the child runs under the limits
    asked for. *)
Theorem memory_limit_overflow (spawn : Z -> Z -> list (list Z) -> option Z) (usage : nat -> option (timeval * timeval))
  (argv : list (list Z)) (line secs megabytes : Z) (s : shell) (status : Z)
  (Hmb : 0 <= megabytes <= INT_MAX) (Hsecs : 0 <= secs <= INT_MAX)
  (Hspawn : spawn secs (megabytes * 1048576) argv = Some status) :
  if megabytes <? 2048
  then exists s', run_command spawn usage argv line secs megabytes s = Done (0, status) s'
  else run_command spawn usage argv line secs megabytes s = Undef UB_overflow.
Proof.
  unfold run_command, set_limits, int_op, is_int, INT_MIN, INT_MAX in *.
  assert (forall d (k : cm shell (Z * Z)) s', (complain d ;; k) s' = k (Shell (file s') (line_buf s') (commands s') (diags s' ++ [d]))) as Hc
    by done.
  destruct (Z.ltb_spec megabytes 2048).
  - destruct (usage (length (commands s))) as [[u y]|] eqn:Eu.
    + cm_step. rewrite Eu. cm_step. destruct (_ && _) eqn:E1; [|lia]. cm_step.
      destruct ((_ <=? megabytes * 1024 * 1024) && _) eqn:E2; [|lia]. cm_step.
      unfold u64. rewrite !Z.mod_small by lia. replace (megabytes * 1024 * 1024) with (megabytes * 1048576) by lia.
      rewrite Hspawn. destruct (usage (S (length (commands s)))) as [[u2 y2]|]; by eexists.
    + cm_step. rewrite Eu. cm_step. destruct (_ && _) eqn:E1; [|lia]. cm_step.
      destruct ((_ <=? megabytes * 1024 * 1024) && _) eqn:E2; [|lia]. cm_step.
      unfold u64. rewrite !Z.mod_small by lia. replace (megabytes * 1024 * 1024) with (megabytes * 1048576) by lia.
      rewrite Hspawn. by eexists.
  - cm_step. destruct (usage (length (commands s))); cm_step;
      (destruct ((_ <=? megabytes * 1024) && _) eqn:E1; cm_step; [|done]);
      (destruct ((_ <=? megabytes * 1024 * 1024) && _) eqn:E2; [lia|done]).
Qed.

Lemma tvtos_whole_seconds_witness : tvtos (Timeval 3 100) (Timeval 3 900000) = 0.
Proof. apply (tvtos_whole_seconds (Timeval 3 100) (Timeval 3 900000)); simpl; lia. Defined.

Lemma memory_limit_overflow_witness :
  run_command (fun _ _ _ => Some 0) (fun _ => None) [text "a"] 1 1 4096 (shell_start [] []) = Undef UB_overflow.
Proof.
  apply (memory_limit_overflow (fun _ _ _ => Some 0) (fun _ => None) [text "a"] 1 1 4096 (shell_start [] []) 0);
    unfold INT_MAX; [lia|lia|reflexivity].
Defined.
