(* ===== verification/LimitTests.v ===== *)
(** The two programs that try the limits of the interpreter: cw03/zad3/src/
    tester1.c, which takes memory, and tester2.c, which takes time. *)
From S2P Require Import Prelude.
#[local] Open Scope Z_scope.

(** ** tester1.c *)
Module Tester1.

(** What is printed, without the newlines. *)
Inductive line := Allocating | DoneLine.

(** The blocks that are allocated, with their sizes; the most bytes that were
    allocated at a time. *)
Record mem := Mem { blocks : list (nat * Z); next : nat; peak : Z; shown : list line }.

Definition used (m : mem) : Z := sumz snd (blocks m).

Definition say (l : line) : cm mem unit :=
  modify (fun m => Mem (blocks m) (next m) (peak m) (shown m ++ [l])).

Section Limit.
(** The bytes the process may have. *)
Context (limit : Z).

(** [malloc]: the block, or NULL when the limit does not allow it. *)
Definition malloc (size : Z) : cm mem (option nat) :=
  m ← get;
  if used m + size <=? limit then
    put (Mem ((next m, size) :: blocks m) (S (next m)) (Z.max (peak m) (used m + size)) (shown m)) ;;
    mret (Some (next m))
  else mret None.

Definition memset (p : option nat) : cm mem unit :=
  check (match p with Some _ => true | None => false end) UB_null.

Definition free (p : option nat) : cm mem unit :=
  match p with
  | None => mret tt
  | Some b =>
      m ← get;
      check (existsb (fun x => Nat.eqb x.1 b) (blocks m)) UB_freed ;;
      put (Mem (List.filter (fun x => negb (Nat.eqb x.1 b)) (blocks m)) (next m) (peak m) (shown m))
  end.

Fixpoint alloc_mem (fuel : nat) (times alloc_size : Z) : cm mem unit :=
  if times =? 0 then mret tt
  else
    match fuel with
    | O => nofuel
    | S fuel' =>
        say Allocating ;;
        p ← malloc alloc_size;
        memset p ;;
        alloc_mem fuel' (times - 1) alloc_size ;;
        free p
    end.

Definition main : cm mem Z :=
  let maxmem := 100 * 1024 * 1024 in
  let alloc_size := 2 * 1024 * 1024 in
  let times := s32 (maxmem / alloc_size) in
  alloc_mem (Z.to_nat times) times alloc_size ;;
  say DoneLine ;;
  mret 0.
End Limit.

Definition start : mem := Mem [] 0 0 [].

(** Numbers of blocks are not used twice. *)
Definition fresh (m : mem) : Prop := forall b, b ∈ blocks m -> (b.1 < next m)%nat.

Lemma filter_fresh (l : list (nat * Z)) n : (forall b, b ∈ l -> (b.1 < n)%nat) -> List.filter (fun x => negb (Nat.eqb x.1 n)) l = l.
Proof.
  induction l as [|x l IH]; intros H; [done|]. simpl. assert (x.1 < n)%nat by (apply H; left).
  destruct (Nat.eqb_spec x.1 n); [lia|]. simpl. rewrite IH; [done|]. intros b Hb. apply H. by right.
Qed.

Lemma malloc_eq limit size m : malloc limit size m =
  if used m + size <=? limit then
    Done (Some (next m)) (Mem ((next m, size) :: blocks m) (S (next m)) (Z.max (peak m) (used m + size)) (shown m))
  else Done None m.
Proof. unfold malloc, mbind, cm_bind, get. by destruct (_ <=? _). Qed.

Lemma free_newest b size bs nx pk sh : (forall x, x ∈ bs -> (x.1 < b)%nat) ->
  free (Some b) (Mem ((b, size) :: bs) nx pk sh) = Done tt (Mem bs nx pk sh).
Proof.
  intros H. unfold free, mbind, cm_bind, get. cbn [blocks existsb List.filter fst]. rewrite Nat.eqb_refl. cbn. by rewrite filter_fresh.
Qed.

(** All is given back; with too little memory the block that [malloc] did not
    give is written to. *)
Lemma alloc_mem_spec limit n size m : 0 <= size -> fresh m -> used m <= peak m ->
  (used m + Z.of_nat n * size <= limit ->
    alloc_mem limit n (Z.of_nat n) size m =
    Done tt (Mem (blocks m) (next m + n) (Z.max (peak m) (used m + Z.of_nat n * size)) (shown m ++ replicate n Allocating))) /\
  (used m <= limit < used m + Z.of_nat n * size -> alloc_mem limit n (Z.of_nat n) size m = Undef UB_null).
Proof.
  intros Hsize. revert m. induction n as [|n IH]; intros m Hf Hp.
  - split; [|lia]. intros _. cbn [alloc_mem Z.of_nat Z.eqb replicate]. rewrite Nat.add_0_r, app_nil_r, Z.max_l by lia. by destruct m.
  - set (m0 := Mem (blocks m) (next m) (peak m) (shown m ++ [Allocating])).
    assert (alloc_mem limit (S n) (Z.of_nat (S n)) size m =
      (p ← malloc limit size; memset p ;; alloc_mem limit n (Z.of_nat n) size ;; free p) m0) as ->.
    { cbn [alloc_mem]. rewrite (proj2 (Z.eqb_neq (Z.of_nat (S n)) 0)) by lia. by replace (Z.of_nat (S n) - 1) with (Z.of_nat n) by lia. }
    unfold mbind, cm_bind. rewrite malloc_eq.
    change (used m0) with (used m). cbn [m0 blocks next peak shown].
    destruct (Z.leb_spec (used m + size) limit) as [Hl|Hl]; [|split; [lia|done]].
    cbn [memset check mret cm_ret].
    set (m1 := Mem ((next m, size) :: blocks m) (S (next m)) (Z.max (peak m) (used m + size)) (shown m ++ [Allocating])).
    assert (used m1 = used m + size) as Hu by (unfold used, m1, sumz; cbn [blocks foldr snd]; lia).
    destruct (IH m1) as [Hok Hbad]; rewrite ?Hu.
    { intros b [->|Hb]%elem_of_cons; [cbn; lia|]. apply Hf in Hb. cbn. lia. }
    { cbn. lia. }
    split; intros Hr.
    + rewrite Hok, Hu by lia. cbn [m1 blocks next peak shown]. rewrite free_newest, <- app_assoc by done.
      replace (S (next m) + n)%nat with (next m + S n)%nat by lia.
      by replace (Z.max (Z.max (peak m) (used m + size)) (used m + size + Z.of_nat n * size))
        with (Z.max (peak m) (used m + Z.of_nat (S n) * size)) by lia.
    + by rewrite Hbad by lia.
Qed.

(** With 100 MB the program takes them in 50 steps, gives everything back
    and says so; with less it writes to the null pointer. *)
Theorem takes_100_megabytes (limit : Z) (Hlimit : 0 <= limit) :
  main limit start =
  if 104857600 <=? limit then Done 0 (Mem [] 50 104857600 (replicate 50 Allocating ++ [DoneLine])) else Undef UB_null.
Proof.
  destruct (alloc_mem_spec limit 50 2097152 start) as [Hok Hbad]; [lia|by intros b ?%elem_of_nil|done|].
  change (Z.of_nat 50) with 50 in Hok, Hbad. change (used start) with 0 in Hok, Hbad.
  unfold main. change (s32 (100 * 1024 * 1024 / (2 * 1024 * 1024))) with 50. change (Z.to_nat 50) with 50%nat.
  change (2 * 1024 * 1024) with 2097152. unfold mbind, cm_bind. destruct (Z.leb_spec 104857600 limit).
  - rewrite Hok by lia. done.
  - rewrite Hbad by lia. done.
Qed.

Lemma takes_100_megabytes_witness : main 104857599 start = Undef UB_null.
Proof. apply (takes_100_megabytes 104857599). lia. Defined.
End Tester1.

(** ** tester2.c *)
Module Tester2.

Inductive line := Computing | Got (n : Z).

(** [size_t] is of 64 bits. *)
Record st := St { ret : Z; curr : Z; shown : list line }.

Definition compute (i j k : Z) : Z :=
  let ret := 0 in
  let ret := if u64 (u64 (i * i) + u64 (j * j)) =? u64 (k * k) then u64 (ret + 1) else ret in
  let ret := if u64 (u64 (k * k) + u64 (i * i)) =? u64 (j * j) then u64 (ret + 1) else ret in
  let ret := if u64 (u64 (j * j) + u64 (k * k)) =? u64 (i * i) then u64 (ret + 1) else ret in
  ret.

Definition say (l : line) : cm st unit := modify (fun s => St (ret s) (curr s) (shown s ++ [l])).

(** The innermost loop's body, and that of the loop around it. *)
Definition add (i j k : Z) : cm st unit := modify (fun s => St (u64 (ret s + compute i j k)) (curr s) (shown s)).
Definition row (count : nat) (i j : Z) : cm st unit :=
  for_range count 0 (add i j) ;;
  modify (fun s => St (ret s) (u64 (curr s + 1)) (shown s)) ;;
  s ← get;
  if curr s mod 70 =? 0 then say Computing else mret tt.

(** [main] with loops up to [count], and with those of the program. *)
Definition main_for (count : nat) : cm st unit :=
  for_range count 0 (fun i => for_range count 0 (row count i)) ;;
  s ← get;
  say (Got (u32 (ret s))).
Definition main : cm st Z := main_for (Z.to_nat (1024 * 1024)) ;; mret 0.

Definition start : st := St 0 0 [].

(** *** Sums *)

(** The numbers below [n]. *)
Definition below (n : nat) : list Z := seqZ 0 (Z.of_nat n).

Lemma below_S n : below (S n) = below n ++ [Z.of_nat n].
Proof. unfold below. by rewrite seqZ_S. Qed.

Lemma elem_of_below x n : x ∈ below n <-> 0 <= x < Z.of_nat n.
Proof. unfold below. rewrite elem_of_seqZ. lia. Qed.

Lemma sumz_below_S f n : sumz f (below (S n)) = sumz f (below n) + f (Z.of_nat n).
Proof. rewrite below_S, sumz_app. unfold sumz at 2. simpl. lia. Qed.

(** How many [i], [j], [k] below [n] have i² + j² = k². *)
Definition hit (i j k : Z) : Z := if i * i + j * j =? k * k then 1 else 0.
Definition triples (n : nat) : Z := sumz (fun i => sumz (fun j => sumz (hit i j) (below n)) (below n)) (below n).

Lemma compute_hits i j k : 0 <= i < 2 ^ 20 -> 0 <= j < 2 ^ 20 -> 0 <= k < 2 ^ 20 ->
  compute i j k = hit i j k + hit k i j + hit j k i.
Proof.
  intros Hi Hj Hk. assert (forall x, 0 <= x < 2 ^ 20 -> 0 <= x * x < 2 ^ 40) as Hsq by (intros; nia).
  pose proof (Hsq i Hi). pose proof (Hsq j Hj). pose proof (Hsq k Hk). unfold compute, hit, u64.
  rewrite !(Z.mod_small (_ * _)) by lia. rewrite !(Z.mod_small (_ * _ + _)) by lia.
  destruct (_ =? _), (_ =? _), (_ =? _); done.
Qed.

(** Each of the three tests is met equally often. *)
Lemma sum_compute n : Z.of_nat n <= 2 ^ 20 ->
  sumz (fun i => sumz (fun j => sumz (compute i j) (below n)) (below n)) (below n) = 3 * triples n.
Proof.
  intros Hn. set (B := below n).
  assert (forall f : Z -> Z -> Z -> Z, sumz (fun i => sumz (fun j => sumz (fun k => f k i j) B) B) B =
    sumz (fun i => sumz (fun j => sumz (f i j) B) B) B) as Hrot.
  { intros f. rewrite (sumz_ext _ (fun i => sumz (fun k => sumz (f k i) B) B)); [|intros i _; by rewrite sumz_swap].
    by rewrite sumz_swap. }
  rewrite (sumz_ext _ (fun i => sumz (fun j => sumz (hit i j) B) B + sumz (fun j => sumz (fun k => hit k i j) B) B +
    sumz (fun j => sumz (fun k => hit j k i) B) B)).
  - rewrite !sumz_plus, (Hrot (fun k i j => hit j k i)), !(Hrot hit). unfold triples. fold B. lia.
  - intros i Hi%elem_of_below. rewrite <- !sumz_plus. apply sumz_ext. intros j Hj%elem_of_below.
    rewrite <- !sumz_plus. apply sumz_ext. intros k Hk%elem_of_below.
    apply compute_hits; lia.
Qed.

(** *** The loops *)

Lemma inner_loop i j n s : u64 (ret s) = ret s ->
  for_range n 0 (add i j) s = Done tt (St (u64 (ret s + sumz (compute i j) (below n))) (curr s) (shown s)).
Proof.
  intros E. pose (state k := St (u64 (ret s + sumz (compute i j) (below k))) (curr s) (shown s)).
  assert (state 0%nat = s) as H0.
  { unfold state. destruct s as [r c o]. cbn in *. change (sumz _ _) with 0. by rewrite Z.add_0_r, E. }
  rewrite <- H0 at 1. rewrite (for_range_states _ state); [done|].
  intros k _. unfold state, add, modify. cbn [ret curr shown]. rewrite sumz_below_S. unfold u64. do 2 f_equal.
  rewrite Zplus_mod_idemp_l. f_equal. lia.
Qed.

(** What has been printed after [m] turns of the loop in the middle. *)
Definition after (r m : Z) : st := St (u64 r) m (replicate (Z.to_nat (m / 70)) Computing).

Lemma row_step count i j r m : 0 <= m < 2 ^ 64 - 1 ->
  row count i j (after r m) = Done tt (after (r + sumz (compute i j) (below count)) (m + 1)).
Proof.
  intros Hm. unfold row, mbind, cm_bind.
  rewrite inner_loop by (cbn; unfold u64; by rewrite Z.mod_mod).
  assert (u64 (m + 1) = m + 1) as Hm1 by (apply Z.mod_small; lia).
  cbn [modify get after ret curr shown]. rewrite !Hm1.
  assert (u64 (u64 r + sumz (compute i j) (below count)) = u64 (r + sumz (compute i j) (below count))) as ->.
  { unfold u64. by rewrite Zplus_mod_idemp_l. }
  pose proof (Z.div_mod m 70 ltac:(lia)) as Em. pose proof (Z.mod_pos_bound m 70 ltac:(lia)) as Hb.
  pose proof (Z.div_mod (m + 1) 70 ltac:(lia)) as Em1. pose proof (Z.mod_pos_bound (m + 1) 70 ltac:(lia)) as Hb1.
  unfold after. destruct (Z.eqb_spec ((m + 1) mod 70) 0) as [E|E].
  - unfold say, modify. cbn [ret curr shown]. replace (Z.to_nat ((m + 1) / 70)) with (S (Z.to_nat (m / 70))) by lia.
    by rewrite replicate_S_end.
  - unfold mret, cm_ret. by replace ((m + 1) / 70) with (m / 70) by lia.
Qed.

Lemma main_for_spec (n : nat) (Hn : Z.of_nat n <= 2 ^ 20) :
  exists s, main_for n start = Done tt s /\ ret s = 3 * triples n /\
  shown s = replicate (Z.to_nat (Z.of_nat n * Z.of_nat n / 70)) Computing ++ [Got (u32 (3 * triples n))].
Proof.
  set (N := Z.of_nat n) in *. set (f i j := sumz (compute i j) (below n)). set (g i := sumz (f i) (below n)).
  assert (forall i, (i < n)%nat -> forall r, for_range n 0 (row n (Z.of_nat i)) (after r (Z.of_nat i * N)) =
    Done tt (after (r + g (Z.of_nat i)) (Z.of_nat (S i) * N))) as Hmid.
  { intros i Hi r. pose (state j := after (r + sumz (f (Z.of_nat i)) (below j)) (Z.of_nat i * N + Z.of_nat j)).
    assert (state 0%nat = after r (Z.of_nat i * N)) as H0 by (unfold state; change (sumz _ _) with 0; by rewrite !Z.add_0_r).
    rewrite <- H0, (for_range_states _ state).
    - unfold state. fold N. do 2 f_equal. lia.
    - intros j Hj. unfold state. rewrite row_step, sumz_below_S; [|nia]. unfold f. do 2 f_equal; lia. }
  pose (state i := after (sumz g (below i)) (Z.of_nat i * N)).
  assert (for_range n 0 (fun i => for_range n 0 (row n i)) start = Done tt (state n)) as Hout.
  { change start with (state 0%nat). apply for_range_states. intros i Hi. unfold state. by rewrite Hmid, sumz_below_S. }
  assert (sumz g (below n) = 3 * triples n) as Hsum by by apply sum_compute.
  assert (0 <= triples n <= N * (N * N)) as Hb.
  { assert (length (below n) = n) as Hl by (unfold below; rewrite length_seqZ; lia). unfold triples.
    replace (N * (N * N)) with (1 * N * N * Z.of_nat (length (below n))) by (rewrite Hl; unfold N; ring).
    apply sumz_bound. intros i _. replace (1 * N * N) with (1 * N * Z.of_nat (length (below n))) by (rewrite Hl; done).
    apply sumz_bound. intros j _. replace (1 * N) with (1 * Z.of_nat (length (below n))) by (rewrite Hl; done).
    apply sumz_bound. intros k _. unfold hit. destruct (_ =? _); lia. }
  unfold main_for, mbind, cm_bind. rewrite Hout. eexists. split; [done|]. unfold state, after. cbn [ret shown].
  rewrite Hsum. unfold u64. rewrite Z.mod_small by nia. done.
Qed.

(** The program ends; none of its sums wraps around; it reports its progress
    2^40 / 70 times; and what it prints in the end is three times the number of
    triples i, j, k below 2^20 with i² + j² = k² (each of its three tests is met
    equally often), which is cut to 32 bits. *)
Theorem counts_triples :
  exists s, main start = Done 0 s /\ ret s = 3 * triples (Z.to_nat (2 ^ 20)) /\
  shown s = replicate (Z.to_nat (2 ^ 40 / 70)) Computing ++ [Got (u32 (3 * triples (Z.to_nat (2 ^ 20))))].
Proof.
  assert (Z.of_nat (Z.to_nat (2 ^ 20)) = 2 ^ 20) as E by by rewrite Z2Nat.id.
  destruct (main_for_spec (Z.to_nat (2 ^ 20)) ltac:(lia)) as (s & Hs & Hr & Ho). rewrite E in Ho.
  exists s. split; [|split; [exact Hr|exact Ho]]. unfold main.
  change (1024 * 1024) with (2 ^ 20). revert Hs. generalize (Z.to_nat (2 ^ 20)). intros n Hs. exact (bind_eq _ _ _ _ _ _ Hs eq_refl).
Qed.

(** A small instance. *)
Example main_for_6 : main_for 6 start = Done tt (St 39 36 [Got 39]) /\ triples 6 = 13.
Proof. split; reflexivity. Qed.
End Tester2.
