(* ===== verification/ShellPipe.v ===== *)
(** The command interpreter with pipelines: cw05/zad1/src/interpreter.c and
    command_runner.c. *)
From S2P Require Import Prelude ShellLine.
#[local] Open Scope Z_scope.

(** This file's copy of the parser of lines is that of [ShellLine.v]. *)
Definition interpret_line : cm line_st (Z * option diag) := ShellLine.interpret_line.

Definition BAR : list Z := [124].

(** What a descriptor leads to: what the shell was started with, or an end of
    the [k]-th pipe. *)
Inductive end_ := Inherited | Pipe (k : Z).

#[export] Instance end_eq_dec : EqDecision end_.
Proof. solve_decision. Defined.

(** A process that was started. *)
Record process := Proc { p_argv : list (list Z); p_stdin : end_; p_stdout : end_ }.

(** The shell: its parser state, its own standard input, the pipes made, the
    processes it started, those not yet waited for (with their statuses), and
    the lines it announced. *)
Record pshell := PShell {
  sh : shell;
  stdin : end_;
  pipes : Z;
  started : list process;
  children : list (Z * Z);
  announced : list (list (list Z));
}.

Definition set_sh x s := PShell x (stdin s) (pipes s) (started s) (children s) (announced s).
Definition set_stdin x s := PShell (sh s) x (pipes s) (started s) (children s) (announced s).
Definition set_pipes x s := PShell (sh s) (stdin s) x (started s) (children s) (announced s).
Definition set_children x s := PShell (sh s) (stdin s) (pipes s) (started s) x (announced s).

(** A step of the parser. *)
Definition on_sh {A} (c : cm shell A) : cm pshell A := fun s =>
  match c (sh s) with
  | Done a x => Done a (set_sh x s)
  | Exited code x => Exited code (set_sh x s)
  | Undef u => Undef u
  | NoFuel => NoFuel
  end.

Section Pipe.
(** Whether a pipe and a child can be made, the wait status of a process, and
    which of the waiting children [waitpid] reports first. *)
Context (can_pipe can_fork : nat -> bool) (status_of : process -> Z) (pick : list (Z * Z) -> nat).

(** The arguments before and after the first ["|"], if there is one. *)
Fixpoint split_bar (argv : list (list Z)) : list (list Z) * option (list (list Z)) :=
  match argv with
  | [] => ([], None)
  | a :: rest =>
      if decide (a = BAR) then ([], Some rest)
      else let '(l, r) := split_bar rest in (a :: l, r)
  end.

(** The child: it is started with the shell's standard input, and exits with
    127 when there is no such program (part of its status). *)
Definition spawn (argv : list (list Z)) (out : end_) : cm pshell unit :=
  match argv with
  | [] => undef UB_null   (* execvp(NULL, argv) *)
  | _ =>
      s ← get;
      let p := Proc argv (stdin s) out in
      put (PShell (sh s) (stdin s) (pipes s) (started s ++ [p])
             (children s ++ [(Z.of_nat (length (started s)), status_of p)]) (announced s))
  end.

(** Fuel: each call drops at least the bar. *)
Fixpoint exec_command (fuel : nat) (argv : list (list Z)) : cm pshell Z :=
  match fuel with
  | O => nofuel
  | S fuel' =>
      let '(command, rest) := split_bar argv in
      s ← get;
      let n := length (started s) in
      match rest with
      | Some rest =>
          if negb (can_pipe n) then exit_ 1
          else
            let k := pipes s in
            modify (set_pipes (k + 1)) ;;
            if negb (can_fork n) then mret (-1)
            else
              spawn command (Pipe k) ;;
              (* dup2(fd[0], 0): the shell's own standard input *)
              modify (set_stdin (Pipe k)) ;;
              exec_command fuel' rest
      | None =>
          if negb (can_fork n) then mret (-1)
          else spawn command Inherited ;; mret 0
      end
  end.

(** [while ((curr = waitpid(0, &status, 0)) > 0)]. *)
Fixpoint wait_all (fuel : nat) (line : Z) : cm pshell Z :=
  s ← get;
  match children s with
  | [] => mret 0
  | _ =>
      match fuel with
      | O => nofuel
      | S fuel' =>
          let i := Nat.modulo (pick (children s)) (length (children s)) in
          '(pid, status) ← lift UB_bounds (children s !! i);
          modify (set_children (delete i (children s))) ;;
          if negb (WEXITSTATUS status =? 0) then
            on_sh (complain (DStatus pid (WEXITSTATUS status) line)) ;; mret (-1)
          else wait_all fuel' line
      end
  end.

Definition run_command (argv : list (list Z)) (line : Z) : cm pshell Z :=
  _ ← exec_command (S (length argv)) argv;
  s ← get; wait_all (length (children s)) line.

Fixpoint interpret_lines (fuel : nat) (line : Z) : cm pshell Z :=
  match fuel with
  | O => nofuel
  | S fuel' =>
      more ← on_sh read_line;
      if negb more then mret 0
      else
        p ← on_sh parse_line;
        if p.1 <? 0 then on_sh (complain (DErrorAtLine line)) ;; mret (-1)
        else
          match p.2 with
          | [] => l ← int_op (line + 1); interpret_lines fuel' l
          | argv =>
              modify (fun s => PShell (sh s) (stdin s) (pipes s) (started s) (children s) (announced s ++ [argv])) ;;
              r ← run_command argv line;
              if negb (r =? 0) then on_sh (complain DRunFailed) ;; mret 0
              else l ← int_op (line + 1); interpret_lines fuel' l
          end
  end.

Definition interpret_file : cm pshell Z :=
  s ← get; interpret_lines (S (length (file (sh s)))) 1.
End Pipe.

Definition pshell_start (input stack : list Z) : pshell :=
  PShell (shell_start input stack) Inherited 0 [] [] [].

(** ** Pipelines *)

(** The commands of a pipeline. *)
Definition join_bars (cmds : list (list (list Z))) : list (list Z) :=
  match cmds with [] => [] | c :: cs => c ++ concat (map (cons BAR) cs) end.

(** The processes of a pipeline: each reads what the one before it writes. *)
Fixpoint pipeline (cmds : list (list (list Z))) (from : end_) (k : Z) : list process :=
  match cmds with
  | [] => []
  | [c] => [Proc c from Inherited]
  | c :: cs => Proc c from (Pipe k) :: pipeline cs (Pipe k) (k + 1)
  end.

Lemma split_bar_app c rest : BAR ∉ c ->
  split_bar (c ++ rest) =
    match split_bar rest with (l, r) => (c ++ l, r) end.
Proof.
  induction c as [|a c IH]; intros Hc; simpl; [by destruct (split_bar rest)|].
  apply not_elem_of_cons in Hc as [Ha Hc]. rewrite decide_False by congruence.
  rewrite IH by done. by destruct (split_bar rest).
Qed.

Lemma split_bar_join c cs : BAR ∉ c ->
  split_bar (join_bars (c :: cs)) = (c, match cs with [] => None | _ => Some (join_bars cs) end).
Proof.
  intros Hc. unfold join_bars. rewrite split_bar_app by done. destruct cs as [|c' cs]; simpl.
  - by rewrite app_nil_r.
  - by rewrite app_nil_r.
Qed.

Section Exec.
Context (status_of : process -> Z).
Local Abbreviation yes := (fun _ : nat => true).

Lemma spawn_eq c out s : c <> [] ->
  spawn status_of c out s = Done tt
    (PShell (sh s) (stdin s) (pipes s) (started s ++ [Proc c (stdin s) out])
       (children s ++ [(Z.of_nat (length (started s)), status_of (Proc c (stdin s) out))]) (announced s)).
Proof. by destruct c. Qed.

(** The statuses of processes, numbered from [n]. *)
Definition statuses (n : nat) (ps : list process) : list (Z * Z) :=
  imap (fun i p => (Z.of_nat (n + i), status_of p)) ps.

Lemma exec_command_eq cmds : forall fuel s,
  cmds <> [] -> Forall (fun c => c <> [] /\ BAR ∉ c) cmds -> (length cmds <= fuel)%nat ->
  exec_command yes yes status_of fuel (join_bars cmds) s =
    Done 0 (PShell (sh s) (if decide (length cmds = 1%nat) then stdin s else Pipe (pipes s + Z.of_nat (length cmds) - 2))
      (pipes s + Z.of_nat (length cmds) - 1) (started s ++ pipeline cmds (stdin s) (pipes s))
      (children s ++ statuses (length (started s)) (pipeline cmds (stdin s) (pipes s))) (announced s)).
Proof.
  induction cmds as [|c cs IH]; intros fuel s Hne Hok Hf; [done|].
  apply Forall_cons in Hok as [[Hc Hb] Hok]. destruct fuel as [|fuel]; [simpl in Hf; lia|].
  cbn [exec_command]. rewrite split_bar_join by done. destruct cs as [|c' cs].
  - unfold mbind, cm_bind, get. cbn [negb]. rewrite spawn_eq by done. unfold mret, cm_ret.
    cbn [length pipeline]. rewrite decide_True by done. do 2 f_equal.
    + simpl. lia.
    + unfold statuses. simpl. by rewrite Nat.add_0_r.
  - unfold mbind, cm_bind, get, modify. cbn [negb]. rewrite spawn_eq by done. cbn [set_pipes set_stdin].
    rewrite IH by (done || (simpl in *; lia)). unfold set_stdin, set_pipes.
    cbn [sh stdin pipes started children announced length].
    rewrite (decide_False (P := S (S (length cs)) = 1%nat)) by lia. rewrite <- !app_assoc. f_equal. f_equal.
    + destruct (decide _) as [E|]; [|f_equal; lia]. destruct cs; [simpl; f_equal; lia|simpl in E; lia].
    + lia.
    + cbn [pipeline]. unfold statuses. rewrite length_app. cbn [length imap app].
      f_equal. f_equal; [f_equal; lia|]. apply imap_ext. intros i p _. simpl. f_equal. lia.
Qed.
End Exec.

(** ** Properties *)

(** A pipeline of commands is started as one process per command, in
    order: the first reads the shell's standard input, each other one the pipe
    that the one before it writes, the last writes to the shell's output. *)
Theorem pipeline_is_chained (status_of : process -> Z) (cmds : list (list (list Z))) (s : pshell)
  (Hne : cmds <> []) (Hok : Forall (fun c => c <> [] /\ BAR ∉ c) cmds) :
  exists s', exec_command (fun _ => true) (fun _ => true) status_of (S (length (join_bars cmds))) (join_bars cmds) s = Done 0 s' /\
    started s' = started s ++ pipeline cmds (stdin s) (pipes s) /\
    pipes s' = pipes s + Z.of_nat (length cmds) - 1.
Proof.
  rewrite exec_command_eq; [by eexists|done|done|].
  assert (forall cs : list (list (list Z)), (length cs <= length (concat (map (cons BAR) cs)))%nat) as Hl.
  { induction cs as [|c cs IH]; simpl; [lia|]. rewrite length_app. lia. }
  destruct cmds as [|c cs]; [done|]. unfold join_bars. rewrite length_app. simpl. specialize (Hl cs). lia.
Qed.

(** After a pipeline of two commands or more the shell's own standard
    input is the last pipe and stays so: the first command of the next line
    reads the end of a pipe that no one writes. *)
Theorem pipeline_takes_stdin (status_of : process -> Z) (a b c : list (list Z)) (s : pshell)
  (Ha : a <> [] /\ BAR ∉ a) (Hb : b <> [] /\ BAR ∉ b) (Hc : c <> [] /\ BAR ∉ c) :
  exists s1 s2,
    exec_command (fun _ => true) (fun _ => true) status_of 2 (join_bars [a; b]) s = Done 0 s1 /\
    exec_command (fun _ => true) (fun _ => true) status_of 1 (join_bars [c]) s1 = Done 0 s2 /\
    started s2 = started s1 ++ [Proc c (Pipe (pipes s)) Inherited].
Proof.
  rewrite exec_command_eq; [|done|by rewrite !Forall_cons, Forall_nil|done].
  eexists. eexists. split; [done|]. rewrite exec_command_eq; [|done|by rewrite !Forall_cons, Forall_nil|done].
  split; [done|]. cbn [started stdin pipeline]. do 4 f_equal. simpl. lia.
Qed.

(** A bar with no command after it makes the child call [execvp] with a
    null pointer. *)
Theorem trailing_bar_is_null (status_of : process -> Z) (a : list (list Z)) (s : pshell)
  (Ha : a <> [] /\ BAR ∉ a) :
  exec_command (fun _ => true) (fun _ => true) status_of 2 (a ++ [BAR]) s = Undef UB_null.
Proof.
  destruct Ha as [Ha Hb]. cbn [exec_command]. rewrite split_bar_app by done. cbn [split_bar].
  rewrite decide_True by done. rewrite app_nil_r. unfold mbind, cm_bind, get, modify. cbn [negb].
  by rewrite spawn_eq.
Qed.

Lemma pipeline_is_chained_witness :
  exists s', exec_command (fun _ => true) (fun _ => true) (fun _ => 0) 6
      (join_bars [[text "a"]; [text "b"; text "x"]; [text "c"]]) (pshell_start [] []) = Done 0 s' /\
    started s' = [Proc [text "a"] Inherited (Pipe 0); Proc [text "b"; text "x"] (Pipe 0) (Pipe 1);
                  Proc [text "c"] (Pipe 1) Inherited] /\ pipes s' = 2.
Proof.
  apply (pipeline_is_chained (fun _ => 0) [[text "a"]; [text "b"; text "x"]; [text "c"]] (pshell_start [] []));
    [discriminate|].
  repeat (apply Forall_cons; split); try apply Forall_nil; try (split; [discriminate|]); try exact I;
    intros H%list_elem_of_In; simpl in H; intuition discriminate.
Defined.

Lemma pipeline_takes_stdin_witness :
  exists s1 s2,
    exec_command (fun _ => true) (fun _ => true) (fun _ => 0) 2 (join_bars [[text "a"]; [text "b"]]) (pshell_start [] []) = Done 0 s1 /\
    exec_command (fun _ => true) (fun _ => true) (fun _ => 0) 1 (join_bars [[text "c"]]) s1 = Done 0 s2 /\
    started s2 = started s1 ++ [Proc [text "c"] (Pipe 0) Inherited].
Proof.
  apply (pipeline_takes_stdin (fun _ => 0) [text "a"] [text "b"] [text "c"] (pshell_start [] []));
    (split; [discriminate|]); intros H%list_elem_of_In; simpl in H; intuition discriminate.
Defined.

Lemma trailing_bar_is_null_witness :
  exec_command (fun _ => true) (fun _ => true) (fun _ => 0) 2 [text "a"; BAR] (pshell_start [] []) = Undef UB_null.
Proof.
  apply (trailing_bar_is_null (fun _ => 0) [text "a"] (pshell_start [] [])).
  split; [discriminate|]. intros H%list_elem_of_In. simpl in H. intuition discriminate.
Defined.
