(* ===== verification/ShellScript.v ===== *)
(** The command interpreter of cw03/zad2 on a whole script: the command lines
    of the three interpreters (main.c of cw03/zad2, cw03/zad3 and cw05/zad1), and
    what the first of them does with a file of well-formed lines. *)
From S2P Require Import Prelude CString ShellLine ShellLimits ShellPipe.
#[local] Open Scope Z_scope.

(** ** The command lines *)

Section Mains.
(** [fopen], what stdin gives, and what is on the stack where the buffer will
    be. *)
Context (fopen : string -> option (list Z)) (stdin stack : list Z).

(** What [main] returns, with the interpreter at the end if it was started. *)
Inductive main_result (St : Type) :=
  | M_help                                   (* the help is printed; 1 *)
  | M_cannot_open                            (* -1 *)
  | M_ran (o : outcome St Z).
#[global] Arguments M_help {St}.
#[global] Arguments M_cannot_open {St}.
#[global] Arguments M_ran {St} o.

(** cw03/zad2 and cw05/zad1: a file, or stdin. *)
Definition script_of (argv : list string) : option (option (list Z)) :=
  match argv with
  | [_; file] => Some (fopen file)
  | [_] => Some (Some stdin)
  | _ => None
  end.

Definition main_zad2 (spawn : list (list Z) -> option Z) (argv : list string) : main_result shell :=
  match script_of argv with
  | None => M_help
  | Some None => M_cannot_open
  | Some (Some fp) => M_ran (ShellLine.interpret_file spawn (shell_start fp stack))
  end.

Definition main_pipe (can_pipe can_fork : nat -> bool) (status_of : process -> Z) (pick : list (Z * Z) -> nat)
    (argv : list string) : main_result pshell :=
  match script_of argv with
  | None => M_help
  | Some None => M_cannot_open
  | Some (Some fp) => M_ran (ShellPipe.interpret_file can_pipe can_fork status_of pick (pshell_start fp stack))
  end.

(** cw03/zad3: the limits are read before the file is known to be open. *)
Definition main_zad3 (spawn : Z -> Z -> list (list Z) -> option Z) (usage : nat -> option (timeval * timeval))
    (argv : list string) : cm unit (main_result shell) :=
  r ← match argv with
      | [_; file; a1; a2] => secs ← atoi a1; megabytes ← atoi a2; mret (Some (fopen file, secs, megabytes))
      | [_; a1; a2] => secs ← atoi a1; megabytes ← atoi a2; mret (Some (Some stdin, secs, megabytes))
      | _ => mret None
      end;
  mret match r with
       | None => M_help
       | Some (None, _, _) => M_cannot_open
       | Some (Some fp, secs, megabytes) =>
           M_ran (ShellLimits.interpret_file spawn usage secs megabytes (shell_start fp stack))
       end.
End Mains.

(** ** Scripts *)

(** A line of a script: blanks, tokens with the blanks before them, blanks. *)
Record script_line := SLine { sl_indent : nat; sl_tokens : list (nat * token); sl_end : nat }.

Fixpoint tail_body (ts : list (nat * token)) (m : nat) : list Z :=
  match ts with
  | [] => replicate m 32
  | (k, t) :: ts' => replicate (S k) 32 ++ print_token t ++ tail_body ts' m
  end.
Definition line_body (l : script_line) : list Z :=
  replicate (sl_indent l) 32 ++
  match sl_tokens l with [] => [] | (_, t) :: ts' => print_token t ++ tail_body ts' (sl_end l) end.

Definition script_bytes (ls : list script_line) : list Z := concat (map (fun l => line_body l ++ [EOL]) ls).

Definition line_ok (l : script_line) : Prop :=
  Forall (fun t => token_ok t.2) (sl_tokens l) /\ Z.of_nat (length (sl_tokens l)) < ARGS_MAX /\
  Z.of_nat (length (line_body l)) + 1 < BUFFER_SIZE.

#[local] Instance token_ok_dec t : Decision (token_ok t).
Proof. destruct t; apply _. Defined.
#[local] Instance line_ok_dec l : Decision (line_ok l).
Proof. unfold line_ok. apply _. Defined.

Section Script.
Context (spawn : list (list Z) -> option Z).

(** What the script asks for: the commands in order with their lines, up to the
    first that cannot be started (the interpreter returns 0) or fails (-1). *)
Fixpoint run_script (ls : list script_line) (line : Z) : Z * list (list (list Z) * Z) :=
  match ls with
  | [] => (0, [])
  | l :: ls' =>
      match words (sl_tokens l) with
      | [] => run_script ls' (line + 1)
      | argv =>
          match spawn argv with
          | None => (0, [(argv, line)])
          | Some status =>
              if WEXITSTATUS status =? 0 then
                let '(code, cs) := run_script ls' (line + 1) in (code, (argv, line) :: cs)
              else (-1, [(argv, line)])
          end
      end
  end.

Lemma line_tail_body ts m : line_tail ts m = tail_body ts m ++ [EOL; 0].
Proof.
  induction ts as [|[k t] ts IH]; [done|]. cbn [line_tail tail_body]. by rewrite IH, <- !app_assoc.
Qed.

Lemma line_bytes_body l : line_bytes (sl_indent l) (sl_tokens l) (sl_end l) = (line_body l ++ [EOL]) ++ [0].
Proof.
  unfold line_bytes, line_body. rewrite <- !app_assoc. f_equal. destruct (sl_tokens l) as [|[k t] ts]; [done|].
  by rewrite line_tail_body, <- !app_assoc.
Qed.

(** No line ends early. *)
Lemma print_token_no_eol t : token_ok t -> Forall (fun b => b <> EOL) (print_token t).
Proof.
  assert (forall b, is_eol b = false -> b <> EOL) as H by (intros b; unfold is_eol, EOL; lia).
  destruct t as [w|w]; simpl.
  - intros (_ & _ & Hw). apply (Forall_impl _ _ _ Hw). intros b Hb. apply H. unfold plain_byte in Hb.
    by destruct (is_eol b).
  - intros Hw. apply Forall_cons. split; [done|]. apply Forall_app. split; [|by apply Forall_singleton].
    apply (Forall_impl _ _ _ Hw). intros b Hb. apply H. unfold quoted_byte in Hb. by destruct (is_eol b).
Qed.

Lemma blanks_no_eol n : Forall (fun b => b <> EOL) (replicate n 32).
Proof. apply Forall_replicate. done. Qed.

Lemma line_body_no_eol l : Forall (fun t => token_ok t.2) (sl_tokens l) -> Forall (fun b => b <> EOL) (line_body l).
Proof.
  intros Hts. unfold line_body. apply Forall_app. split; [apply blanks_no_eol|].
  destruct Hts as [|[k t] ts Ht Hts]; [apply Forall_nil_2|]. apply Forall_app. split; [by apply print_token_no_eol|].
  clear Ht. induction Hts as [|[k' t'] ts Ht Hts IH]; [apply blanks_no_eol|]. cbn [tail_body].
  rewrite !Forall_app. split; [apply blanks_no_eol|]. split; [by apply print_token_no_eol|done].
Qed.

Lemma take_line_body n body rest : Forall (fun b => b <> EOL) body -> (length body < n)%nat ->
  take_line n (body ++ EOL :: rest) = (body ++ [EOL], rest).
Proof.
  revert n. induction body as [|b body IH]; intros [|n] Hb Hn; simpl in Hn; [lia|done|lia|].
  apply Forall_cons in Hb as [Hb1 Hb2]. simpl. destruct (Z.eqb_spec b EOL); [done|]. rewrite IH by (done || lia). done.
Qed.

(** A line is read and parsed. *)
Lemma script_line_read l rest s : line_ok l -> buf_sized s -> file s = line_body l ++ EOL :: rest ->
  exists s0 s', read_line s = Done true s0 /\ parse_line s0 = Done (0, words (sl_tokens l)) s' /\
    buf_sized s' /\ file s' = rest /\ commands s' = commands s /\ diags s' = diags s.
Proof.
  intros (Hts & Hmax & Hlen) Hs Hf. unfold buf_sized, BUFFER_SIZE in *.
  set (b := overwrite (line_buf s) 0 ((line_body l ++ [EOL]) ++ [0])).
  assert (read_line s = Done true (Shell rest b (commands s) (diags s))) as Er.
  { unfold read_line. unfold mbind at 1, cm_bind at 1, get, fgets. rewrite Hf.
    destruct (line_body l ++ EOL :: rest) as [|x y] eqn:E; [by destruct (line_body l)|]. rewrite <- E.
    rewrite take_line_body; [done|by apply line_body_no_eol|unfold BUFFER_SIZE; lia]. }
  exists (Shell rest b (commands s) (diags s)). rewrite Er.
  assert (exists tl, b = line_bytes (sl_indent l) (sl_tokens l) (sl_end l) ++ tl) as [tl Eb].
  { unfold b, overwrite. rewrite <- line_bytes_body. by eexists. }
  assert (length b = Z.to_nat (8 * 1024)) as Hlb.
  { unfold b. rewrite length_overwrite; [done|]. rewrite !length_app. simpl. lia. }
  destruct (interpret_line_spec (sl_indent l) (sl_tokens l) (sl_end l) tl [] Hts Hmax) as (l' & E & Hstr);
    [rewrite <- Eb, Hlb; unfold BUFFER_SIZE; lia|].
  pose proof (interpret_line_halts (Line b []) Hlb) as Hh. unfold halts in Hh. rewrite <- Eb in E. rewrite E in Hh.
  unfold parse_line. unfold mbind at 1, cm_bind at 1, get. cbn [line_buf file commands diags]. rewrite E.
  unfold mbind at 1, cm_bind at 1, put. change (0 <? 0) with false. cbn iota.
  unfold mbind, cm_bind. rewrite Hstr. eexists. split; [done|]. split; [done|]. simpl. rewrite app_nil_r. done.
Qed.

Lemma interpret_script ls : forall fuel line s,
  Forall line_ok ls -> buf_sized s -> file s = script_bytes ls -> (length ls < fuel)%nat ->
  0 <= line -> line + Z.of_nat (length ls) <= INT_MAX ->
  exists s', ShellLine.interpret_lines spawn fuel line s = Done (run_script ls line).1 s' /\
    commands s' = commands s ++ (run_script ls line).2.
Proof.
  induction ls as [|l ls IH]; intros [|fuel] line s Hls Hs Hf Hfuel Hl0 Hl; simpl in Hfuel; try lia.
  { exists s. cbn [ShellLine.interpret_lines]. unfold read_line, mbind, cm_bind, get, fgets. rewrite Hf. simpl.
    by rewrite app_nil_r. }
  apply Forall_cons in Hls as [Hlok Hls].
  assert (file s = line_body l ++ EOL :: script_bytes ls) as Hf'
    by (rewrite Hf; unfold script_bytes; simpl; by rewrite <- app_assoc).
  destruct (script_line_read l _ s Hlok Hs Hf') as (s0 & s1 & Er & Ep & Hs1 & Hf1 & Hc1 & _).
  cbn [ShellLine.interpret_lines]. unfold mbind at 1, cm_bind at 1. rewrite Er. cbn [negb].
  unfold mbind at 1, cm_bind at 1. rewrite Ep. cbn [fst snd]. change (0 <? 0) with false. cbn iota.
  cbn [run_script]. simpl in Hl.
  assert (forall s2, (l0 ← int_op (line + 1); ShellLine.interpret_lines spawn fuel l0) s2 =
    ShellLine.interpret_lines spawn fuel (line + 1) s2) as Enext.
  { intros s2. unfold mbind, cm_bind. by rewrite int_op_ok by (unfold INT_MIN; lia). }
  destruct (words (sl_tokens l)) as [|w ws] eqn:Ew.
  { rewrite Enext. destruct (IH fuel (line + 1) s1 Hls Hs1 Hf1) as (s' & E' & Hc'); [lia..|].
    exists s'. by rewrite Hc', Hc1. }
  set (s2 := Shell (file s1) (line_buf s1) (commands s1 ++ [(w :: ws, line)]) (diags s1)).
  unfold mbind at 1, cm_bind at 1.
  assert (ShellLine.run_command spawn (w :: ws) line s1 =
    Done (match spawn (w :: ws) with None => (-1, 0) | Some status => (0, status) end) s2) as ->
    by (unfold ShellLine.run_command, start, mbind, cm_bind, modify; by destruct (spawn (w :: ws))).
  destruct (spawn (w :: ws)) as [status|] eqn:Esp; cycle 1.
  { eexists. split; [done|]. simpl. by rewrite Hc1. }
  cbn -[WEXITSTATUS]. destruct (WEXITSTATUS status =? 0); cycle 1.
  { eexists. split; [done|]. simpl. by rewrite Hc1. }
  cbn [negb]. rewrite Enext. destruct (IH fuel (line + 1) s2 Hls Hs1 Hf1) as (s' & E' & Hc'); [lia..|].
  exists s'. destruct (run_script ls (line + 1)) as [code cs]. split; [done|].
  rewrite Hc'. simpl. by rewrite Hc1, <- app_assoc.
Qed.
End Script.

Lemma script_length ls : (length ls <= length (script_bytes ls))%nat.
Proof.
  induction ls as [|l ls IH]; [done|]. unfold script_bytes in *. simpl. rewrite !length_app. simpl. lia.
Qed.

(** ** Properties *)


(** ["  echo hi"], an empty line, ["false x"] and ["ls"]. *)
Definition demo_script : list script_line :=
  [SLine 2 [(0, Plain (text "echo")); (0, Quoted (text "hi there"))] 1; SLine 0 [] 0;
   SLine 0 [(0, Plain (text "false")); (2, Plain (text "x"))] 0; SLine 0 [(0, Plain (text "ls"))] 0]%nat.
Definition demo_spawn (argv : list (list Z)) : option Z := Some (if decide (head argv = Some (text "false")) then 256 else 0).

