(* ===== verification/Barber.v ===== *)
(** The barber's shop, in the POSIX build: cw07/zad1/src/barber-shop.c,
    barber.c and client.c, as processes over shared memory and semaphores,
    with every interleaving of their steps. *)
From S2P Require Import Prelude.
#[local] Open Scope Z_scope.

(** [struct wr_seat]: [waiting] is the value of the semaphore in it. *)
Record wr_seat := Seat { taken : bool; pid : Z; waiting : Z }.

(** [struct barber_shop_mem]; the semaphores are their values. *)
Record barber_shop_mem := Shop {
  barber_chair : wr_seat;
  mx_waiting_room : Z;
  sem_barber_sleeping : Z;
  sem_barber_ready : Z;
  sem_customer_ready : Z;
  barber_sleeping : bool;
  wr_capacity : Z;
  wr_count : Z;
  wr_start : Z;
  wr_end : Z;
  waiting_room : list wr_seat;
}.

Definition set_chair x b := Shop x (mx_waiting_room b) (sem_barber_sleeping b) (sem_barber_ready b) (sem_customer_ready b) (barber_sleeping b) (wr_capacity b) (wr_count b) (wr_start b) (wr_end b) (waiting_room b).
Definition add_mx d b := Shop (barber_chair b) (mx_waiting_room b + d) (sem_barber_sleeping b) (sem_barber_ready b) (sem_customer_ready b) (barber_sleeping b) (wr_capacity b) (wr_count b) (wr_start b) (wr_end b) (waiting_room b).
Definition add_sleeping d b := Shop (barber_chair b) (mx_waiting_room b) (sem_barber_sleeping b + d) (sem_barber_ready b) (sem_customer_ready b) (barber_sleeping b) (wr_capacity b) (wr_count b) (wr_start b) (wr_end b) (waiting_room b).
Definition add_ready d b := Shop (barber_chair b) (mx_waiting_room b) (sem_barber_sleeping b) (sem_barber_ready b + d) (sem_customer_ready b) (barber_sleeping b) (wr_capacity b) (wr_count b) (wr_start b) (wr_end b) (waiting_room b).
Definition add_customer d b := Shop (barber_chair b) (mx_waiting_room b) (sem_barber_sleeping b) (sem_barber_ready b) (sem_customer_ready b + d) (barber_sleeping b) (wr_capacity b) (wr_count b) (wr_start b) (wr_end b) (waiting_room b).
Definition set_flag x b := Shop (barber_chair b) (mx_waiting_room b) (sem_barber_sleeping b) (sem_barber_ready b) (sem_customer_ready b) x (wr_capacity b) (wr_count b) (wr_start b) (wr_end b) (waiting_room b).
Definition set_queue n s e b := Shop (barber_chair b) (mx_waiting_room b) (sem_barber_sleeping b) (sem_barber_ready b) (sem_customer_ready b) (barber_sleeping b) (wr_capacity b) n s e (waiting_room b).
Definition set_room r b := Shop (barber_chair b) (mx_waiting_room b) (sem_barber_sleeping b) (sem_barber_ready b) (sem_customer_ready b) (barber_sleeping b) (wr_capacity b) (wr_count b) (wr_start b) (wr_end b) r.

(** ** barber-shop.c *)

(** [new_seat] initialises the semaphore of the seat to 0. *)
Definition new_seat (pid : Z) : wr_seat := Seat true pid 0.

(** The semaphore of an empty seat is zeroed by the initialiser of the rest
    of the structure. *)
Definition empty_seat : wr_seat := Seat false (-1) 0.

(** The index of the seat that is popped or pushed, if any. *)
Definition wr_pop : cm barber_shop_mem (option Z) :=
  b ← get;
  if wr_count b <=? 0 then mret None
  else
    let ret := wr_start b in
    check (negb (wr_capacity b =? 0)) UB_div0 ;;
    next ← int_op (wr_start b + 1);
    put (set_queue (wr_count b - 1) (Z.rem next (wr_capacity b)) (wr_end b) b) ;;
    mret (Some ret).

Definition wr_push : cm barber_shop_mem (option Z) :=
  b ← get;
  if wr_capacity b <=? wr_count b then mret None
  else
    let ret := wr_end b in
    check (negb (wr_capacity b =? 0)) UB_div0 ;;
    next ← int_op (wr_end b + 1);
    put (set_queue (wr_count b + 1) (wr_start b) (Z.rem next (wr_capacity b)) b) ;;
    mret (Some ret).

Definition seat_at (k : Z) : cm barber_shop_mem wr_seat :=
  b ← get; lift UB_bounds (aget (waiting_room b) k).
Definition put_seat (k : Z) (s : wr_seat) : cm barber_shop_mem unit :=
  b ← get; r ← lift UB_bounds (aset (waiting_room b) k s); put (set_room r b).

(** [initialize_barber]. *)
Definition initialize_barber (wr_cap : Z) : barber_shop_mem :=
  Shop empty_seat 1 0 0 0 false wr_cap 0 0 0 (replicate (Z.to_nat wr_cap) empty_seat).

(** ** barber.c and client.c *)

(** Where the barber is in its loop; waiting on a semaphore and posting it are
    steps of their own. *)
Inductive bpc :=
  | BWait                (* wait for the mutex *)
  | BLook                (* pop a seat, or go to sleep *)
  | BInvite (k : Z)      (* post the semaphore of the seat *)
  | BUnlock              (* post the mutex *)
  | BSleepUnlock
  | BSleep               (* wait to be woken *)
  | BCust1               (* wait for the customer to sit *)
  | BCut                 (* post [sem_barber_ready] *)
  | BCust2.              (* wait for the customer to leave *)

(** Where a client is. *)
Inductive cpc :=
  | CStart
  | CLock                (* wait for the mutex *)
  | CLook                (* is the barber asleep? *)
  | CWakeUnlock
  | CSit                 (* sit in the chair, having woken the barber *)
  | CFullUnlock          (* no free seat: leave *)
  | CSeat (k : Z)        (* take the seat *)
  | CUnlock (k : Z)
  | CWaitSeat (k : Z)    (* wait to be invited *)
  | CSitFrom (k : Z)     (* sit in the chair, from the seat *)
  | CCust                (* post [sem_customer_ready] *)
  | CReady               (* wait for the haircut *)
  | CDone                (* empty the chair *)
  | CLeave               (* post [sem_customer_ready] *)
  | CExit.

#[export] Instance bpc_eq_dec : EqDecision bpc.
Proof. solve_decision. Defined.
#[export] Instance cpc_eq_dec : EqDecision cpc.
Proof. solve_decision. Defined.

Record client := Client { c_pc : cpc; c_pid : Z; haircuts : Z }.

Record shop := St { bs : barber_shop_mem; barber : bpc; clients : list client; cuts : list Z }.

Definition goto (c : client) (pc : cpc) : client := Client pc (c_pid c) (haircuts c).

(** [sem_wait] on a semaphore of value [v]. *)
Definition wait_on (v : Z) (s : shop) : sres shop := if 0 <? v then Step s else Blocked.

(** The shared memory after an operation on it. *)
Definition on_bs {A} (o : outcome barber_shop_mem A) (k : A -> barber_shop_mem -> sres shop) : sres shop :=
  match o with
  | Done a b => k a b
  | Undef u => Fault u
  | Exited _ _ | NoFuel => Blocked
  end.

(** A step of the barber's loop. *)
Definition barber_step (s : shop) : sres shop :=
  let b := bs s in
  let go b' pc := St b' pc (clients s) (cuts s) in
  match barber s with
  | BWait => wait_on (mx_waiting_room b) (go (add_mx (-1) b) BLook)
  | BLook =>
      on_bs (wr_pop b) (fun next b' =>
        match next with
        | Some k => Step (go b' (BInvite k))
        | None => Step (go (set_flag true b') BSleepUnlock)
        end)
  | BInvite k =>
      on_bs ((x ← seat_at k; put_seat k (Seat (taken x) (pid x) (waiting x + 1))) b)
        (fun _ b' => Step (go b' BUnlock))
  | BUnlock => Step (go (add_mx 1 b) BCust1)
  | BSleepUnlock => Step (go (add_mx 1 b) BSleep)
  | BSleep => wait_on (sem_barber_sleeping b) (go (add_sleeping (-1) b) BCust1)
  | BCust1 => wait_on (sem_customer_ready b) (go (add_customer (-1) b) BCut)
  | BCut => Step (St (add_ready 1 b) BCust2 (clients s) (cuts s ++ [pid (barber_chair b)]))
  | BCust2 => wait_on (sem_customer_ready b) (go (add_customer (-1) b) BWait)
  end.

(** A step of client [i]. *)
Definition client_step (i : nat) (c : client) (s : shop) : sres shop :=
  let b := bs s in
  let go b' pc := St b' (barber s) (<[i := goto c pc]> (clients s)) (cuts s) in
  match c_pc c with
  | CStart =>
      if 0 <? haircuts c
      then Step (St b (barber s) (<[i := Client CLock (c_pid c) (haircuts c - 1)]> (clients s)) (cuts s))
      else Step (go b CExit)
  | CLock => wait_on (mx_waiting_room b) (go (add_mx (-1) b) CLook)
  | CLook =>
      if barber_sleeping b then Step (go (add_sleeping 1 (set_flag false b)) CWakeUnlock)
      else
        on_bs (wr_push b) (fun seat b' =>
          match seat with
          | None => Step (go b' CFullUnlock)
          | Some k => Step (go b' (CSeat k))
          end)
  | CWakeUnlock => Step (go (add_mx 1 b) CSit)
  | CSit => Step (go (set_chair (new_seat (c_pid c)) b) CCust)
  | CFullUnlock => Step (go (add_mx 1 b) CExit)
  | CSeat k => on_bs (put_seat k (new_seat (c_pid c)) b) (fun _ b' => Step (go b' (CUnlock k)))
  | CUnlock k => Step (go (add_mx 1 b) (CWaitSeat k))
  | CWaitSeat k =>
      on_bs (seat_at k b) (fun x _ =>
        if 0 <? waiting x then
          on_bs (put_seat k (Seat (taken x) (pid x) (waiting x - 1)) b) (fun _ b' => Step (go b' (CSitFrom k)))
        else Blocked)
  | CSitFrom k => Step (go (set_chair (new_seat (c_pid c)) b) CCust)
  | CCust => Step (go (add_customer 1 b) CReady)
  | CReady => wait_on (sem_barber_ready b) (go (add_ready (-1) b) CDone)
  | CDone => Step (go (set_chair empty_seat b) CLeave)
  | CLeave => Step (go (add_customer 1 b) CStart)
  | CExit => Blocked
  end.

Inductive label := LBarber | LClient (i : nat).

Definition exec (l : label) (s : shop) : sres shop :=
  match l with
  | LBarber => barber_step s
  | LClient i => match clients s !! i with Some c => client_step i c s | None => Blocked end
  end.

(** The shop opens: any clients that will come, at any time (those the
    listener spawns at the start and those it spawns later). *)
Definition shop_init (wr_cap : Z) (cs : list (Z * Z)) : shop :=
  St (initialize_barber wr_cap) BWait (map (fun c => Client CStart c.1 c.2) cs) [].
