(* ===== verification/BarberSafe.v ===== *)
(** The shop of [Barber.v] is safe: one client is served at a time, the queue
    of the waiting room is sound, and nothing goes wrong in the shared memory;
    and it can still come to a stop. *)
From S2P Require Import Prelude Barber.
#[local] Open Scope Z_scope.

Definition b2z (b : bool) : Z := if b then 1 else 0.

(** ** The invariant *)

(** On the way to the chair. *)
Definition arriving (c : client) : bool :=
  match c_pc c with CWakeUnlock | CSit | CSitFrom _ | CCust => true | _ => false end.
(** In the chair, waiting for the haircut. *)
Definition seated (c : client) : bool := match c_pc c with CReady => true | _ => false end.
(** Leaving the chair. *)
Definition leaving (c : client) : bool := match c_pc c with CDone | CLeave => true | _ => false end.

Definition served (c : client) : bool := arriving c || seated c || leaving c.

(** Holding the mutex. *)
Definition c_holds (c : client) : bool :=
  match c_pc c with CLook | CWakeUnlock | CFullUnlock | CSeat _ | CUnlock _ => true | _ => false end.
Definition b_holds (pc : bpc) : bool :=
  match pc with BLook | BInvite _ | BUnlock | BSleepUnlock => true | _ => false end.

Definition num (f : client -> bool) (s : shop) : Z := Z.of_nat (countb f (clients s)).

Definition holders (s : shop) : Z := b2z (b_holds (barber s)) + num c_holds s.

(** Invitations that are not taken yet. *)
Definition invited (s : shop) : Z := sumz waiting (waiting_room (bs s)).

(** The seat a process refers to. *)
Definition c_seat (pc : cpc) : option Z :=
  match pc with CSeat k | CUnlock k | CWaitSeat k | CSitFrom k => Some k | _ => None end.
Definition b_seat (pc : bpc) : option Z := match pc with BInvite k => Some k | _ => None end.

Definition seat_ok (cap : Z) (o : option Z) : Prop := forall k, o = Some k -> 0 <= k < cap.

(** What the barber's place in the loop says about everyone else. *)
Definition phase (s : shop) : Prop :=
  let b := bs s in
  let flag := barber_sleeping b in
  let sl := sem_barber_sleeping b in let rd := sem_barber_ready b in let cu := sem_customer_ready b in
  let a := num arriving s in let r := num seated s in let d := num leaving s in
  match barber s with
  | BWait | BLook | BInvite _ =>
      flag = false /\ sl = 0 /\ rd = 0 /\ cu = 0 /\ a = 0 /\ r = 0 /\ d = 0 /\ invited s = 0
  | BUnlock | BCust1 =>
      flag = false /\ sl = 0 /\ rd = 0 /\ cu = r /\ d = 0 /\ invited s + a + r <= 1
  | BSleepUnlock | BSleep =>
      rd = 0 /\ cu = r /\ d = 0 /\ invited s = 0 /\ a + r + b2z flag = 1 /\ sl = 1 - b2z flag
  | BCut => flag = false /\ sl = 0 /\ rd = 0 /\ cu = 0 /\ a = 0 /\ r = 1 /\ d = 0 /\ invited s = 0
  | BCust2 => flag = false /\ sl = 0 /\ a = 0 /\ invited s = 0 /\ r + d + cu = 1 /\ rd = r /\ 0 <= cu
  end.

(** After waking up by the sleeping path the flag is down. *)
Record queue_ok (b : barber_shop_mem) : Prop := {
  q_cap : 0 <= wr_capacity b <= INT_MAX;
  q_room : Z.of_nat (length (waiting_room b)) = wr_capacity b;
  q_count : 0 <= wr_count b <= wr_capacity b;
  q_start : 0 <= wr_start b /\ (0 < wr_capacity b -> wr_start b < wr_capacity b);
  q_end : 0 < wr_capacity b -> wr_end b = (wr_start b + wr_count b) mod wr_capacity b;
  q_waiting : forall x, x ∈ waiting_room b -> 0 <= waiting x;
}.

Record inv (cap : Z) (s : shop) : Prop := {
  i_queue : queue_ok (bs s);
  i_cap : wr_capacity (bs s) = cap;
  i_mx : mx_waiting_room (bs s) + holders s = 1 /\ 0 <= mx_waiting_room (bs s);
  i_bseat : seat_ok cap (b_seat (barber s));
  i_cseat : forall i c, clients s !! i = Some c -> seat_ok cap (c_seat (c_pc c));
  i_phase : phase s;
}.

(** ** Updates *)

Lemma num_insert f s i c c' b pc cs :
  clients s !! i = Some c ->
  num f (St b pc (<[i := c']> (clients s)) cs) = num f s - b2z (f c) + b2z (f c').
Proof.
  intros Hc. unfold num. cbn [clients]. pose proof (countb_insert f (clients s) i c c' Hc) as H.
  destruct (f c), (f c'); cbn [b2z]; lia.
Qed.

Lemma num_le f s i c : clients s !! i = Some c -> f c = true -> 1 <= num f s.
Proof. intros Hc Hf. unfold num. pose proof (countb_pos f (clients s) i c Hc Hf). lia. Qed.

Lemma num_nonneg f s : 0 <= num f s.
Proof. unfold num. lia. Qed.

Lemma invited_seat b k x y :
  queue_ok b -> aget (waiting_room b) k = Some x ->
  sumz waiting (<[Z.to_nat k := y]> (waiting_room b)) = sumz waiting (waiting_room b) - waiting x + waiting y.
Proof. intros _ [_ Hx]%aget_Some. by apply sumz_insert. Qed.

Lemma sumz_seats l : (forall x, x ∈ l -> 0 <= waiting x) -> 0 <= sumz waiting l.
Proof.
  induction l as [|x l IH]; intros Hl; simpl; [lia|].
  assert (0 <= waiting x) by (apply Hl; by left).
  assert (0 <= sumz waiting l); [|lia]. apply IH. intros y Hy. apply Hl. by right.
Qed.

Lemma invited_nonneg b : queue_ok b -> 0 <= sumz waiting (waiting_room b).
Proof. intros [_ _ _ _ _ Hw]. by apply sumz_seats. Qed.

Lemma waiting_le b k x :
  queue_ok b -> aget (waiting_room b) k = Some x -> 0 <= waiting x <= sumz waiting (waiting_room b).
Proof.
  intros [_ _ _ _ _ Hw] [_ Hx]%aget_Some. split; [by apply Hw; eapply list_elem_of_lookup_2|].
  pose proof (sumz_insert waiting _ _ x (Seat (taken x) (pid x) 0) Hx) as E. simpl in E.
  pose proof (sumz_seats (<[Z.to_nat k := Seat (taken x) (pid x) 0]> (waiting_room b))) as H.
  assert (0 <= sumz waiting (<[Z.to_nat k := Seat (taken x) (pid x) 0]> (waiting_room b))); [|lia].
  apply H. intros y [j Hy]%list_elem_of_lookup.
  apply list_lookup_insert_Some in Hy as [(_ & <- & _)|(_ & Hy)]; [simpl; lia|].
  apply Hw. by eapply list_elem_of_lookup_2.
Qed.

(** A queue operation that only touches the seats keeps the queue. *)
Lemma queue_put b k x y :
  queue_ok b -> aget (waiting_room b) k = Some x -> 0 <= waiting y ->
  queue_ok (set_room (<[Z.to_nat k := y]> (waiting_room b)) b).
Proof.
  intros [Hc Hr Hn Hs He Hw] Hx Hy. split; simpl; try done.
  - by rewrite length_insert.
  - intros z [j Hz]%list_elem_of_lookup. apply list_lookup_insert_Some in Hz as [(_ & <- & _)|(_ & Hz)]; [done|].
    apply Hw. by eapply list_elem_of_lookup_2.
Qed.

Lemma wr_pop_eq b : queue_ok b ->
  wr_pop b = if wr_count b <=? 0 then Done None b
             else Done (Some (wr_start b))
                    (set_queue (wr_count b - 1) ((wr_start b + 1) mod wr_capacity b) (wr_end b) b).
Proof.
  intros [Hc Hr Hn Hs He Hw]. unfold wr_pop. cm_step.
  destruct (Z.leb_spec (wr_count b) 0); [done|].
  destruct (Z.eqb_spec (wr_capacity b) 0); [lia|]. simpl.
  rewrite int_op_ok by (unfold INT_MIN, INT_MAX in *; lia).
  by rewrite Z.rem_mod_nonneg by lia.
Qed.

Lemma wr_push_eq b : queue_ok b ->
  wr_push b = if wr_capacity b <=? wr_count b then Done None b
              else Done (Some (wr_end b))
                     (set_queue (wr_count b + 1) (wr_start b) ((wr_end b + 1) mod wr_capacity b) b).
Proof.
  intros [Hc Hr Hn Hs He Hw]. unfold wr_push. cm_step.
  destruct (Z.leb_spec (wr_capacity b) (wr_count b)); [done|].
  destruct (Z.eqb_spec (wr_capacity b) 0); [lia|]. simpl.
  assert (0 <= wr_end b < wr_capacity b) by (rewrite He by lia; apply Z.mod_pos_bound; lia).
  rewrite int_op_ok by (unfold INT_MIN, INT_MAX in *; lia).
  by rewrite Z.rem_mod_nonneg by lia.
Qed.

Lemma queue_pop b : queue_ok b -> 0 < wr_count b ->
  queue_ok (set_queue (wr_count b - 1) ((wr_start b + 1) mod wr_capacity b) (wr_end b) b).
Proof.
  intros [Hc Hr Hn Hs He Hw] H. pose proof (Z.mod_pos_bound (wr_start b + 1) (wr_capacity b) ltac:(lia)).
  split; simpl; try done; try lia. intros Hcap. rewrite He by done. rewrite Zplus_mod_idemp_l. f_equal. lia.
Qed.

Lemma queue_push b : queue_ok b -> wr_count b < wr_capacity b ->
  queue_ok (set_queue (wr_count b + 1) (wr_start b) ((wr_end b + 1) mod wr_capacity b) b).
Proof.
  intros [Hc Hr Hn Hs He Hw] H. split; simpl; try done; try lia.
  intros Hcap. rewrite He by done. rewrite Zplus_mod_idemp_l. f_equal. lia.
Qed.

Lemma wr_end_range b : queue_ok b -> wr_count b < wr_capacity b -> 0 <= wr_end b < wr_capacity b.
Proof. intros [Hc Hr Hn Hs He Hw] H. rewrite He by lia. apply Z.mod_pos_bound. lia. Qed.

Lemma holds_excl s : holders s <= 1 -> mx_waiting_room (bs s) + holders s = 1 ->
  mx_waiting_room (bs s) = 1 - holders s.
Proof. lia. Qed.

(** A step of client [i]: what has to be shown of the new state. *)
Lemma inv_client cap s i c c' b' :
  inv cap s -> clients s !! i = Some c -> queue_ok b' -> wr_capacity b' = cap ->
  mx_waiting_room b' + b2z (c_holds c') = mx_waiting_room (bs s) + b2z (c_holds c) ->
  0 <= mx_waiting_room b' -> seat_ok cap (c_seat (c_pc c')) ->
  phase (St b' (barber s) (<[i := c']> (clients s)) (cuts s)) ->
  inv cap (St b' (barber s) (<[i := c']> (clients s)) (cuts s)).
Proof.
  intros [Hq Hcap [Hmx Hmx0] Hb Hc Hph] Hi Hq' Hcap' Hm Hm0 Hs Hph'. split; try done.
  - unfold holders in *. cbn [bs barber] in *. rewrite (num_insert _ _ _ c) by done. split; lia.
  - intros j cj Hj. apply list_lookup_insert_Some in Hj as [(_ & <- & _)|(_ & Hj)]; [done|]. by eapply Hc.
Qed.

Lemma inv_barber cap s b' pc' cs :
  inv cap s -> queue_ok b' -> wr_capacity b' = cap ->
  mx_waiting_room b' + b2z (b_holds pc') = mx_waiting_room (bs s) + b2z (b_holds (barber s)) ->
  0 <= mx_waiting_room b' -> seat_ok cap (b_seat pc') ->
  phase (St b' pc' (clients s) cs) -> inv cap (St b' pc' (clients s) cs).
Proof.
  intros [Hq Hcap [Hmx Hmx0] Hb Hc Hph] Hq' Hcap' Hm Hm0 Hs Hph'. split; try done.
  unfold holders, num in *. cbn [bs barber clients] in *. split; lia.
Qed.

#[local] Arguments countb : simpl never.
#[local] Arguments sumz : simpl never.

(** Closes the phase of the new state, from that of the old one. *)
Ltac phase_close :=
  repeat match goal with H : _ /\ _ |- _ => destruct H end; repeat split; first [assumption | congruence | lia].
Ltac phase_tac := unfold phase, num, invited in *; cbn in *; phase_close.

Lemma queue_same b b' :
  queue_ok b -> wr_capacity b' = wr_capacity b -> wr_count b' = wr_count b -> wr_start b' = wr_start b ->
  wr_end b' = wr_end b -> waiting_room b' = waiting_room b -> queue_ok b'.
Proof. intros [? ? ? ? ? ?] E1 E2 E3 E4 E5. split; rewrite ?E1, ?E2, ?E3, ?E4, ?E5; done. Qed.

Definition safe_step (cap : Z) (r : sres shop) : Prop :=
  match r with Step s' => inv cap s' | Blocked => True | Fault _ => False end.

Lemma barber_step_safe cap s : inv cap s -> safe_step cap (barber_step s).
Proof.
  intros Hinv. pose proof Hinv as [Hq Hcap [Hmx Hmx0] Hb _ Hph].
  unfold barber_step, wait_on. unfold phase in Hph. destruct (barber s) eqn:Epc; cbn [b_seat] in Hb.
  - destruct (Z.ltb_spec 0 (mx_waiting_room (bs s))); [|done].
    apply inv_barber; try done; cbn; rewrite ?Epc; cbn; try lia; try (by apply (queue_same (bs s))); try phase_tac.
  - rewrite wr_pop_eq by done. destruct (Z.leb_spec (wr_count (bs s)) 0); cbn.
    + apply inv_barber; try done; cbn; rewrite ?Epc; cbn; try lia; try (by apply (queue_same (bs s))); try phase_tac.
    + pose proof Hq as [Qc _ Qn Qs _ _].
      apply inv_barber; try done; cbn; rewrite ?Epc; cbn; try lia; try phase_tac; [by apply queue_pop|].
      intros k [= <-]. lia.
  - assert (0 <= k < cap) as Hk by by apply Hb. pose proof Hq as [_ Qr _ _ _ Qw].
    destruct (aget_is_Some (waiting_room (bs s)) k) as [x Hx]; [lia|].
    unfold seat_at, put_seat. cm_step. rewrite Hx. simpl. rewrite aset_ok by lia. simpl.
    pose proof (waiting_le _ _ _ Hq Hx) as Hw.
    apply inv_barber; try done; cbn; rewrite ?Epc; cbn; try lia.
    + apply (queue_put _ _ x); [done|done|simpl; lia].
    + unfold phase, num, invited in *. cbn. rewrite (invited_seat _ _ x) by done. simpl. phase_close.
  - apply inv_barber; try done; cbn; rewrite ?Epc; cbn; try lia; try (by apply (queue_same (bs s))); try phase_tac.
  - apply inv_barber; try done; cbn; rewrite ?Epc; cbn; try lia; try (by apply (queue_same (bs s))); try phase_tac.
  - destruct (Z.ltb_spec 0 (sem_barber_sleeping (bs s))); [|done].
    apply inv_barber; try done; cbn; rewrite ?Epc; cbn; try lia; try (by apply (queue_same (bs s))).
    unfold phase, num, invited in *. cbn in *. destruct (barber_sleeping (bs s)); cbn in *; [lia|]. phase_close.
  - destruct (Z.ltb_spec 0 (sem_customer_ready (bs s))); [|done].
    pose proof (num_nonneg arriving s). pose proof (invited_nonneg _ Hq).
    apply inv_barber; try done; cbn; rewrite ?Epc; cbn; try lia; try (by apply (queue_same (bs s))); try phase_tac.
  - apply inv_barber; try done; cbn; rewrite ?Epc; cbn; try lia; try (by apply (queue_same (bs s))); try phase_tac.
  - destruct (Z.ltb_spec 0 (sem_customer_ready (bs s))); [|done].
    pose proof (num_nonneg seated s). pose proof (num_nonneg leaving s).
    apply inv_barber; try done; cbn; rewrite ?Epc; cbn; try lia; try (by apply (queue_same (bs s))); try phase_tac.
Qed.

(** What the class of a client was adds to the counts. *)
Lemma num_facts s i c : clients s !! i = Some c ->
  b2z (arriving c) <= num arriving s /\ b2z (seated c) <= num seated s /\ b2z (leaving c) <= num leaving s /\
  b2z (c_holds c) <= num c_holds s.
Proof.
  intros Hc. repeat split;
    match goal with |- b2z (?f c) <= _ => destruct (f c) eqn:E; [by apply (num_le f s i c)|apply num_nonneg] end.
Qed.

(** The phase after a client's step: the counts are rewritten, and the place
    of the barber is split. *)
Ltac client_phase Hi :=
  let Hp := fresh in
  match goal with H : phase ?s |- _ => pose proof H as Hp end;
  unfold phase, invited in Hp |- *; cbn [barber bs] in Hp |- *;
  rewrite !(num_insert _ _ _ _ _ _ _ _ Hi); cbn in Hp |- *;
  match goal with |- context [match barber ?s with _ => _ end] => destruct (barber s) end;
  try match goal with E : barber_sleeping (bs ?s) = ?v |- _ =>
    match type of Hp with context [barber_sleeping _] => rewrite !E in Hp end; try rewrite !E end;
  cbn in *; try phase_close.

Lemma client_step_safe cap s i c : inv cap s -> clients s !! i = Some c -> safe_step cap (client_step i c s).
Proof.
  intros Hinv Hi. pose proof Hinv as [Hq Hcap [Hmx Hmx0] _ Hcs Hph].
  pose proof (num_facts s i c Hi) as (Ha & Hr & Hd & Hh). specialize (Hcs i c Hi).
  pose proof (num_nonneg arriving s) as Na. pose proof (num_nonneg seated s) as Nr. pose proof (num_nonneg leaving s) as Nd.
  pose proof (invited_nonneg _ Hq) as Nw.
  unfold client_step, wait_on. destruct c as [pc p h]. cbn [c_pc c_pid haircuts] in *.
  assert (forall f c', num f (St (bs s) (barber s) (<[i := c']> (clients s)) (cuts s)) =
    num f s - b2z (f (Client pc p h)) + b2z (f c')) as Hnum by (intros f c'; by apply num_insert).
  assert (holders s <= 1) as Hh1 by lia.
  destruct pc; cbn in Ha, Hr, Hd, Hh, Hcs.
  - destruct (0 <? h); (eapply inv_client; try done; client_phase Hi).
  - destruct (Z.ltb_spec 0 (mx_waiting_room (bs s))); [|done].
    eapply inv_client; try done; cbn; try lia; [by apply (queue_same (bs s))|]. client_phase Hi.
  - destruct (barber_sleeping (bs s)) eqn:Hfl.
    + eapply inv_client; try done; cbn; try lia; [by apply (queue_same (bs s))|]. client_phase Hi.
    + rewrite wr_push_eq by done. destruct (Z.leb_spec (wr_capacity (bs s)) (wr_count (bs s))); cbn.
      * eapply inv_client; try done; cbn; try lia. client_phase Hi.
      * pose proof (wr_end_range _ Hq ltac:(lia)).
        eapply inv_client; try done; cbn; try lia; [by apply queue_push| |client_phase Hi].
        intros k [= <-]. lia.
  - eapply inv_client; try done; cbn; try lia; [by apply (queue_same (bs s))|]. client_phase Hi.
  - eapply inv_client; try done; cbn; try lia; [by apply (queue_same (bs s))|]. client_phase Hi.
  - eapply inv_client; try done; cbn; try lia; [by apply (queue_same (bs s))|]. client_phase Hi.
  - assert (0 <= k < cap) as Hk by by apply Hcs. pose proof Hq as [_ Qr _ _ _ _].
    destruct (aget_is_Some (waiting_room (bs s)) k) as [x Hx]; [lia|]. pose proof (waiting_le _ _ _ Hq Hx) as Hw.
    unfold put_seat. cm_step. rewrite aset_ok by lia. simpl.
    eapply inv_client; try done; cbn; try lia; [by apply (queue_put _ _ x)|].
    assert (sumz waiting (<[Z.to_nat k := new_seat p]> (waiting_room (bs s))) <= invited s) as HW.
    { rewrite (invited_seat _ _ x) by done. unfold invited. simpl. lia. }
    pose proof (sumz_seats _ (q_waiting _ (queue_put _ _ _ (new_seat p) Hq Hx ltac:(done)))) as HW0. cbn in HW0.
    unfold invited in HW. client_phase Hi.
  - eapply inv_client; try done; cbn; try lia; [by apply (queue_same (bs s))|]. client_phase Hi.
  - assert (0 <= k < cap) as Hk by by apply Hcs. pose proof Hq as [_ Qr _ _ _ _].
    destruct (aget_is_Some (waiting_room (bs s)) k) as [x Hx]; [lia|]. pose proof (waiting_le _ _ _ Hq Hx) as Hw.
    unfold seat_at, put_seat. cm_step. rewrite Hx. simpl. destruct (Z.ltb_spec 0 (waiting x)); [|done].
    rewrite aset_ok by lia. simpl.
    eapply inv_client; try done; cbn; try lia; [apply (queue_put _ _ x); [done|done|simpl; lia]|].
    assert (sumz waiting (<[Z.to_nat k := Seat (taken x) (pid x) (waiting x - 1)]> (waiting_room (bs s))) =
      sumz waiting (waiting_room (bs s)) - 1) as HW by (rewrite (invited_seat _ _ x) by done; simpl; lia).
    client_phase Hi.
  - eapply inv_client; try done; cbn; try lia; [by apply (queue_same (bs s))|]. client_phase Hi.
  - eapply inv_client; try done; cbn; try lia; [by apply (queue_same (bs s))|]. client_phase Hi.
  - destruct (Z.ltb_spec 0 (sem_barber_ready (bs s))); [|done].
    eapply inv_client; try done; cbn; try lia; [by apply (queue_same (bs s))|]. client_phase Hi.
  - eapply inv_client; try done; cbn; try lia; [by apply (queue_same (bs s))|]. client_phase Hi.
  - eapply inv_client; try done; cbn; try lia; [by apply (queue_same (bs s))|]. client_phase Hi.
  - done.
Qed.

Lemma inv_step cap l s : inv cap s -> safe_step cap (exec l s).
Proof.
  intros H. destruct l as [|i]; simpl; [by apply barber_step_safe|].
  destruct (clients s !! i) as [c|] eqn:E; [by apply client_step_safe|done].
Qed.

Lemma inv_init cap cs : 0 <= cap <= INT_MAX -> inv cap (shop_init cap cs).
Proof.
  intros Hcap.
  assert (forall i c, map (fun c => Client CStart c.1 c.2) cs !! i = Some c -> c_pc c = CStart) as Hst.
  { intros i c. rewrite list_lookup_fmap. destruct (cs !! i); [|done]. by intros [= <-]. }
  assert (forall f, (forall c, c_pc c = CStart -> f c = false) -> num f (shop_init cap cs) = 0) as Hnum.
  { intros f Hf. unfold num. simpl. rewrite countb_zero; [done|]. intros i c Hc. apply Hf. by eapply Hst. }
  assert (sumz waiting (replicate (Z.to_nat cap) empty_seat) = 0) as Hw.
  { induction (Z.to_nat cap) as [|n IH]; [done|]. change (0 + sumz waiting (replicate n empty_seat) = 0). lia. }
  split; try done.
  - split; cbn [bs shop_init initialize_barber wr_capacity wr_count wr_start wr_end waiting_room]; try lia.
    + rewrite length_replicate. lia.
    + intros H. by rewrite Z.mod_0_l by lia.
    + intros x [j [-> _]%lookup_replicate]%list_elem_of_lookup. simpl. lia.
  - unfold holders. rewrite Hnum; [simpl; lia|]. intros [pc p h] E. simpl in E. by subst.
  - intros i c Hc k. by rewrite (Hst i c Hc).
  - unfold phase. simpl. rewrite !Hnum; [done|..]; intros [pc p h] E; simpl in E; by subst.
Qed.

Lemma reach_shop cap cs s : 0 <= cap <= INT_MAX -> reach exec (shop_init cap cs) s -> inv cap s.
Proof.
  intros Hcap. apply reach_inv; [by apply inv_init|].
  intros l s1 s2 H1 E. pose proof (inv_step cap l s1 H1) as H. by rewrite E in H.
Qed.

(** A client that is being served excludes every other. *)
Lemma one_served cap s : inv cap s -> num arriving s + num seated s + num leaving s <= 1.
Proof.
  intros [Hq _ _ _ _ Hph]. pose proof (num_nonneg arriving s). pose proof (num_nonneg seated s).
  pose proof (num_nonneg leaving s). pose proof (invited_nonneg _ Hq). unfold phase, invited in Hph.
  destruct (barber s); try lia.
  all: destruct (barber_sleeping (bs s)); cbn [b2z] in Hph; lia.
Qed.

Lemma served_alone cap s i j c d : inv cap s ->
  clients s !! i = Some c -> clients s !! j = Some d -> served c = true -> served d = true -> i = j.
Proof.
  intros Hinv Hi Hj Hc Hd. destruct (decide (i = j)) as [|Hne]; [done|exfalso].
  pose proof (one_served cap s Hinv) as H1.
  set (s' := St (bs s) (barber s) (<[j := goto d CExit]> (clients s)) (cuts s)).
  assert (clients s' !! i = Some c) as Hi' by (simpl; by rewrite list_lookup_insert_ne).
  destruct (num_facts s' i c Hi') as (Ha & Hr & Hl & _).
  pose proof (num_nonneg arriving s'). pose proof (num_nonneg seated s'). pose proof (num_nonneg leaving s').
  assert (forall f, num f s' = num f s - b2z (f d) + b2z (f (goto d CExit))) as Hn by (intros f; by apply num_insert).
  rewrite !Hn in *. change (b2z (arriving (goto d CExit))) with 0 in *.
  change (b2z (seated (goto d CExit))) with 0 in *. change (b2z (leaving (goto d CExit))) with 0 in *.
  unfold served in Hc, Hd.
    destruct (arriving c), (seated c), (leaving c), (arriving d), (seated d), (leaving d); try done;
    cbn [b2z] in *; lia.
Qed.

(** Sitting in the barber's chair. *)
Definition in_chair (pc : cpc) : bool :=
  match pc with CCust | CReady | CDone => true | _ => false end.

(** The chair is its occupant's. *)
Definition chair_ok (s : shop) : Prop :=
  forall i c, clients s !! i = Some c -> in_chair (c_pc c) = true -> pid (barber_chair (bs s)) = c_pid c.

Lemma in_chair_served c : in_chair (c_pc c) = true -> served c = true.
Proof. unfold served, arriving, seated, leaving. by destruct (c_pc c). Qed.

Lemma chair_client cap s i c c' b pc cs :
  inv cap s -> chair_ok s -> clients s !! i = Some c ->
  barber_chair b = barber_chair (bs s) \/ served c = true ->
  (in_chair (c_pc c') = true -> pid (barber_chair b) = c_pid c') ->
  chair_ok (St b pc (<[i := c']> (clients s)) cs).
Proof.
  intros Hinv Hok Hi Hch Hc' j d Hj Hd. cbn [clients bs] in *.
  apply list_lookup_insert_Some in Hj as [(<- & <- & _)|[Hne Hj]]; [by apply Hc'|].
  destruct Hch as [->|Hs]; [by apply (Hok j)|].
  destruct Hne. by apply (served_alone cap s i j c d Hinv Hi Hj Hs), in_chair_served.
Qed.

Lemma put_seat_chair k x b b' u : put_seat k x b = Done u b' -> barber_chair b' = barber_chair b.
Proof. unfold put_seat. cm_step. destruct (aset _ k x); simpl; [|done]. by intros [= _ <-]. Qed.

Lemma wr_push_chair b b' r : wr_push b = Done r b' -> barber_chair b' = barber_chair b.
Proof.
  unfold wr_push, int_op. cm_step. case_match; [by intros [= _ <-]|].
  destruct (negb _); simpl; [|done]. destruct (is_int _); simpl; [|done]. by intros [= _ <-].
Qed.

Lemma wr_pop_chair b b' r : wr_pop b = Done r b' -> barber_chair b' = barber_chair b.
Proof.
  unfold wr_pop, int_op. cm_step. case_match; [by intros [= _ <-]|].
  destruct (negb _); simpl; [|done]. destruct (is_int _); simpl; [|done]. by intros [= _ <-].
Qed.

(** A step of the barber leaves the chair and the clients alone. *)
Lemma barber_chair_step s s' : barber_step s = Step s' ->
  barber_chair (bs s') = barber_chair (bs s) /\ clients s' = clients s.
Proof.
  unfold barber_step, on_bs, wait_on. destruct (barber s).
  - case_match; [|done]. by intros [= <-].
  - destruct (wr_pop (bs s)) as [[k|] b'|c b'|u|] eqn:E; try done; intros [= <-]; split; try done;
      simpl; by eapply wr_pop_chair.
  - match goal with |- match ?o with _ => _ end = _ -> _ => destruct o as [u b'|c b'|u|] eqn:E end; try done.
    intros [= <-]. split; [|done]. simpl. revert E. unfold seat_at. cm_step. destruct (aget _ _); simpl; [|done]. apply put_seat_chair.
  - by intros [= <-].
  - by intros [= <-].
  - case_match; [|done]. by intros [= <-].
  - case_match; [|done]. by intros [= <-].
  - by intros [= <-].
  - case_match; [|done]. by intros [= <-].
Qed.

Lemma chair_client_step cap i c s s' :
  inv cap s -> chair_ok s -> clients s !! i = Some c -> client_step i c s = Step s' -> chair_ok s'.
Proof.
  intros Hinv Hok Hi. pose proof (Hok i c Hi) as Hic.
  assert (forall c' b pc cs, barber_chair b = barber_chair (bs s) \/ served c = true ->
    (in_chair (c_pc c') = true -> pid (barber_chair b) = c_pid c') ->
    chair_ok (St b pc (<[i := c']> (clients s)) cs)) as K by (intros; by eapply chair_client).
  destruct c as [pc p h]. unfold client_step, on_bs, wait_on; cbn [c_pc] in *. destruct pc; cbn [c_pid haircuts] in *.
  - case_match; intros [= <-]; apply K; auto; done.
  - case_match; [|done]. intros [= <-]. apply K; [by left|done].
  - case_match; [intros [= <-]; apply K; [by left|done]|].
    destruct (wr_push (bs s)) as [[k|] b'|c b'|u|] eqn:E; try done; intros [= <-];
      (apply K; [left; by eapply wr_push_chair|done]).
  - intros [= <-]. apply K; [by left|done].
  - intros [= <-]. apply K; [by right|done].
  - intros [= <-]. apply K; [by left|done].
  - destruct (put_seat _ _ _) as [u b'|c b'|u|] eqn:E; try done. intros [= <-].
    apply K; [left; by eapply put_seat_chair|done].
  - intros [= <-]. apply K; [by left|done].
  - destruct (seat_at _ _) as [x b'|c b'|u|] eqn:E; try done. case_match; [|done].
    destruct (put_seat _ _ _) as [u b''|c b''|u|] eqn:E'; try done. intros [= <-].
    apply K; [left; by eapply put_seat_chair|done].
  - intros [= <-]. apply K; [by right|done].
  - intros [= <-]. apply K; [by left|]. intros _. by apply Hic.
  - case_match; [|done]. intros [= <-]. apply K; [by left|]. intros _. by apply Hic.
  - intros [= <-]. apply K; [by right|done].
  - intros [= <-]. apply K; [by left|done].
  - done.
Qed.

Lemma reach_chair cap cs s :
  0 <= cap <= INT_MAX -> reach exec (shop_init cap cs) s -> inv cap s /\ chair_ok s.
Proof.
  intros Hcap. apply (reach_inv exec (fun s => inv cap s /\ chair_ok s)).
  - split; [by apply inv_init|]. intros i c Hc. simpl in Hc. rewrite list_lookup_fmap in Hc.
    destruct (cs !! i); [|done]. by injection Hc as <-.
  - intros l s1 s2 [H1 H2] E. pose proof (inv_step cap l s1 H1) as H. rewrite E in H. split; [done|].
    destruct l as [|i]; simpl in E.
    + destruct (barber_chair_step _ _ E) as [Hb Hc]. intros i c. rewrite Hb, Hc. apply H2.
    + destruct (clients s1 !! i) as [c|] eqn:Hi; [|done]. by apply (chair_client_step cap i c s1 s2).
Qed.

(** ** Properties *)


(** The barber cuts the hair of the client in the chair: when the barber
    starts a haircut, there is exactly one client waiting in the chair, nobody
    is coming to it or leaving it, and the name the haircut is recorded under
    is that client's. *)
Theorem haircut_of_the_seated (cap : Z) (cs : list (Z * Z)) (s s' : shop)
  (Hcap : 0 <= cap <= INT_MAX) (Hs : reach exec (shop_init cap cs) s) (Hb : barber s = BCut)
  (Hstep : exec LBarber s = Step s') :
  num arriving s = 0 /\ num seated s = 1 /\ num leaving s = 0 /\
  exists i c, clients s !! i = Some c /\ c_pc c = CReady /\ cuts s' = cuts s ++ [c_pid c].
Proof.
  destruct (reach_chair cap cs s Hcap Hs) as [[_ _ _ _ _ Hph] Hok].
  unfold phase in Hph. rewrite Hb in Hph. destruct Hph as (_ & _ & _ & _ & Ha & Hr & Hl & _).
  split; [done|split; [done|split; [done|]]].
  destruct (countb_pos_ex seated (clients s)) as (i & c & Hi & Hc); [unfold num in Hr; lia|].
  assert (c_pc c = CReady) as Hpc by (revert Hc; unfold seated; by destruct (c_pc c)).
  exists i, c. split; [done|split; [done|]]. simpl in Hstep. unfold barber_step in Hstep. rewrite Hb in Hstep.
  injection Hstep as <-. simpl. do 2 f_equal. apply (Hok i c Hi). by rewrite Hpc.
Qed.

(** One seat and two clients: the first takes the seat and is called; before
    it goes to the chair, the second takes the seat the barber has freed. *)
Definition lost_call : list label :=
  [LClient 0; LClient 0; LClient 0; LClient 0; LClient 0;
   LBarber; LBarber; LBarber; LBarber;
   LClient 1; LClient 1; LClient 1; LClient 1; LClient 1]%nat.

(** The shop can come to a stop with everyone waiting: a seat is reused
    while the client called from it has not left it, and sitting down sets the
    semaphore of the seat back to 0, so that the call is lost: both clients
    wait to be called and the barber for the one it has called. *)
Theorem barber_shop_deadlock :
  exists s, reach exec (shop_init 1 [(100, 1); (101, 1)]) s /\ stuck exec s /\
    barber s = BCust1 /\ map c_pc (clients s) = [CWaitSeat 0; CWaitSeat 0].
Proof.
  destruct (run exec lost_call (shop_init 1 [(100, 1); (101, 1)])) as [s|] eqn:E; [|vm_compute in E; discriminate].
  exists s. split; [eauto with model|].
  vm_compute in E. injection E as <-. split; [|split; reflexivity].
  intros [|[|[|i]]]; reflexivity.
Qed.


(** The barber sleeps, a client wakes him and sits down. *)
Definition one_haircut : list label :=
  [LBarber; LBarber; LBarber; LClient 0; LClient 0; LClient 0; LClient 0; LClient 0; LClient 0; LBarber; LBarber]%nat.

Lemma haircut_of_the_seated_witness :
  exists s s', reach exec (shop_init 2 [(7, 1)]) s /\ barber s = BCut /\ exec LBarber s = Step s' /\
  exists i c, clients s !! i = Some c /\ c_pc c = CReady /\ cuts s' = cuts s ++ [c_pid c].
Proof.
  destruct (run exec one_haircut (shop_init 2 [(7, 1)])) as [s|] eqn:E; [|vm_compute in E; discriminate].
  assert (Hr : reach exec (shop_init 2 [(7, 1)]) s) by (eauto with model).
  vm_compute in E. injection E as <-.
  eexists _, _. split; [exact Hr|split; [reflexivity|split; [reflexivity|]]].
  exact (proj2 (proj2 (proj2 (haircut_of_the_seated 2 _ _ _ ltac:(unfold INT_MAX; lia) Hr eq_refl eq_refl)))).
Defined.
