(* ===== verification/BarberLive.v ===== *)
(** The shop of [Barber.v] serves everyone: every schedule ends, and if there
    are no more clients than seats - the listener of cw07/zad1/src/barber.c
    starts as many as there are - each client gets all its haircuts, and nobody
    is turned away. *)
From S2P Require Import Prelude Barber BarberSafe.
#[local] Open Scope Z_scope.

(** ** Every schedule ends *)

(** What a client still has to do until it is back at [CStart], with what it
    makes the barber do. *)
Definition c_rank (pc : cpc) : Z :=
  match pc with
  | CStart => 1 | CExit => 0 | CFullUnlock => 1
  | CLock => 18 | CLook => 17 | CSeat _ => 15 | CUnlock _ => 14 | CWaitSeat _ => 13 | CSitFrom _ => 12
  | CWakeUnlock => 13 | CSit => 12 | CCust => 11 | CReady => 7 | CDone => 6 | CLeave => 5
  end.
Definition b_rank (pc : bpc) : Z :=
  match pc with
  | BWait => 3 | BLook => 2 | BInvite _ => 2 | BUnlock => 1 | BSleepUnlock => 1 | BSleep => 0
  | BCust1 => 0 | BCut => 2 | BCust2 => 1
  end.
Definition rank (c : client) : Z := c_rank (c_pc c) + 18 * Z.max 0 (haircuts c).

Definition weight (s : shop) : Z :=
  sumz rank (clients s) + b_rank (barber s) +
  3 * sem_customer_ready (bs s) + wr_count (bs s) + sem_barber_sleeping (bs s).

Lemma weight_client s i c c' b' cs :
  clients s !! i = Some c ->
  rank c' + 3 * sem_customer_ready b' + wr_count b' + sem_barber_sleeping b' <
  rank c + 3 * sem_customer_ready (bs s) + wr_count (bs s) + sem_barber_sleeping (bs s) ->
  weight (St b' (barber s) (<[i := c']> (clients s)) cs) < weight s.
Proof. intros Hi H. unfold weight. cbn [bs barber clients]. rewrite (sumz_insert rank _ _ c) by done. lia. Qed.

Lemma put_seat_same k x b b' u : put_seat k x b = Done u b' ->
  sem_customer_ready b' = sem_customer_ready b /\ wr_count b' = wr_count b /\
  sem_barber_sleeping b' = sem_barber_sleeping b.
Proof. unfold put_seat. cm_step. destruct (aset _ k x); simpl; [|done]. by intros [= _ <-]. Qed.

Lemma seat_at_same k b b' x : seat_at k b = Done x b' -> b' = b /\ aget (waiting_room b) k = Some x.
Proof. unfold seat_at. cm_step. destruct (aget _ k) eqn:E; simpl; [|done]. by intros [= <- <-]. Qed.

#[local] Arguments sumz : simpl never.
#[local] Arguments Z.mul : simpl never.
#[local] Arguments Z.max : simpl never.

Lemma barber_weight cap s s' : inv cap s -> barber_step s = Step s' -> weight s' < weight s.
Proof.
  intros [Hq _ _ _ _ _]. unfold barber_step, wait_on. destruct (barber s) eqn:E; unfold weight; rewrite E.
  - case_match; [|done]. intros [= <-]. simpl. lia.
  - rewrite wr_pop_eq by done. destruct (_ <=? 0); intros [= <-]; simpl; lia.
  - unfold on_bs. case_match eqn:Ep; try done. intros [= <-]. revert Ep. cm_step.
    destruct (seat_at k (bs s)) eqn:Es; try done. simpl. intros Ep.
    apply seat_at_same in Es as [-> _]. apply put_seat_same in Ep as (E1 & E2 & E3).
    cbn [bs barber clients b_rank]. lia.
  - intros [= <-]. simpl. lia.
  - intros [= <-]. simpl. lia.
  - case_match; [|done]. intros [= <-]. simpl. lia.
  - case_match; [|done]. intros [= <-]. simpl. lia.
  - intros [= <-]. simpl. lia.
  - case_match; [|done]. intros [= <-]. simpl. lia.
Qed.

Lemma client_weight cap s i c s' :
  inv cap s -> clients s !! i = Some c -> client_step i c s = Step s' -> weight s' < weight s.
Proof.
  intros [Hq _ _ _ _ _] Hi. unfold client_step, wait_on, on_bs.
  assert (forall c' b' cs, rank c' + 3 * sem_customer_ready b' + wr_count b' + sem_barber_sleeping b' <
    rank c + 3 * sem_customer_ready (bs s) + wr_count (bs s) + sem_barber_sleeping (bs s) ->
    weight (St b' (barber s) (<[i := c']> (clients s)) cs) < weight s) as K by (intros; by eapply weight_client).
  destruct c as [pc p h]; unfold rank in K; cbn [c_pc c_pid haircuts] in *; destruct pc; cbn [c_rank] in K.
  - destruct (Z.ltb_spec 0 h); intros [= <-]; apply K; simpl; lia.
  - case_match; [|done]. intros [= <-]; apply K; simpl; lia.
  - case_match; [intros [= <-]; apply K; simpl; lia|]. rewrite wr_push_eq by done.
    destruct (_ <=? _); intros [= <-]; apply K; simpl; lia.
  - intros [= <-]; apply K; simpl; lia.
  - intros [= <-]; apply K; simpl; lia.
  - intros [= <-]; apply K; simpl; lia.
  - case_match eqn:Ep; try done. intros [= <-]. apply put_seat_same in Ep as (E1 & E2 & E3). apply K; simpl; lia.
  - intros [= <-]; apply K; simpl; lia.
  - destruct (seat_at _ _); try done. case_match; [|done]. case_match eqn:Ep; try done.
    intros [= <-]. apply put_seat_same in Ep as (E1 & E2 & E3). apply K; simpl; lia.
  - intros [= <-]; apply K; simpl; lia.
  - intros [= <-]; apply K; simpl; lia.
  - case_match; [|done]. intros [= <-]; apply K; simpl; lia.
  - intros [= <-]; apply K; simpl; lia.
  - intros [= <-]; apply K; simpl; lia.
  - done.
Qed.

Lemma step_weight cap l s s' : inv cap s -> exec l s = Step s' -> inv cap s' /\ weight s' < weight s.
Proof.
  intros Hinv E. pose proof (inv_step cap l s Hinv) as H. rewrite E in H. split; [done|].
  destruct l as [|i]; simpl in E; [by eapply barber_weight|].
  destruct (clients s !! i) as [c|] eqn:Hi; [by eapply client_weight|done].
Qed.

Lemma run_shop_weight cap ls s s' :
  inv cap s -> run exec ls s = Some s' -> inv cap s' /\ weight s' + Z.of_nat (length ls) <= weight s.
Proof.
  revert s. induction ls as [|l ls IH]; intros s Hinv; simpl; [intros [= <-]; split; [done|lia]|].
  destruct (exec l s) as [s1| |] eqn:E; try done. intros Hr.
  destruct (step_weight cap l s s1 Hinv E) as [H1 Hw]. destruct (IH s1 H1 Hr) as [H2 Hw2]. split; [done|lia].
Qed.

Lemma weight_nonneg cap s : inv cap s -> 0 <= weight s.
Proof.
  intros [Hq _ _ _ _ Hph]. unfold weight.
  assert (0 <= sumz rank (clients s)) by (apply sumz_nonneg; intros [pc p h]; unfold rank; destruct pc; simpl; lia).
  assert (0 <= b_rank (barber s)) by (destruct (barber s); simpl; lia).
  pose proof (q_count _ Hq). pose proof (num_nonneg seated s). unfold phase in Hph.
  destruct (barber s), (barber_sleeping (bs s)); simpl in *; lia.
Qed.

(** Haircuts asked for. *)
Definition wanted (c : Z * Z) : Z := Z.max 0 c.2.

Lemma weight_start cap cs : weight (shop_init cap cs) = 3 + sumz (fun c => 1 + 18 * wanted c) cs.
Proof.
  unfold weight. simpl. assert (sumz rank (map (fun c => Client CStart c.1 c.2) cs) = sumz (fun c => 1 + 18 * wanted c) cs); [|lia].
  induction cs as [|c cs IH]; [done|]. unfold sumz in *. simpl. rewrite IH. unfold rank, wanted. simpl. lia.
Qed.

(** ** No call is lost if there are no more clients than seats *)

(** The clients in the waiting room, in the order of the queue; the first of
    them may have been called already and not have sat down yet. *)
Record lines (cap : Z) (s : shop) (line : list nat) (called : bool) : Prop := {
  l_nodup : NoDup line;
  l_few : Z.of_nat (length (clients s)) <= cap;
  l_count : Z.of_nat (length line) = wr_count (bs s) + b2z called;
  l_slot : forall (j i : nat), line !! j = Some i ->
    exists c, clients s !! i = Some c /\ c_seat (c_pc c) = Some ((wr_start (bs s) - b2z called + Z.of_nat j) mod cap);
  l_others : forall i c, clients s !! i = Some c -> c_seat (c_pc c) <> None -> i ∈ line;
  l_positive : forall k x, aget (waiting_room (bs s)) k = Some x -> 0 < waiting x ->
    called = true /\ exists i c, line !! 0%nat = Some i /\ clients s !! i = Some c /\ c_pc c = CWaitSeat k;
  l_called : called = true -> exists i c k, line !! 0%nat = Some i /\ clients s !! i = Some c /\
    (c_pc c = CSitFrom k \/
     c_pc c = CWaitSeat k /\ (barber s = BInvite k \/ exists x, aget (waiting_room (bs s)) k = Some x /\ 0 < waiting x));
  l_sit : forall i c k, clients s !! i = Some c -> c_pc c = CSitFrom k -> called = true /\ line !! 0%nat = Some i;
  l_stage : match barber s with
    | BInvite k => called = true /\ exists i c, line !! 0%nat = Some i /\ clients s !! i = Some c /\ c_pc c = CWaitSeat k
    | BUnlock | BCust1 => called = false -> 1 <= num arriving s + num seated s
    | _ => called = false
    end;
  l_flag : barber_sleeping (bs s) = true -> wr_count (bs s) = 0;
  l_room : forall i c, clients s !! i = Some c -> c_pc c <> CFullUnlock;
}.

Lemma line_index cap s line called j i : lines cap s line called -> line !! j = Some i -> (i < length (clients s))%nat.
Proof. intros L H. destruct (l_slot _ _ _ _ L j i H) as (c & Hc & _). by eapply lookup_lt_Some. Qed.

Lemma line_length cap s line called : lines cap s line called -> Z.of_nat (length line) <= cap.
Proof.
  intros L. assert (length line <= length (clients s))%nat; [|pose proof (l_few _ _ _ _ L); lia].
  apply nodup_bound; [apply (l_nodup _ _ _ _ L)|]. intros i [j Hj]%list_elem_of_lookup. by eapply line_index.
Qed.

(** There is room for a client that is not in line. *)
Lemma line_room cap s line called i c :
  lines cap s line called -> clients s !! i = Some c -> c_seat (c_pc c) = None -> Z.of_nat (length line) < cap.
Proof.
  intros L Hi Hc. assert (length (i :: line) <= length (clients s))%nat; [|pose proof (l_few _ _ _ _ L); cbn [length] in *; lia].
  apply nodup_bound.
  - constructor; [|apply (l_nodup _ _ _ _ L)]. intros [j Hj]%list_elem_of_lookup.
    destruct (l_slot _ _ _ _ L j i Hj) as (d & Hd & Hs). congruence.
  - intros x [->|[j Hj]%list_elem_of_lookup]%elem_of_cons; [by eapply lookup_lt_Some|by eapply line_index].
Qed.

Lemma slot_inj cap b (j j' : Z) : 0 <= j < cap -> 0 <= j' < cap -> (b + j) mod cap = (b + j') mod cap -> j = j'.
Proof.
  intros Hj Hj' H. assert ((j - j') mod cap = 0) as Hd.
  { replace (j - j') with ((b + j) - (b + j')) by lia. rewrite Zminus_mod, H, <- Zminus_mod. by rewrite Z.sub_diag, Z.mod_0_l by lia. }
  apply Z.mod_divide in Hd as [q Hq]; [|lia]. assert (q = 0) as -> by (assert (-1 < q < 1); [split|]; nia). lia.
Qed.

(** Two places in line with the same seat are the same place. *)
Lemma seat_place cap s line called j j' i i' c c' :
  lines cap s line called -> line !! j = Some i -> line !! j' = Some i' ->
  clients s !! i = Some c -> clients s !! i' = Some c' -> c_seat (c_pc c) = c_seat (c_pc c') -> i = i'.
Proof.
  intros L Hj Hj' Hi Hi' E. destruct (l_slot _ _ _ _ L j i Hj) as (d & Hd & Hs).
  destruct (l_slot _ _ _ _ L j' i' Hj') as (d' & Hd' & Hs').
  assert ((wr_start (bs s) - b2z called + Z.of_nat j) mod cap = (wr_start (bs s) - b2z called + Z.of_nat j') mod cap) as Hm by congruence.
  pose proof (line_length _ _ _ _ L). pose proof (lookup_lt_Some _ _ _ Hj). pose proof (lookup_lt_Some _ _ _ Hj').
  apply slot_inj in Hm; [|lia..]. apply Nat2Z.inj in Hm as ->. congruence.
Qed.

(** A client with a seat is the only one with it. *)
Lemma seat_unique cap s line called i i' c c' :
  lines cap s line called -> clients s !! i = Some c -> clients s !! i' = Some c' ->
  c_seat (c_pc c) = c_seat (c_pc c') -> c_seat (c_pc c) <> None -> i = i'.
Proof.
  intros L Hi Hi' E Hn. pose proof (l_others _ _ _ _ L i c Hi Hn) as [j Hj]%list_elem_of_lookup.
  assert (c_seat (c_pc c') <> None) as Hn' by congruence.
  pose proof (l_others _ _ _ _ L i' c' Hi' Hn') as [j' Hj']%list_elem_of_lookup.
  by apply (seat_place cap s line called j j' i i' c c').
Qed.

(** The parts of the shared memory the line depends on. *)
Definition same_line (b b' : barber_shop_mem) : Prop :=
  wr_start b' = wr_start b /\ wr_count b' = wr_count b /\ waiting_room b' = waiting_room b /\
  (barber_sleeping b' = true -> barber_sleeping b = true).

(** A step of a client that has no seat and takes none. *)
Lemma lines_client cap s line called i c c' b' :
  lines cap s line called -> clients s !! i = Some c -> same_line (bs s) b' ->
  c_seat (c_pc c) = None -> c_seat (c_pc c') = None -> c_pc c' <> CFullUnlock ->
  b2z (arriving c) + b2z (seated c) <= b2z (arriving c') + b2z (seated c') \/ barber s = BCust2 ->
  lines cap (St b' (barber s) (<[i := c']> (clients s)) (cuts s)) line called.
Proof.
  intros L Hi (Es & Ec & Er & Ef) Hc Hc' Hf Hn.
  assert (forall j d, clients s !! j = Some d -> c_seat (c_pc d) <> None -> <[i := c']> (clients s) !! j = Some d) as Hkeep.
  { intros j d Hj Hd. rewrite list_lookup_insert_ne; [done|]. intros ->. congruence. }
  split; cbn [bs barber clients]; rewrite ?Es, ?Ec, ?Er, ?length_insert.
  - apply (l_nodup _ _ _ _ L).
  - apply (l_few _ _ _ _ L).
  - apply (l_count _ _ _ _ L).
  - intros j x Hx. destruct (l_slot _ _ _ _ L j x Hx) as (d & Hd & Hs). exists d. split; [|done]. apply Hkeep; congruence.
  - intros j d [(_ & <- & _)|[_ Hj]]%list_lookup_insert_Some Hd; [congruence|]. by apply (l_others _ _ _ _ L j d).
  - intros k x Hk Hx. destruct (l_positive _ _ _ _ L k x Hk Hx) as (Hd & j & d & Hj & Hdj & Hp). split; [done|].
    exists j, d. split; [done|split; [|done]]. apply Hkeep; [done|by rewrite Hp].
  - intros Hd. destruct (l_called _ _ _ _ L Hd) as (j & d & k & Hj & Hdj & Hp). exists j, d, k. split; [done|split; [|done]].
    apply Hkeep; [done|]. by destruct Hp as [->|[-> _]].
  - intros j d k [(_ & <- & _)|[_ Hj]]%list_lookup_insert_Some Hd; [by rewrite Hd in Hc'|]. by apply (l_sit _ _ _ _ L j d k).
  - pose proof (l_stage _ _ _ _ L) as Hs.
    assert (called = false -> 1 <= num arriving s + num seated s -> barber s <> BCust2 ->
      1 <= num arriving (St b' (barber s) (<[i := c']> (clients s)) (cuts s)) +
           num seated (St b' (barber s) (<[i := c']> (clients s)) (cuts s))) as Hk.
    { intros _ H Hb. rewrite !(num_insert _ _ _ c) by done. destruct Hn as [Hn|]; [lia|done]. }
    destruct (barber s) eqn:Eb; try done.
    + destruct Hs as (Hd & j & d & Hj & Hdj & Hp). split; [done|]. exists j, d. split; [done|split; [|done]].
      apply Hkeep; [done|by rewrite Hp].
    + intros Hd. apply Hk; auto; done.
    + intros Hd. apply Hk; auto; done.
  - intros Hd. apply (l_flag _ _ _ _ L). auto.
  - intros j d [(_ & <- & _)|[_ Hj]]%list_lookup_insert_Some; [done|]. by apply (l_room _ _ _ _ L j).
Qed.

(** Nobody else in the waiting room is where a client that holds the mutex is. *)
Lemma barber_holds_none cap s : inv cap s -> b_holds (barber s) = true ->
  forall i c, clients s !! i = Some c -> c_holds c = false.
Proof.
  intros [_ _ [Hm Hm0] _ _ _] Hb i c Hi. destruct (c_holds c) eqn:E; [|done].
  pose proof (num_le c_holds s i c Hi E). unfold holders in Hm. rewrite Hb in Hm. simpl in Hm. lia.
Qed.

Lemma client_holds_mutex cap s i c : inv cap s -> clients s !! i = Some c -> c_holds c = true -> b_holds (barber s) = false.
Proof.
  intros Hinv Hi Hc. destruct (b_holds (barber s)) eqn:E; [|done].
  by rewrite (barber_holds_none cap s Hinv E i c Hi) in Hc.
Qed.

(** Taking a place at the end of the line. *)
Lemma lines_push cap s line called i c k cs :
  inv cap s -> lines cap s line called -> clients s !! i = Some c -> c_pc c = CLook -> barber_sleeping (bs s) = false ->
  k = wr_end (bs s) ->
  lines cap (St (set_queue (wr_count (bs s) + 1) (wr_start (bs s)) ((wr_end (bs s) + 1) mod wr_capacity (bs s)) (bs s))
    (barber s) (<[i := goto c (CSeat k)]> (clients s)) cs) (line ++ [i]) called.
Proof.
  intros Hinv L Hi Hc Hf ->. pose proof Hinv as [Hq Hcap _ _ _ _].
  pose proof (line_room cap s line called i c L Hi ltac:(by rewrite Hc)) as Hroom.
  pose proof (l_count _ _ _ _ L) as Hcount.
  assert (i ∉ line) as Hni.
  { intros [j Hj]%list_elem_of_lookup. destruct (l_slot _ _ _ _ L j i Hj) as (d & Hd & Hs).
    assert (d = c) by congruence. subst. by rewrite Hc in Hs. }
  assert (forall j d, j ∈ line -> clients s !! j = Some d ->
    <[i := goto c (CSeat (wr_end (bs s)))]> (clients s) !! j = Some d) as Hkeep.
  { intros j d Hj Hd. rewrite list_lookup_insert_ne; [done|]. by intros ->. }
  assert (wr_end (bs s) = (wr_start (bs s) - b2z called + Z.of_nat (length line)) mod cap) as He.
  { rewrite (q_end _ Hq) by lia. rewrite Hcap. f_equal. lia. }
  split; cbn [bs barber clients set_queue wr_start wr_count waiting_room barber_sleeping]; rewrite ?length_insert.
  - apply NoDup_app. split; [apply (l_nodup _ _ _ _ L)|]. split; [|apply NoDup_singleton].
    intros x Hx ->%list_elem_of_singleton. done.
  - apply (l_few _ _ _ _ L).
  - rewrite length_app. simpl. lia.
  - intros j x [Hx|[Hj Hx]]%lookup_app_Some.
    + destruct (l_slot _ _ _ _ L j x Hx) as (d & Hd & Hs). exists d. split; [|done].
      apply Hkeep; [|done]. by eapply list_elem_of_lookup_2.
    + destruct (j - length line)%nat eqn:En; [|done]. injection Hx as <-. replace j with (length line) by lia.
      eexists. split; [apply list_lookup_insert_eq; by eapply lookup_lt_Some|]. cbn. by rewrite <- He.
  - intros j d [(-> & _ & _)|[_ Hj]]%list_lookup_insert_Some Hd; apply elem_of_app; [right; by left|].
    left. by apply (l_others _ _ _ _ L j d).
  - intros x y Hx Hy. destruct (l_positive _ _ _ _ L x y Hx Hy) as (Hd & j & d & Hj & Hdj & Hp). split; [done|].
    exists j, d. rewrite lookup_app_l by (by eapply lookup_lt_Some). split; [done|split; [|done]].
    apply Hkeep; [|done]. by eapply list_elem_of_lookup_2.
  - intros Hd. destruct (l_called _ _ _ _ L Hd) as (j & d & x & Hj & Hdj & Hp). exists j, d, x.
    rewrite lookup_app_l by (by eapply lookup_lt_Some). split; [done|split; [|done]].
    apply Hkeep; [|done]. by eapply list_elem_of_lookup_2.
  - intros j d x [(_ & <- & _)|[_ Hj]]%list_lookup_insert_Some Hd; [done|].
    destruct (l_sit _ _ _ _ L j d x Hj Hd) as [H1 H2]. split; [done|]. rewrite lookup_app_l; [done|by eapply lookup_lt_Some].
  - assert (b_holds (barber s) = false) as Hb.
    { apply (client_holds_mutex cap s i c Hinv Hi). unfold c_holds. by rewrite Hc. }
    pose proof (l_stage _ _ _ _ L) as Hs. destruct (barber s); try done.
    intros Hd. rewrite !(num_insert _ _ _ c) by done. specialize (Hs Hd).
    unfold arriving, seated in *. rewrite Hc. cbn in *. lia.
  - congruence.
  - intros j d [(_ & <- & _)|[_ Hj]]%list_lookup_insert_Some; [done|]. by apply (l_room _ _ _ _ L j).
Qed.

(** A client that holds the mutex prepares its seat. *)
Lemma lines_seat cap s line called i c pc' k b' cs :
  inv cap s -> lines cap s line called -> clients s !! i = Some c -> c_holds c = true ->
  c_seat (c_pc c) = Some k -> c_seat pc' = Some k -> (forall x, pc' <> CSitFrom x) ->
  wr_start b' = wr_start (bs s) -> wr_count b' = wr_count (bs s) -> barber_sleeping b' = barber_sleeping (bs s) ->
  (forall x, x <> k -> aget (waiting_room b') x = aget (waiting_room (bs s)) x) ->
  (forall y, aget (waiting_room b') k = Some y -> 0 < waiting y -> aget (waiting_room (bs s)) k = Some y) ->
  lines cap (St b' (barber s) (<[i := goto c pc']> (clients s)) cs) line called.
Proof.
  intros Hinv L Hi Hh Hk Hk' Hns Es Ec Ef Hr Hrk.
  assert (arriving c = false /\ seated c = false /\ arriving (goto c pc') = false /\ seated (goto c pc') = false) as (A1 & A2 & A3 & A4).
  { unfold arriving, seated, c_holds in *. simpl. destruct (c_pc c), pc'; try done; exfalso; by eapply Hns. }
  assert (b_holds (barber s) = false) as Hb by (by apply (client_holds_mutex cap s i c Hinv Hi)).
  assert (forall x d, clients s !! x = Some d -> c_holds d = false -> <[i := goto c pc']> (clients s) !! x = Some d) as Hkeep.
  { intros x d Hx Hd. rewrite list_lookup_insert_ne; [done|]. intros ->. congruence. }
  assert (forall x d k', clients s !! x = Some d -> c_holds d = false -> c_seat (c_pc d) = Some k' -> k' <> k) as Hdiff.
  { intros x d k' Hx Hd Hs ->. assert (i = x); [|by simplify_eq; congruence].
    apply (seat_unique cap s line called i x c d); congruence. }
  split; cbn [bs barber clients]; rewrite ?length_insert, ?Es, ?Ec, ?Ef.
  - apply (l_nodup _ _ _ _ L).
  - apply (l_few _ _ _ _ L).
  - apply (l_count _ _ _ _ L).
  - intros j x Hx. destruct (l_slot _ _ _ _ L j x Hx) as (d & Hd & Hs). destruct (decide (x = i)) as [->|Hne].
    + exists (goto c pc'). rewrite list_lookup_insert_eq by (by eapply lookup_lt_Some). split; [done|]. simpl. congruence.
    + exists d. by rewrite list_lookup_insert_ne.
  - intros j d [(<- & _ & _)|[_ Hj]]%list_lookup_insert_Some Hd.
    + apply (l_others _ _ _ _ L i c Hi). by rewrite Hk.
    + by apply (l_others _ _ _ _ L j d).
  - intros x y Hx Hy. assert (aget (waiting_room (bs s)) x = Some y) as Hx'.
    { destruct (decide (x = k)) as [->|]; [by apply Hrk|by rewrite <- Hr]. }
    destruct (l_positive _ _ _ _ L x y Hx' Hy) as (Hd & j & d & Hj & Hdj & Hp). split; [done|].
    exists j, d. split; [done|split; [|done]]. apply Hkeep; [done|]. unfold c_holds. by rewrite Hp.
  - intros Hd. destruct (l_called _ _ _ _ L Hd) as (j & d & x & Hj & Hdj & Hp). exists j, d, x.
    assert (c_holds d = false) as Hh' by (unfold c_holds; by destruct Hp as [->|[-> _]]).
    split; [done|split; [by apply Hkeep|]]. destruct Hp as [Hp|(Hp & Hq)]; [by left|right]. split; [done|].
    rewrite Hr; [done|]. apply (Hdiff j d x Hdj Hh'). by rewrite Hp.
  - intros j d x [(_ & <- & _)|[_ Hj]]%list_lookup_insert_Some Hd; [by destruct (Hns x)|]. by apply (l_sit _ _ _ _ L j d x).
  - pose proof (l_stage _ _ _ _ L) as Hs. destruct (barber s); try done.
    intros Hd. rewrite !(num_insert _ _ _ c) by done. specialize (Hs Hd). rewrite A1, A2, A3, A4. cbn. lia.
  - apply (l_flag _ _ _ _ L).
  - intros j d [(_ & <- & _)|[_ Hj]]%list_lookup_insert_Some; [|by apply (l_room _ _ _ _ L j)]. simpl. by intros ->.
Qed.

(** The called client goes to the chair. *)
Lemma lines_leave_seat cap s line called i c k x cs :
  inv cap s -> lines cap s line called -> clients s !! i = Some c -> c_pc c = CWaitSeat k ->
  aget (waiting_room (bs s)) k = Some x -> 0 < waiting x ->
  lines cap (St (set_room (<[Z.to_nat k := Seat (taken x) (pid x) (waiting x - 1)]> (waiting_room (bs s))) (bs s))
    (barber s) (<[i := goto c (CSitFrom k)]> (clients s)) cs) line called.
Proof.
  intros Hinv L Hi Hc Hx Hw. pose proof Hinv as [Hq _ _ _ _ Hph].
  destruct (l_positive _ _ _ _ L k x Hx Hw) as (-> & i0 & c0 & Hj0 & Hi0 & Hc0).
  assert (i = i0) as <-.
  { apply (seat_unique cap s line true i i0 c c0); try done; by rewrite ?Hc, ?Hc0. }
  assert (c0 = c) as -> by congruence.
  pose proof (num_nonneg arriving s). pose proof (num_nonneg seated s). pose proof (waiting_le _ _ _ Hq Hx) as Hle.
  assert (invited s <= 1) as Hi1.
  { unfold phase in Hph. destruct (barber s); try lia. all: destruct (barber_sleeping (bs s)); cbn in Hph; lia. }
  unfold invited in Hi1. pose proof (invited_seat (bs s) k x (Seat (taken x) (pid x) (waiting x - 1)) Hq Hx) as Hsum. simpl in Hsum.
  pose proof (queue_put _ _ x (Seat (taken x) (pid x) (waiting x - 1)) Hq Hx ltac:(simpl; lia)) as Hq'.
  assert (forall k' y, aget (<[Z.to_nat k := Seat (taken x) (pid x) (waiting x - 1)]> (waiting_room (bs s))) k' = Some y -> waiting y <= 0) as Hz.
  { intros k' y Hy. pose proof (waiting_le _ k' y Hq' Hy) as H2. simpl in H2. lia. }
  split; cbn [bs barber clients set_room wr_start wr_count waiting_room barber_sleeping]; rewrite ?length_insert.
  - apply (l_nodup _ _ _ _ L).
  - apply (l_few _ _ _ _ L).
  - apply (l_count _ _ _ _ L).
  - intros j y Hy. destruct (l_slot _ _ _ _ L j y Hy) as (d & Hd & Hs). destruct (decide (y = i)) as [->|Hne].
    + exists (goto c (CSitFrom k)). rewrite list_lookup_insert_eq by (by eapply lookup_lt_Some). split; [done|].
      rewrite <- Hs. assert (d = c) as -> by congruence. by rewrite Hc.
    + exists d. by rewrite list_lookup_insert_ne.
  - intros j d [(<- & _ & _)|[_ Hj]]%list_lookup_insert_Some Hd; [by eapply list_elem_of_lookup_2|].
    by apply (l_others _ _ _ _ L j d).
  - intros k' y Hy Hpos. specialize (Hz k' y Hy). lia.
  - intros _. exists i, (goto c (CSitFrom k)), k. rewrite list_lookup_insert_eq by (by eapply lookup_lt_Some). auto.
  - intros j d y [(<- & _ & _)|[_ Hj]]%list_lookup_insert_Some Hd; [done|]. by apply (l_sit _ _ _ _ L j d y).
  - pose proof (l_stage _ _ _ _ L) as Hs. destruct (barber s) eqn:Eb; try done. exfalso.
    unfold phase in Hph. rewrite Eb in Hph. unfold invited in Hph. lia.
  - apply (l_flag _ _ _ _ L).
  - intros j d [(_ & <- & _)|[_ Hj]]%list_lookup_insert_Some; [done|]. by apply (l_room _ _ _ _ L j).
Qed.

(** It sits down: the line is that of the queue again. *)
Lemma lines_sit cap s line called i c k x cs :
  lines cap s line called -> clients s !! i = Some c -> c_pc c = CSitFrom k -> 
  exists line', lines cap (St (set_chair x (bs s)) (barber s) (<[i := goto c CCust]> (clients s)) cs) line' false.
Proof.
  intros L Hi Hc. destruct (l_sit _ _ _ _ L i c k Hi Hc) as (-> & H0).
  destruct line as [|i0 line]; [done|]. injection H0 as ->. exists line.
  pose proof (l_nodup _ _ _ _ L) as [Hni Hnd]%NoDup_cons. pose proof (l_count _ _ _ _ L) as Hcount. cbn in Hcount.
  assert (forall k' y, aget (waiting_room (bs s)) k' = Some y -> waiting y <= 0) as Hz.
  { intros k' y Hy. destruct (Z.le_gt_cases (waiting y) 0); [done|].
    destruct (l_positive _ _ _ _ L k' y Hy ltac:(lia)) as (_ & j & d & [= <-] & Hd & Hp). congruence. }
  split; cbn [bs barber clients set_chair wr_start wr_count waiting_room barber_sleeping b2z]; rewrite ?length_insert.
  - done.
  - apply (l_few _ _ _ _ L).
  - lia.
  - intros j y Hy. destruct (l_slot _ _ _ _ L (S j) y Hy) as (d & Hd & Hs). exists d.
    rewrite list_lookup_insert_ne by (intros ->; by eapply Hni, list_elem_of_lookup_2). split; [done|].
    rewrite Hs. do 2 f_equal. cbn [b2z]. lia.
  - intros j d [(_ & <- & _)|[Hne Hj]]%list_lookup_insert_Some Hd; [done|].
    pose proof (l_others _ _ _ _ L j d Hj Hd) as [->|]%elem_of_cons; done.
  - intros k' y Hy Hpos. specialize (Hz k' y Hy). lia.
  - done.
  - intros j d y [(_ & <- & _)|[Hne Hj]]%list_lookup_insert_Some Hd; [done|].
    destruct (l_sit _ _ _ _ L j d y Hj Hd) as [_ [= <-]]. done.
  - pose proof (l_stage _ _ _ _ L) as Hs. destruct (barber s); try done.
    + destruct Hs as (_ & j & d & [= <-] & Hd & Hp). congruence.
    + intros _. rewrite !(num_insert _ _ _ c) by done. pose proof (num_nonneg seated s).
      pose proof (num_facts s i c Hi) as (Ha & Hr & _). unfold arriving, seated in *. rewrite Hc in *. cbn in *. lia.
    + intros _. rewrite !(num_insert _ _ _ c) by done. pose proof (num_nonneg seated s).
      pose proof (num_facts s i c Hi) as (Ha & Hr & _). unfold arriving, seated in *. rewrite Hc in *. cbn in *. lia.
  - apply (l_flag _ _ _ _ L).
  - intros j d [(_ & <- & _)|[_ Hj]]%list_lookup_insert_Some; [done|]. by apply (l_room _ _ _ _ L j).
Qed.

(** A step of the barber that leaves the line alone. *)
Lemma lines_barber cap s line called b' pc' cs :
  lines cap s line called -> wr_start b' = wr_start (bs s) -> wr_count b' = wr_count (bs s) ->
  waiting_room b' = waiting_room (bs s) -> (barber_sleeping b' = true -> wr_count (bs s) = 0) ->
  (forall k, barber s <> BInvite k) ->
  match pc' with
  | BInvite _ => False
  | BUnlock | BCust1 => called = false -> 1 <= num arriving s + num seated s
  | _ => called = false
  end ->
  lines cap (St b' pc' (clients s) cs) line called.
Proof.
  intros L Es Ec Er Ef Hni Hst. split; cbn [bs barber clients]; rewrite ?Es, ?Ec, ?Er; try apply L.
  - intros Hd. destruct (l_called _ _ _ _ L Hd) as (j & d & k & Hj & Hdj & Hp). exists j, d, k.
    split; [done|split; [done|]]. destruct Hp as [|(Hp & [Hb|])]; [by left| |by right; auto]. by destruct (Hni k).
  - by destruct pc'.
  - done.
Qed.

(** The first in the queue is called. *)
Lemma lines_pop cap s line :
  inv cap s -> lines cap s line false -> barber s = BLook -> 0 < wr_count (bs s) ->
  lines cap (St (set_queue (wr_count (bs s) - 1) ((wr_start (bs s) + 1) mod wr_capacity (bs s)) (wr_end (bs s)) (bs s))
    (BInvite (wr_start (bs s))) (clients s) (cuts s)) line true.
Proof.
  intros Hinv L Hb Hn. pose proof Hinv as [Hq Hcap _ _ _ _]. pose proof (l_count _ _ _ _ L) as Hcount. cbn in Hcount.
  destruct line as [|i line]; [simpl in Hcount; lia|].
  destruct (l_slot _ _ _ _ L 0%nat i eq_refl) as (c & Hi & Hs).
  assert (c_pc c = CWaitSeat (wr_start (bs s))) as Hc.
  { pose proof (barber_holds_none cap s Hinv ltac:(by rewrite Hb) i c Hi) as Hh. pose proof (q_start _ Hq). pose proof (q_count _ Hq).
    assert ((wr_start (bs s) - b2z false + Z.of_nat 0) mod cap = wr_start (bs s)) as Em by (rewrite Z.mod_small; cbn; lia).
    rewrite Em in Hs. unfold c_holds in Hh. destruct (c_pc c) eqn:Ec; try done.
    - by injection Hs as ->.
    - by destruct (l_sit _ _ _ _ L i c k Hi Ec). }
  split; cbn [bs barber clients set_queue wr_start wr_count waiting_room barber_sleeping]; try apply L.
  - cbn [b2z]. lia.
  - intros j y Hy. destruct (l_slot _ _ _ _ L j y Hy) as (d & Hd & Hsd). exists d. split; [done|]. rewrite Hsd, Hcap. f_equal.
    cbn [b2z]. replace ((wr_start (bs s) + 1) mod cap - 1 + Z.of_nat j) with ((wr_start (bs s) + 1) mod cap + (Z.of_nat j - 1)) by lia.
    rewrite Zplus_mod_idemp_l. f_equal. lia.
  - intros k y Hy Hpos. destruct (l_positive _ _ _ _ L k y Hy Hpos) as [? _]. done.
  - intros _. exists i, c, (wr_start (bs s)). split; [done|split; [done|right; auto]].
  - intros j d k Hj Hd. by destruct (l_sit _ _ _ _ L j d k Hj Hd).
  - split; [done|]. by exists i, c.
  - intros Hf. apply (l_flag _ _ _ _ L) in Hf. lia.
Qed.

(** The call reaches its seat. *)
Lemma lines_call cap s line called k x :
  inv cap s -> lines cap s line called -> barber s = BInvite k -> aget (waiting_room (bs s)) k = Some x ->
  lines cap (St (set_room (<[Z.to_nat k := Seat (taken x) (pid x) (waiting x + 1)]> (waiting_room (bs s))) (bs s))
    BUnlock (clients s) (cuts s)) line called.
Proof.
  intros Hinv L Hb Hx. pose proof Hinv as [Hq _ _ _ _ _]. pose proof (l_stage _ _ _ _ L) as Hs. rewrite Hb in Hs.
  destruct Hs as (-> & i & c & H0 & Hi & Hc). pose proof (waiting_le _ _ _ Hq Hx) as Hw. apply aget_Some in Hx as [Hk Hx].
  split; cbn [bs barber clients set_room wr_start wr_count waiting_room barber_sleeping]; try apply L.
  - intros y z Hy Hpos. split; [done|]. exists i, c. split; [done|split; [done|]].
    destruct (decide (y = k)) as [->|Hne]; [done|]. apply aget_Some in Hy as [Hy0 Hy].
    rewrite list_lookup_insert_ne in Hy by lia.
    destruct (l_positive _ _ _ _ L y z) as (_ & i' & c' & H0' & Hi' & Hc'); [by apply aget_Some|done|]. congruence.
  - intros _. exists i, c, k. split; [done|split; [done|]]. right. split; [done|right].
    exists (Seat (taken x) (pid x) (waiting x + 1)). split; [|simpl; lia].
    apply aget_Some. split; [done|]. apply list_lookup_insert_eq. by eapply lookup_lt_Some.
  - done.
Qed.

(** When the customer is ready, nobody is called. *)
Lemma ready_not_called cap s line called :
  inv cap s -> lines cap s line called -> barber s = BCust1 -> 0 < sem_customer_ready (bs s) -> called = false.
Proof.
  intros [Hq _ _ _ _ Hph] L Hb Hcu. unfold phase, invited in Hph. rewrite Hb in Hph.
  destruct called; [exfalso|done]. destruct (l_called _ _ _ _ L eq_refl) as (i & c & k & _ & Hi & Hp).
  pose proof (num_facts s i c Hi) as (Ha & _). pose proof (invited_nonneg _ Hq).
  destruct Hp as [Hp|[Hp [Hb'|(x & Hx & Hw)]]]; [|congruence|].
  - unfold arriving in Ha. rewrite Hp in Ha. cbn in Ha. unfold arriving in *. lia.
  - pose proof (waiting_le _ _ _ Hq Hx). pose proof (num_nonneg arriving s). lia.
Qed.

Lemma barber_lines cap s s' line called :
  inv cap s -> lines cap s line called -> barber_step s = Step s' -> exists line' called', lines cap s' line' called'.
Proof.
  intros Hinv L. pose proof Hinv as [Hq Hcap _ Hbs _ Hph]. pose proof (l_stage _ _ _ _ L) as Hst. pose proof (l_flag _ _ _ _ L) as Hfl.
  unfold barber_step, wait_on. destruct (barber s) eqn:Eb; try subst called.
  - case_match; [|done]. intros [= <-]. exists line, false. apply lines_barber; auto; by rewrite Eb.
  - rewrite wr_pop_eq by done. destruct (Z.leb_spec (wr_count (bs s)) 0); intros [= <-].
    + exists line, false. apply lines_barber; auto; [|by rewrite Eb]. pose proof (q_count _ Hq). intros _. lia.
    + exists line, true. by apply lines_pop.
  - assert (0 <= k < cap) as Hk by by apply Hbs. pose proof (q_room _ Hq).
    destruct (aget_is_Some (waiting_room (bs s)) k) as [x Hx]; [lia|].
    unfold seat_at, put_seat. cm_step. rewrite Hx. simpl. rewrite aset_ok by lia. intros [= <-].
    exists line, called. by apply lines_call.
  - intros [= <-]. exists line, called. apply lines_barber; auto; by rewrite Eb.
  - intros [= <-]. exists line, false. apply lines_barber; auto; by rewrite Eb.
  - case_match eqn:Es; [|done]. intros [= <-]. exists line, false. apply lines_barber; auto; [by rewrite Eb|].
    intros _. unfold phase in Hph. rewrite Eb in Hph. apply Z.ltb_lt in Es. destruct (barber_sleeping (bs s)); cbn in Hph; lia.
  - case_match eqn:Es; [|done]. intros [= <-]. exists line, called. apply lines_barber; auto; [by rewrite Eb|].
    apply Z.ltb_lt in Es. by apply (ready_not_called cap s line).
  - intros [= <-]. exists line, false. apply lines_barber; auto; by rewrite Eb.
  - case_match; [|done]. intros [= <-]. exists line, false. apply lines_barber; auto; by rewrite Eb.
Qed.

Lemma client_lines cap s s' i c line called :
  inv cap s -> lines cap s line called -> clients s !! i = Some c -> client_step i c s = Step s' ->
  exists line' called', lines cap s' line' called'.
Proof.
  intros Hinv L Hi. pose proof Hinv as [Hq Hcap _ _ Hcs Hph].
  assert (forall c' b', same_line (bs s) b' -> c_seat (c_pc c) = None -> c_seat (c_pc c') = None -> c_pc c' <> CFullUnlock ->
    b2z (arriving c) + b2z (seated c) <= b2z (arriving c') + b2z (seated c') \/ barber s = BCust2 ->
    exists line' called', lines cap (St b' (barber s) (<[i := c']> (clients s)) (cuts s)) line' called') as K.
  { intros. exists line, called. by eapply lines_client. }
  pose proof (l_room _ _ _ _ L i c Hi) as Hroom. specialize (Hcs i c Hi).
  destruct c as [pc p h]. unfold client_step, wait_on. cbn [c_pc c_pid haircuts] in *.
  destruct pc; cbn [c_pc c_seat] in K.
  - case_match; intros [= <-]; apply K; try done; by left.
  - case_match; [|done]. intros [= <-]. apply K; try done; by left.
  - destruct (barber_sleeping (bs s)) eqn:Ef.
    + intros [= <-]. apply K; try done. by left.
    + rewrite wr_push_eq by done. pose proof (line_room cap s line called i _ L Hi eq_refl).
      pose proof (l_count _ _ _ _ L). destruct (Z.leb_spec (wr_capacity (bs s)) (wr_count (bs s))); intros [= <-].
      * destruct called; cbn in *; lia.
      * exists (line ++ [i]), called. by eapply lines_push.
  - intros [= <-]. apply K; try done; by left.
  - intros [= <-]. apply K; try done; by left.
  - done.
  - assert (0 <= k < cap) as Hk by by apply Hcs. pose proof (q_room _ Hq).
    unfold put_seat. cm_step. rewrite aset_ok by lia. intros [= <-]. exists line, called.
    eapply (lines_seat cap s line called i (Client (CSeat k) p h) (CUnlock k) k); try done.
    + intros x Hx. apply aget_insert_ne; [done|lia].
    + intros y [_ Hy]%aget_Some Hpos. simpl in Hy. rewrite list_lookup_insert_eq in Hy by lia. injection Hy as <-. simpl in Hpos. lia.
  - intros [= <-]. exists line, called.
    by eapply (lines_seat cap s line called i (Client (CUnlock k) p h) (CWaitSeat k) k).
  - assert (0 <= k < cap) as Hk by by apply Hcs. pose proof (q_room _ Hq).
    destruct (aget_is_Some (waiting_room (bs s)) k) as [x Hx]; [lia|].
    unfold seat_at, put_seat. cm_step. rewrite Hx. simpl. destruct (Z.ltb_spec 0 (waiting x)); [|done].
    rewrite aset_ok by lia. intros [= <-]. exists line, called.
    by eapply (lines_leave_seat cap s line called i (Client (CWaitSeat k) p h)).
  - intros [= <-]. destruct (lines_sit cap s line called i (Client (CSitFrom k) p h) k (new_seat p) (cuts s) L Hi eq_refl) as [line' L'].
    by exists line', false.
  - intros [= <-]. apply K; try done; by left.
  - case_match eqn:Er; [|done]. intros [= <-]. apply K; auto; try done. right. apply Z.ltb_lt in Er.
    unfold phase in Hph. destruct (barber s); try done; lia.
  - intros [= <-]. apply K; try done; by left.
  - intros [= <-]. apply K; try done; by left.
  - done.
Qed.

(** ** Everyone is served *)

(** Whether the haircut that a client came for is still to be recorded. *)
Definition pending (s : shop) (c : client) : Z :=
  match c_pc c with
  | CStart | CDone | CLeave | CExit | CFullUnlock => 0
  | CReady => if decide (barber s = BCust2) then 0 else 1
  | _ => 1
  end.
Definition owed (s : shop) (c : client) : Z := Z.max 0 (haircuts c) + pending s c.
Definition got (p : Z) (s : shop) : Z := Z.of_nat (countb (fun x => x =? p) (cuts s)).

(** Each client keeps its name, and what it has got and is owed is what it
    came for. *)
Record served_ok (cs : list (Z * Z)) (s : shop) : Prop := {
  s_clients : length (clients s) = length cs;
  s_owed : forall i c, clients s !! i = Some c ->
    exists h, cs !! i = Some (c_pid c, h) /\ got (c_pid c) s + owed s c = Z.max 0 h;
  s_exit : forall i c, clients s !! i = Some c -> c_pc c = CExit -> haircuts c <= 0;
}.

Lemma served_client cs s i c c' b' :
  served_ok cs s -> clients s !! i = Some c -> c_pid c' = c_pid c ->
  owed s c' = owed s c -> (c_pc c' = CExit -> haircuts c' <= 0) ->
  served_ok cs (St b' (barber s) (<[i := c']> (clients s)) (cuts s)).
Proof.
  intros [Hl Ho He] Hi Hp Hw Hx. split; cbn [clients]; rewrite ?length_insert; [done|..].
  - intros j d [(<- & <- & _)|[_ Hj]]%list_lookup_insert_Some; [|by apply (Ho j d)].
    destruct (Ho i c Hi) as (h & Hh & Hg). exists h. rewrite Hp. split; [done|]. rewrite <- Hw in Hg. done.
  - intros j d [(_ & <- & _)|[_ Hj]]%list_lookup_insert_Some; [done|]. by apply (He j).
Qed.

Lemma client_served cap cs s s' i c :
  inv cap s -> served_ok cs s -> c_pc c <> CFullUnlock -> clients s !! i = Some c -> client_step i c s = Step s' ->
  (forall j d, clients s' !! j = Some d -> c_pc d <> CFullUnlock) -> served_ok cs s'.
Proof.
  intros [Hq _ _ _ _ Hph] S Hn Hi. pose proof (num_facts s i c Hi) as (Ha & Hr & _).
  assert (forall c' b', c_pid c' = c_pid c -> owed s c' = owed s c -> (c_pc c' = CExit -> haircuts c' <= 0) ->
    served_ok cs (St b' (barber s) (<[i := c']> (clients s)) (cuts s))) as K by (intros; by eapply served_client).
  assert (forall b pc cs' h, (forall j d, <[i := Client pc (c_pid c) h]> (clients s) !! j = Some d -> c_pc d <> CFullUnlock) ->
    pc = CFullUnlock -> served_ok cs (St b (barber s) (<[i := Client pc (c_pid c) h]> (clients s)) cs')) as F.
  { intros b pc cs' h H ->. by destruct (H i _ (list_lookup_insert_eq _ _ _ (lookup_lt_Some _ _ _ Hi))). }
  destruct c as [pc p h]. unfold client_step, wait_on, on_bs. cbn [c_pc c_pid haircuts goto] in *.
  destruct pc; cbn [c_pc c_pid haircuts] in *.
  - destruct (Z.ltb_spec 0 h); intros [= <-] _; apply K; unfold owed, pending; simpl; done || lia.
  - case_match; [|done]. intros [= <-] _. by apply K.
  - case_match; [intros [= <-] _; by apply K|]. rewrite wr_push_eq by done.
    destruct (_ <=? _); intros [= <-] Hf; [by apply F|by apply K].
  - intros [= <-] _. by apply K.
  - intros [= <-] _. by apply K.
  - done.
  - case_match; try done. intros [= <-] _. by apply K.
  - intros [= <-] _. by apply K.
  - destruct (seat_at _ _); try done. case_match; [|done]. case_match; try done. intros [= <-] _. by apply K.
  - intros [= <-] _. by apply K.
  - intros [= <-] _. apply K; unfold owed, pending; simpl; try done. case_decide as Hb; [|done]. exfalso.
    unfold phase in Hph. rewrite Hb in Hph. unfold arriving in *. simpl in Ha. lia.
  - case_match eqn:Er; [|done]. intros [= <-] _. apply K; unfold owed, pending; simpl; try done. case_decide as Hb; [done|]. exfalso.
    apply Z.ltb_lt in Er. unfold phase in Hph. destruct (barber s); try done; lia.
  - intros [= <-] _. by apply K.
  - intros [= <-] _. by apply K.
  - done.
Qed.

(** The barber moves on, without recording a haircut. *)
Lemma served_barber cs s b pc :
  served_ok cs s ->
  (forall i c, clients s !! i = Some c -> pending (St b pc (clients s) (cuts s)) c = pending s c) ->
  served_ok cs (St b pc (clients s) (cuts s)).
Proof.
  intros [Hl Ho He] Hp. split; try done. intros i c Hi. destruct (Ho i c Hi) as (h & Hh & Hg). exists h. split; [done|].
  unfold owed in *. rewrite (Hp i c Hi). done.
Qed.

Lemma pending_barber s b pc cs c :
  barber s <> BCust2 -> pc <> BCust2 -> pending (St b pc (clients s) cs) c = pending s c.
Proof. intros H1 H2. unfold pending. simpl. destruct (c_pc c); try done. by rewrite !decide_False. Qed.

Lemma got_snoc p s b pc l : got p (St b pc l (cuts s ++ [p])) = got p s + 1.
Proof. unfold got. simpl. rewrite countb_app, countb_cons, countb_nil, Z.eqb_refl. lia. Qed.

Lemma got_snoc_ne p q s b pc l : p <> q -> got p (St b pc l (cuts s ++ [q])) = got p s.
Proof.
  intros H. unfold got. simpl. rewrite countb_app, countb_cons, countb_nil.
  destruct (Z.eqb_spec q p); [congruence|lia].
Qed.

(** The haircut is recorded under the name of the client in the chair. *)
Lemma served_cut cap cs s :
  inv cap s -> chair_ok s -> served_ok cs s -> NoDup (map fst cs) -> barber s = BCut ->
  served_ok cs (St (add_ready 1 (bs s)) BCust2 (clients s) (cuts s ++ [pid (barber_chair (bs s))])).
Proof.
  intros Hinv Hch [Hl Ho He] Hnd Hb. pose proof Hinv as [_ _ _ _ _ Hph]. unfold phase in Hph. rewrite Hb in Hph.
  destruct Hph as (_ & _ & _ & _ & _ & Hr & _).
  destruct (countb_pos_ex seated (clients s)) as (k & d & Hk & Hd); [unfold num in Hr; lia|].
  assert (c_pc d = CReady) as Hpc by (revert Hd; unfold seated; by destruct (c_pc d)).
  rewrite (Hch k d Hk) by (by rewrite Hpc). split; try done. intros i c Hi. cbn [clients] in Hi.
  destruct (Ho i c Hi) as (h & Hh & Hg). exists h. split; [done|].
  destruct (Ho k d Hk) as (h' & Hh' & _).
  destruct (decide (i = k)) as [->|Hne].
  - assert (c = d) as -> by congruence. rewrite got_snoc.
    unfold owed, pending in *. cbn [barber]. rewrite Hpc in *. rewrite decide_True by done.
    rewrite decide_False in Hg by (by rewrite Hb). lia.
  - rewrite got_snoc_ne.
    + unfold owed, pending in *. cbn [barber]. destruct (c_pc c) eqn:Ec; try done. exfalso. apply Hne.
      apply (served_alone cap s i k c d Hinv Hi Hk); unfold served, seated; [rewrite Ec|rewrite Hpc]; by destruct (arriving _).
    + intros E. apply Hne. apply (NoDup_lookup (map fst cs) i k (c_pid c)); [done|..]; rewrite list_lookup_fmap;
        [by rewrite Hh|by rewrite Hh', E].
Qed.

Lemma barber_served cap cs s s' :
  inv cap s -> chair_ok s -> served_ok cs s -> NoDup (map fst cs) -> barber_step s = Step s' -> served_ok cs s'.
Proof.
  intros Hinv Hch S Hnd. pose proof Hinv as [Hq _ _ _ _ Hph].
  assert (forall b pc, barber s <> BCust2 -> pc <> BCust2 -> served_ok cs (St b pc (clients s) (cuts s))) as K.
  { intros b pc H1 H2. apply served_barber; [done|]. intros. by apply pending_barber. }
  unfold barber_step, wait_on, on_bs. destruct (barber s) eqn:Eb.
  - destruct (0 <? _); [|done]. intros [= <-]. by apply K.
  - rewrite wr_pop_eq by done. destruct (_ <=? _); intros [= <-]; by apply K.
  - match goal with |- context [match ?o with _ => _ end] => destruct o end; try done. intros [= <-]. by apply K.
  - intros [= <-]. by apply K.
  - intros [= <-]. by apply K.
  - destruct (0 <? _); [|done]. intros [= <-]. by apply K.
  - destruct (0 <? _); [|done]. intros [= <-]. by apply K.
  - intros [= <-]. by apply (served_cut cap).
  - destruct (Z.ltb_spec 0 (sem_customer_ready (bs s))) as [Hcu|]; [|done]. intros [= <-]. apply served_barber; [done|].
    intros i c Hi. unfold pending. cbn [barber]. destruct (c_pc c) eqn:Ec; try done. exfalso.
    pose proof (num_le seated s i c Hi ltac:(unfold seated; by rewrite Ec)). pose proof (num_nonneg leaving s).
    unfold phase in Hph. rewrite Eb in Hph. lia.
Qed.

(** ** The end *)

(** What a client that cannot take a step waits for. *)
Lemma client_blocked cap s i c :
  inv cap s -> clients s !! i = Some c -> client_step i c s = Blocked ->
  match c_pc c with
  | CLock => mx_waiting_room (bs s) <= 0
  | CWaitSeat k => forall x, aget (waiting_room (bs s)) k = Some x -> waiting x <= 0
  | CReady => sem_barber_ready (bs s) <= 0
  | CExit => True
  | _ => False
  end.
Proof.
  intros [Hq Hcap _ _ Hcs _] Hi. specialize (Hcs i c Hi). pose proof (q_room _ Hq).
  unfold client_step, wait_on. destruct (c_pc c) eqn:Ec; try done; cbn [c_seat] in Hcs.
  - by destruct (0 <? haircuts c).
  - by destruct (Z.ltb_spec 0 (mx_waiting_room (bs s))).
  - destruct (barber_sleeping (bs s)); [done|]. rewrite wr_push_eq by done. by destruct (_ <=? _).
  - assert (0 <= k < cap) as Hk by by apply Hcs. unfold put_seat. cm_step. by rewrite aset_ok by lia.
  - assert (0 <= k < cap) as Hk by by apply Hcs. unfold seat_at, put_seat. cm_step. intros E x Hx. rewrite Hx in E. simpl in E.
    destruct (Z.ltb_spec 0 (waiting x)); [|done]. by rewrite aset_ok in E by lia.
  - by destruct (Z.ltb_spec 0 (sem_barber_ready (bs s))).
Qed.

Lemma barber_blocked cap s :
  inv cap s -> barber_step s = Blocked ->
  match barber s with
  | BWait => mx_waiting_room (bs s) <= 0
  | BSleep => sem_barber_sleeping (bs s) <= 0
  | BCust1 | BCust2 => sem_customer_ready (bs s) <= 0
  | _ => False
  end.
Proof.
  intros [Hq Hcap _ Hbs _ _]. pose proof (q_room _ Hq). unfold barber_step, wait_on. destruct (barber s); try done; cbn [b_seat] in Hbs.
  - by destruct (Z.ltb_spec 0 (mx_waiting_room (bs s))).
  - rewrite wr_pop_eq by done. by destruct (_ <=? _).
  - assert (0 <= k < cap) as Hk by by apply Hbs. destruct (aget_is_Some (waiting_room (bs s)) k) as [x Hx]; [lia|].
    unfold seat_at, put_seat. cm_step. rewrite Hx. simpl. by rewrite aset_ok by lia.
  - by destruct (Z.ltb_spec 0 (sem_barber_sleeping (bs s))).
  - by destruct (Z.ltb_spec 0 (sem_customer_ready (bs s))).
  - by destruct (Z.ltb_spec 0 (sem_customer_ready (bs s))).
Qed.

(** Everything that holds of the shop. *)
Record live (cap : Z) (cs : list (Z * Z)) (s : shop) : Prop := {
  v_inv : inv cap s;
  v_chair : chair_ok s;
  v_served : served_ok cs s;
  v_lines : exists line called, lines cap s line called;
}.

Section Stuck.
Context (cap : Z) (cs : list (Z * Z)) (s : shop) (V : live cap cs s) (Hst : stuck exec s).

Lemma stuck_client i c : clients s !! i = Some c -> client_step i c s = Blocked.
Proof using Hst. clear V. intros Hi. pose proof (Hst (LClient i)) as H. simpl in H. by rewrite Hi in H. Qed.

Lemma stuck_mutex : mx_waiting_room (bs s) = 1.
Proof using V Hst.
  pose proof (v_inv _ _ _ V) as Hinv. pose proof Hinv as [_ _ [Hm _] _ _ _].
  pose proof (barber_blocked cap s Hinv (Hst LBarber)) as Hb.
  assert (num c_holds s = 0) as Hn.
  { unfold num. rewrite countb_zero; [done|]. intros i c Hi. pose proof (client_blocked cap s i c Hinv Hi (stuck_client i c Hi)) as Hc.
    unfold c_holds. by destruct (c_pc c). }
  unfold holders in Hm. rewrite Hn in Hm. destruct (barber s); cbn [b_holds b2z] in Hm; done || lia.
Qed.

(** Only clients that have been called, sit or have left are there. *)
Lemma stuck_places i c : clients s !! i = Some c ->
  c_pc c = CExit \/ (exists k, c_pc c = CWaitSeat k /\ forall x, aget (waiting_room (bs s)) k = Some x -> waiting x <= 0) \/
  (c_pc c = CReady /\ sem_barber_ready (bs s) <= 0).
Proof using V Hst.
  intros Hi. pose proof (client_blocked cap s i c (v_inv _ _ _ V) Hi (stuck_client i c Hi)) as Hc. pose proof stuck_mutex.
  destruct (c_pc c); try done; [lia|by right; left; eexists|by right; right|by left].
Qed.

Lemma stuck_nobody_moves : num arriving s = 0 /\ num leaving s = 0.
Proof using V Hst.
  unfold num. split; (rewrite countb_zero; [done|]); intros i c Hi; unfold arriving, leaving;
    by destruct (stuck_places i c Hi) as [->|[(k & -> & _)|[-> _]]].
Qed.

Lemma stuck_asleep : barber s = BSleep.
Proof using V Hst.
  destruct V as [Hinv _ _ (line & called & L)]. pose proof Hinv as [Hq _ _ _ _ Hph].
  pose proof (barber_blocked cap s Hinv (Hst LBarber)) as Hb. pose proof stuck_mutex.
  destruct stuck_nobody_moves as [Ha Hd]. pose proof (l_stage _ _ _ _ L) as Hs. unfold phase, invited in Hph.
  destruct (barber s) eqn:Eb; try done; [lia| |]; exfalso.
  - destruct called; [|specialize (Hs eq_refl); pose proof (invited_nonneg _ Hq); lia].
    destruct (l_called _ _ _ _ L eq_refl) as (i & c & k & _ & Hi & Hp).
    destruct (stuck_places i c Hi) as [E|[(k' & E & Hw)|[E _]]]; destruct Hp as [Hp|[Hp [?|(x & Hx & Hpos)]]]; try congruence.
    assert (k' = k) as -> by congruence. specialize (Hw x Hx). lia.
  - destruct (countb_pos_ex seated (clients s)) as (i & c & Hi & Hc); [unfold num in *; lia|].
    destruct (stuck_places i c Hi) as [E|[(k' & E & Hw)|[E Hrd]]]; unfold seated in Hc; rewrite E in Hc; try done.
    pose proof (num_le seated s i c Hi ltac:(unfold seated; by rewrite E)). lia.
Qed.

Lemma stuck_served : Forall (fun c => c_pc c = CExit) (clients s).
Proof using V Hst.
  destruct V as [Hinv _ _ (line & called & L)]. pose proof Hinv as [Hq _ _ _ _ Hph]. pose proof stuck_asleep as Eb.
  pose proof (barber_blocked cap s Hinv (Hst LBarber)) as Hb. destruct stuck_nobody_moves as [Ha _].
  pose proof (l_stage _ _ _ _ L) as Hs. unfold phase in Hph. rewrite Eb in *. subst called.
  apply Forall_lookup. intros i c Hi. pose proof (num_facts s i c Hi) as (_ & Hr & _).
  destruct (barber_sleeping (bs s)) eqn:Ef; cbn [b2z] in Hph; [|lia].
  destruct (stuck_places i c Hi) as [|[(k & E & _)|[E _]]]; [done|exfalso..].
  - pose proof (l_others _ _ _ _ L i c Hi ltac:(by rewrite E)) as Hin.
    pose proof (l_count _ _ _ _ L) as Hc. rewrite (l_flag _ _ _ _ L Ef) in Hc. destruct line; [by apply elem_of_nil in Hin|done].
  - unfold seated in *. rewrite E in Hr. cbn [b2z] in Hr. lia.
Qed.
End Stuck.

Lemma live_start cap cs :
  0 <= cap <= INT_MAX -> Z.of_nat (length cs) <= cap -> live cap cs (shop_init cap cs).
Proof.
  intros Hcap Hfew. pose proof (inv_init cap cs Hcap) as Hinv.
  assert (forall i c, clients (shop_init cap cs) !! i = Some c -> exists x, cs !! i = Some x /\ c = Client CStart x.1 x.2) as Hst.
  { intros i c. simpl. rewrite list_lookup_fmap. destruct (cs !! i) as [x|]; [|done]. intros [= <-]. by exists x. }
  split; [done|..].
  - intros i c Hi. by destruct (Hst i c Hi) as (x & _ & ->).
  - split; [by rewrite <- (length_map (fun c => Client CStart c.1 c.2))|..].
    + intros i c Hi. destruct (Hst i c Hi) as ([p h] & Hx & ->). exists h. split; [done|]. unfold got, owed, pending. simpl. rewrite countb_nil. lia.
    + intros i c Hi. by destruct (Hst i c Hi) as (x & _ & ->).
  - exists [], false. split; try done.
    + constructor.
    + simpl. by rewrite length_map.
    + intros i c Hi. by destruct (Hst i c Hi) as (x & _ & ->).
    + intros k x [_ [-> _]%lookup_replicate]%aget_Some Hw. simpl in Hw. lia.
    + intros i c k Hi. by destruct (Hst i c Hi) as (x & _ & ->).
    + intros i c Hi. by destruct (Hst i c Hi) as (x & _ & ->).
Qed.

Lemma live_step cap cs l s s' : NoDup (map fst cs) -> live cap cs s -> exec l s = Step s' -> live cap cs s'.
Proof.
  intros Hnd [Hinv Hch S (line & called & L)] E. destruct (step_weight cap l s s' Hinv E) as [Hinv' _].
  destruct l as [|i]; simpl in E.
  - pose proof (barber_chair_step _ _ E) as [Hb Hc]. split; [done| | |by apply (barber_lines cap s s' line called)].
    + intros i c. rewrite Hb, Hc. apply Hch.
    + by apply (barber_served cap cs s).
  - destruct (clients s !! i) as [c|] eqn:Hi; [|done].
    destruct (client_lines cap s s' i c line called Hinv L Hi E) as (line' & called' & L').
    split; [done|by apply (chair_client_step cap i c s)| |by exists line', called'].
    apply (client_served cap cs s s' i c); try done; [by apply (l_room _ _ _ _ L i c)|by apply (l_room _ _ _ _ L')].
Qed.

Lemma run_live cap cs ls s s' : NoDup (map fst cs) -> live cap cs s -> run exec ls s = Some s' -> live cap cs s'.
Proof.
  intros Hnd. revert s. induction ls as [|l ls IH]; intros s V; simpl; [by intros [= <-]|].
  destruct (exec l s) as [s1| |] eqn:E; try done. apply IH. by eapply live_step.
Qed.

Lemma stuck_served_all cap cs s : live cap cs s -> stuck exec s ->
  forall p h, (p, h) ∈ cs -> Z.of_nat (countb (fun x => x =? p) (cuts s)) = Z.max 0 h.
Proof.
  intros V Hst p h [i Hi]%list_elem_of_lookup. destruct (v_served _ _ _ V) as [Hl Ho He].
  destruct (lookup_lt_is_Some_2 (clients s) i) as [c Hc]; [rewrite Hl; by eapply lookup_lt_Some|].
  destruct (Ho i c Hc) as (h' & Hi' & Hg). rewrite Hi in Hi'. injection Hi' as Ep Eh. subst.
  pose proof (proj1 (Forall_lookup _ _) (stuck_served cap cs s V Hst) i c Hc) as Hpc. pose proof (He i c Hc Hpc).
  unfold owed, pending, got in Hg. rewrite Hpc in Hg. lia.
Qed.

(** C5.  With no more clients than seats - the listener starts as many - and
    whatever the order of the steps: the shop does not run for ever (each
    haircut takes eighteen steps at most, counting those of the barber, each
    client one to leave, and the barber three to fall asleep), and when nothing
    can happen any more the barber sleeps, every client has left, and each has
    had exactly the haircuts it came for: no call is lost, nobody is turned
    away. *)
Theorem everyone_is_served (cap : Z) (cs : list (Z * Z)) (ls : list label) (s : shop)
  (Hcap : 0 <= cap <= INT_MAX) (Hfew : Z.of_nat (length cs) <= cap) (Hpids : NoDup (map fst cs))
  (Hrun : run exec ls (shop_init cap cs) = Some s) :
  Z.of_nat (length ls) <= 3 + sumz (fun c => 1 + 18 * wanted c) cs /\
  (stuck exec s -> barber s = BSleep /\ Forall (fun c => c_pc c = CExit) (clients s) /\
    forall p h, (p, h) ∈ cs -> Z.of_nat (countb (fun x => x =? p) (cuts s)) = Z.max 0 h).
Proof.
  destruct (run_shop_weight cap ls _ _ (inv_init cap cs Hcap) Hrun) as [Hinv Hw]. rewrite weight_start in Hw.
  pose proof (weight_nonneg cap s Hinv). split; [lia|]. intros Hst.
  pose proof (run_live cap cs ls _ s Hpids (live_start cap cs Hcap Hfew) Hrun) as V.
  split; [by apply (stuck_asleep cap cs)|split; [by apply (stuck_served cap cs)|by apply (stuck_served_all cap cs)]].
Qed.

(** Two seats and two clients; the first wakes the barber, the second takes a
    seat. *)
Definition two_haircuts : list label :=
  map (fun n : nat => match n with O => LBarber | S i => LClient i end)
    [0; 0; 0; 1; 1; 1; 1; 1; 1; 2; 2; 2; 2; 2; 0; 0; 0; 1; 1; 1; 1; 0; 0; 0; 0; 0; 2; 2; 2; 0; 0; 2; 2; 2; 2; 0; 0; 0; 0]%nat.

Lemma everyone_is_served_witness :
  exists s, run exec two_haircuts (shop_init 2 [(7, 1); (8, 1)]) = Some s /\ stuck exec s /\
  barber s = BSleep /\ countb (fun x => x =? 8) (cuts s) = 1%nat.
Proof.
  destruct (run exec two_haircuts (shop_init 2 [(7, 1); (8, 1)])) as [s|] eqn:E; [|vm_compute in E; discriminate].
  assert (stuck exec s) as Hst.
  { vm_compute in E. injection E as <-. intros [|[|[|i]]]; reflexivity. }
  destruct (everyone_is_served 2 [(7, 1); (8, 1)] two_haircuts s) as [_ H]; [unfold INT_MAX; lia|done| |done|].
  { apply (bool_decide_unpack _); vm_compute; exact I. }
  destruct (H Hst) as (Hb & _ & Hc). exists s. split; [reflexivity|split; [exact Hst|split; [exact Hb|]]].
  apply Nat2Z.inj. rewrite (Hc 8 1); [reflexivity|]. right. left.
Defined.
