(* ===== verification/BarberSysV.v ===== *)
(** The barber's shop in the System V build: the loops of cw07/zad1/src/barber.c
    and client.c where a semaphore is an object of the system with a number,
    [semaphore_t] is that number, and every seat gets an object of its own
    ([new_seat]) that has to be removed ([delete_seat]).

    The shared memory is the record of [Barber], whose semaphore fields hold
    numbers here; the places of the processes are those of [Barber], with
    those that only this build has.  [semget(IPC_PRIVATE)] is taken to
    succeed. *)
From S2P Require Import Prelude Barber BarberSafe BarberLive.
#[local] Open Scope Z_scope.

(** Where a client is. *)
Inductive vpc :=
  | At (pc : cpc)
  | VSemop (k id : Z)    (* waiting for the object whose number was in the seat *)
  | VDelete (k : Z)      (* remove the object of the seat *)
  | VDeleteChair         (* remove the object of the chair *)
  | VFailed.             (* a call on a semaphore failed: exit(1) *)

#[export] Instance vpc_eq_dec : EqDecision vpc.
Proof. solve_decision. Defined.

Record vclient := VClient { v_pc : vpc; v_pid : Z; v_haircuts : Z }.

(** [sems]: the semaphores of the system; [vbarber] is [None] when the barber
    has ended. *)
Record vshop := VSt {
  mem : barber_shop_mem;
  sems : gmap Z Z;
  vbarber : option bpc;
  vclients : list vclient;
  vcuts : list Z;
}.

Definition vgoto (c : vclient) (pc : vpc) : vclient := VClient pc (v_pid c) (v_haircuts c).

Section SysV.
(** The number of a new object. *)
Context (semget : gmap Z Z -> Z).

(** [semaphore_wait] and [semaphore_post], with what follows success and
    failure. *)
Definition semaphore_wait {A} (id : Z) (sems : gmap Z Z) (ok : gmap Z Z -> sres A) (failed : sres A) : sres A :=
  match sems !! id with
  | Some n => if 0 <? n then ok (<[id := n - 1]> sems) else Blocked
  | None => failed
  end.
Definition semaphore_post {A} (id : Z) (sems : gmap Z Z) (ok : gmap Z Z -> sres A) (failed : sres A) : sres A :=
  match sems !! id with
  | Some n => ok (<[id := n + 1]> sems)
  | None => failed
  end.

(** A new semaphore of value 0 and the seat with its number; the removal. *)
Definition vnew_seat (pid : Z) (sems : gmap Z Z) : wr_seat * gmap Z Z :=
  let id := semget sems in (Seat true pid id, <[id := 0]> sems).
Definition vdelete_seat (x : wr_seat) (sems : gmap Z Z) : gmap Z Z := delete (waiting x) sems.

(** [dispose_barber]: the four semaphores of the shop are removed. *)
Definition vdispose (b : barber_shop_mem) (sems : gmap Z Z) : gmap Z Z :=
  delete (sem_customer_ready b) (delete (sem_barber_ready b) (delete (sem_barber_sleeping b) (delete (mx_waiting_room b) sems))).

(** The memory after an operation on it. *)
Definition on_mem {A} (o : outcome barber_shop_mem A) (k : A -> barber_shop_mem -> sres vshop) : sres vshop :=
  match o with
  | Done a b => k a b
  | Undef u => Fault u
  | Exited _ _ | NoFuel => Blocked
  end.

(** A step of the barber's loop. *)
Definition vbarber_step (v : vshop) : sres vshop :=
  let b := mem v in
  let go pc b' m := Step (VSt b' m (Some pc) (vclients v) (vcuts v)) in
  let failed := Step (VSt b (vdispose b (sems v)) None (vclients v) (vcuts v)) in
  match vbarber v with
  | None => Blocked
  | Some BWait => semaphore_wait (mx_waiting_room b) (sems v) (go BLook b) failed
  | Some BLook =>
      on_mem (wr_pop b) (fun next b' =>
        match next with
        | Some k => go (BInvite k) b' (sems v)
        | None => go BSleepUnlock (set_flag true b') (sems v)
        end)
  | Some (BInvite k) =>
      on_mem (seat_at k b) (fun x b' => semaphore_post (waiting x) (sems v) (go BUnlock b') failed)
  | Some BUnlock => semaphore_post (mx_waiting_room b) (sems v) (go BCust1 b) failed
  | Some BSleepUnlock => semaphore_post (mx_waiting_room b) (sems v) (go BSleep b) failed
  | Some BSleep => semaphore_wait (sem_barber_sleeping b) (sems v) (go BCust1 b) failed
  | Some BCust1 => semaphore_wait (sem_customer_ready b) (sems v) (go BCut b) failed
  | Some BCut =>
      semaphore_post (sem_barber_ready b) (sems v)
        (fun m => Step (VSt b m (Some BCust2) (vclients v) (vcuts v ++ [pid (barber_chair b)]))) failed
  | Some BCust2 => semaphore_wait (sem_customer_ready b) (sems v) (go BWait b) failed
  end.

(** A step of client [i]. *)
Definition vclient_step (i : nat) (c : vclient) (v : vshop) : sres vshop :=
  let b := mem v in
  let at_ pc b' m := Step (VSt b' m (vbarber v) (<[i := vgoto c pc]> (vclients v)) (vcuts v)) in
  let go pc := at_ (At pc) in
  let failed := at_ VFailed b (sems v) in
  match v_pc c with
  | At CStart =>
      if 0 <? v_haircuts c
      then Step (VSt b (sems v) (vbarber v) (<[i := VClient (At CLock) (v_pid c) (v_haircuts c - 1)]> (vclients v)) (vcuts v))
      else go CExit b (sems v)
  | At CLock => semaphore_wait (mx_waiting_room b) (sems v) (go CLook b) failed
  | At CLook =>
      if barber_sleeping b then semaphore_post (sem_barber_sleeping b) (sems v) (go CWakeUnlock (set_flag false b)) (at_ VFailed (set_flag false b) (sems v))
      else
        on_mem (wr_push b) (fun seat b' =>
          match seat with
          | None => go CFullUnlock b' (sems v)
          | Some k => go (CSeat k) b' (sems v)
          end)
  | At CWakeUnlock => semaphore_post (mx_waiting_room b) (sems v) (go CSit b) failed
  | At CSit => let '(x, m) := vnew_seat (v_pid c) (sems v) in go CCust (set_chair x b) m
  | At CFullUnlock => semaphore_post (mx_waiting_room b) (sems v) (go CExit b) failed
  | At (CSeat k) =>
      let '(x, m) := vnew_seat (v_pid c) (sems v) in
      on_mem (put_seat k x b) (fun _ b' => go (CUnlock k) b' m)
  | At (CUnlock k) => semaphore_post (mx_waiting_room b) (sems v) (go (CWaitSeat k) b) failed
  | At (CWaitSeat k) => on_mem (seat_at k b) (fun x b' => at_ (VSemop k (waiting x)) b' (sems v))
  | VSemop k id => semaphore_wait id (sems v) (go (CSitFrom k) b) failed
  | At (CSitFrom k) => let '(x, m) := vnew_seat (v_pid c) (sems v) in at_ (VDelete k) (set_chair x b) m
  | VDelete k => on_mem (seat_at k b) (fun x b' => go CCust b' (vdelete_seat x (sems v)))
  | At CCust => semaphore_post (sem_customer_ready b) (sems v) (go CReady b) failed
  | At CReady =>
      (* a failure is only reported *)
      semaphore_wait (sem_barber_ready b) (sems v) (at_ VDeleteChair b) (at_ VDeleteChair b (sems v))
  | VDeleteChair => go CDone b (vdelete_seat (barber_chair b) (sems v))
  | At CDone => go CLeave (set_chair empty_seat b) (sems v)
  | At CLeave => semaphore_post (sem_customer_ready b) (sems v) (go CStart b) failed
  | At CExit | VFailed => Blocked
  end.

Definition vexec (l : label) (v : vshop) : sres vshop :=
  match l with
  | LBarber => vbarber_step v
  | LClient i => match vclients v !! i with Some c => vclient_step i c v | None => Blocked end
  end.

(** [initialize_barber] in this build; [sems0] are the semaphores of others. *)
Definition vinitialize_barber (wr_cap : Z) (sems0 : gmap Z Z) : barber_shop_mem * gmap Z Z :=
  let mx := semget sems0 in let sems1 := <[mx := 1]> sems0 in
  let sl := semget sems1 in let sems2 := <[sl := 0]> sems1 in
  let rd := semget sems2 in let sems3 := <[rd := 0]> sems2 in
  let cu := semget sems3 in let sems4 := <[cu := 0]> sems3 in
  (Shop empty_seat mx sl rd cu false wr_cap 0 0 0 (replicate (Z.to_nat wr_cap) empty_seat), sems4).

Definition vshop_init (wr_cap : Z) (sems0 : gmap Z Z) (cs : list (Z * Z)) : vshop :=
  let '(b, m) := vinitialize_barber wr_cap sems0 in
  VSt b m (Some BWait) (map (fun c => VClient (At CStart) c.1 c.2) cs) [].
End SysV.
