(* ===== verification/BarberSysVSpec.v ===== *)
(** The System V build of the barber's shop refines the POSIX one when there
    are no more clients than seats, and leaves no semaphore behind; with more,
    a client can remove the semaphore another one waits for. *)
From S2P Require Import Prelude Barber BarberSafe BarberLive BarberSysV.
#[local] Open Scope Z_scope.

(** ** Whose semaphore is whose *)

Inductive owner := OMutex | OSleeping | OReady | OCustomer | OChair | OSeat (i : nat).

#[export] Instance owner_eq_dec : EqDecision owner.
Proof. solve_decision. Defined.

(** The seat in the waiting room a client has an object for, and whether it
    has one for the chair. *)
Definition own_seat (pc : vpc) : option Z :=
  match pc with
  | At (CUnlock k) | At (CWaitSeat k) | VSemop k _ | At (CSitFrom k) | VDelete k => Some k
  | _ => None
  end.
Definition sits (c : vclient) : bool :=
  match v_pc c with VDelete _ | At CCust | At CReady | VDeleteChair => true | _ => false end.

(** The numbers of the objects, by their owners. *)
Definition ids (b : barber_shop_mem) (l : list vclient) (o : owner) : option Z :=
  match o with
  | OMutex => Some (mx_waiting_room b)
  | OSleeping => Some (sem_barber_sleeping b)
  | OReady => Some (sem_barber_ready b)
  | OCustomer => Some (sem_customer_ready b)
  | OChair => if existsb sits l then Some (waiting (barber_chair b)) else None
  | OSeat i =>
      match l !! i with
      | Some c => match own_seat (v_pc c) with Some k => waiting <$> aget (waiting_room b) k | None => None end
      | None => None
      end
  end.

(** Every semaphore of [m] has one owner, or was there before ([sems0]). *)
Record books (sems0 : gmap Z Z) (f : owner -> option Z) (m : gmap Z Z) : Prop := {
  k_inj : forall o o' id, f o = Some id -> f o' = Some id -> o = o';
  k_dom : forall id, is_Some (m !! id) <-> (exists o, f o = Some id) \/ is_Some (sems0 !! id);
  k_own : forall o id, f o = Some id -> sems0 !! id = None;
  k_foreign : forall id n, sems0 !! id = Some n -> m !! id = Some n;
}.

Section Books.
Context (sems0 : gmap Z Z).

Lemma books_ext f g m : (forall o, g o = f o) -> books sems0 f m -> books sems0 g m.
Proof.
  intros E [Hi Hd Ho Hf]. split; try done.
  - intros o o' id. rewrite !E. apply Hi.
  - intros id. rewrite Hd. split; (intros [[o H]|H]; [left; exists o; by rewrite ?E in *|by right]).
  - intros o id. rewrite E. apply Ho.
Qed.

(** An owned semaphore gets another value. *)
Lemma books_value f m o id n : books sems0 f m -> f o = Some id -> books sems0 f (<[id := n]> m).
Proof.
  intros [Hi Hd Ho Hf] E. split; try done.
  - intros x. rewrite <- Hd. destruct (decide (x = id)) as [->|Hne]; [|by rewrite lookup_insert_ne].
    rewrite lookup_insert_eq. split; [intros _; apply Hd; left; by exists o|by eexists].
  - intros x y Hx. rewrite lookup_insert_ne; [by apply Hf|]. intros ->. by rewrite (Ho o x E) in Hx.
Qed.

(** A new one for an owner that had none. *)
Lemma books_new f g m o id n :
  books sems0 f m -> f o = None -> m !! id = None ->
  (forall o', g o' = if decide (o' = o) then Some id else f o') -> books sems0 g (<[id := n]> m).
Proof.
  intros [Hi Hd Ho Hf] E Hm Hg.
  assert (forall o', f o' <> Some id) as Hfree.
  { intros o' E'. assert (is_Some (m !! id)) as [? H] by (apply Hd; left; by exists o'). congruence. }
  assert (sems0 !! id = None) as H0.
  { destruct (sems0 !! id) eqn:E0; [|done]. apply Hf in E0. congruence. }
  split.
  - intros o1 o2 x. rewrite !Hg. repeat case_decide; subst; try done.
    + intros [= <-] E2. by destruct (Hfree _ E2).
    + intros E1 [= <-]. by destruct (Hfree _ E1).
    + apply Hi.
  - intros x. destruct (decide (x = id)) as [->|Hne].
    + rewrite lookup_insert_eq. split; [|by eexists]. intros _. left. exists o. rewrite Hg. by rewrite decide_True.
    + rewrite lookup_insert_ne, Hd by done. split; (intros [[o' H]|H]; [left|by right]).
      * exists o'. rewrite Hg. case_decide; [congruence|done].
      * rewrite Hg in H. case_decide; [congruence|by exists o'].
  - intros o' x. rewrite Hg. case_decide; [by intros [= <-]|apply Ho].
  - intros x y Hx. rewrite lookup_insert_ne; [by apply Hf|]. congruence.
Qed.

(** An owner gives its object back. *)
Lemma books_delete f g m o id :
  books sems0 f m -> f o = Some id -> (forall o', g o' = if decide (o' = o) then None else f o') ->
  books sems0 g (delete id m).
Proof.
  intros [Hi Hd Ho Hf] E Hg. split.
  - intros o1 o2 x. rewrite !Hg. repeat case_decide; try done. apply Hi.
  - intros x. destruct (decide (x = id)) as [->|Hne].
    + rewrite lookup_delete_eq. split; [by intros [? ?]|]. intros [[o' H]|[n H]].
      * rewrite Hg in H. case_decide as Hd'; [done|]. by destruct Hd'; apply (Hi o' o id).
      * rewrite (Ho o id E) in H. done.
    + rewrite lookup_delete_ne, Hd by done. split; (intros [[o' H]|H]; [left|by right]); exists o'.
      * rewrite Hg. case_decide; [congruence|done].
      * rewrite Hg in H. by case_decide.
  - intros o' x. rewrite Hg. case_decide; [done|apply Ho].
  - intros x n Hx. rewrite lookup_delete_ne; [by apply Hf|]. intros ->. by rewrite (Ho o x E) in Hx.
Qed.

Lemma books_ne f m o o' id id' : books sems0 f m -> f o = Some id -> f o' = Some id' -> o <> o' -> id <> id'.
Proof. intros B E E' Hne ->. apply Hne. by apply (k_inj _ _ _ B _ _ id'). Qed.
End Books.

(** ** The POSIX shop of a System V shop *)

Definition abs_pc (pc : vpc) : cpc :=
  match pc with At pc => pc | VSemop k _ => CWaitSeat k | VDelete k => CSitFrom k | VDeleteChair => CDone | VFailed => CExit end.
Definition abs_client (c : vclient) : client := Client (abs_pc (v_pc c)) (v_pid c) (v_haircuts c).

(** The same plain fields. *)
Definition shape (b sb : barber_shop_mem) : Prop :=
  wr_capacity b = wr_capacity sb /\ wr_count b = wr_count sb /\ wr_start b = wr_start sb /\ wr_end b = wr_end sb /\
  barber_sleeping b = barber_sleeping sb /\ length (waiting_room b) = length (waiting_room sb).

(** The numbers [b] holds lead to the values [sb] holds. *)
Definition four (b : barber_shop_mem) (m : gmap Z Z) (sb : barber_shop_mem) : Prop :=
  m !! mx_waiting_room b = Some (mx_waiting_room sb) /\ m !! sem_barber_sleeping b = Some (sem_barber_sleeping sb) /\
  m !! sem_barber_ready b = Some (sem_barber_ready sb) /\ m !! sem_customer_ready b = Some (sem_customer_ready sb).

Definition seats_ok (r : list wr_seat) (l : list vclient) (m : gmap Z Z) (sr : list wr_seat) : Prop :=
  forall i c k, l !! i = Some c -> own_seat (v_pc c) = Some k ->
    exists x y, aget r k = Some x /\ aget sr k = Some y /\ m !! waiting x = Some (waiting y) /\
      forall k' id, v_pc c = VSemop k' id -> id = waiting x.

Definition chair_of (b : barber_shop_mem) (l : list vclient) : Prop :=
  forall i c, l !! i = Some c -> sits c = true -> pid (barber_chair b) = v_pid c.

Section Sim.
Context (sems0 : gmap Z Z).

Record sim (v : vshop) (s : shop) : Prop := {
  m_barber : vbarber v = Some (barber s);
  m_cuts : vcuts v = cuts s;
  m_clients : clients s = map abs_client (vclients v);
  m_failed : forall i c, vclients v !! i = Some c -> v_pc c <> VFailed;
  m_shape : shape (mem v) (bs s);
  m_four : four (mem v) (sems v) (bs s);
  m_seats : seats_ok (waiting_room (mem v)) (vclients v) (sems v) (waiting_room (bs s));
  m_chair : chair_of (mem v) (vclients v);
  m_books : books sems0 (ids (mem v) (vclients v)) (sems v);
}.

Lemma sim_client v s i c' b' m' sb' :
  sim v s -> v_pc c' <> VFailed -> shape b' sb' -> four b' m' sb' ->
  seats_ok (waiting_room b') (<[i := c']> (vclients v)) m' (waiting_room sb') ->
  chair_of b' (<[i := c']> (vclients v)) -> books sems0 (ids b' (<[i := c']> (vclients v))) m' ->
  sim (VSt b' m' (vbarber v) (<[i := c']> (vclients v)) (vcuts v))
      (St sb' (barber s) (<[i := abs_client c']> (clients s)) (cuts s)).
Proof.
  intros [Hb Hc Hl Hf _ _ _ _ _] Hn ? ? ? ? ?. split; try done.
  - cbn [clients vclients]. by rewrite Hl, list_fmap_insert.
  - cbn [vclients]. intros j d [(_ & <- & _)|[_ Hj]]%list_lookup_insert_Some; [done|by apply (Hf j)].
Qed.

(** *** What a step leaves alone *)

(** A client moves on and keeps what it has. *)
Definition calm (c c' : vclient) : Prop :=
  own_seat (v_pc c') = own_seat (v_pc c) /\ sits c' = sits c /\ v_pid c' = v_pid c /\ forall k id, v_pc c' <> VSemop k id.

Lemma ids_calm b l i c c' o : l !! i = Some c -> calm c c' -> ids b (<[i := c']> l) o = ids b l o.
Proof.
  intros Hi (Ho & Hs & _). destruct o; simpl; try done.
  - by rewrite (existsb_insert sits l i c c').
  - destruct (decide (i0 = i)) as [->|]; [|by rewrite list_lookup_insert_ne].
    rewrite list_lookup_insert_eq by (by eapply lookup_lt_Some). by rewrite Hi, Ho.
Qed.

Lemma seats_calm r l i c c' m sr :
  l !! i = Some c -> calm c c' -> seats_ok r l m sr -> seats_ok r (<[i := c']> l) m sr.
Proof.
  intros Hi (Ho & _ & _ & Hv) H j d k [(<- & <- & _)|[_ Hj]]%list_lookup_insert_Some Hk; [|by apply (H j d)].
  rewrite Ho in Hk. destruct (H i c k Hi Hk) as (x & y & Hx & Hy & Hm & _). exists x, y.
  split; [done|split; [done|split; [done|]]]. intros k' id E. by destruct (Hv k' id).
Qed.

Lemma chair_calm b l i c c' : l !! i = Some c -> calm c c' -> chair_of b l -> chair_of b (<[i := c']> l).
Proof.
  intros Hi (_ & Hs & Hp & _) H j d [(<- & <- & _)|[_ Hj]]%list_lookup_insert_Some Hd; [|by apply (H j d)].
  rewrite Hp. apply (H i c Hi). by rewrite <- Hs.
Qed.

(** The value of a semaphore that belongs to no seat changes. *)
Lemma seats_value b l m sr o id n :
  books sems0 (ids b l) m -> ids b l o = Some id -> (forall i, o <> OSeat i) ->
  seats_ok (waiting_room b) l m sr -> seats_ok (waiting_room b) l (<[id := n]> m) sr.
Proof.
  intros B E Hno H j d k Hj Hk. destruct (H j d k Hj Hk) as (x & y & Hx & Hy & Hm & Hv). exists x, y.
  split; [done|split; [done|split; [|done]]]. rewrite lookup_insert_ne; [done|].
  apply (books_ne sems0 (ids b l) m o (OSeat j) id); [done|done| |done]. simpl. by rewrite Hj, Hk, Hx.
Qed.

Lemma four_ne b l m o o' id id' :
  books sems0 (ids b l) m -> ids b l o = Some id -> ids b l o' = Some id' -> o <> o' -> id <> id'.
Proof. apply books_ne. Qed.

Ltac four_close B :=
  intros (?H & ?H & ?H & ?H); repeat split; cbn;
  first [by rewrite lookup_insert_eq
        |rewrite lookup_insert_ne; [assumption|];
         first [by apply (four_ne _ _ _ OMutex OSleeping _ _ B)|by apply (four_ne _ _ _ OMutex OReady _ _ B)
               |by apply (four_ne _ _ _ OMutex OCustomer _ _ B)|by apply (four_ne _ _ _ OSleeping OMutex _ _ B)
               |by apply (four_ne _ _ _ OSleeping OReady _ _ B)|by apply (four_ne _ _ _ OSleeping OCustomer _ _ B)
               |by apply (four_ne _ _ _ OReady OMutex _ _ B)|by apply (four_ne _ _ _ OReady OSleeping _ _ B)
               |by apply (four_ne _ _ _ OReady OCustomer _ _ B)|by apply (four_ne _ _ _ OCustomer OMutex _ _ B)
               |by apply (four_ne _ _ _ OCustomer OSleeping _ _ B)|by apply (four_ne _ _ _ OCustomer OReady _ _ B)]].

Lemma four_mx b l m sb d : books sems0 (ids b l) m -> four b m sb ->
  four b (<[mx_waiting_room b := mx_waiting_room sb + d]> m) (add_mx d sb).
Proof. intros B. four_close B. Qed.
Lemma four_sleeping b l m sb d : books sems0 (ids b l) m -> four b m sb ->
  four b (<[sem_barber_sleeping b := sem_barber_sleeping sb + d]> m) (add_sleeping d sb).
Proof. intros B. four_close B. Qed.
Lemma four_ready b l m sb d : books sems0 (ids b l) m -> four b m sb ->
  four b (<[sem_barber_ready b := sem_barber_ready sb + d]> m) (add_ready d sb).
Proof. intros B. four_close B. Qed.
Lemma four_customer b l m sb d : books sems0 (ids b l) m -> four b m sb ->
  four b (<[sem_customer_ready b := sem_customer_ready sb + d]> m) (add_customer d sb).
Proof. intros B. four_close B. Qed.

(** A semaphore of a seat or of the chair comes, goes or changes its value. *)
Lemma four_other b l m sb o id n :
  books sems0 (ids b l) m -> ids b l o = Some id -> (o = OChair \/ exists i, o = OSeat i) ->
  four b m sb -> four b (<[id := n]> m) sb /\ four b (delete id m) sb.
Proof.
  intros B E Ho (H1 & H2 & H3 & H4).
  assert (forall o' id', ids b l o' = Some id' -> o' <> o -> id <> id') as Hne.
  { intros o' id' E' Hn. apply (four_ne b l m o o' id id' B E E'). congruence. }
  assert (id <> mx_waiting_room b /\ id <> sem_barber_sleeping b /\ id <> sem_barber_ready b /\ id <> sem_customer_ready b) as (?&?&?&?).
  { repeat split; [apply (Hne OMutex)|apply (Hne OSleeping)|apply (Hne OReady)|apply (Hne OCustomer)]; try done;
      destruct Ho as [->|[i ->]]; done. }
  split; repeat split; by rewrite ?lookup_insert_ne, ?lookup_delete_ne.
Qed.

Lemma four_new b m sb id n : m !! id = None -> four b m sb -> four b (<[id := n]> m) sb.
Proof.
  intros Hm (H1 & H2 & H3 & H4). repeat split; (rewrite lookup_insert_ne; [done|intros ->; congruence]).
Qed.

(** ** Steps of the barber *)

Definition same_objects (b b' : barber_shop_mem) : Prop :=
  mx_waiting_room b' = mx_waiting_room b /\ sem_barber_sleeping b' = sem_barber_sleeping b /\
  sem_barber_ready b' = sem_barber_ready b /\ sem_customer_ready b' = sem_customer_ready b /\
  waiting_room b' = waiting_room b /\ barber_chair b' = barber_chair b.

Lemma ids_same b b' l o : same_objects b b' -> ids b' l o = ids b l o.
Proof. intros (E1 & E2 & E3 & E4 & E5 & E6). by destruct o; simpl; rewrite ?E1, ?E2, ?E3, ?E4, ?E5, ?E6. Qed.

Lemma sim_barber v s b' m' pc sb' cs :
  sim v s -> same_objects (mem v) b' -> shape b' sb' -> four b' m' sb' ->
  seats_ok (waiting_room (mem v)) (vclients v) m' (waiting_room sb') -> books sems0 (ids (mem v) (vclients v)) m' ->
  sim (VSt b' m' (Some pc) (vclients v) cs) (St sb' pc (clients s) cs).
Proof.
  intros [Hb Hc Hl Hf _ _ _ Hch _] Hs Hsh Hfo Hse B. pose proof Hs as (_ & _ & _ & _ & E5 & E6).
  split; try done; cbn [mem sems vclients bs].
  - by rewrite E5.
  - intros i c Hi Hsit. rewrite E6. by apply (Hch i).
  - apply (books_ext _ (ids (mem v) (vclients v))); [|done]. intros o. by apply ids_same.
Qed.

(** What goes on in the POSIX shop while a System V step happens. *)
Definition phi (c : vclient) : Z :=
  match v_pc c with At (CWaitSeat _) | At (CSitFrom _) | VDeleteChair => 1 | _ => 0 end.
Definition stutters (v : vshop) : Z := sumz phi (vclients v).

Definition follows (l : label) (v : vshop) (s : shop) (r : sres vshop) : Prop :=
  match r with
  | Step v' => (sim v' s /\ stutters v' < stutters v) \/
               (exists s', exec l s = Step s' /\ sim v' s' /\ stutters v' <= stutters v + 1)
  | Blocked => exec l s = Blocked
  | Fault _ => False
  end.

Lemma follows_step l v s v' s' :
  exec l s = Step s' -> sim v' s' -> stutters v' <= stutters v + 1 -> follows l v s (Step v').
Proof. intros. right. eauto. Qed.

(** A wait on a semaphore whose value is that of the POSIX shop, and a post. *)
Lemma follows_wait l v s id n k f :
  sems v !! id = Some n -> (n <= 0 -> exec l s = Blocked) ->
  (0 < n -> follows l v s (k (<[id := n - 1]> (sems v)))) -> follows l v s (semaphore_wait id (sems v) k f).
Proof. intros E Hb Hs. unfold semaphore_wait. rewrite E. destruct (Z.ltb_spec 0 n); [by apply Hs|by apply Hb]. Qed.

Lemma follows_post l v s id n k f :
  sems v !! id = Some n -> follows l v s (k (<[id := n + 1]> (sems v))) -> follows l v s (semaphore_post id (sems v) k f).
Proof. intros E H. unfold semaphore_post. by rewrite E. Qed.

Lemma wr_pop_shape b sb : shape b sb -> queue_ok sb -> 
  match wr_pop b, wr_pop sb with
  | Done k b', Done k' sb' => k = k' /\ shape b' sb' /\ same_objects b b' /\ waiting_room sb' = waiting_room sb /\
      mx_waiting_room sb' = mx_waiting_room sb /\ sem_barber_sleeping sb' = sem_barber_sleeping sb /\
      sem_barber_ready sb' = sem_barber_ready sb /\ sem_customer_ready sb' = sem_customer_ready sb
  | _, _ => False
  end.
Proof.
  intros (E1 & E2 & E3 & E4 & E5 & E6) Hq. rewrite (wr_pop_eq sb) by done. unfold wr_pop. cm_step. rewrite E1, E2, E3, E4.
  destruct (Z.leb_spec (wr_count sb) 0); [by repeat split|]. pose proof Hq as [Hc _ Hn Hs _ _].
  destruct (Z.eqb_spec (wr_capacity sb) 0); [lia|]. simpl.
  rewrite int_op_ok by (unfold INT_MIN, INT_MAX in *; lia). rewrite Z.rem_mod_nonneg by lia. by repeat split.
Qed.

Lemma wr_push_shape b sb : shape b sb -> queue_ok sb -> 
  match wr_push b, wr_push sb with
  | Done k b', Done k' sb' => k = k' /\ shape b' sb' /\ same_objects b b' /\ waiting_room sb' = waiting_room sb /\
      mx_waiting_room sb' = mx_waiting_room sb /\ sem_barber_sleeping sb' = sem_barber_sleeping sb /\
      sem_barber_ready sb' = sem_barber_ready sb /\ sem_customer_ready sb' = sem_customer_ready sb
  | _, _ => False
  end.
Proof.
  intros (E1 & E2 & E3 & E4 & E5 & E6) Hq. rewrite (wr_push_eq sb) by done. unfold wr_push. cm_step. rewrite E1, E2, E3, E4.
  destruct (Z.leb_spec (wr_capacity sb) (wr_count sb)); [by repeat split|]. pose proof (wr_end_range sb Hq ltac:(lia)).
  destruct (Z.eqb_spec (wr_capacity sb) 0); [lia|]. simpl. pose proof (q_cap _ Hq).
  rewrite int_op_ok by (unfold INT_MIN, INT_MAX in *; lia). rewrite Z.rem_mod_nonneg by lia. by repeat split.
Qed.

Lemma own_seat_abs pc k : own_seat pc = Some k -> c_seat (abs_pc pc) = Some k.
Proof. by destruct pc as [[]| | | |]; simpl. Qed.

Lemma sim_lookup v s i c : sim v s -> vclients v !! i = Some c -> clients s !! i = Some (abs_client c).
Proof. intros S Hi. by rewrite (m_clients _ _ S), list_lookup_fmap, Hi. Qed.

Lemma sim_lookup_inv v s i c : sim v s -> clients s !! i = Some c -> exists vc, vclients v !! i = Some vc /\ c = abs_client vc.
Proof.
  intros S. rewrite (m_clients _ _ S), list_lookup_fmap. destruct (vclients v !! i) as [vc|]; [|done]. intros [= <-]. by exists vc.
Qed.

(** No two clients have the same seat. *)
Lemma seat_alone cap cs v s i j c d k :
  live cap cs s -> sim v s -> vclients v !! i = Some c -> vclients v !! j = Some d ->
  c_seat (abs_pc (v_pc c)) = Some k -> own_seat (v_pc d) = Some k -> i = j.
Proof.
  intros [_ _ _ (line & called & L)] S Hi Hj Hc Hd%own_seat_abs.
  apply (seat_unique cap s line called i j (abs_client c) (abs_client d) L); simpl; try congruence; by eapply sim_lookup.
Qed.

(** The semaphore of a client's seat gets the same value on both sides. *)
Lemma seats_set b l m sr i c k x y n t p :
  books sems0 (ids b l) m -> seats_ok (waiting_room b) l m sr -> l !! i = Some c -> own_seat (v_pc c) = Some k ->
  (forall j d, l !! j = Some d -> own_seat (v_pc d) = Some k -> i = j) ->
  aget (waiting_room b) k = Some x -> aget sr k = Some y ->
  seats_ok (waiting_room b) l (<[waiting x := n]> m) (<[Z.to_nat k := Seat t p n]> sr).
Proof.
  intros B H Hi Hk Hu Hx Hy j d k' Hj Hk'. apply aget_Some in Hy as [Hk0 Hy]. destruct (decide (k' = k)) as [->|Hne].
  - assert (i = j) as <- by (by apply (Hu j d)).
    assert (d = c) as -> by congruence. destruct (H i c k Hi Hk) as (x' & y' & Hx' & _ & _ & Hv). assert (x' = x) as -> by congruence.
    exists x, (Seat t p n). split; [done|split; [|split; [by rewrite lookup_insert_eq|done]]].
    apply aget_Some. split; [done|]. apply list_lookup_insert_eq. by eapply lookup_lt_Some.
  - destruct (H j d k' Hj Hk') as (x' & y' & Hx' & Hy' & Hm & Hv). exists x', y'.
    split; [done|split; [by rewrite aget_insert_ne|split; [|done]]]. rewrite lookup_insert_ne; [done|].
    apply (books_ne sems0 (ids b l) m (OSeat i) (OSeat j)); [done|..].
    + simpl. by rewrite Hi, Hk, Hx.
    + simpl. by rewrite Hj, Hk', Hx'.
    + intros [= ->]. congruence.
Qed.

(** The barber's step is the same in both shops, but for one semaphore. *)
Lemma follows_barber v s (pc' : bpc) (b' sb' : barber_shop_mem) m' cs' :
  sim v s -> exec LBarber s = Step (St sb' pc' (clients s) cs') -> same_objects (mem v) b' ->
  shape b' sb' -> four b' m' sb' -> seats_ok (waiting_room (mem v)) (vclients v) m' (waiting_room sb') ->
  books sems0 (ids (mem v) (vclients v)) m' -> follows LBarber v s (Step (VSt b' m' (Some pc') (vclients v) cs')).
Proof.
  intros S E ? ? ? ? ?. eapply follows_step; [done| |unfold stutters; cbn [vclients]; lia]. by apply sim_barber.
Qed.

(** The barber calls the client that waits at seat [k]. *)
Lemma call_follows cap cs v s k : live cap cs s -> sim v s -> barber s = BInvite k -> follows LBarber v s (vbarber_step v).
Proof.
  intros V S Eb. pose proof V as [[Hq Hcap _ Hbs _ _] _ _ (line & called & L)]. pose proof S as [Hb Hc _ _ Hsh Hfo Hse _ B].
  unfold vbarber_step. rewrite Hb, Hc, Eb.
  rewrite Eb in Hbs. assert (0 <= k < cap) as Hk by by apply Hbs. pose proof (l_stage _ _ _ _ L) as Hst. rewrite Eb in Hst.
  destruct Hst as (_ & i & c & _ & Hi & Hpc). destruct (sim_lookup_inv _ _ _ _ S Hi) as (vc & Hvi & ->).
  assert (own_seat (v_pc vc) = Some k) as Hown.
  { revert Hpc. simpl. by destruct (v_pc vc) as [[]| | | |]; simpl; try done; intros [= ->]. }
  destruct (Hse i vc k Hvi Hown) as (x & y & Hx & Hy & Hm & _).
  assert (ids (mem v) (vclients v) (OSeat i) = Some (waiting x)) as Hid by (simpl; by rewrite Hvi, Hown, Hx).
  unfold seat_at. cm_step. rewrite Hx. cbn. eapply follows_post; [done|]. pose proof (q_room _ Hq). eapply follows_barber; [done|..].
  - cbn [exec]. unfold barber_step. rewrite Eb. unfold seat_at, put_seat. cm_step. rewrite Hy. simpl. by rewrite aset_ok by lia.
  - done.
  - destruct Hsh as (?&?&?&?&?&?). repeat split; try done. simpl. by rewrite length_insert.
  - by apply (four_other _ _ _ _ (OSeat i) (waiting x) (waiting y + 1) B Hid); [right; eexists|].
  - cbn [waiting_room set_room]. eapply (seats_set _ _ _ _ i vc k x y); try done.
    intros j d Hj Hd. by apply (seat_alone cap cs v s i j vc d k V S Hvi Hj (own_seat_abs _ _ Hown)).
  - by apply (books_value _ _ _ (OSeat i)).
Qed.

(** Whose hair is cut is the same. *)
Lemma chair_pid cap cs v s : live cap cs s -> sim v s -> barber s = BCut ->
  pid (barber_chair (mem v)) = pid (barber_chair (bs s)).
Proof.
  intros V S Eb. pose proof V as [[_ _ _ _ _ Hph] Hch _ _]. unfold phase in Hph. rewrite Eb in Hph.
  destruct Hph as (_ & _ & _ & _ & _ & Hr & _).
  destruct (countb_pos_ex seated (clients s)) as (i & c & Hi & Hd); [unfold num in Hr; lia|].
  destruct (sim_lookup_inv _ _ _ _ S Hi) as (vc & Hvi & ->).
  assert (v_pc vc = At CReady) as Hpc by (revert Hd; unfold seated; simpl; by destruct (v_pc vc) as [[]| | | |]).
  rewrite (Hch i _ Hi) by (simpl; by rewrite Hpc). apply (m_chair _ _ S i vc Hvi). unfold sits. by rewrite Hpc.
Qed.

(** The semaphore of [O] is changed; and it is waited for. *)
Ltac shop_post K four O :=
  eapply K; try done; [by eapply four|by eapply (seats_value _ _ _ _ O)|by eapply (books_value _ _ _ O)].
Ltac shop_wait W K F four O :=
  apply (W _ _ F); intros Hn;
  [match goal with |- context [0 <? ?x] => by destruct (Z.ltb_spec 0 x); [lia|] end
  |eapply K; [by rewrite (proj2 (Z.ltb_lt _ _) Hn)|try done..];
    [by eapply four|by eapply (seats_value _ _ _ _ O)|by eapply (books_value _ _ _ O)]].

Lemma barber_follows cap cs v s : live cap cs s -> sim v s -> follows LBarber v s (vbarber_step v).
Proof.
  intros V S. pose proof V as [[Hq _ _ _ _ _] _ _ _]. pose proof S as [Hb Hc _ _ Hsh Hfo Hse _ B]. pose proof Hfo as (F1 & F2 & F3 & F4).
  pose proof (fun pc' b' sb' m' cs' => follows_barber v s pc' b' sb' m' cs' S) as K.
  assert (forall n id, sems v !! id = Some n -> forall k f, (n <= 0 -> barber_step s = Blocked) ->
    (0 < n -> follows LBarber v s (k (<[id := n + -1]> (sems v)))) -> follows LBarber v s (semaphore_wait id (sems v) k f)) as W.
  { intros. by eapply follows_wait. }
  destruct (barber s) eqn:Eb; try (by eapply call_follows);
    unfold vbarber_step; rewrite Hb, Hc; cbn [exec] in K; unfold barber_step, wait_on in K, W; rewrite Eb in K, W.
  - shop_wait W K F1 four_mx OMutex.
  - pose proof (wr_pop_shape _ _ Hsh Hq) as P. destruct (wr_pop (mem v)) as [o b'| | |]; [|done..].
    destruct (wr_pop (bs s)) as [o' sb'| | |] eqn:Ep; [|done..].
    destruct P as (<- & Hsh' & Hob & Er & E1 & E2 & E3 & E4).
    assert (four b' (sems v) sb') as Hfo'.
    { destruct Hob as (O1 & O2 & O3 & O4 & _). repeat split; by rewrite ?O1, ?O2, ?O3, ?O4, ?E1, ?E2, ?E3, ?E4. }
    cbn [on_mem]. destruct o; (eapply K; [reflexivity|try done..]); try (cbn [waiting_room set_flag]; by rewrite Er).
    destruct Hsh' as (?&?&?&?&?&?). by repeat split.
  - eapply follows_post; [done|]. shop_post K four_mx OMutex.
  - eapply follows_post; [done|]. shop_post K four_mx OMutex.
  - shop_wait W K F2 four_sleeping OSleeping.
  - shop_wait W K F4 four_customer OCustomer.
  - eapply follows_post; [done|]. rewrite (chair_pid cap cs v s) by done. shop_post K four_ready OReady.
  - shop_wait W K F4 four_customer OCustomer.
Qed.

(** ** Steps of the clients *)

Lemma sits_served c : sits c = true -> served (abs_client c) = true.
Proof. unfold sits, served, arriving, seated, leaving. simpl. by destruct (v_pc c) as [[]| | | |]. Qed.

(** Who is at the chair is alone there. *)
Lemma sits_alone cap cs v s i c : live cap cs s -> sim v s -> vclients v !! i = Some c -> served (abs_client c) = true ->
  forall j d, vclients v !! j = Some d -> sits d = true -> j = i.
Proof.
  intros V S Hi Hc j d Hj Hd. apply (served_alone cap s j i (abs_client d) (abs_client c) (v_inv _ _ _ V));
    [by eapply sim_lookup|by eapply sim_lookup|by apply sits_served|done].
Qed.

Lemma existsb_false_insert l i c : (forall j d, l !! j = Some d -> sits d = true -> j = i) -> sits c = false ->
  existsb sits (<[i := c]> l) = false.
Proof.
  intros H Hc. destruct (existsb sits _) eqn:E; [|done]. apply existsb_lookup in E as (j & d & Hj & Hd).
  apply list_lookup_insert_Some in Hj as [(_ & <- & _)|[Hne Hj]]; [congruence|]. by destruct Hne; rewrite (H j d Hj Hd).
Qed.

Lemma existsb_true_insert l (i : nat) c : (i < length l)%nat -> sits c = true -> existsb sits (<[i := c]> l) = true.
Proof. intros Hi Hc. apply existsb_lookup. exists i, c. by rewrite list_lookup_insert_eq. Qed.

(** The chair gets an object, or loses it. *)
Lemma ids_chair b b' l i c c' (n : option Z) o :
  l !! i = Some c -> own_seat (v_pc c') = own_seat (v_pc c) ->
  (if existsb sits (<[i := c']> l) then Some (waiting (barber_chair b')) else None) = n ->
  mx_waiting_room b' = mx_waiting_room b -> sem_barber_sleeping b' = sem_barber_sleeping b ->
  sem_barber_ready b' = sem_barber_ready b -> sem_customer_ready b' = sem_customer_ready b ->
  waiting_room b' = waiting_room b ->
  ids b' (<[i := c']> l) o = if decide (o = OChair) then n else ids b l o.
Proof.
  intros Hi Ho Hn E1 E2 E3 E4 E5. destruct o; simpl; rewrite ?E1, ?E2, ?E3, ?E4, ?E5; try done.
  destruct (decide (i0 = i)) as [->|]; [|by rewrite list_lookup_insert_ne].
  rewrite list_lookup_insert_eq by (by eapply lookup_lt_Some). by rewrite Hi, Ho.
Qed.

(** A client gets a seat, or leaves it. *)
Lemma ids_seat b r l i c c' (n : option Z) o :
  l !! i = Some c -> sits c' = sits c ->
  match own_seat (v_pc c') with Some k => waiting <$> aget r k | None => None end = n ->
  (forall j d k, l !! j = Some d -> own_seat (v_pc d) = Some k -> j <> i -> aget r k = aget (waiting_room b) k) ->
  ids (set_room r b) (<[i := c']> l) o = if decide (o = OSeat i) then n else ids b l o.
Proof.
  intros Hi Hs Hn Hr. destruct o; simpl; try done.
  - by rewrite (existsb_insert sits l i c c').
  - destruct (decide (i0 = i)) as [->|Hne].
    + rewrite list_lookup_insert_eq by (by eapply lookup_lt_Some). rewrite decide_True by done. done.
    + rewrite list_lookup_insert_ne by done. rewrite decide_False by congruence.
      destruct (l !! i0) as [d|] eqn:Ed; [|done]. destruct (own_seat (v_pc d)) as [k|] eqn:Ek; [|done]. by rewrite (Hr i0 d k).
Qed.

Lemma seats_fresh r l m sr id n : m !! id = None -> seats_ok r l m sr -> seats_ok r l (<[id := n]> m) sr.
Proof.
  intros Hm H j d k Hj Hk. destruct (H j d k Hj Hk) as (x & y & Hx & Hy & Hv & Hi). exists x, y.
  split; [done|split; [done|split; [|done]]]. rewrite lookup_insert_ne; [done|]. intros ->. congruence.
Qed.

(** The client [i], whose object is removed, has no seat any more. *)
Lemma seats_delete b l m sr i c' o id :
  books sems0 (ids b l) m -> ids b l o = Some id -> (o = OSeat i \/ o = OChair) -> own_seat (v_pc c') = None ->
  seats_ok (waiting_room b) l m sr -> seats_ok (waiting_room b) (<[i := c']> l) (delete id m) sr.
Proof.
  intros B E Ho Hc H j d k [(_ & <- & _)|[Hne Hj]]%list_lookup_insert_Some Hk; [congruence|].
  destruct (H j d k Hj Hk) as (x & y & Hx & Hy & Hv & Hi). exists x, y.
  split; [done|split; [done|split; [|done]]]. rewrite lookup_delete_ne; [done|].
  apply (books_ne sems0 (ids b l) m o (OSeat j) id); [done|done|by (simpl; rewrite Hj, Hk, Hx)|].
  destruct Ho as [-> | ->]; [|done]. congruence.
Qed.

Lemma phi_bounds c : 0 <= phi c <= 1.
Proof. unfold phi. destruct (v_pc c) as [[]| | | |]; lia. Qed.

Lemma stutters_insert v i c c' b m p cs :
  vclients v !! i = Some c -> stutters (VSt b m p (<[i := c']> (vclients v)) cs) = stutters v - phi c + phi c'.
Proof. intros Hi. unfold stutters. cbn [vclients]. by rewrite (sumz_insert phi _ _ c). Qed.

Section Client.
Context (semget : gmap Z Z -> Z) (Hget : forall m, m !! semget m = None).
Context (cap : Z) (cs : list (Z * Z)) (v : vshop) (s : shop) (i : nat) (c : vclient).
Context (V : live cap cs s) (S : sim v s) (Hi : vclients v !! i = Some c).

Definition moved (c' : vclient) (b : barber_shop_mem) (m : gmap Z Z) : vshop := VSt b m (vbarber v) (<[i := c']> (vclients v)) (vcuts v).
Definition smoved (c' : vclient) (sb : barber_shop_mem) : shop := St sb (barber s) (<[i := abs_client c']> (clients s)) (cuts s).

Lemma exec_client : exec (LClient i) s = client_step i (abs_client c) s.
Proof using S Hi. clear V Hget. simpl. by rewrite (sim_lookup _ _ _ _ S Hi). Qed.

(** Both shops make the step. *)
Lemma follows_both c' b' m' sb' :
  client_step i (abs_client c) s = Step (smoved c' sb') -> v_pc c' <> VFailed -> shape b' sb' -> four b' m' sb' ->
  seats_ok (waiting_room b') (<[i := c']> (vclients v)) m' (waiting_room sb') ->
  chair_of b' (<[i := c']> (vclients v)) -> books sems0 (ids b' (<[i := c']> (vclients v))) m' ->
  follows (LClient i) v s (Step (moved c' b' m')).
Proof using S Hi.
  clear V Hget. intros E Hn Hsh Hfo Hse Hch B. eapply follows_step; [by rewrite exec_client| |].
  - by apply sim_client.
  - unfold moved. rewrite (stutters_insert _ _ c) by done. pose proof (phi_bounds c). pose proof (phi_bounds c'). lia.
Qed.

(** Only the System V shop moves. *)
Lemma follows_stutter c' b' m' :
  clients s = <[i := abs_client c']> (clients s) -> phi c' < phi c -> v_pc c' <> VFailed -> shape b' (bs s) -> four b' m' (bs s) ->
  seats_ok (waiting_room b') (<[i := c']> (vclients v)) m' (waiting_room (bs s)) ->
  chair_of b' (<[i := c']> (vclients v)) -> books sems0 (ids b' (<[i := c']> (vclients v))) m' ->
  follows (LClient i) v s (Step (moved c' b' m')).
Proof using S Hi.
  clear V Hget. intros E Hphi Hn Hsh Hfo Hse Hch B. left. split.
  - replace s with (smoved c' (bs s)) by (unfold smoved; destruct s; simpl in *; congruence). by apply sim_client.
  - unfold moved. rewrite (stutters_insert _ _ c) by done. lia.
Qed.

(** A step that changes one semaphore of the shop, at most. *)
Definition small_change (m' : gmap Z Z) : Prop :=
  m' = sems v \/ exists o id n, ids (mem v) (vclients v) o = Some id /\ (forall j, o <> OSeat j) /\ m' = <[id := n]> (sems v).

Lemma follows_calm c' b' m' sb' :
  client_step i (abs_client c) s = Step (smoved c' sb') -> calm c c' -> v_pc c' <> VFailed -> same_objects (mem v) b' ->
  small_change m' -> shape b' sb' -> four b' m' sb' -> waiting_room sb' = waiting_room (bs s) ->
  follows (LClient i) v s (Step (moved c' b' m')).
Proof using S Hi.
  clear V Hget. intros E Hcalm Hn Hob Hm Hsh Hfo Er. pose proof S as [_ _ _ _ _ _ Hse Hch B].
  pose proof Hob as (_ & _ & _ & _ & E5 & E6).
  assert (seats_ok (waiting_room (mem v)) (vclients v) m' (waiting_room (bs s)) /\ books sems0 (ids (mem v) (vclients v)) m') as [Hse' B'].
  { destruct Hm as [->|(o & id & n & Hid & Ho & ->)]; [done|]. split; [by eapply seats_value|by eapply books_value]. }
  apply (follows_both _ _ _ sb'); try done.
  - rewrite E5, Er. by eapply seats_calm.
  - intros j d Hj Hd. rewrite E6. by apply (chair_calm (mem v) (vclients v) i c c' Hi Hcalm Hch j d).
  - apply (books_ext _ (ids (mem v) (vclients v))); [|done]. intros o. rewrite (ids_same (mem v)) by done. by apply (ids_calm _ _ _ c).
Qed.

Lemma shape_room b sb r r' : shape b sb -> length r = length r' -> shape (set_room r b) (set_room r' sb).
Proof. clear. intros (?&?&?&?&?&?) E. by repeat split. Qed.

(** A client in the chair makes an object for it. *)
Lemma new_chair pc' p :
  served (abs_client c) = true -> sits c = false -> own_seat pc' = own_seat (v_pc c) -> sits (vgoto c pc') = true ->
  (forall k id, pc' <> VSemop k id) -> p = v_pid c ->
  let b' := set_chair (Seat true p (semget (sems v))) (mem v) in let m' := <[semget (sems v) := 0]> (sems v) in
  seats_ok (waiting_room b') (<[i := vgoto c pc']> (vclients v)) m' (waiting_room (bs s)) /\
  chair_of b' (<[i := vgoto c pc']> (vclients v)) /\ books sems0 (ids b' (<[i := vgoto c pc']> (vclients v))) m' /\
  four b' m' (bs s).
Proof using V S Hi Hget.
  intros Hsv Hns Ho Hs Hv -> b' m'. pose proof (sits_alone _ _ _ _ _ _ V S Hi Hsv) as Halone.
  pose proof S as [_ _ _ _ _ Hfo Hse Hch B]. pose proof (Hget (sems v)) as Hnew. split; [|split; [|split]].
  - intros j d k [(<- & <- & _)|[_ Hj]]%list_lookup_insert_Some Hk.
    + cbn [v_pc vgoto] in Hk. rewrite Ho in Hk.
      destruct (seats_fresh _ _ _ _ (semget (sems v)) 0 Hnew Hse i c k Hi Hk) as (x & y & Hx & Hy & Hm & _).
      exists x, y. split; [done|split; [done|split; [done|]]]. intros k' id E. by destruct (Hv k' id).
    + by apply (seats_fresh _ _ _ _ (semget (sems v)) 0 Hnew Hse j d k).
  - intros j d [(_ & <- & _)|[Hne Hj]]%list_lookup_insert_Some Hd; [done|]. by destruct Hne; rewrite (Halone j d).
  - apply (books_new sems0 (ids (mem v) (vclients v)) _ (sems v) OChair); [done| |done|].
    + simpl. destruct (existsb sits (vclients v)) eqn:E; [|done]. apply existsb_lookup in E as (j & d & Hj & Hd).
      assert (j = i) as -> by (by apply (Halone j d)). congruence.
    + intros o. apply (ids_chair (mem v) b' _ i c); try done. rewrite existsb_true_insert; [done|by eapply lookup_lt_Some|done].
  - exact (four_new _ _ _ _ _ Hnew Hfo).
Qed.

(** A client that leaves the chair removes its object. *)
Lemma delete_chair pc' :
  sits c = true -> own_seat (v_pc c) = None -> own_seat pc' = None -> sits (vgoto c pc') = false ->
  let m' := delete (waiting (barber_chair (mem v))) (sems v) in
  seats_ok (waiting_room (mem v)) (<[i := vgoto c pc']> (vclients v)) m' (waiting_room (bs s)) /\
  chair_of (mem v) (<[i := vgoto c pc']> (vclients v)) /\ books sems0 (ids (mem v) (<[i := vgoto c pc']> (vclients v))) m' /\
  four (mem v) m' (bs s).
Proof using V S Hi.
  clear Hget. intros Hs Ho Ho' Hs' m'. pose proof (sits_alone _ _ _ _ _ _ V S Hi (sits_served _ Hs)) as Halone.
  pose proof S as [_ _ _ _ _ Hfo Hse Hch B].
  assert (ids (mem v) (vclients v) OChair = Some (waiting (barber_chair (mem v)))) as Hid.
  { simpl. replace (existsb sits (vclients v)) with true; [done|]. symmetry. apply existsb_lookup. by exists i, c. }
  split; [|split; [|split]].
  - by apply (seats_delete _ _ _ _ _ _ OChair); auto.
  - intros j d [(_ & <- & _)|[Hne Hj]]%list_lookup_insert_Some Hd; [congruence|]. by apply (Hch j d).
  - apply (books_delete sems0 (ids (mem v) (vclients v)) _ (sems v) OChair); [done|done|].
    intros o. apply (ids_chair (mem v) (mem v) _ i c); try done; [simpl; congruence|].
    by rewrite existsb_false_insert.
  - by apply (four_other _ _ _ _ OChair _ 0 B Hid); [left|].
Qed.

(** A client takes a seat, with a new object. *)
Lemma new_seat_object k x :
  v_pc c = At (CSeat k) -> 0 <= k -> (Z.to_nat k < length (waiting_room (mem v)))%nat ->
  (Z.to_nat k < length (waiting_room (bs s)))%nat -> waiting x = semget (sems v) ->
  let r := <[Z.to_nat k := x]> (waiting_room (mem v)) in let m' := <[waiting x := 0]> (sems v) in
  let l' := <[i := vgoto c (At (CUnlock k))]> (vclients v) in
  seats_ok r l' m' (<[Z.to_nat k := new_seat (v_pid c)]> (waiting_room (bs s))) /\
  chair_of (set_room r (mem v)) l' /\ books sems0 (ids (set_room r (mem v)) l') m'.
Proof using V S Hi Hget.
  intros Hpc Hk0 Hk Hks Hx r m' l'. pose proof S as [_ _ _ _ _ Hfo Hse Hch B]. pose proof (Hget (sems v)) as Hnew.
  assert (forall j d k', vclients v !! j = Some d -> own_seat (v_pc d) = Some k' -> k' <> k) as Hother.
  { intros j d k' Hj Hd ->. assert (i = j) as <-; [|by simplify_eq; rewrite Hpc in Hd].
    apply (seat_alone cap cs v s i j c d k V S Hi Hj); [by rewrite Hpc|done]. }
  assert (aget r k = Some x) as Hrk by (apply aget_Some; split; [done|by apply list_lookup_insert_eq]).
  split; [|split].
  - intros j d k' [(_ & <- & _)|[_ Hj]]%list_lookup_insert_Some Hd.
    + injection Hd as <-. exists x, (new_seat (v_pid c)). split; [done|split; [|split; [by unfold m'; rewrite lookup_insert_eq|done]]].
      apply aget_Some. split; [done|]. by apply list_lookup_insert_eq.
    + pose proof (Hother j d k' Hj Hd) as Hne. rewrite <- Hx in Hnew.
      destruct (seats_fresh _ _ _ _ (waiting x) 0 Hnew Hse j d k' Hj Hd) as (x' & y' & Hx' & Hy' & Hm & Hv).
      exists x', y'. split; [by unfold r; rewrite aget_insert_ne|split; [by rewrite aget_insert_ne|done]].
  - assert (sits c = false) as Hs by (unfold sits; by rewrite Hpc).
    intros j d [(_ & <- & _)|[_ Hj]]%list_lookup_insert_Some Hd; [done|by apply (Hch j d)].
  - rewrite <- Hx in Hnew. apply (books_new sems0 (ids (mem v) (vclients v)) _ (sems v) (OSeat i)); [done| |done|].
    + simpl. by rewrite Hi, Hpc.
    + intros o. apply (ids_seat (mem v) r _ i c); [done|unfold sits; by rewrite Hpc|by simpl; rewrite Hrk|].
      intros j d k' Hj Hd Hne. unfold r. rewrite aget_insert_ne; [done|by eapply Hother|done].
Qed.

(** It leaves the seat and removes the object. *)
Lemma delete_seat_object k x :
  v_pc c = VDelete k -> aget (waiting_room (mem v)) k = Some x ->
  let m' := delete (waiting x) (sems v) in let l' := <[i := vgoto c (At CCust)]> (vclients v) in
  seats_ok (waiting_room (mem v)) l' m' (waiting_room (bs s)) /\ chair_of (mem v) l' /\
  books sems0 (ids (mem v) l') m' /\ four (mem v) m' (bs s).
Proof using V S Hi.
  clear Hget. intros Hpc Hx m' l'. pose proof S as [_ _ _ _ _ Hfo Hse Hch B].
  assert (ids (mem v) (vclients v) (OSeat i) = Some (waiting x)) as Hid by (simpl; by rewrite Hi, Hpc; simpl; rewrite Hx).
  assert (sits c = true) as Hs by (unfold sits; by rewrite Hpc).
  split; [|split; [|split]].
  - by apply (seats_delete _ _ _ _ _ _ (OSeat i)); auto.
  - intros j d [(_ & <- & _)|[_ Hj]]%list_lookup_insert_Some Hd; [by apply (Hch i c)|by apply (Hch j d)].
  - apply (books_delete sems0 (ids (mem v) (vclients v)) _ (sems v) (OSeat i)); [done|done|].
    intros o. assert (set_room (waiting_room (mem v)) (mem v) = mem v) as E by (by destruct (mem v)). rewrite <- E at 1.
    by apply (ids_seat (mem v) _ _ i c); rewrite ?Hs.
  - by apply (four_other _ _ _ _ (OSeat i) _ 0 B Hid); [right; eexists|].
Qed.
End Client.

(** The longer cases of a client's step: it takes a seat, *)
Lemma take_seat semget (Hget : forall m, m !! semget m = None) cap cs v s i k p h :
  live cap cs s -> sim v s -> vclients v !! i = Some (VClient (At (CSeat k)) p h) ->
  follows (LClient i) v s (vclient_step semget i (VClient (At (CSeat k)) p h) v).
Proof.
  intros V S Hi. pose proof (v_inv _ _ _ V) as [Hq Hcap _ _ Hcs _]. pose proof (q_room _ Hq) as Hroom.
  pose proof (m_shape _ _ S) as Hsh. pose proof Hsh as (_ & _ & _ & _ & _ & S6).
  assert (0 <= k < cap) as Hk by (by apply (Hcs i _ (sim_lookup _ _ _ _ S Hi))).
  destruct (new_seat_object semget Hget cap cs v s i _ V S Hi k (Seat true p (semget (sems v)))) as (N1 & N2 & N3); try done; try lia.
  unfold vclient_step. cbn [v_pc]. unfold put_seat. cm_step. rewrite aset_ok by lia. cbn.
  apply (follows_both v s i _ S Hi (VClient (At (CUnlock k)) p h) _ _
    (set_room (<[Z.to_nat k := new_seat p]> (waiting_room (bs s))) (bs s))); try done.
  - unfold client_step, put_seat. cm_step. simpl. by rewrite aset_ok by lia.
  - apply shape_room; [done|]. by rewrite !length_insert.
  - exact (four_new _ _ _ _ _ (Hget _) (m_four _ _ S)).
Qed.

(** reads the number of its semaphore, *)
Lemma read_seat semget cap cs v s i k p h :
  live cap cs s -> sim v s -> vclients v !! i = Some (VClient (At (CWaitSeat k)) p h) ->
  follows (LClient i) v s (vclient_step semget i (VClient (At (CWaitSeat k)) p h) v).
Proof.
  intros V S Hi. pose proof (m_seats _ _ S) as Hse.
  destruct (Hse i _ k Hi eq_refl) as (x & y & Hx & Hy & Hm & _). unfold vclient_step, seat_at. cbn [v_pc]. cm_step. rewrite Hx. cbn.
  apply (follows_stutter v s i _ S Hi (VClient (VSemop k (waiting x)) p h)); try done.
  - symmetry. apply list_insert_id. by apply (sim_lookup _ _ _ _ S Hi).
  - apply (m_shape _ _ S).
  - apply (m_four _ _ S).
  - intros j d k' [(<- & <- & _)|[_ Hj]]%list_lookup_insert_Some Hd; [|by apply (Hse j d)].
    injection Hd as <-. exists x, y. split; [done|split; [done|split; [done|]]]. by intros k' id [= _ <-].
  - intros j d [(<- & <- & _)|[_ Hj]]%list_lookup_insert_Some Hd; [done|by apply (m_chair _ _ S j d)].
  - apply (books_ext _ (ids (mem v) (vclients v))); [|apply (m_books _ _ S)]. intros o. destruct o; simpl; try done.
    + by rewrite (existsb_insert sits _ i (VClient (At (CWaitSeat k)) p h)).
    + destruct (decide (i0 = i)) as [->|]; [|by rewrite list_lookup_insert_ne].
      rewrite list_lookup_insert_eq by (by eapply lookup_lt_Some). by rewrite Hi.
Qed.

(** is called, *)
Lemma take_call semget cap cs v s i k id p h :
  live cap cs s -> sim v s -> vclients v !! i = Some (VClient (VSemop k id) p h) ->
  follows (LClient i) v s (vclient_step semget i (VClient (VSemop k id) p h) v).
Proof.
  intros V S Hi. pose proof (v_inv _ _ _ V) as [Hq Hcap _ _ Hcs _]. pose proof (q_room _ Hq) as Hroom.
  pose proof (m_seats _ _ S) as Hse. pose proof (m_books _ _ S) as B.
  destruct (Hse i _ k Hi eq_refl) as (x & y & Hx & Hy & Hm & Hv). rewrite (Hv k id eq_refl).
  assert (0 <= k < cap) as Hk by (by apply (Hcs i _ (sim_lookup _ _ _ _ S Hi))).
  assert (ids (mem v) (vclients v) (OSeat i) = Some (waiting x)) as Hids by (simpl; by rewrite Hi; simpl; rewrite Hx).
  unfold vclient_step. cbn [v_pc]. eapply follows_wait; [done|..]; intros Hn.
  - rewrite (exec_client v s i _ S Hi). unfold client_step, seat_at. cm_step. simpl. rewrite Hy. simpl.
    by destruct (Z.ltb_spec 0 (waiting y)); [lia|].
  - apply (follows_both v s i _ S Hi (VClient (At (CSitFrom k)) p h) _ _
      (set_room (<[Z.to_nat k := Seat (taken y) (pid y) (waiting y - 1)]> (waiting_room (bs s))) (bs s))); try done.
    + unfold client_step, seat_at, put_seat. cm_step. simpl. rewrite Hy. simpl.
      rewrite (proj2 (Z.ltb_lt _ _) Hn). by rewrite aset_ok by lia.
    + destruct (m_shape _ _ S) as (?&?&?&?&?&?). repeat split; try done. simpl. by rewrite length_insert.
    + by apply (four_other _ _ _ _ (OSeat i) (waiting x) (waiting y - 1) B Hids); [right; eexists|apply (m_four _ _ S)].
    + apply (seats_calm _ _ i (VClient (VSemop k id) p h)); [done|done|].
      eapply (seats_set _ _ _ _ i _ k x y); try done.
      intros j d Hj Hd. by apply (seat_alone cap cs v s i j _ d k V S Hi Hj).
    + apply (chair_calm _ _ i (VClient (VSemop k id) p h)); [done|done|apply (m_chair _ _ S)].
    + apply (books_ext _ (ids (mem v) (vclients v))); [|by apply (books_value _ _ _ (OSeat i))].
      intros o. by apply (ids_calm _ _ _ (VClient (VSemop k id) p h)).
Qed.

(** and has left the chair. *)
Lemma leave_chair semget cap cs v s i p h :
  live cap cs s -> sim v s -> vclients v !! i = Some (VClient (At CDone) p h) ->
  follows (LClient i) v s (vclient_step semget i (VClient (At CDone) p h) v).
Proof.
  intros V S Hi. pose proof (sits_alone cap cs v s i (VClient (At CDone) p h) V S Hi eq_refl) as Halone.
  assert (existsb sits (<[i := VClient (At CLeave) p h]> (vclients v)) = false) as Hno by (by apply existsb_false_insert).
  apply (follows_both v s i _ S Hi (VClient (At CLeave) p h) _ _ (set_chair empty_seat (bs s))); try done.
  - apply (m_shape _ _ S).
  - apply (m_four _ _ S).
  - apply (seats_calm _ _ i (VClient (At CDone) p h)); [done|done|apply (m_seats _ _ S)].
  - intros j d Hj Hd. assert (existsb sits (<[i := VClient (At CLeave) p h]> (vclients v)) = true); [|congruence].
    apply existsb_lookup. by exists j, d.
  - apply (books_ext _ (ids (mem v) (vclients v))); [|apply (m_books _ _ S)]. intros o.
    rewrite (ids_chair (mem v) _ _ i (VClient (At CDone) p h) _ None) by (try done; by rewrite Hno).
    case_decide as Eo; [|done]. subst o. simpl.
    destruct (existsb sits (vclients v)) eqn:E; [|done]. apply existsb_lookup in E as (j & d & Hj & Hd).
    assert (j = i) as -> by (by apply (Halone j d)). rewrite Hi in Hj. by injection Hj as <-.
Qed.

Lemma client_follows semget cap cs v s i c :
  (forall m, m !! semget m = None) -> live cap cs s -> sim v s -> vclients v !! i = Some c ->
  follows (LClient i) v s (vclient_step semget i c v).
Proof.
  intros Hget V S Hi. pose proof V as [Hinv Hch _ (line & called & L)]. pose proof Hinv as [Hq Hcap _ _ Hcs Hph].
  pose proof S as [Hb Hc Hl Hf Hsh Hfo Hse Hvch B]. pose proof Hfo as (F1 & F2 & F3 & F4). pose proof Hsh as (S1 & S2 & S3 & S4 & S5 & S6).
  specialize (Hf i c Hi). pose proof (sim_lookup v s i c S Hi) as Hsi. specialize (Hcs i _ Hsi). pose proof (q_room _ Hq) as Hroom.
  assert (forall c', abs_client c' = abs_client c -> clients s = <[i := abs_client c']> (clients s)) as Hid.
  { intros c' ->. symmetry. by apply list_insert_id. }
  pose proof (follows_calm v s i c S Hi) as K. unfold moved, smoved in K.
  pose proof (follows_stutter v s i c S Hi) as T. unfold moved in T.
  pose proof (follows_both v s i c S Hi) as D. unfold moved, smoved in D.
  assert (forall o id n, ids (mem v) (vclients v) o = Some id -> (forall j, o <> OSeat j) ->
    small_change v (<[id := n]> (sems v))) as M by (intros o id n ? ?; right; by exists o, id, n).
  assert (forall n id k f, sems v !! id = Some n -> (n <= 0 -> client_step i (abs_client c) s = Blocked) ->
    (0 < n -> follows (LClient i) v s (k (<[id := n + -1]> (sems v)))) ->
    follows (LClient i) v s (semaphore_wait id (sems v) k f)) as W.
  { intros n id k f E H1 H2. eapply follows_wait; [done|intros; by rewrite (exec_client v s i c S Hi); apply H1|done]. }
  destruct c as [pc p h]. unfold vclient_step. cbn [v_pc v_pid v_haircuts] in *. unfold client_step, wait_on in K, D, W.
  unfold abs_client in K, D, W, Hcs. cbn [v_pc v_pid v_haircuts] in *. 
  destruct pc as [[]| | | |]; cbn [abs_pc c_pc c_pid haircuts vgoto v_pid v_haircuts] in *.
  - destruct (0 <? h) eqn:Eh; (eapply K; [rewrite ?Eh; reflexivity|try done..]; by left).
  - apply (W _ _ _ _ F1); intros Hn; [by destruct (Z.ltb_spec 0 (mx_waiting_room (bs s))); [lia|]|].
    eapply K; [by rewrite (proj2 (Z.ltb_lt _ _) Hn)|try done..]; [by apply (M OMutex)|by eapply four_mx].
  - rewrite S5. destruct (barber_sleeping (bs s)) eqn:Ef.
    + eapply follows_post; [done|]. eapply K; try done; [by apply (M OSleeping)|].
      exact (four_sleeping _ _ _ _ 1 B Hfo).
    + pose proof (wr_push_shape _ _ Hsh Hq) as P. destruct (wr_push (mem v)) as [o b'| | |]; [|done..].
      destruct (wr_push (bs s)) as [o' sb'| | |] eqn:Ep; [|done..].
      destruct P as (<- & Hsh' & Hob & Er & E1 & E2 & E3 & E4).
      assert (four b' (sems v) sb') as Hfo'.
      { destruct Hob as (O1 & O2 & O3 & O4 & _). repeat split; by rewrite ?O1, ?O2, ?O3, ?O4, ?E1, ?E2, ?E3, ?E4. }
      cbn [on_mem]. destruct o; (eapply K; [reflexivity|try done..]); by left.
  - eapply follows_post; [done|]. eapply K; try done; [by apply (M OMutex)|by eapply four_mx].
  - destruct (new_chair semget Hget cap cs v s i _ V S Hi (At CCust) p) as (N1 & N2 & N3 & N4); try done.
    by eapply (D (VClient (At CCust) p h) _ _ (set_chair (new_seat p) (bs s))).
  - eapply follows_post; [done|]. eapply K; try done; [by apply (M OMutex)|by eapply four_mx].
  - exact (take_seat semget Hget cap cs v s i k p h V S Hi).
  - eapply follows_post; [done|]. eapply K; try done; [by apply (M OMutex)|by eapply four_mx].
  - exact (read_seat semget cap cs v s i k p h V S Hi).
  - destruct (new_chair semget Hget cap cs v s i _ V S Hi (VDelete k) p) as (N1 & N2 & N3 & N4); try done.
    apply (T (VClient (VDelete k) p h)); try done. by apply Hid.
  - eapply follows_post; [done|]. eapply K; try done; [by apply (M OCustomer)|by eapply four_customer].
  - apply (W _ _ _ _ F3); intros Hn; [by destruct (Z.ltb_spec 0 (sem_barber_ready (bs s))); [lia|]|].
    eapply K; [by rewrite (proj2 (Z.ltb_lt _ _) Hn)|try done..]; [by apply (M OReady)|by eapply four_ready].
  - exact (leave_chair semget cap cs v s i p h V S Hi).
  - eapply follows_post; [done|]. eapply K; try done; [by apply (M OCustomer)|by eapply four_customer].
  - cbn. by rewrite Hsi.
  - exact (take_call semget cap cs v s i k id p h V S Hi).
  - destruct (Hse i _ k Hi eq_refl) as (x & y & Hx & Hy & Hm & _). unfold seat_at. cm_step. rewrite Hx. cbn.
    destruct (delete_seat_object cap cs v s i _ V S Hi k x) as (N1 & N2 & N3 & N4); try done.
    by eapply (D (VClient (At CCust) p h) _ _ (set_chair (new_seat p) (bs s))).
  - destruct (delete_chair cap cs v s i _ V S Hi (At CDone)) as (N1 & N2 & N3 & N4); try done.
    apply (T (VClient (At CDone) p h)); try done. by apply Hid.
  - done.
Qed.

Lemma vexec_follows semget cap cs v s l :
  (forall m, m !! semget m = None) -> live cap cs s -> sim v s -> follows l v s (vexec semget l v).
Proof.
  intros Hget V S. destruct l as [|i]; simpl; [by apply (barber_follows cap cs)|].
  destruct (vclients v !! i) as [c|] eqn:Hi; [by apply (client_follows semget cap cs)|].
  simpl. by rewrite (m_clients _ _ S), list_lookup_fmap, Hi.
Qed.

(** The objects of the shop when it opens. *)
Lemma sim_start semget cap cs :
  (forall m, m !! semget m = None) -> sim (vshop_init semget cap sems0 cs) (shop_init cap cs).
Proof.
  intros Hget. unfold vshop_init, vinitialize_barber.
  set (mx := semget sems0). set (m1 := <[mx := 1]> sems0). set (sl := semget m1). set (m2 := <[sl := 0]> m1).
  set (rd := semget m2). set (m3 := <[rd := 0]> m2). set (cu := semget m3). set (m4 := <[cu := 0]> m3).
  assert (sems0 !! mx = None) as H1 by apply Hget. assert (m1 !! sl = None) as H2 by apply Hget.
  assert (m2 !! rd = None) as H3 by apply Hget. assert (m3 !! cu = None) as H4 by apply Hget.
  assert (forall i c, map (fun c => VClient (At CStart) c.1 c.2) cs !! i = Some c -> v_pc c = At CStart) as Hst.
  { intros i c. rewrite list_lookup_fmap. destruct (cs !! i); [|done]. by intros [= <-]. }
  assert (existsb sits (map (fun c => VClient (At CStart) c.1 c.2) cs) = false) as Hno.
  { destruct (existsb _ _) eqn:E; [|done]. apply existsb_lookup in E as (i & c & Hi & Hc). unfold sits in Hc. by rewrite (Hst i c Hi) in Hc. }
  assert (forall (m : gmap Z Z) a b x n, m !! a = None -> m !! b = Some n -> <[a := x]> m !! b = Some n) as Hins.
  { intros m a b x n Ha Hb. rewrite lookup_insert_ne; [done|]. intros ->. congruence. }
  split; try done.
  - cbn [clients shop_init vclients]. rewrite map_map. by apply map_ext.
  - intros i c Hi. by rewrite (Hst i c Hi).
  - unfold m4, m3, m2, m1 in *. repeat split; cbn; repeat first [by rewrite lookup_insert_eq | apply Hins; [done|]].
  - intros i c k Hi. by rewrite (Hst i c Hi).
  - intros i c Hi Hc. unfold sits in Hc. by rewrite (Hst i c Hi) in Hc.
  - cbn [mem vclients sems].
    assert (books sems0 (fun _ => None) sems0) as B0.
    { split; try done. intros id. split; [by right|]. by intros [[o Ho]|]. }
    pose proof (books_new sems0 _ (fun o => if decide (o = OMutex) then Some mx else None) sems0 OMutex mx 1 B0 eq_refl H1 (fun _ => eq_refl)) as B1.
    pose proof (books_new sems0 _ (fun o => if decide (o = OSleeping) then Some sl else _) m1 OSleeping sl 0 B1 eq_refl H2 (fun _ => eq_refl)) as B2.
    pose proof (books_new sems0 _ (fun o => if decide (o = OReady) then Some rd else _) m2 OReady rd 0 B2 eq_refl H3 (fun _ => eq_refl)) as B3.
    pose proof (books_new sems0 _ (fun o => if decide (o = OCustomer) then Some cu else _) m3 OCustomer cu 0 B3 eq_refl H4 (fun _ => eq_refl)) as B4.
    eapply books_ext; [|exact B4]. intros [| | | | |i]; simpl; try done.
    + by rewrite Hno.
    + destruct (map _ cs !! i) as [c|] eqn:Hi; [|done]. by rewrite (Hst i c Hi).
Qed.

(** ** Properties *)

Lemma step_sim semget cap cs v s l v' :
  (forall m, m !! semget m = None) -> NoDup (map fst cs) -> live cap cs s -> sim v s -> vexec semget l v = Step v' ->
  exists s', live cap cs s' /\ sim v' s' /\ (s' = s \/ exec l s = Step s') /\
    2 * weight s' + stutters v' < 2 * weight s + stutters v.
Proof.
  intros Hget Hnd V S E. pose proof (vexec_follows semget cap cs v s l Hget V S) as H. rewrite E in H.
  destruct H as [[S' Hs]|(s' & Es & S' & Hs)].
  - exists s. split; [done|split; [done|split; [by left|lia]]].
  - exists s'. destruct (step_weight cap l s s' (v_inv _ _ _ V) Es) as [_ Hw].
    split; [by eapply live_step|split; [done|split; [by right|lia]]].
Qed.

Lemma run_sim semget cap cs ls v s v' :
  (forall m, m !! semget m = None) -> NoDup (map fst cs) -> live cap cs s -> sim v s -> run (vexec semget) ls v = Some v' ->
  exists s', live cap cs s' /\ sim v' s' /\ (exists ls', run exec ls' s = Some s') /\
    2 * weight s' + stutters v' + Z.of_nat (length ls) <= 2 * weight s + stutters v.
Proof.
  intros Hget Hnd. revert v s. induction ls as [|l ls IH]; intros v s V S; simpl.
  - intros [= <-]. exists s. split; [done|split; [done|split; [by exists []|lia]]].
  - destruct (vexec semget l v) as [v1| |] eqn:E; try done. intros Hr.
    destruct (step_sim semget cap cs v s l v1 Hget Hnd V S E) as (s1 & V1 & S1 & Hs & Hw).
    destruct (IH v1 s1 V1 S1 Hr) as (s2 & V2 & S2 & (ls' & Hr') & Hw'). exists s2.
    split; [done|split; [done|split; [|cbn [length]; lia]]]. destruct Hs as [->|Es]; [by exists ls'|].
    exists (l :: ls'). simpl. by rewrite Es.
Qed.

(** Where nothing can happen, nothing can in the POSIX shop. *)
Lemma stuck_sim semget cap cs v s :
  (forall m, m !! semget m = None) -> live cap cs s -> sim v s -> stuck (vexec semget) v -> stuck exec s.
Proof.
  intros Hget V S Hst l. pose proof (vexec_follows semget cap cs v s l Hget V S) as H. by rewrite (Hst l) in H.
Qed.

Lemma stutters_start semget cap cs : stutters (vshop_init semget cap sems0 cs) = 0.
Proof. unfold stutters. simpl. induction cs as [|c cs IH]; [done|]. unfold sumz in *. simpl. by rewrite IH. Qed.
End Sim.

(** C23.  The System V build refines the POSIX build, if there are no more
    clients than seats and [semget] gives numbers that are not in use: in every
    interleaving no step is undefined, no call on a semaphore fails - so nobody
    is ended by one -, and what the processes have done is what they have done
    in some interleaving of the POSIX shop. *)
Theorem sysv_refines_posix (semget : gmap Z Z -> Z) (sems0 : gmap Z Z) (cap : Z) (cs : list (Z * Z)) (v : vshop)
  (Hget : forall m, m !! semget m = None) (Hcap : 0 <= cap <= INT_MAX) (Hfew : Z.of_nat (length cs) <= cap)
  (Hpids : NoDup (map fst cs)) (Hv : reach (vexec semget) (vshop_init semget cap sems0 cs) v) :
  safe (vexec semget) v /\ Forall (fun c => v_pc c <> VFailed) (vclients v) /\
  exists s, reach exec (shop_init cap cs) s /\ vbarber v = Some (barber s) /\
    clients s = map abs_client (vclients v) /\ vcuts v = cuts s.
Proof.
  assert (exists s, live cap cs s /\ sim sems0 v s /\ reach exec (shop_init cap cs) s) as (s & V & S & Hr).
  { revert Hv. apply (reach_inv (vexec semget) (fun v => exists s, live cap cs s /\ sim sems0 v s /\ reach exec (shop_init cap cs) s)).
    - exists (shop_init cap cs). split; [by apply live_start|split; [by apply sim_start|apply reach_refl]].
    - intros l v1 v' (s & V & S & Hr) E. destruct (step_sim sems0 semget cap cs v1 s l v' Hget Hpids V S E) as (s' & V' & S' & Hs & _).
      exists s'. split; [done|split; [done|]]. destruct Hs as [->|Hs]; [done|by eapply reach_step]. }
  split; [|split].
  - intros l u E. pose proof (vexec_follows sems0 semget cap cs v s l Hget V S) as H. by rewrite E in H.
  - apply Forall_lookup. intros i c Hi. by apply (m_failed _ _ _ S i).
  - exists s. split; [done|split; [apply (m_barber _ _ _ S)|split; [apply (m_clients _ _ _ S)|apply (m_cuts _ _ _ S)]]].
Qed.

(** C24.  In the System V build, too, everyone is served when there are no more
    clients than seats: no schedule is longer than a number given by the
    haircuts, and when nothing can happen any more the barber sleeps, every
    client has left with its haircuts - and the semaphores that exist are those
    that were there before the shop, with their values, and the four of the
    shop: every seat's semaphore has been removed, and no other. *)
Theorem sysv_serves_and_cleans (semget : gmap Z Z -> Z) (sems0 : gmap Z Z) (cap : Z) (cs : list (Z * Z))
  (ls : list label) (v : vshop)
  (Hget : forall m, m !! semget m = None) (Hcap : 0 <= cap <= INT_MAX) (Hfew : Z.of_nat (length cs) <= cap)
  (Hpids : NoDup (map fst cs)) (Hrun : run (vexec semget) ls (vshop_init semget cap sems0 cs) = Some v) :
  Z.of_nat (length ls) <= 2 * (3 + sumz (fun c => 1 + 18 * wanted c) cs) /\
  (stuck (vexec semget) v ->
    vbarber v = Some BSleep /\ Forall (fun c => v_pc c = At CExit) (vclients v) /\
    (forall p h, (p, h) ∈ cs -> Z.of_nat (countb (fun x => x =? p) (vcuts v)) = Z.max 0 h) /\
    (forall id n, sems0 !! id = Some n -> sems v !! id = Some n) /\
    forall id, is_Some (sems v !! id) <-> is_Some (sems0 !! id) \/
      id ∈ [mx_waiting_room (mem v); sem_barber_sleeping (mem v); sem_barber_ready (mem v); sem_customer_ready (mem v)]).
Proof.
  destruct (run_sim sems0 semget cap cs ls _ _ v Hget Hpids (live_start cap cs Hcap Hfew) (sim_start sems0 semget cap cs Hget) Hrun)
    as (s & V & S & _ & Hw).
  rewrite weight_start, stutters_start in Hw. pose proof (weight_nonneg cap s (v_inv _ _ _ V)).
  assert (0 <= stutters v) by (apply sumz_nonneg; intros c; apply phi_bounds). split; [lia|]. intros Hst.
  apply (stuck_sim sems0 semget cap cs v s Hget V S) in Hst. pose proof S as [Hb Hc Hl Hf _ _ _ _ B].
  assert (forall i c, vclients v !! i = Some c -> v_pc c = At CExit) as Hall.
  { intros i c Hi. pose proof (proj1 (Forall_lookup _ _) (stuck_served cap cs s V Hst) i _ (sim_lookup _ _ _ _ _ S Hi)) as E.
    specialize (Hf i c Hi). simpl in E. by destruct (v_pc c) as [[]| | | |]. }
  split; [by rewrite Hb, (stuck_asleep cap cs s V Hst)|]. split; [apply Forall_lookup; apply Hall|].
  split; [rewrite Hc; by apply (stuck_served_all cap cs)|]. split; [apply (k_foreign _ _ _ B)|].
  intros id. rewrite (k_dom _ _ _ B). split.
  - intros [[o Ho]|]; [right|by left]. destruct o; simpl in Ho; try (injection Ho as <-; rewrite !elem_of_cons; tauto).
    + destruct (existsb sits (vclients v)) eqn:E; [|done]. apply existsb_lookup in E as (i & c & Hi & Hs).
      unfold sits in Hs. by rewrite (Hall i c Hi) in Hs.
    + destruct (vclients v !! i) as [c|] eqn:Hi; [|done]. by rewrite (Hall i c Hi) in Ho.
  - intros [|Hid]; [by right|left]. rewrite !elem_of_cons, elem_of_nil in Hid.
    destruct Hid as [->|[->|[->|[->|[]]]]]; [by exists OMutex|by exists OSleeping|by exists OReady|by exists OCustomer].
Qed.

(** One way to number semaphores. *)
Definition next_id (m : gmap Z Z) : Z := 1 + foldr Z.max 0 (map fst (map_to_list m)).

Lemma next_id_new m : m !! next_id m = None.
Proof.
  destruct (m !! next_id m) as [n|] eqn:E; [|done]. exfalso.
  assert (next_id m ∈ map fst (map_to_list m)) as Hin.
  { apply list_elem_of_fmap. exists (next_id m, n). split; [done|]. by apply elem_of_map_to_list. }
  assert (forall l x, x ∈ l -> x <= foldr Z.max 0 l) as Hmax.
  { intros l x. induction l as [|y l IH]; [by intros ?%elem_of_nil|]. intros [->|Hx]%elem_of_cons; simpl; [lia|].
    specialize (IH Hx). lia. }
  apply Hmax in Hin. unfold next_id in Hin at 1. lia.
Qed.

(** One seat and two clients: as in [lost_call], but the first client is
    already waiting when its seat is given to the second. *)
Definition stolen_semaphore : list label :=
  map (fun n : nat => match n with O => LBarber | S i => LClient i end)
    [1; 1; 1; 1; 1; 1; 0; 0; 0; 0; 2; 2; 2; 2; 2; 2; 1; 1; 1; 2; 1; 0; 0; 1; 1; 1; 1; 1; 0; 0; 0; 0]%nat.

(** With fewer seats than clients - the s of the listener is enough - the build
    is not safe: a client removes the semaphore of the one that sits on its old
    seat by now; that client's wait fails and it exits with 1, still in the
    queue, and when the barber calls it the shop ends.  The semaphore of the
    first client's seat is never removed. *)
Theorem sysv_removes_anothers_semaphore :
  exists v, reach (vexec next_id) (vshop_init next_id 1 ∅ [(100, 1); (101, 1)]) v /\
    vbarber v = None /\ map v_pc (vclients v) = [At CExit; VFailed] /\ map_to_list (sems v) = [(5, 0)].
Proof.
  destruct (run (vexec next_id) stolen_semaphore (vshop_init next_id 1 ∅ [(100, 1); (101, 1)])) as [v|] eqn:E; [|vm_compute in E; discriminate].
  exists v. split; [eauto with model|]. vm_compute in E. injection E as <-.
  split; [reflexivity|split; reflexivity].
Qed.

Lemma sysv_refines_posix_witness :
  exists v s, run (vexec next_id) [LClient 0; LBarber]%nat (vshop_init next_id 2 {[9 := 1]} [(7, 1); (8, 1)]) = Some v /\
    reach exec (shop_init 2 [(7, 1); (8, 1)]) s /\ vbarber v = Some (barber s).
Proof.
  destruct (run (vexec next_id) [LClient 0; LBarber]%nat (vshop_init next_id 2 {[9 := 1]} [(7, 1); (8, 1)])) as [v|] eqn:E;
    [|vm_compute in E; discriminate].
  destruct (sysv_refines_posix next_id {[9 := 1]} 2 [(7, 1); (8, 1)] v next_id_new) as (_ & _ & s & Hs & Hb & _);
    [unfold INT_MAX; lia|done|apply (bool_decide_unpack _); vm_compute; exact I|eauto with model|].
  exists v, s. split; [reflexivity|split; [exact Hs|exact Hb]].
Defined.

(** The second client has to wait for its seat. *)
Definition two_haircuts_sysv : list label :=
  map (fun n : nat => match n with O => LBarber | S i => LClient i end)
    [0; 0; 0; 1; 1; 1; 1; 1; 1; 2; 2; 2; 2; 2; 2; 0; 0; 0; 1; 1; 1; 1; 1; 0; 0; 0; 0; 0; 2; 2; 2; 2; 0; 0; 2; 2; 2; 2; 2; 0; 0; 0; 0]%nat.

Lemma sysv_serves_and_cleans_witness :
  exists v, run (vexec next_id) two_haircuts_sysv (vshop_init next_id 2 {[9 := 1]} [(7, 1); (8, 1)]) = Some v /\
    stuck (vexec next_id) v /\ vbarber v = Some BSleep /\ sems v !! 9 = Some 1.
Proof.
  destruct (run (vexec next_id) two_haircuts_sysv (vshop_init next_id 2 {[9 := 1]} [(7, 1); (8, 1)])) as [v|] eqn:E;
    [|vm_compute in E; discriminate].
  assert (stuck (vexec next_id) v) as Hst.
  { vm_compute in E. injection E as <-. intros [|[|[|i]]]; reflexivity. }
  destruct (sysv_serves_and_cleans next_id {[9 := 1]} 2 [(7, 1); (8, 1)] two_haircuts_sysv v next_id_new) as [_ H];
    [unfold INT_MAX; lia|done|apply (bool_decide_unpack _); vm_compute; exact I|done|].
  destruct (H Hst) as (Hb & _ & _ & Hf & _). exists v. split; [reflexivity|split; [exact Hst|split; [exact Hb|]]].
  apply Hf. reflexivity.
Defined.
