(* ===== verification/ShopLife.v ===== *)
(** The life of the barber's shop, in both builds (POSIX and System V):
    [initialize_barber], [initialize_client], [dispose_barber],
    [dispose_client] of cw07/zad1/src/barber-shop.c, and [main] of barber.c
    and of client.c up to their loops, with the listener, the signal handlers
    and the code run at exit.  The loops themselves, over the memory made
    here, are in [Barber] and [BarberSysV].  In the System V build the
    semaphores are objects of their own, made with the memory and removed with
    it: the fields of [barber_shop_mem] hold their values here, and their
    numbers in [BarberSysV]. *)
From S2P Require Import Prelude CString Scan Barber.
From Stdlib Require Import Ascii.
#[local] Open Scope Z_scope.

(** The shared object, by its name: [/barber], or the key made from the home
    directory.  It exists before it is filled in. *)
Inductive segment :=
  | Raw
  | Filled (b : barber_shop_mem).

(** What the processes print (the texts of the source, named) and do. *)
Inductive wevent :=
  | WUsage
  | WNoKey
  | WCannotCreate
  | WCannotOpen
  | WCannotTruncate
  | WCannotMap
  | WUnmapped
  | WSemaphoresRemoved
  | WUnlinked
  | WExec (haircuts : string)     (* a child that runs ./client *)
  | WSpawning
  | WHint
  | WKilled (pid : Z).            (* SIGTERM *)

(** The shared object, and one process: whether its [bs] points to the
    object, and the globals of barber.c. *)
Record world := World {
  object : option segment;
  mapped : bool;
  listener_pid : Z;
  clients_count : Z;
  haircuts_no : Z;
  wlog : list wevent;
}.

(** A process that starts while the object is [o]. *)
Definition fresh (o : option segment) : world := World o false (-1) 0 0 [].

Definition say (e : wevent) : cm world unit :=
  modify (fun w => World (object w) (mapped w) (listener_pid w) (clients_count w) (haircuts_no w) (wlog w ++ [e])).
Definition set_object o : cm world unit :=
  modify (fun w => World o (mapped w) (listener_pid w) (clients_count w) (haircuts_no w) (wlog w)).
Definition set_mapped b : cm world unit :=
  modify (fun w => World (object w) b (listener_pid w) (clients_count w) (haircuts_no w) (wlog w)).
Definition set_counts n h : cm world unit :=
  modify (fun w => World (object w) (mapped w) (listener_pid w) n h (wlog w)).
Definition set_listener pid : cm world unit :=
  modify (fun w => World (object w) (mapped w) pid (clients_count w) (haircuts_no w) (wlog w)).

(** What the system answers. *)
Record system := System {
  sys_key : bool;               (* ftok (System V) *)
  sys_create : bool;            (* shm_open or shmget, when the name is free *)
  sys_truncate : bool;          (* ftruncate, to a length it accepts *)
  sys_map : bool;               (* mmap or shmat *)
  sys_fork : Z;                 (* what fork returns to the barber, or in the listener *)
  sys_spawn : Z -> bool;        (* fork of the listener, for each client *)
}.

Section Build.
Context (sysv : bool) (sys : system).

(** ** barber-shop.c *)

Definition sizeof_barber_shop_mem : Z := if sysv then 48 else 192.
Definition sizeof_wr_seat : Z := if sysv then 12 else 40.

(** In [size_t]: a negative [wr_cap] wraps. *)
Definition get_bs_size (wr_cap : Z) : Z := u64 (sizeof_barber_shop_mem + u64 (u64 wr_cap * sizeof_wr_seat)).

Definition dispose_barber : cm world unit :=
  w ← get;
  if sysv then
    (if mapped w then say WSemaphoresRemoved else mret tt) ;;
    (* shmdt, shmctl(IPC_RMID) *)
    (if mapped w then say WUnmapped else mret tt) ;; set_object None ;; say WUnlinked
  else
    (* unmap_shm, shm_unlink *)
    (if mapped w then say WUnmapped else mret tt) ;; set_object None ;; say WUnlinked.

Definition dispose_client : cm world unit :=
  w ← get; if mapped w then say WUnmapped else mret tt.

(** ** barber.c *)

Definition barber_cleanup : cm world unit :=
  w ← get; if 0 <? listener_pid w then dispose_barber else mret tt.

Definition barber_exit {A} (code : Z) : cm world A := barber_cleanup ;; exit_ code.

(** [perror(e); exit(1)] unless [ok]. *)
Definition need {X} (ok : bool) (e : wevent) (ended : Z -> cm world X) (k : cm world X) : cm world X :=
  if ok then k else say e ;; ended 1.

(** The calls of [initialize_barber] that make the object; [shm_open] and
    [shmget] are told to fail when the name is taken, [ftruncate] fails on a
    negative length, and [shmget] on a size above 2^63. *)
Definition make_object (wr_cap : Z) : cm world unit :=
  w ← get;
  let free := match object w with None => true | Some _ => false end in
  let fits := 0 <=? s64 (get_bs_size wr_cap) in
  if sysv then
    need (sys_key sys) WNoKey barber_exit (
    need (free && fits && sys_create sys) WCannotCreate barber_exit (
    set_object (Some Raw) ;;
    (* what shmat returns is not checked: a failure is found when bs is used *)
    set_mapped (sys_map sys)))
  else
    need (free && sys_create sys) WCannotCreate barber_exit (
    set_object (Some Raw) ;;
    need (fits && sys_truncate sys) WCannotTruncate barber_exit (
    need (sys_map sys) WCannotMap barber_exit (
    set_mapped true))).

Definition initialize_barber (wr_cap : Z) : cm world unit :=
  make_object wr_cap ;;
  w ← get;
  check (mapped w) UB_bounds ;;
  set_object (Some (Filled (Barber.initialize_barber wr_cap))).

(** Each child runs ./client, or ends with [_exit]. *)
Definition spawn_clients : cm world unit :=
  w ← get;
  for_range (Z.to_nat (clients_count w)) 0 (fun i =>
    if sys_spawn sys i then say (WExec (print_int (haircuts_no w))) else mret tt).

(** SIGINT and SIGTERM. *)
Definition sig_handler : cm world unit :=
  w ← get;
  (if 0 <? listener_pid w then say (WKilled (listener_pid w)) else mret tt) ;;
  barber_exit 0.

(** [main], up to the fork, in the process to which fork returns
    [sys_fork]. *)
Definition barber_main (argv : list string) : cm world unit :=
  match argv with
  | [_; clients; haircuts] =>
      wr_cap ← atoi clients;
      haircuts ← atoi haircuts;
      initialize_barber wr_cap ;;
      set_counts wr_cap haircuts ;;
      set_listener (sys_fork sys)
  | _ => say WUsage ;; barber_exit 1
  end.

(** What the listener does for each [getchar], [None] at the end of its
    input; it is still there when the list ends. *)
Fixpoint listener_loop (input : list (option ascii)) : cm world unit :=
  match input with
  | [] => mret tt
  | gc :: rest =>
      match gc with
      | Some "s"%char => say WSpawning ;; spawn_clients
      | Some _ => mret tt
      | None => say WHint
      end ;;
      listener_loop rest
  end.

Definition listener (input : list (option ascii)) : cm world unit :=
  spawn_clients ;; listener_loop input.

(** ** client.c *)

Definition client_exit {A} (code : Z) : cm world A := dispose_client ;; exit_ code.

Definition initialize_client : cm world unit :=
  w ← get;
  let there := match object w with None => false | Some _ => true end in
  if sysv then
    need (sys_key sys) WNoKey client_exit (
    need there WCannotOpen client_exit (
    set_mapped (sys_map sys)))
  else
    need there WCannotOpen client_exit (
    need (sys_map sys) WCannotMap client_exit (
    set_mapped true)).

(** [main] up to its loop: the number of haircuts to have. *)
Definition client_main (argv : list string) : cm world Z :=
  match argv with
  | [_; arg] =>
      haircuts ← atoi arg;
      initialize_client ;;
      mret haircuts
  | _ => say WUsage ;; client_exit 1
  end.
End Build.

(** ** Lemmas *)

Section Lives.
Context (sysv : bool) (sys : system).

(** What [make_object] asks of the system, but that the name be free. *)
Definition grants (wr_cap : Z) : bool :=
  (negb sysv || sys_key sys) && (0 <=? s64 (get_bs_size sysv wr_cap)) && sys_create sys &&
  (sysv || sys_truncate sys) && sys_map sys.

(** A process whose listener is not there leaves the shop alone. *)
Lemma barber_exit_early {A} code w :
  listener_pid w <= 0 -> (barber_exit sysv code : cm world A) w = Exited code w.
Proof.
  intros Hl. unfold barber_exit, barber_cleanup. eapply bind_eq; [|done]. eapply bind_eq; [done|].
  destruct (Z.ltb_spec 0 (listener_pid w)); [lia|done].
Qed.

Definition w_say e w := World (object w) (mapped w) (listener_pid w) (clients_count w) (haircuts_no w) (wlog w ++ [e]).

Lemma need_early {X} ok e (k : cm world X) w :
  listener_pid w <= 0 ->
  need ok e (barber_exit sysv) k w = if ok then k w else Exited 1 (w_say e w).
Proof. intros Hl. unfold need. destruct ok; [done|]. eapply bind_eq; [done|]. by apply barber_exit_early. Qed.

End Lives.

(** The name is taken: nothing is made, and what is there stays. *)
Lemma make_object_taken sysv sys wr_cap x :
  exists e, make_object sysv sys wr_cap (fresh (Some x)) = Exited 1 (w_say e (fresh (Some x))).
Proof.
  unfold make_object. destruct sysv; [destruct (sys_key sys) eqn:Ek|]; eexists; (eapply bind_eq; [done|]);
    cbn [object fresh andb]; rewrite need_early by (simpl; lia); [|done..].
  by rewrite need_early by (simpl; lia).
Qed.

Lemma make_object_granted sysv sys wr_cap :
  grants sysv sys wr_cap = true -> make_object sysv sys wr_cap (fresh None) = Done tt (World (Some Raw) true (-1) 0 0 []).
Proof.
  unfold grants, make_object. intros [[[[Hk Hf]%andb_true_iff Hc]%andb_true_iff Ht]%andb_true_iff Hm]%andb_true_iff.
  eapply bind_eq; [done|]. cbn [object fresh andb]. rewrite Hf, Hc, Hm. destruct sysv; simpl in Hk, Ht; rewrite ?Hk, ?Ht; done.
Qed.

(** POSIX: when the object has been made but not given its length, or not
    mapped, it is left behind. *)
Lemma make_object_left sys wr_cap :
  sys_create sys = true -> grants false sys wr_cap = false ->
  exists e, make_object false sys wr_cap (fresh None) = Exited 1 (World (Some Raw) false (-1) 0 0 [e]).
Proof.
  unfold grants, make_object. intros Hc Hg. rewrite Hc in Hg. simpl in Hg. rewrite andb_true_r in Hg.
  destruct ((0 <=? s64 (get_bs_size false wr_cap)) && sys_truncate sys) eqn:Ht.
  - simpl in Hg. exists WCannotMap. eapply bind_eq; [done|]. cbn [object fresh andb].
    rewrite Hc, need_early by (simpl; lia). cbn [andb]. eapply bind_eq; [done|].
    rewrite need_early by (simpl; lia). rewrite Hg, need_early by (simpl; lia). done.
  - exists WCannotTruncate. eapply bind_eq; [done|]. cbn [object fresh andb].
    rewrite Hc, need_early by (simpl; lia). cbn [andb]. eapply bind_eq; [done|].
    rewrite need_early by (simpl; lia). done.
Qed.

(** The length of an object for 5 or more seats below none is negative. *)
Lemma negative_size wr_cap : INT_MIN <= wr_cap <= -5 -> s64 (get_bs_size false wr_cap) = 192 + 40 * wr_cap.
Proof.
  unfold INT_MIN, get_bs_size, sizeof_barber_shop_mem, sizeof_wr_seat, u64. intros H.
  rewrite Z.mul_mod_idemp_l, Z.add_mod_idemp_r by lia. unfold s64, swrap.
  rewrite Z.add_mod_idemp_l by lia. rewrite Z.mod_small; lia.
Qed.

Lemma barber_main_args sysv sys prog c h w :
  INT_MIN <= atoi_val c <= INT_MAX -> INT_MIN <= atoi_val h <= INT_MAX ->
  barber_main sysv sys [prog; c; h] w =
  (initialize_barber sysv sys (atoi_val c) ;; set_counts (atoi_val c) (atoi_val h) ;; set_listener (sys_fork sys)) w.
Proof.
  intros Hc Hh. eapply bind_eq; [by apply int_op_ok|]. eapply bind_eq; [by apply int_op_ok|]. done.
Qed.

(** ** The listener *)

Definition is_exec (e : wevent) : bool := match e with WExec _ => true | _ => false end.
Definition is_s (gc : option ascii) : bool := match gc with Some c => Ascii.eqb c "s" | None => false end.

(** The log after some clients have been spawned: as many as [n], each for
    [h] haircuts. *)
Definition spawned (h : Z) (n : nat) (w w' : world) : Prop :=
  object w' = object w /\ clients_count w' = clients_count w /\ haircuts_no w' = haircuts_no w /\
  exists es, wlog w' = wlog w ++ es /\ countb is_exec es = n /\ forall a, WExec a ∈ es -> a = print_int h.

Lemma spawned_refl h w : spawned h 0 w w.
Proof.
  split; [done|]. split; [done|]. split; [done|]. exists []. split; [by rewrite app_nil_r|]. split; [done|].
  by intros a ?%not_elem_of_nil.
Qed.

Lemma spawned_trans h n m w1 w2 w3 : spawned h n w1 w2 -> spawned h m w2 w3 -> spawned h (n + m) w1 w3.
Proof.
  intros (Ho & Hc & Hh & es & E & Hn & Ha) (Ho' & Hc' & Hh' & es' & E' & Hm & Ha').
  split; [congruence|]. split; [congruence|]. split; [congruence|]. exists (es ++ es').
  split; [by rewrite E', E, app_assoc|]. split; [by rewrite countb_app, Hn, Hm|].
  intros a [?|?]%elem_of_app; eauto.
Qed.

(** One more event, which is not a client. *)
Lemma spawned_say h n e w w' : spawned h n w w' -> is_exec e = false -> spawned h n w (w_say e w').
Proof.
  intros H He. rewrite <- (Nat.add_0_r n). eapply spawned_trans; [exact H|]. split; [done|]. split; [done|]. split; [done|].
  exists [e]. split; [done|]. split; [by rewrite countb_cons, He|]. intros a Ha%list_elem_of_singleton. by subst e.
Qed.

Section Listener.
Context (sys : system) (Hspawn : forall i, sys_spawn sys i = true).

Lemma spawn_clients_eq w :
  exists w', spawn_clients sys w = Done tt w' /\ spawned (haircuts_no w) (Z.to_nat (clients_count w)) w w'.
Proof.
  pose proof (wp_for_range_idx (fun i w' => spawned (haircuts_no w) (Z.to_nat i) w w') (fun _ _ => False)
    (fun i => if sys_spawn sys i then say (WExec (print_int (haircuts_no w))) else mret tt)
    (Z.to_nat (clients_count w)) 0 w) as H.
  unfold wp in H at 2. unfold spawn_clients, mbind, cm_bind, get in *.
  destruct (for_range _ _ _ w) as [[] w'| | |]; [exists w'; split; [done|]|exfalso..].
  1: replace (Z.to_nat (clients_count w)) with (Z.to_nat (0 + Z.of_nat (Z.to_nat (clients_count w)))) by lia.
  all: apply H; [|apply spawned_refl].
  all: intros k t Hk Ht; rewrite Hspawn; unfold wp, say, modify;
    replace (Z.to_nat (k + 1)) with (Z.to_nat k + 1)%nat by lia; eapply spawned_trans; [exact Ht|].
  all: split; [done|]; split; [done|]; split; [done|]; exists [WExec (print_int (haircuts_no w))];
    (split; [done|]); (split; [done|]); intros a Ha%list_elem_of_singleton; by injection Ha.
Qed.

Lemma listener_loop_eq input w :
  exists w', listener_loop sys input w = Done tt w' /\
    spawned (haircuts_no w) (countb is_s input * Z.to_nat (clients_count w)) w w'.
Proof.
  revert w. induction input as [|gc input IH]; intros w; [exists w; split; [done|apply spawned_refl]|].
  assert (exists w1, (match gc with Some "s"%char => say WSpawning ;; spawn_clients sys | Some _ => mret tt | None => say WHint end) w = Done tt w1 /\
    spawned (haircuts_no w) ((if is_s gc then 1 else 0) * Z.to_nat (clients_count w)) w w1) as (w1 & E1 & H1).
  { destruct gc as [c|].
    - destruct (is_s (Some c)) eqn:Es.
      + simpl in Es. apply Ascii.eqb_eq in Es as ->. destruct (spawn_clients_eq (w_say WSpawning w)) as (w1 & E1 & H1).
        exists w1. split; [by eapply bind_eq|]. rewrite Nat.mul_1_l. apply (spawned_trans _ 0 _ _ (w_say WSpawning w)); [|done].
        apply spawned_say; [apply spawned_refl|done].
      + exists w. split; [|apply spawned_refl]. destruct c as [[] [] [] [] [] [] [] []]; done.
    - exists (w_say WHint w). split; [done|]. apply spawned_say; [apply spawned_refl|done]. }
  destruct (IH w1) as (w2 & E2 & H2). exists w2. split; [by eapply bind_eq|].
  rewrite countb_cons, Nat.mul_add_distr_r. eapply spawned_trans; [exact H1|].
  destruct H1 as (_ & Hc & Hh & _). by rewrite <- Hc, <- Hh.
Qed.
End Listener.

(** SIGINT and SIGTERM, once there is a listener. *)
Lemma sig_handler_eq sysv w :
  0 < listener_pid w ->
  exists w', sig_handler sysv w = Exited 0 w' /\ object w' = None /\
    exists es, wlog w' = wlog w ++ WKilled (listener_pid w) :: es.
Proof.
  intros Hl. destruct w as [o m l n h lg]. simpl in Hl. unfold sig_handler, barber_exit, barber_cleanup, dispose_barber.
  eexists. split; [|split].
  - eapply bind_eq; [done|]. cbn [listener_pid]. destruct (Z.ltb_spec 0 l); [|lia].
    eapply bind_eq; [done|]. eapply bind_eq; [|done]. eapply bind_eq; [done|]. cbn [listener_pid].
    destruct (Z.ltb_spec 0 l); [|lia]. eapply bind_eq; [done|]. cbn [mapped].
    instantiate (1 := World None m l n h ((lg ++ [WKilled l]) ++
      (if sysv then if m then [WSemaphoresRemoved; WUnmapped] else [] else if m then [WUnmapped] else []) ++ [WUnlinked])).
    destruct sysv, m; unfold say, set_object; cm_step; by rewrite <- ?app_assoc.
  - done.
  - eexists. cbn [wlog listener_pid]. rewrite <- app_assoc. done.
Qed.

(** ** Properties *)


(** A barber that finds the name taken, or wrong arguments, leaves the
    shop that is there as it is, and exits with 1; so does every process that
    starts without a listener of its own. *)
Theorem second_barber_leaves_shop (sysv : bool) (sys : system) (argv : list string) (x : segment)
  (Hargv : forall prog c h, argv = [prog; c; h] ->
    INT_MIN <= atoi_val c <= INT_MAX /\ INT_MIN <= atoi_val h <= INT_MAX) :
  exists w, barber_main sysv sys argv (fresh (Some x)) = Exited 1 w /\ object w = Some x.
Proof.
  assert (forall e, exists w, (say e ;; barber_exit sysv 1 : cm world unit) (fresh (Some x)) = Exited 1 w /\ object w = Some x) as H.
  { intros e. eexists. split; [eapply bind_eq; [done|by apply barber_exit_early]|done]. }
  destruct argv as [|prog [|c [|h [|]]]]; try apply H.
  destruct (Hargv prog c h eq_refl) as [Hc Hh]. destruct (make_object_taken sysv sys (atoi_val c) x) as [e E].
  exists (w_say e (fresh (Some x))). split; [|done]. rewrite barber_main_args by done.
  apply bind_exited. by apply bind_exited.
Qed.

(** In the POSIX build a start that makes the object but cannot give it
    its length, or map it, leaves the object behind, and from then on no
    barber can start, whatever its arguments and whatever the system grants.
    -5 seats or less are enough for that. *)
Theorem failed_start_blocks_shop (sys : system) (prog c h : string)
  (Hc : INT_MIN <= atoi_val c <= INT_MAX) (Hh : INT_MIN <= atoi_val h <= INT_MAX)
  (Hcreate : sys_create sys = true) (Hbad : atoi_val c <= -5 \/ grants false sys (atoi_val c) = false) :
  exists w, barber_main false sys [prog; c; h] (fresh None) = Exited 1 w /\ object w = Some Raw /\
    forall sys' prog' c' h', INT_MIN <= atoi_val c' <= INT_MAX -> INT_MIN <= atoi_val h' <= INT_MAX ->
      exists w', barber_main false sys' [prog'; c'; h'] (fresh (object w)) = Exited 1 w' /\ object w' = Some Raw.
Proof.
  assert (grants false sys (atoi_val c) = false) as Hg.
  { destruct Hbad as [Hneg|]; [|done]. unfold grants. rewrite negative_size by lia.
    destruct (Z.leb_spec 0 (192 + 40 * atoi_val c)); [lia|]. by rewrite andb_false_r. }
  destruct (make_object_left sys (atoi_val c) Hcreate Hg) as [e E].
  eexists. split; [|split].
  - rewrite barber_main_args by done. apply bind_exited. apply bind_exited. exact E.
  - done.
  - intros sys' prog' c' h' Hc' Hh'. cbn [object]. destruct (make_object_taken false sys' (atoi_val c') Raw) as [e' E'].
    exists (w_say e' (fresh (Some Raw))). split; [|done]. rewrite barber_main_args by done.
    apply bind_exited. by apply bind_exited.
Qed.

(** The clients come: the listener starts as many as the first argument
    of the barber says, and as many again for each s it reads, each for the
    haircuts of the second argument; and a client that is started so, while
    the shop is there, attaches to it and goes to its loop with exactly that
    number of haircuts to have, as [Barber] starts it.  Without a shop it
    exits with 1. *)
Theorem clients_come (sysv : bool) (sys : system) (input : list (option ascii)) (w : world) (prog : string)
  (Hspawn : forall i, sys_spawn sys i = true) (Hh : INT_MIN <= haircuts_no w <= INT_MAX)
  (Hkey : sys_key sys = true) (Hmap : sys_map sys = true) :
  (exists w', listener sys input w = Done tt w' /\
     spawned (haircuts_no w) ((1 + countb is_s input) * Z.to_nat (clients_count w)) w w') /\
  (forall x, exists w', client_main sysv sys [prog; print_int (haircuts_no w)] (fresh (Some x)) = Done (haircuts_no w) w' /\
     mapped w' = true /\ object w' = Some x) /\
  (exists w', client_main sysv sys [prog; print_int (haircuts_no w)] (fresh None) = Exited 1 w').
Proof.
  split; [|split].
  - destruct (spawn_clients_eq sys Hspawn w) as (w1 & E1 & H1). destruct (listener_loop_eq sys Hspawn input w1) as (w2 & E2 & H2).
    exists w2. split; [by eapply bind_eq|]. rewrite Nat.mul_add_distr_r, Nat.mul_1_l. eapply spawned_trans; [exact H1|].
    destruct H1 as (_ & Hc & Hhc & _). by rewrite <- Hc, <- Hhc.
  - intros x. exists (World (Some x) true (-1) 0 0 []). split; [|done].
    eapply bind_eq; [apply int_op_ok; by rewrite atoi_print|]. rewrite atoi_print. eapply bind_eq; [|done].
    unfold initialize_client. eapply bind_eq; [done|]. cbn [object fresh]. unfold need. rewrite Hkey, Hmap. by destruct sysv.
  - eexists. eapply bind_eq; [apply int_op_ok; by rewrite atoi_print|]. apply bind_exited.
    unfold initialize_client. eapply bind_eq; [done|]. cbn [object fresh]. unfold need. rewrite Hkey.
    instantiate (1 := World None false (-1) 0 0 [WCannotOpen]). by destruct sysv.
Qed.

(** ** The properties at concrete inputs *)

Definition demo_sys : system := System true true true true 7 (fun _ => true).


Lemma second_barber_leaves_shop_witness :
  exists w, barber_main true demo_sys ["barber"; "3"; "2"]%string (fresh (Some Raw)) = Exited 1 w /\ object w = Some Raw.
Proof.
  apply (second_barber_leaves_shop true demo_sys ["barber"; "3"; "2"]%string Raw).
  intros prog c h [= <- <- <-]. vm_compute. repeat split; congruence.
Defined.

Lemma failed_start_blocks_shop_witness :
  exists w, barber_main false demo_sys ["barber"; "-5"; "2"]%string (fresh None) = Exited 1 w /\ object w = Some Raw.
Proof.
  destruct (failed_start_blocks_shop demo_sys "barber" "-5" "2") as (w & E & Ho & _);
    [vm_compute; split; congruence|vm_compute; split; congruence|reflexivity|left; vm_compute; congruence|].
  exists w. split; [exact E|exact Ho].
Defined.

Lemma clients_come_witness :
  let w := World (Some Raw) true 0 2 5 [] in
  exists w', listener demo_sys [Some "x"%char; Some "s"%char; None] w = Done tt w' /\ spawned 5 4 w w'.
Proof.
  intros w. destruct (clients_come false demo_sys [Some "x"%char; Some "s"%char; None] w "client") as [H _];
    [reflexivity|vm_compute; split; congruence|reflexivity|reflexivity|].
  exact H.
Defined.

(** A client that comes while the barber has made the object, and has not yet
    filled it, is let in: nothing tells it that there is no shop yet. *)
Theorem client_attaches_unfilled sysv :
  exists w, client_main sysv demo_sys ["client"; "2"]%string (fresh (Some Raw)) = Done 2 w /\
    object w = Some Raw /\ mapped w = true.
Proof. destruct sysv; (eexists; split; [by vm_compute|done]). Qed.
