(* ===== verification/MsgQueue.v ===== *)
(** The server and the client over message queues: cw06/zad1/src/config.h,
    server.c and client.c, in both builds (System V queues, the default of the
    Makefile, and POSIX queues). *)
From S2P Require Import Prelude CString.
#[local] Open Scope Z_scope.

(** ** config.h *)

(** [enum message_t] *)
Definition HANDSHAKE : Z := 1.
Definition MIRROR : Z := 2.
Definition CALC : Z := 3.
Definition TIME : Z := 4.
Definition END : Z := 5.
Definition STOP : Z := 6.

Definition MSG_BUF_SIZE : Z := 256.

(** [struct msg_t].  The key of a System V queue is in the first bytes of
    [m_buf], which it shares the union with. *)
Record msg_t := Msg { m_type : Z; m_client : Z; m_from : Z; m_buf : list Z }.

(** Where the scan for the end of the line stops. *)
Fixpoint line_end (c : list Z) : option nat :=
  match c with
  | [] => None
  | b :: c' => if (b =? 10) || (b =? 0) then Some O else n ← line_end c'; Some (S n)
  end.

Definition terminate_at_nl {St} (c : list Z) : cm St (list Z) :=
  p ← lift UB_bounds (line_end c); mret (<[p := 0]> c).

(** ** server.c *)

Definition CLIENT_MAX : Z := 256.

Record client_t := Cl { cl_pid : Z; cl_id : Z; stopped : Z; cl_queue : Z }.

(** What the server prints and sends. *)
Inductive event :=
  | Received (type from : Z)
  | HisId (id : Z)
  | LimitReached
  | CannotOpenQueue
  | CannotRespond
  | Sent (q : Z) (m : msg_t)
  | QueueClosed (q : Z).

Record srv := Srv { clients : list client_t; ended : bool; trace : list event }.

Definition emit (e : event) : cm srv unit := modify (fun s => Srv (clients s) (ended s) (trace s ++ [e])).
Definition client_at (i : Z) : cm srv client_t := s ← get; lift UB_bounds (aget (clients s) i).
Definition set_client (i : Z) (c : client_t) : cm srv unit :=
  s ← get; l ← lift UB_bounds (aset (clients s) i c); put (Srv l (ended s) (trace s)).

(** [while (len > 0) to[dest++] = from[--len]] *)
Fixpoint mirror_loop {St} (len : nat) (from to : list Z) (dest : Z) : cm St (list Z * Z) :=
  match len with
  | O => mret (to, dest)
  | S len' =>
      b ← lift UB_bounds (aget from (Z.of_nat len'));
      to ← lift UB_bounds (aset to dest b);
      mirror_loop len' from to (dest + 1)
  end.

Definition mirror_text {St} (from to : list Z) : cm St (list Z) :=
  text ← lift UB_bounds (c_string from);
  r ← mirror_loop (length text) from to 0;
  lift UB_bounds (aset (fst r) (snd r) 0).

(** [echo '] and [' | bc 2>&1], the ends of the command of a calculation. *)
Definition ECHO : list Z := bytes "echo '".
Definition BC : list Z := bytes "' | bc 2>&1".

(** [fgets] on what is left of a stream: up to [n - 1] bytes, the last of them
    the first newline. *)
Fixpoint first_line (n : nat) (out : list Z) : list Z :=
  match n, out with
  | S n', b :: out' => if b =? 10 then [b] else b :: first_line n' out'
  | _, _ => []
  end.

Definition fgets_into (buf : list Z) (size : Z) (out : list Z) : list Z :=
  match out with
  | [] => buf
  | _ => overwrite buf 0 (first_line (Z.to_nat size - 1) out ++ [0])
  end.

Section Build.
(** The System V build, or the POSIX one ([POSIXQ]). *)
Context (sysv : bool).
(** The operating system: the queues that can be opened, whether a queue takes
    a message, and what a shell command prints ([None]: it cannot be started). *)
Context (msgget : Z -> option Z) (mq_open : list Z -> option Z).
Context (send : Z -> msg_t -> bool).
Context (shell : list Z -> option (list Z)).
(** The server's process, and what its uninitialised locals hold. *)
Context (getpid : Z) (stack : list Z) (garbage : Z).

Definition prepare_client_queue (cid : Z) (msg : msg_t) : cm srv Z :=
  q ← (if sysv then mret (msgget (s32 (le_val (take 4 (m_buf msg)))))
       else name ← lift UB_bounds (c_string (m_buf msg)); mret (mq_open name));
  match q with
  | None => mret (-1)
  | Some cqueue =>
      c ← client_at cid;
      set_client cid (Cl (cl_pid c) (cl_id c) (stopped c) cqueue) ;;
      mret 0
  end.

Definition send_to_client (cid : Z) (msg : msg_t) : cm srv Z :=
  c ← client_at cid;
  if send (cl_queue c) msg then emit (Sent (cl_queue c) msg) ;; mret 0 else mret (-1).

(** The end of the loop's body. *)
Definition respond (response : msg_t) : cm srv unit :=
  r ← send_to_client (m_client response) response;
  if (r : Z) <? 0 then emit CannotRespond else mret tt.

(** The first slot that is free, or -1. *)
Definition free_client : cm srv Z :=
  r ← for_until (Z.to_nat CLIENT_MAX) 0 (fun i =>
    c ← client_at i; mret (if negb (stopped c =? 0) then Some i else None));
  mret (match r with Some i => i | None => -1 end).

Definition do_handshake (msg : msg_t) : cm srv unit :=
  cid ← free_client;
  if (cid : Z) =? -1 then emit LimitReached
  else
    emit (Received HANDSHAKE (m_from msg)) ;;
    emit (HisId cid) ;;
    set_client cid (Cl (m_from msg) cid 0 garbage) ;;
    r ← prepare_client_queue cid msg;
    if (r : Z) <? 0 then emit CannotOpenQueue
    else respond (Msg cid cid getpid stack).

Definition do_stop (msg : msg_t) : cm srv unit :=
  emit (Received STOP (m_from msg)) ;;
  c ← client_at (m_client msg);
  set_client (m_client msg) (Cl (cl_pid c) (cl_id c) 1 (cl_queue c)) ;;
  if sysv then mret tt else emit (QueueClosed (cl_queue c)).

Definition do_mirror (msg : msg_t) : cm srv unit :=
  emit (Received MIRROR (m_from msg)) ;;
  buf ← mirror_text (m_buf msg) stack;
  respond (Msg (m_client msg) (m_client msg) getpid buf).

(** The first line of what a command prints, as the answer. *)
Definition answer_from (cmd : list Z) (msg : msg_t) : cm srv unit :=
  out ← lift UB_null (shell cmd);
  buf ← lift UB_bounds (aset stack 0 0);
  buf ← terminate_at_nl (fgets_into buf MSG_BUF_SIZE out);
  respond (Msg (m_client msg) (m_client msg) getpid buf).

Definition do_calc (msg : msg_t) : cm srv unit :=
  emit (Received CALC (m_from msg)) ;;
  text ← lift UB_bounds (c_string (m_buf msg));
  let cmd := ECHO ++ text ++ BC in
  (* [sprintf] writes the command and its terminator into the block *)
  check (Z.of_nat (length cmd) + 1 <=? Z.of_nat (length text) + 18) UB_bounds ;;
  answer_from cmd msg.

Definition do_time (msg : msg_t) : cm srv unit :=
  emit (Received TIME (m_from msg)) ;;
  answer_from (bytes "date") msg.

Definition do_end (msg : msg_t) : cm srv unit :=
  emit (Received END (m_from msg)) ;;
  modify (fun s => Srv (clients s) true (trace s)).

(** The loop's body, once a message is received. *)
Definition server_msg (msg : msg_t) : cm srv unit :=
  skip ← (if m_type msg =? HANDSHAKE then mret false
          else c ← client_at (m_client msg); mret (negb (stopped c =? 0)));
  if skip : bool then mret tt
  else if m_type msg =? HANDSHAKE then do_handshake msg
  else if m_type msg =? STOP then do_stop msg
  else if m_type msg =? MIRROR then do_mirror msg
  else if m_type msg =? CALC then do_calc msg
  else if m_type msg =? TIME then do_time msg
  else if m_type msg =? END then do_end msg
  else undef UB_uninit.   (* no case: [response] is sent as it is *)

(** What the server finds in its queue when it looks. *)
Inductive arrival := Arrives (m : msg_t) | Empty | Broken.

(** [receive_from_client], and what [main] does when it fails; a server that
    waits does not see that the queue is empty. *)
Definition receive_from_client (a : arrival) (wait : bool) : cm srv (option msg_t) :=
  match a with
  | Arrives m => mret (Some m)
  | Empty => if wait then mret None else exit_ 0
  | Broken => exit_ 1
  end.

(** [while (1)]; when nothing more arrives the server waits for good. *)
Fixpoint serve (arrivals : list arrival) : cm srv unit :=
  match arrivals with
  | [] => mret tt
  | a :: rest =>
      s ← get;
      m ← receive_from_client a (negb (ended s));
      match m with Some msg => server_msg msg | None => mret tt end ;;
      serve rest
  end.

(** The globals once every slot is marked free. *)
Definition server_start : srv :=
  Srv (replicate (Z.to_nat CLIENT_MAX) (Cl 0 0 1 0)) false [].

(** ** client.c *)

Inductive said :=
  | AssignedId (id : Z)
  | Unrecognized (command : list Z)
  | Response (text : list Z).

(** [closed]: the queues are closed and the name is freed (POSIX build). *)
Record client := Client {
  client_id : Z; nostop : bool; to_server : list msg_t; screen : list said; closed : bool }.

Definition say (e : said) : cm client unit :=
  modify (fun c => Client (client_id c) (nostop c) (to_server c) (screen c ++ [e]) (closed c)).

(** [send_to_server]: a message for the server (which takes it, unless the
    queue has been closed). *)
Definition send_to_server (m : msg_t) : cm client unit :=
  modify (fun c => if closed c then c
    else Client (client_id c) (nostop c) (to_server c ++ [m]) (screen c) (closed c)).

(** [cleanup]: the last message, unless the server was told to end; the POSIX
    build closes the queues and unlinks and frees the name of its own. *)
Definition cleanup : cm client unit :=
  c ← get;
  (if nostop c then mret tt else send_to_server (Msg STOP (client_id c) getpid stack)) ;;
  if sysv then mret tt
  else
    check (negb (closed c)) UB_freed ;;
    modify (fun c => Client (client_id c) (nostop c) (to_server c) (screen c) true).

(** [strcpy] into [msg.buf] *)
Definition strcpy_buf {St} (text : list Z) : cm St (list Z) :=
  check (Z.of_nat (length text) + 1 <=? MSG_BUF_SIZE) UB_bounds ;;
  mret (overwrite stack 0 (text ++ [0])).

(** [handshake]: what is sent, and what is done with the answer. *)
Definition handshake_send (queue_name : list Z) (queue_key : Z) : cm client unit :=
  buf ← (if sysv then mret (overwrite stack 0 (le_bytes 4 queue_key)) else strcpy_buf queue_name);
  send_to_server (Msg HANDSHAKE garbage getpid buf).

Definition handshake_receive (answer : option msg_t) : cm client unit :=
  match answer with
  | None => exit_ 1
  | Some m =>
      say (AssignedId (m_client m)) ;;
      modify (fun c => Client (m_client m) (nostop c) (to_server c) (screen c) (closed c))
  end.

(** The scan of [main] for the first space, on the line without its
    terminator. *)
Fixpoint to_space (line : list Z) : list Z * list Z :=
  match line with
  | [] => ([], [])
  | b :: line' => if b =? 32 then ([], line) else let '(w, r) := to_space line' in (b :: w, r)
  end.

(** The text up to the end of the line. *)
Fixpoint to_nl (text : list Z) : list Z :=
  match text with
  | [] => []
  | b :: text' => if b =? 10 then [] else b :: to_nl text'
  end.

(** The command and its text, from a line (a C string). *)
Definition split_command (line : list Z) : list Z * list Z :=
  let '(command, rest) := to_space line in (command, to_nl (tail rest)).

Definition command_type (command : list Z) : option Z :=
  if bool_decide (command = bytes "mirror") then Some MIRROR
  else if bool_decide (command = bytes "calc") then Some CALC
  else if bool_decide (command = bytes "time") then Some TIME
  else if bool_decide (command = bytes "end") then Some END
  else None.

(** A line of input: [true] when an answer is then waited for. *)
Definition client_line (line : list Z) : cm client bool :=
  c ← get;
  let '(command, text) := split_command line in
  match command_type command with
  | None => say (Unrecognized command) ;; mret false
  | Some t =>
      if t =? END then
        send_to_server (Msg END (client_id c) getpid stack) ;;
        modify (fun c => Client (client_id c) true (to_server c) (screen c) (closed c)) ;;
        exit_ 0
      else
        buf ← strcpy_buf text;
        send_to_server (Msg t (client_id c) getpid buf) ;;
        mret true
  end.

(** The answer is shown; when it was not received it is indeterminate. *)
Definition client_answer (answer : option msg_t) : cm client unit :=
  match answer with
  | None => undef UB_uninit
  | Some m => text ← lift UB_bounds (c_string (m_buf m)); say (Response text)
  end.

(** The loop over the input, given the answers that come; [false]: it waits
    for one that does not come. *)
Fixpoint client_loop (lines : list (list Z)) (answers : list (option msg_t)) : cm client bool :=
  match lines with
  | [] => mret true
  | line :: lines' =>
      w ← client_line line;
      if w : bool then
        match answers with
        | [] => mret false
        | a :: answers' => client_answer a ;; client_loop lines' answers'
        end
      else client_loop lines' answers
  end.

(** [exit] and the return of [main] run [cleanup]. *)
Definition at_exit (m : cm client bool) : cm client bool := fun s =>
  match m s with
  | Done true c => (cleanup ;; mret true) c
  | Exited code c => (cleanup ;; exit_ code) c
  | o => o
  end.

(** The handler of SIGINT: it cleans up, and then [exit] does. *)
Definition sig_cleanup : cm client bool := at_exit (cleanup ;; exit_ 0).

(** Opening the input: [fopen(file, O_RDONLY)] passes 0 where a string is
    expected. *)
Definition open_input (file : option (list Z)) : cm client unit :=
  match file with
  | None => mret tt
  | Some f => if bool_decide (f = bytes "-") then mret tt else undef UB_null
  end.

(** [main] of the client. *)
Definition client_main (file : option (list Z)) (queue_name : list Z) (queue_key : Z)
    (shook : option msg_t) (lines : list (list Z)) (answers : list (option msg_t)) : cm client bool :=
  open_input file ;;
  at_exit (handshake_send queue_name queue_key ;; handshake_receive shook ;; client_loop lines answers).
End Build.
