(* ===== verification/MsgQueueSpec.v ===== *)
(** What the server and the client of [MsgQueue.v] do: the table of clients,
    the answers, the end of the server, and where the protocol breaks. *)
From S2P Require Import Prelude CString MsgQueue.
#[local] Open Scope Z_scope.

#[local] Arguments for_until : simpl never.
#[local] Arguments overwrite : simpl never.

(** ** Buffers *)

Lemma c_string_nonzero buf text : c_string buf = Some text -> 0 ∉ text.
Proof.
  revert text. induction buf as [|b buf IH]; intros text H; [done|]. simpl in H.
  destruct (Z.eqb_spec b 0); simplify_eq; [by apply not_elem_of_nil|].
  destruct (c_string buf) as [t|]; simplify_eq/=. apply not_elem_of_cons. auto.
Qed.

Lemma c_string_lookup buf text : c_string buf = Some text -> exists r, buf = text ++ 0 :: r.
Proof.
  revert text. induction buf as [|b buf IH]; intros text H; [done|]. simpl in H.
  destruct (Z.eqb_spec b 0) as [->|]; simplify_eq; [by exists buf|].
  destruct (c_string buf) as [t|]; simplify_eq/=. destruct (IH t eq_refl) as [r ->]. by exists r.
Qed.

Lemma overwrite_snoc {A} (to xs : list A) x :
  (length xs < length to)%nat -> <[length xs := x]> (overwrite to 0 xs) = overwrite to 0 (xs ++ [x]).
Proof.
  intros Hl. unfold overwrite. simpl. rewrite length_app. simpl.
  destruct (drop (length xs) to) as [|y r] eqn:E.
  { apply (f_equal length) in E. rewrite length_drop in E. simpl in E. lia. }
  rewrite insert_app_r_alt by lia. rewrite Nat.sub_diag, <- app_assoc. simpl. do 2 f_equal.
  rewrite <- drop_drop, E. done.
Qed.

Lemma length_overwrite0 {A} (to xs : list A) :
  (length xs <= length to)%nat -> length (overwrite to 0 xs) = length to.
Proof. intros. by apply length_overwrite. Qed.

Lemma mirror_loop_spec {St} n from to xs (s : St) :
  (n <= length from)%nat -> (length xs + n <= length to)%nat ->
  mirror_loop n from (overwrite to 0 xs) (Z.of_nat (length xs)) s =
  Done (overwrite to 0 (xs ++ rev (take n from)), Z.of_nat (length xs + n)) s.
Proof.
  revert xs. induction n as [|n IH]; intros xs Hf Ht.
  - cbn [mirror_loop take rev]. rewrite app_nil_r, Nat.add_0_r. done.
  - cbn [mirror_loop]. rewrite aget_nat.
    destruct (lookup_lt_is_Some_2 from n) as [b Hb]; [lia|]. cm_step. rewrite Hb. simpl.
    rewrite aset_ok by (rewrite length_overwrite0; lia). simpl.
    rewrite Nat2Z.id, overwrite_snoc by lia.
    replace (Z.of_nat (length xs) + 1) with (Z.of_nat (length (xs ++ [b]))) by list_len.
    rewrite IH by (try list_len; lia). f_equal. f_equal; [|list_len].
    rewrite (take_S_r _ _ _ Hb), rev_app_distr. simpl. by rewrite <- app_assoc.
Qed.

Lemma mirror_loop_pure {St} n from to d (s : St) r s' : mirror_loop n from to d s = Done r s' -> s' = s.
Proof.
  revert to d. induction n as [|n IH]; intros to d H; [by injection H|].
  simpl in H. cm_run. destruct (aget from (Z.of_nat n)); [|done]. cm_run.
  destruct (aset _ _ _); [|done]. cm_run. by eapply IH.
Qed.

#[local] Arguments mirror_loop : simpl never.

Lemma mirror_text_pure {St} from to (s : St) r s' : mirror_text from to s = Done r s' -> s' = s.
Proof.
  unfold mirror_text. intros H. cm_run. destruct (c_string _); [|done]. cm_run.
  destruct (mirror_loop _ _ _ _ _) as [q s1| | |] eqn:El; try done. apply mirror_loop_pure in El as ->.
  destruct (aset _ _ _); [|done]. cm_run. by injection H as _ <-.
Qed.

(** [mirror_text] reverses the text; it fits whenever the text did. *)
Lemma mirror_text_spec {St} from to text (s : St) :
  c_string from = Some text -> (length text < length to)%nat ->
  mirror_text from to s = Done (overwrite to 0 (rev text ++ [0])) s.
Proof.
  intros Hc Hl. destruct (c_string_lookup _ _ Hc) as [r Hr]. unfold mirror_text. cm_step. rewrite Hc. simpl.
  assert (overwrite to 0 [] = to) as H0 by (unfold overwrite; simpl; by rewrite drop_0).
  pose proof (mirror_loop_spec (length text) from to [] s) as H. rewrite H0 in H.
  cbn [length Nat.add] in H. change (Z.of_nat 0) with 0 in H.
  rewrite H by (simpl; try lia; subst; list_len). simpl. clear H.
  replace (take (length text) from) with text by (subst from; by rewrite take_app_length).
  rewrite aset_ok by (rewrite length_overwrite0 by (rewrite length_rev; lia); lia). simpl.
  rewrite Nat2Z.id. rewrite <- (length_rev text) at 1. rewrite overwrite_snoc; [done|]. rewrite length_rev. lia.
Qed.

Lemma c_string_overwrite to text :
  0 ∉ text -> c_string (overwrite to 0 (text ++ [0])) = Some text.
Proof. intros H. unfold overwrite. simpl. rewrite <- app_assoc. simpl. by apply c_string_app. Qed.

(** The text an answer has, of what a command prints: its first line, of at
    most 255 bytes. *)
Fixpoint answer_text (n : nat) (out : list Z) : list Z :=
  match n, out with
  | S n', b :: out' => if (b =? 10) || (b =? 0) then [] else b :: answer_text n' out'
  | _, _ => []
  end.

Lemma first_line_length n out : (length (first_line n out) <= n)%nat.
Proof.
  revert out. induction n as [|n IH]; intros [|b out]; simpl; try lia.
  specialize (IH out). case_match; simpl; lia.
Qed.

Lemma line_end_answer n out r :
  exists p, line_end (first_line n out ++ 0 :: r) = Some p /\
  take p (first_line n out ++ 0 :: r) = answer_text n out.
Proof.
  revert out. induction n as [|n IH]; intros [|b out]; try (by exists 0%nat).
  simpl. destruct (Z.eqb_spec b 10) as [->|]; [by exists 0%nat|]. simpl.
  destruct (Z.eqb_spec b 10) as [|]; [done|]. destruct (Z.eqb_spec b 0) as [->|]; [by exists 0%nat|]. simpl.
  destruct (IH out) as (p & -> & Hp). exists (S p). simpl. by rewrite Hp.
Qed.

Lemma line_end_take buf p : line_end buf = Some p -> (0 ∉ take p buf) /\ (p < length buf)%nat.
Proof.
  revert p. induction buf as [|b buf IH]; intros p H; [done|]. simpl in H.
  destruct (b =? 10) eqn:E1, (b =? 0) eqn:E2; simplify_eq/=; try (split; [by apply not_elem_of_nil|lia]).
  destruct (line_end buf) as [q|]; simplify_eq/=. destruct (IH q eq_refl) as [H1 H2].
  split; [|lia]. apply not_elem_of_cons. split; [lia|done].
Qed.

Lemma c_string_cut buf p : (p < length buf)%nat -> 0 ∉ take p buf -> c_string (<[p := 0]> buf) = Some (take p buf).
Proof. intros Hp Hn. rewrite insert_take_drop by done. by apply c_string_app. Qed.

(** The answer of a command: defined, of the size of the buffer, and the text
    above. *)
Lemma answer_buffer {St} stack out (s : St) : length stack = 256%nat ->
  exists buf, terminate_at_nl (fgets_into (<[0%nat := 0]> stack) MSG_BUF_SIZE out) s = Done buf s /\
  length buf = 256%nat /\ c_string buf = Some (answer_text 255 out).
Proof.
  intros Hl. unfold terminate_at_nl, fgets_into. destruct out as [|b out].
  - destruct stack as [|z stack]; [done|]. exists (0 :: stack). done.
  - set (o := b :: out). change (Z.to_nat MSG_BUF_SIZE - 1)%nat with 255%nat.
    pose proof (first_line_length 255 o) as Hf.
    set (r := drop (length (first_line 255 o ++ [0])) (<[0%nat := 0]> stack)).
    assert (overwrite (<[0%nat := 0]> stack) 0 (first_line 255 o ++ [0]) = first_line 255 o ++ 0 :: r) as E.
    { unfold overwrite, r. cbn [take app Nat.add]. by rewrite <- app_assoc. }
    rewrite E. destruct (line_end_answer 255 o r) as (p & Hp & Ht).
    destruct (line_end_take _ _ Hp) as [Hn Hlt].
    rewrite Hp. eexists. split; [reflexivity|].
    rewrite length_insert. split; [|by rewrite c_string_cut, Ht].
    rewrite <- E, length_overwrite0; rewrite ?length_insert; [done|].
    rewrite length_app. cbn [length]. lia.
Qed.

(** ** The table of clients *)

Definition live (s : srv) (i : Z) (c : client_t) : Prop := aget (clients s) i = Some c /\ stopped c = 0.

(** The table has its 256 slots, and a client knows its own place in it. *)
Definition table_ok (s : srv) : Prop :=
  length (clients s) = 256%nat /\ forall i c, live s i c -> cl_id c = i.

Definition is_free (s : srv) (i : Z) : option Z :=
  match aget (clients s) i with
  | Some c => if negb (stopped c =? 0) then Some i else None
  | None => None
  end.

(** The slot a new client would be given. *)
Definition free_slot (s : srv) : option Z := first_some (is_free s) 256 0.

Lemma free_client_spec s : table_ok s ->
  free_client s = Done (match free_slot s with Some i => i | None => -1 end) s.
Proof.
  intros [Hl _]. unfold free_client, free_slot. change (Z.to_nat CLIENT_MAX) with 256%nat.
  unfold mbind, cm_bind. rewrite (for_until_pure (is_free s)); [done|].
  intros k Hk. unfold client_at, is_free. cm_step.
  destruct (aget_is_Some (clients s) k) as [c ->]; [lia|]. done.
Qed.

Lemma free_slot_Some s i : free_slot s = Some i ->
  (exists c, aget (clients s) i = Some c /\ stopped c <> 0) /\
  forall j, 0 <= j < i -> is_free s j = None.
Proof.
  intros H. apply first_some_Some in H as (k & Hk & Hf & Hlt).
  assert (k = i) as ->.
  { unfold is_free in Hf. destruct (aget _ k); [|done]. case_match; congruence. }
  split; [|done]. unfold is_free in Hf. destruct (aget (clients s) i) as [c|]; [|done].
  exists c. split; [done|]. destruct (Z.eqb_spec (stopped c) 0); [done|done].
Qed.

Lemma free_slot_None s i : free_slot s = None -> 0 <= i < 256 -> is_free s i = None.
Proof. intros H Hi. apply (first_some_None (is_free s) 256 0); [done|lia]. Qed.

Lemma aget_insert (l : list client_t) (i j : Z) c : 0 <= i < Z.of_nat (length l) ->
  aget (<[Z.to_nat i := c]> l) j = if i =? j then Some c else aget l j.
Proof.
  intros Hi. destruct (Z.eqb_spec i j) as [->|Hne].
  - apply aget_Some. split; [lia|]. apply list_lookup_insert_eq. lia.
  - unfold aget, in_range. rewrite length_insert. destruct (_ && _) eqn:E; [|done].
    apply list_lookup_insert_ne. lia.
Qed.

Section Server.
Context (sysv : bool) (msgget : Z -> option Z) (mq_open : list Z -> option Z).
Context (send : Z -> msg_t -> bool) (shell : list Z -> option (list Z)).
Context (getpid : Z) (stack : list Z) (garbage : Z).

Local Abbreviation server_msg := (server_msg sysv msgget mq_open send shell getpid stack garbage).
Local Abbreviation serve := (serve sysv msgget mq_open send shell getpid stack garbage).
Local Abbreviation respond := (respond send).

(** The event a response ends in. *)
Definition sent_event (q : Z) (r : msg_t) : event := if send q r then Sent q r else CannotRespond.

Lemma respond_spec r s c : aget (clients s) (m_client r) = Some c ->
  respond r s = Done tt (Srv (clients s) (ended s) (trace s ++ [sent_event (cl_queue c) r])).
Proof.
  intros Hc. unfold MsgQueue.respond, send_to_client, client_at, sent_event. cm_step. rewrite Hc. simpl.
  destruct (send _ _); done.
Qed.

(** The client whose message is served. *)
Lemma guard_spec m s c : m_type m <> HANDSHAKE -> live s (m_client m) c ->
  server_msg m s =
  (if m_type m =? STOP then do_stop sysv m
   else if m_type m =? MIRROR then do_mirror send getpid stack m
   else if m_type m =? CALC then do_calc send shell getpid stack m
   else if m_type m =? TIME then do_time send shell getpid stack m
   else if m_type m =? END then do_end m
   else undef UB_uninit) s.
Proof.
  intros Ht [Hc Hs]. unfold MsgQueue.server_msg, client_at.
  destruct (Z.eqb_spec (m_type m) HANDSHAKE); [done|]. unfold mbind at 1, cm_bind at 1.
  unfold mbind at 1, cm_bind at 1. unfold mbind at 1, cm_bind at 1. unfold get, lift. rewrite Hc. unfold mret, cm_ret.
  by rewrite Hs.
Qed.

(** *** What a message does to the table *)

(** The effect of a message whose sender is (or becomes) client [i]: the other
    clients stay as they are, and what is sent is for client [i]. *)
Definition serves (i : Z) (s s' : srv) : Prop :=
  table_ok s' /\ (ended s = true -> ended s' = true) /\ (forall j c, live s j c -> j <> i -> live s' j c) /\
  exists evs, trace s' = trace s ++ evs /\
  forall q r, Sent q r ∈ evs ->
    m_client r = i /\ m_type r = i /\ send q r = true /\ exists c, live s' i c /\ cl_queue c = q.

Lemma serves_quiet i s e evs : table_ok s -> (ended s = true -> e = true) -> (forall q r, Sent q r ∈ evs -> False) ->
  serves i s (Srv (clients s) e (trace s ++ evs)).
Proof.
  intros H Hb He. split; [done|]. split; [done|]. split; [by intros|]. exists evs. split; [done|]. intros q r Hin. by destruct (He q r).
Qed.

(** A response to a client. *)
Lemma serves_respond i s c e r : table_ok s -> live s i c ->
  match e with Sent _ _ => False | _ => True end -> m_client r = i -> m_type r = i ->
  serves i s (Srv (clients s) (ended s) ((trace s ++ [e]) ++ [sent_event (cl_queue c) r])).
Proof.
  intros H Hc He Hr Ht. split; [done|]. split; [done|]. split; [by intros|]. exists [e; sent_event (cl_queue c) r].
  split; [by rewrite <- app_assoc|]. intros q r' Hin.
  apply elem_of_cons in Hin as [<-|Hin]; [done|]. apply list_elem_of_singleton in Hin.
  unfold sent_event in Hin. destruct (send _ _) eqn:Es; [|done]. injection Hin as -> ->. eauto 10.
Qed.

(** The table and the output after a STOP. *)
Definition stopped_at (m : msg_t) (c : client_t) (s : srv) : srv :=
  Srv (<[Z.to_nat (m_client m) := Cl (cl_pid c) (cl_id c) 1 (cl_queue c)]> (clients s)) (ended s)
    (trace s ++ Received STOP (m_from m) :: if sysv then [] else [QueueClosed (cl_queue c)]).

Lemma stop_spec m s c : aget (clients s) (m_client m) = Some c -> do_stop sysv m s = Done tt (stopped_at m c s).
Proof.
  intros Hc. pose proof Hc as [Hr0 Hr1%lookup_lt_Some]%aget_Some.
  unfold do_stop, client_at, set_client, emit, stopped_at. cm_step. rewrite Hc. simpl. rewrite aset_ok by lia. simpl.
  destruct sysv; [done|]. simpl. do 2 f_equal. by rewrite <- app_assoc.
Qed.

Lemma table_stopped m s c : table_ok s -> aget (clients s) (m_client m) = Some c -> table_ok (stopped_at m c s).
Proof.
  intros [Hl Hid] Hc. pose proof Hc as [Hr0 Hr1%lookup_lt_Some]%aget_Some.
  split; [simpl; by rewrite length_insert|]. intros i d [Hi Hd]. cbn [stopped_at clients] in Hi.
  rewrite aget_insert in Hi by lia. destruct (m_client m =? i); [by simplify_eq/=|by apply Hid].
Qed.

Lemma serves_stop m s c s' : table_ok s -> live s (m_client m) c ->
  do_stop sysv m s = Done tt s' -> serves (m_client m) s s'.
Proof.
  intros Hok [Hc Hs]. rewrite (stop_spec _ _ c) by done. intros [= <-].
  pose proof Hc as [Hr0 Hr1%lookup_lt_Some]%aget_Some.
  split; [by apply table_stopped|]. split; [done|]. split.
  - intros j d [Hj Hd] Hne. split; [|done]. cbn [stopped_at clients]. rewrite aget_insert by lia.
    destruct (Z.eqb_spec (m_client m) j); [congruence|done].
  - eexists. split; [done|]. intros q r Hin. apply elem_of_cons in Hin as [?|Hin]; [done|].
    destruct sysv; [by apply elem_of_nil in Hin|by apply list_elem_of_singleton in Hin].
Qed.

Lemma serves_answer m s c e cmd s' : table_ok s -> live s (m_client m) c ->
  match e with Sent _ _ => False | _ => True end ->
  answer_from send shell getpid stack cmd m (Srv (clients s) (ended s) (trace s ++ [e])) = Done tt s' ->
  serves (m_client m) s s'.
Proof.
  intros Hok Hc He H. unfold answer_from in H. cm_run.
  destruct (shell cmd) as [out|]; simplify_eq/=. destruct (aset stack 0 0) as [b|]; simplify_eq/=.
  destruct (terminate_at_nl _ _) as [b' s0| | |] eqn:E; simplify_eq/=.
  assert (s0 = Srv (clients s) (ended s) (trace s ++ [e])) as ->.
  { unfold terminate_at_nl in E. cm_run. destruct (line_end _); simplify_eq/=. done. }
  destruct Hc as [Hc Hs]. rewrite (respond_spec _ _ c) in H by done. injection H as <-.
  by apply serves_respond.
Qed.

Lemma serves_mirror m s c s' : table_ok s -> live s (m_client m) c ->
  do_mirror send getpid stack m s = Done tt s' -> serves (m_client m) s s'.
Proof.
  intros Hok Hc H. unfold do_mirror, emit in H. cm_run.
  destruct (mirror_text _ _ _) as [b s0| | |] eqn:E; simplify_eq/=.
  assert (s0 = Srv (clients s) (ended s) (trace s ++ [Received MIRROR (m_from m)])) as ->.
  { by eapply mirror_text_pure. }
  destruct Hc as [Hc Hs]. rewrite (respond_spec _ _ c) in H by done. injection H as <-.
  by apply serves_respond.
Qed.

(** The queue a handshake names ([None]: the name is not terminated). *)
Definition queue_of (m : msg_t) : option (option Z) :=
  if sysv then Some (msgget (s32 (le_val (take 4 (m_buf m))))) else mq_open <$> c_string (m_buf m).

(** The table and the output after a handshake that is given slot [i]. *)
Definition shaken (i : Z) (m : msg_t) (oq : option Z) (s : srv) : srv :=
  Srv (<[Z.to_nat i := Cl (m_from m) i 0 (default garbage oq)]> (clients s)) (ended s)
    (trace s ++ [Received HANDSHAKE (m_from m); HisId i;
      match oq with None => CannotOpenQueue | Some q => sent_event q (Msg i i getpid stack) end]).

Lemma prepare_client_queue_spec i m s c : aget (clients s) i = Some c ->
  prepare_client_queue sysv msgget mq_open i m s =
  match queue_of m with
  | None => Undef UB_bounds
  | Some None => Done (-1) s
  | Some (Some q) =>
      Done 0 (Srv (<[Z.to_nat i := Cl (cl_pid c) (cl_id c) (stopped c) q]> (clients s)) (ended s) (trace s))
  end.
Proof.
  intros Hc. pose proof Hc as [Hr0 Hr1%lookup_lt_Some]%aget_Some.
  assert (forall q, (c ← client_at i; set_client i (Cl (cl_pid c) (cl_id c) (stopped c) q) ;; mret 0) s =
    Done 0 (Srv (<[Z.to_nat i := Cl (cl_pid c) (cl_id c) (stopped c) q]> (clients s)) (ended s) (trace s))) as E.
  { intros q. unfold client_at, set_client. cm_step. rewrite Hc. simpl. by rewrite aset_ok by lia. }
  unfold prepare_client_queue, queue_of. destruct sysv.
  - unfold mbind at 1, cm_bind at 1, mret at 1, cm_ret at 1. destruct (msgget _); [apply E|done].
  - destruct (c_string _) as [name|]; [|done].
    unfold mbind at 1, cm_bind at 1, mbind at 1, cm_bind at 1. simpl. destruct (mq_open _); [apply E|done].
Qed.

Lemma handshake_spec m s i : table_ok s -> free_slot s = Some i ->
  do_handshake sysv msgget mq_open send getpid stack garbage m s =
  match queue_of m with None => Undef UB_bounds | Some oq => Done tt (shaken i m oq s) end.
Proof.
  intros Hok Ei. destruct (free_slot_Some _ _ Ei) as [(c0 & Hc0 & _) _]. pose proof Hok as [Hl _].
  pose proof Hc0 as [Hr0 Hr1%lookup_lt_Some]%aget_Some.
  unfold do_handshake. unfold mbind at 1, cm_bind at 1. rewrite free_client_spec, Ei by done.
  destruct (Z.eqb_spec i (-1)); [lia|].
  unfold mbind at 1, cm_bind at 1. unfold emit at 1, modify. unfold mbind at 1, cm_bind at 1. unfold emit at 1, modify.
  unfold mbind at 1, cm_bind at 1. unfold set_client at 1, mbind at 1, cm_bind at 1, get at 1. cbn [clients ended trace].
  rewrite aset_ok by lia. unfold mbind at 1, cm_bind at 1, lift, mret at 1, cm_ret at 1, put.
  unfold mbind at 1, cm_bind at 1.
  erewrite prepare_client_queue_spec by (cbn [clients]; rewrite aget_insert, Z.eqb_refl by lia; done).
  destruct (queue_of m) as [[q|]|]; [| |done]; cbn [clients ended trace cl_pid cl_id stopped].
  - rewrite list_insert_insert_eq. unfold shaken. simpl.
    erewrite respond_spec by (cbn [clients m_client]; rewrite aget_insert, Z.eqb_refl by lia; done).
    cbn [clients ended trace cl_queue]. do 2 f_equal. by rewrite <- !app_assoc.
  - unfold shaken, emit, modify. simpl. do 2 f_equal. by rewrite <- !app_assoc.
Qed.

Lemma table_shaken m s i oq : table_ok s -> 0 <= i < 256 -> table_ok (shaken i m oq s).
Proof.
  intros [Hl Hid] Hi. split; [simpl; by rewrite length_insert|].
  intros j d [Hj Hd]. cbn [shaken clients] in Hj. rewrite aget_insert in Hj by lia.
  destruct (Z.eqb_spec i j); [by simplify_eq/=|by apply Hid].
Qed.

Lemma serves_handshake m s s' : table_ok s ->
  do_handshake sysv msgget mq_open send getpid stack garbage m s = Done tt s' ->
  exists i, serves i s s' /\ forall c, ~ live s i c.
Proof.
  intros Hok H. destruct (free_slot s) as [i|] eqn:Ei.
  2: { unfold do_handshake in H. unfold mbind at 1, cm_bind at 1 in H. rewrite free_client_spec, Ei in H by done.
       cbn in H. injection H as <-. exists (-1). split; [|by intros c [? _]].
       apply serves_quiet; [done|done|]. by intros q r ?%list_elem_of_singleton. }
  rewrite (handshake_spec _ _ i) in H by done. destruct (queue_of m) as [oq|]; [|done]. injection H as <-.
  destruct (free_slot_Some _ _ Ei) as [(c0 & Hc0 & Hs0) _]. pose proof Hok as [Hl _].
  pose proof Hc0 as [Hr0 Hr1%lookup_lt_Some]%aget_Some.
  exists i. split; [|by intros c [Hc Hs]; congruence]. split; [|split; [done|split]].
  - apply table_shaken; [done|lia].
  - intros j d [Hj Hd] Hne. split; [|done]. cbn [shaken clients]. rewrite aget_insert by lia.
    by destruct (Z.eqb_spec i j).
  - eexists. split; [done|]. intros q r Hin. do 2 (apply elem_of_cons in Hin as [?|Hin]; [done|]).
    apply list_elem_of_singleton in Hin. destruct oq as [q'|]; [|done]. unfold sent_event in Hin.
    destruct (send _ _) eqn:Es; [|done]. injection Hin as -> ->. split; [done|split; [done|split; [done|]]].
    exists (Cl (m_from m) i 0 q'). split; [|done]. split; [|done]. cbn [shaken clients default].
    rewrite aget_insert by lia. by rewrite Z.eqb_refl.
Qed.

Lemma serves_msg m s s' : table_ok s -> server_msg m s = Done tt s' ->
  exists i, serves i s s' /\ (m_type m = HANDSHAKE -> forall c, ~ live s i c) /\
    (m_type m <> HANDSHAKE -> i = m_client m).
Proof.
  intros Hok H. destruct (decide (m_type m = HANDSHAKE)) as [Ht|Ht].
  - unfold MsgQueue.server_msg in H. rewrite Ht in H. cbn in H.
    destruct (serves_handshake _ _ _ Hok H) as (i & Hi & Hn). by exists i.
  - exists (m_client m). split; [|done].
    destruct (aget (clients s) (m_client m)) as [c|] eqn:Hc.
    2: { unfold MsgQueue.server_msg, client_at in H. destruct (Z.eqb_spec (m_type m) HANDSHAKE); [done|].
         cm_run. by rewrite Hc in H. }
    destruct (decide (stopped c = 0)) as [Hs|Hs].
    + assert (live s (m_client m) c) as Hlive by done. rewrite (guard_spec m s c) in H by done.
      repeat case_match.
      * by eapply serves_stop.
      * by eapply serves_mirror.
      * unfold do_calc, emit in H. revert H. generalize ECHO BC. intros ec b H. cm_run.
        destruct (c_string _) as [t|]; [|done]. cm_run.
        destruct (_ <=? _); [|done]. exact (serves_answer m s c (Received CALC _) _ s' Hok Hlive I H).
      * unfold do_time, emit in H. revert H. generalize (bytes "date"). intros cmd H.
        exact (serves_answer m s c (Received TIME _) _ s' Hok Hlive I H).
      * unfold do_end, emit in H. cm_run. injection H as <-. apply serves_quiet; [done|done|].
        by intros q r ?%list_elem_of_singleton.
      * done.
    + unfold MsgQueue.server_msg, client_at in H. destruct (Z.eqb_spec (m_type m) HANDSHAKE); [done|].
      cm_run. rewrite Hc in H. cm_run. destruct (Z.eqb_spec (stopped c) 0); [done|]. injection H as <-.
      destruct s as [l e t]. rewrite <- (app_nil_r t) at 2. apply (serves_quiet _ (Srv l e t)); [done|done|].
      intros q r Hin. by apply elem_of_nil in Hin.
Qed.
(** *** Answers *)

(** What a client is told, of what it asks. *)
Definition reply_text (m : msg_t) : option (list Z) :=
  if m_type m =? MIRROR then @rev Z <$> c_string (m_buf m)
  else if m_type m =? CALC then
    text ← c_string (m_buf m); answer_text 255 <$> shell (ECHO ++ text ++ BC)
  else answer_text 255 <$> shell (bytes "date").

Lemma answer_from_spec cmd out m s c :
  length stack = 256%nat -> shell cmd = Some out -> aget (clients s) (m_client m) = Some c ->
  exists buf, length buf = 256%nat /\ c_string buf = Some (answer_text 255 out) /\
  answer_from send shell getpid stack cmd m s =
    Done tt (Srv (clients s) (ended s)
      (trace s ++ [sent_event (cl_queue c) (Msg (m_client m) (m_client m) getpid buf)])).
Proof.
  intros Hst Hsh Hc. destruct (answer_buffer stack out s Hst) as (buf & Hb & Hl & Hs).
  exists buf. split; [done|split; [done|]]. unfold answer_from. unfold mbind at 1, cm_bind at 1. rewrite Hsh.
  unfold lift at 1, mret at 1, cm_ret at 1. unfold mbind at 1, cm_bind at 1. rewrite aset_ok by lia.
  unfold lift at 1, mret at 1, cm_ret at 1. unfold mbind at 1, cm_bind at 1. change (Z.to_nat 0) with 0%nat.
  rewrite Hb. by apply respond_spec.
Qed.

Lemma calc_fits text : (Z.of_nat (length (ECHO ++ text ++ BC)) + 1 <=? Z.of_nat (length text) + 18) = true.
Proof.
  assert (length ECHO = 6%nat) as E by done. assert (length BC = 11%nat) as B by done.
  apply Z.leb_le. rewrite !length_app, E, B. lia.
Qed.

Lemma reply_spec m s c t :
  length stack = 256%nat -> length (m_buf m) = 256%nat -> live s (m_client m) c ->
  m_type m = MIRROR \/ m_type m = CALC \/ m_type m = TIME -> reply_text m = Some t ->
  exists buf, length buf = 256%nat /\ c_string buf = Some t /\
  server_msg m s = Done tt (Srv (clients s) (ended s)
    ((trace s ++ [Received (m_type m) (m_from m)]) ++
     [sent_event (cl_queue c) (Msg (m_client m) (m_client m) getpid buf)])).
Proof.
  intros Hst Hbl Hlive Ht Hr. pose proof Hlive as [Hc _].
  rewrite (guard_spec m s c) by (try done; by destruct Ht as [->|[->| ->]]). unfold reply_text in Hr.
  destruct Ht as [E|[E|E]]; rewrite E in *;
    cbn [Z.eqb Pos.eqb MIRROR CALC TIME STOP END] in Hr |- *.
  - destruct (c_string (m_buf m)) as [text|] eqn:Et; simplify_eq/=.
    destruct (c_string_lookup _ _ Et) as [r Hb]. pose proof (c_string_nonzero _ _ Et) as Hn.
    assert (length text < 256)%nat by (rewrite Hb in Hbl; rewrite length_app in Hbl; simpl in Hbl; lia).
    exists (overwrite stack 0 (rev text ++ [0])). split; [|split].
    + rewrite length_overwrite0; rewrite ?length_app, ?length_rev; simpl; lia.
    + apply c_string_overwrite. by rewrite list_elem_of_In, <- in_rev, <- list_elem_of_In.
    + unfold do_mirror, emit, modify. unfold mbind at 1, cm_bind at 1, mbind at 1, cm_bind at 1.
      rewrite (mirror_text_spec _ _ text) by (try done; lia). by rewrite (respond_spec _ _ c).
  - destruct (c_string (m_buf m)) as [text|] eqn:Et; [|done].
    cbn [mbind option_bind] in Hr.
    destruct (shell (ECHO ++ text ++ BC)) as [out|] eqn:Es; [|done]. cbn [fmap option_fmap option_map] in Hr. injection Hr as <-.
    unfold do_calc. unfold mbind at 1, cm_bind at 1, emit, modify. unfold mbind at 1, cm_bind at 1. rewrite Et.
    unfold lift at 1, mret at 1, cm_ret at 1. unfold mbind at 1, cm_bind at 1. rewrite calc_fits.
    destruct (answer_from_spec (ECHO ++ text ++ BC) out m
      (Srv (clients s) (ended s) (trace s ++ [Received CALC (m_from m)])) c) as (buf & Hl & Hs & He); try done.
    by exists buf.
  - destruct (shell (bytes "date")) as [out|] eqn:Es; [|done].
    cbn [fmap option_fmap option_map] in Hr. injection Hr as <-.
    unfold do_time. unfold mbind at 1, cm_bind at 1, emit, modify.
    destruct (answer_from_spec (bytes "date") out m
      (Srv (clients s) (ended s) (trace s ++ [Received TIME (m_from m)])) c) as (buf & Hl & Hs & He); try done.
    by exists buf.
Qed.

(** *** Runs of the server *)

Lemma serve_app l1 l2 s : serve (l1 ++ l2) s = (serve l1 ;; serve l2) s.
Proof.
  revert s. induction l1 as [|a l1 IH]; intros s; [done|]. cbn [app MsgQueue.serve].
  unfold mbind, cm_bind, get in *. destruct (receive_from_client a _ s) as [o s1| | |]; [|done..].
  match goal with |- match ?x with _ => _ end = _ => destruct x as [u s2| | |]; [|done..] end. apply IH.
Qed.

Lemma server_msg_ok m s s' : table_ok s -> server_msg m s = Done tt s' ->
  table_ok s' /\ (ended s = true -> ended s' = true).
Proof. intros Hok H. destruct (serves_msg m s s' Hok H) as (i & (H1 & H2 & _) & _). done. Qed.

Lemma serve_ok l s s' : table_ok s -> serve l s = Done tt s' -> table_ok s' /\ (ended s = true -> ended s' = true).
Proof.
  revert s. induction l as [|a l IH]; intros s Hok H; [injection H as <-; done|].
  cbn [MsgQueue.serve] in H. unfold mbind, cm_bind, get in H.
  destruct a as [m| |]; cbn [receive_from_client] in H; unfold mret, cm_ret, exit_ in H.
  - destruct (server_msg m s) as [[] s1| | |] eqn:E; try done.
    destruct (server_msg_ok _ _ _ Hok E) as [H1 H2]. destruct (IH _ H1 H) as [H3 H4]. auto.
  - destruct (ended s) eqn:Ee; [done|]. cbn in H. destruct (IH _ Hok H) as [H3 H4]. by rewrite Ee in *.
  - done.
Qed.

Lemma server_start_ok : table_ok server_start.
Proof.
  split; [done|]. intros i c [[_ Hi]%aget_Some Hs]. cbn in Hi. apply lookup_replicate in Hi as [-> _]. done.
Qed.

(** ** Properties *)

(** C31.  A message of one client concerns that client only: whatever arrives
    and however it goes, the table keeps its 256 slots with every client at
    its own place; the slots of the other clients in use are as before; and
    what is sent goes to the queue of the client that asked, under its id.  A
    handshake is only ever given a slot that was not in use. *)
Theorem server_msg_isolated (m : msg_t) (s s' : srv) (Hok : table_ok s) (H : server_msg m s = Done tt s') :
  exists i, table_ok s' /\ (m_type m = HANDSHAKE -> forall c, ~ live s i c) /\
    (m_type m <> HANDSHAKE -> i = m_client m) /\
    (forall j c, live s j c -> j <> i -> live s' j c) /\
    exists evs, trace s' = trace s ++ evs /\
    forall q r, Sent q r ∈ evs -> m_client r = i /\ m_type r = i /\ exists c, live s' i c /\ cl_queue c = q.
Proof.
  destruct (serves_msg m s s' Hok H) as (i & (H1 & _ & H2 & evs & H3 & H4) & H5 & H6).
  exists i. split; [done|split; [done|split; [done|split; [done|]]]]. exists evs. split; [done|].
  intros q r Hin. destruct (H4 q r Hin) as (? & ? & _ & ?). done.
Qed.

(** A client in use that asks for its text mirrored, for a calculation or
    for the time is answered, at its queue and under its id, with the text
    reversed, with the first line of what the calculator prints for the text,
    or with that of [date]; every buffer is large enough, the block [sprintf]
    fills exactly so.  When the queue does not take the answer, this is
    reported. *)
Theorem server_answers (m : msg_t) (s : srv) (c : client_t) (t : list Z)
  (Hstack : length stack = 256%nat) (Hbuf : length (m_buf m) = 256%nat) (Hlive : live s (m_client m) c)
  (Htype : m_type m = MIRROR \/ m_type m = CALC \/ m_type m = TIME) (Hreply : reply_text m = Some t) :
  exists buf, length buf = 256%nat /\ c_string buf = Some t /\
  server_msg m s = Done tt (Srv (clients s) (ended s)
    ((trace s ++ [Received (m_type m) (m_from m)]) ++
     [sent_event (cl_queue c) (Msg (m_client m) (m_client m) getpid buf)])).
Proof. by apply reply_spec. Qed.

(** A handshake is given the first slot that is free, with the sender's
    pid and the queue it names, and answered with its id; when the queue
    cannot be opened the slot is used up nonetheless, by a client that will
    never know; with all slots in use the client is refused; and a name that
    is not terminated is read beyond the message. *)
Theorem handshake_outcome (m : msg_t) (s : srv) (Hok : table_ok s) (Ht : m_type m = HANDSHAKE) :
  match free_slot s with
  | None =>
      (forall i, 0 <= i < 256 -> exists c, live s i c) /\
      server_msg m s = Done tt (Srv (clients s) (ended s) (trace s ++ [LimitReached]))
  | Some i =>
      (forall j, 0 <= j < i -> exists c, live s j c) /\ (forall c, ~ live s i c) /\
      server_msg m s = match queue_of m with None => Undef UB_bounds | Some oq => Done tt (shaken i m oq s) end
  end.
Proof.
  assert (forall j, 0 <= j < 256 -> is_free s j = None -> exists c, live s j c) as Hfree.
  { intros j Hj Hn. destruct Hok as [Hl _]. destruct (aget_is_Some (clients s) j) as [c Hc]; [lia|].
    exists c. split; [done|]. unfold is_free in Hn. rewrite Hc in Hn.
    destruct (Z.eqb_spec (stopped c) 0); [done|done]. }
  assert (server_msg m s = do_handshake sysv msgget mq_open send getpid stack garbage m s) as ->
    by (unfold MsgQueue.server_msg; by rewrite Ht).
  destruct (free_slot s) as [i|] eqn:Ei.
  - destruct (free_slot_Some _ _ Ei) as [(c0 & Hc0 & Hs0) Hlt].
    pose proof Hc0 as [Hr0 Hr1%lookup_lt_Some]%aget_Some. destruct Hok as [Hl Hid].
    split; [intros j Hj; apply Hfree; [lia|by apply Hlt]|]. split; [intros c [Hc Hs]; congruence|].
    by apply handshake_spec.
  - split; [intros i Hi; apply Hfree; [done|by apply free_slot_None]|].
    unfold do_handshake. unfold mbind at 1, cm_bind at 1. by rewrite free_client_spec, Ei.
Qed.

(** After END the server does not wait any more: it serves what is still
    in its queue, in order and as ever, and exits with success when it finds
    the queue empty. *)
Theorem server_drains_after_end (e : msg_t) (ms : list msg_t) (rest : list arrival) (s s' : srv) (c : client_t)
  (Hok : table_ok s) (He : m_type e = END) (Hlive : live s (m_client e) c)
  (Hms : serve (map Arrives ms) (Srv (clients s) true (trace s ++ [Received END (m_from e)])) = Done tt s') :
  serve (Arrives e :: map Arrives ms ++ Empty :: rest) s = Exited 0 s'.
Proof.
  assert (server_msg e s = Done tt (Srv (clients s) true (trace s ++ [Received END (m_from e)]))) as E.
  { rewrite (guard_spec e s c) by (try done; by rewrite He). by rewrite He. }
  cbn [MsgQueue.serve]. unfold mbind at 1, cm_bind at 1, get at 1. unfold mbind at 1, cm_bind at 1.
  cbn [receive_from_client]. unfold mret at 1, cm_ret at 1. unfold mbind at 1, cm_bind at 1. rewrite E.
  rewrite serve_app.
  unfold mbind at 1, cm_bind at 1. rewrite Hms.
  assert (ended s' = true) as Hend.
  { by apply (serve_ok (map Arrives ms) (Srv (clients s) true (trace s ++ [Received END (m_from e)])) s'). }
  cbn [MsgQueue.serve]. unfold mbind, cm_bind, get. rewrite Hend. done.
Qed.

(** With System V queues the first client is never answered: ids start
    from 0, the id is the type of the answers, and [msgsnd] does not take a
    message of type 0.  The client waits for its handshake for good. *)
Theorem sysv_first_client_unanswered (m : msg_t) (q : Z) (l : list arrival) (s' : srv)
  (Hsys : sysv = true) (Hsend : forall q r, m_type r <= 0 -> send q r = false)
  (Ht : m_type m = HANDSHAKE) (Hq : msgget (s32 (le_val (take 4 (m_buf m)))) = Some q)
  (Hrun : serve (Arrives m :: l) server_start = Done tt s') :
  (exists s1, server_msg m server_start = Done tt s1 /\ live s1 0 (Cl (m_from m) 0 0 q)) /\
  forall k r, Sent k r ∈ trace s' -> 0 < m_client r.
Proof.
  split.
  - eexists. split; [|split; [|done]].
    + unfold MsgQueue.server_msg. rewrite Ht. cbn [Z.eqb Pos.eqb HANDSHAKE].
      unfold mbind at 1, cm_bind at 1, mret at 1, cm_ret at 1.
      rewrite (handshake_spec m server_start 0) by (done || apply server_start_ok).
      unfold queue_of. rewrite Hsys, Hq. done.
    + cbn [shaken clients]. rewrite aget_insert by done. done.
  - assert (forall l s s', table_ok s -> serve l s = Done tt s' ->
      (forall k r, Sent k r ∈ trace s -> 0 < m_client r) -> forall k r, Sent k r ∈ trace s' -> 0 < m_client r) as K.
    { clear - Hsend. induction l as [|a l IH]; intros s s' Hok H Htr; [by injection H as <-|].
      cbn [MsgQueue.serve] in H. unfold mbind, cm_bind, get in H.
      destruct a as [m| |]; cbn [receive_from_client] in H; unfold mret, cm_ret, exit_ in H.
      - destruct (server_msg m s) as [[] s1| | |] eqn:E; try done.
        destruct (serves_msg m s s1 Hok E) as (i & (Hok1 & _ & _ & evs & Hev & Hs) & _).
        apply (IH s1 s' Hok1 H). rewrite Hev. intros k r [Hin|Hin]%elem_of_app; [by eapply Htr|].
        destruct (Hs k r Hin) as (Hc & Hty & Hsd & _).
        destruct (Z.ltb_spec 0 (m_client r)); [done|]. rewrite Hsend in Hsd; [done|lia].
      - destruct (ended s); [done|]. by apply (IH s s').
      - done. }
    apply (K _ _ _ server_start_ok Hrun). intros k r Hin. by apply elem_of_nil in Hin.
Qed.

(** The id in a message is not checked: outside the table, the slot that
    is looked at is not one (unless the message is a handshake). *)
Theorem stray_client_id (m : msg_t) (s : srv) (Hok : table_ok s) (Ht : m_type m <> HANDSHAKE)
  (Hid : m_client m < 0 \/ 256 <= m_client m) :
  server_msg m s = Undef UB_bounds.
Proof.
  unfold MsgQueue.server_msg, client_at. destruct (Z.eqb_spec (m_type m) HANDSHAKE); [done|].
  assert (aget (clients s) (m_client m) = None) as E.
  { destruct (aget _ _) as [c|] eqn:E; [|done]. apply aget_Some in E as [H0 H1%lookup_lt_Some].
    destruct Hok as [Hl _]. lia. }
  cm_step. by rewrite E.
Qed.
End Server.

(** ** The client *)

Section Client.
Context (sysv : bool) (msgget : Z -> option Z) (mq_open : list Z -> option Z).
Context (send : Z -> msg_t -> bool) (shell : list Z -> option (list Z)).
Context (getpid : Z) (stack : list Z) (garbage : Z).

Local Abbreviation server_msg := (server_msg sysv msgget mq_open send shell).
Local Abbreviation client_line := (client_line getpid stack).

Lemma to_space_app w r : 32 ∉ w -> to_space (w ++ 32 :: r) = (w, 32 :: r).
Proof.
  induction w as [|b w IH]; intros Hw; [done|]. apply not_elem_of_cons in Hw as [Hb Hw]. simpl.
  destruct (Z.eqb_spec b 32); [congruence|]. by rewrite IH.
Qed.

Lemma to_space_none w : 32 ∉ w -> to_space w = (w, []).
Proof.
  induction w as [|b w IH]; intros Hw; [done|]. apply not_elem_of_cons in Hw as [Hb Hw]. simpl.
  destruct (Z.eqb_spec b 32); [congruence|]. by rewrite IH.
Qed.

Lemma to_nl_app t r : 10 ∉ t -> to_nl (t ++ 10 :: r) = t.
Proof.
  induction t as [|b t IH]; intros Ht; [done|]. apply not_elem_of_cons in Ht as [Hb Ht]. simpl.
  destruct (Z.eqb_spec b 10); [congruence|]. by rewrite IH.
Qed.

(** A line of a command and its text. *)
Definition command_line (w t : list Z) : list Z := w ++ 32 :: t ++ [10].

Lemma split_command_line w t : 32 ∉ w -> 10 ∉ t -> split_command (command_line w t) = (w, t).
Proof. intros Hw Ht. unfold split_command, command_line. rewrite to_space_app by done. simpl. by rewrite to_nl_app. Qed.

Lemma command_type_ends_nl w : command_type (w ++ [10]) = None.
Proof.
  unfold command_type. repeat (case_bool_decide as E; [|clear E]); try done;
    apply (f_equal last) in E; rewrite last_snoc in E; done.
Qed.

(** A command without a space is not known, whatever it is: the end of
    the line is taken for part of it, since only the text after the space is
    cut there.  [time] and [end], which have no text, are only understood with
    a space after them, which the help does not say. *)
Theorem bare_command_unrecognized (w : list Z) (c : client) (Hw : 32 ∉ w) :
  client_line (w ++ [10]) c =
  Done false (Client (client_id c) (nostop c) (to_server c) (screen c ++ [Unrecognized (w ++ [10])]) (closed c)).
Proof.
  unfold MsgQueue.client_line, split_command. rewrite to_space_none by (rewrite not_elem_of_app; by split; [|apply not_elem_of_cons; split; [|apply not_elem_of_nil]]).
  cbn [tail to_nl]. unfold mbind at 1, cm_bind at 1, get. by rewrite command_type_ends_nl.
Qed.

Lemma client_line_spec (w t : list Z) (k : Z) (c : client)
  (Hw : 32 ∉ w) (Ht : 10 ∉ t) (Hk : command_type w = Some k) (Hend : k <> END) (Hopen : closed c = false) :
  client_line (command_line w t) c =
  if (length t <? 256)%nat then
    Done true (Client (client_id c) (nostop c)
      (to_server c ++ [Msg k (client_id c) getpid (overwrite stack 0 (t ++ [0]))]) (screen c) false)
  else Undef UB_bounds.
Proof.
  unfold MsgQueue.client_line. rewrite split_command_line by done.
  unfold mbind at 1, cm_bind at 1, get. rewrite Hk. destruct (Z.eqb_spec k END); [done|].
  unfold strcpy_buf, send_to_server, check, modify, mbind, cm_bind.
  destruct (Nat.ltb_spec (length t) 256), (Z.leb_spec (Z.of_nat (length t) + 1) MSG_BUF_SIZE);
    unfold MSG_BUF_SIZE in *; try lia; unfold mret, cm_ret; cbn beta iota; rewrite ?Hopen; done.
Qed.

(** The text of a command is copied into the 256 bytes of the message
    without a check: from a text of 256 bytes on (a line has up to 1023) the
    copy runs over the end. *)
Theorem long_text_overflow (w t : list Z) (k : Z) (c : client)
  (Hw : 32 ∉ w) (Ht : 10 ∉ t) (Hk : command_type w = Some k) (Hend : k <> END) (Hopen : closed c = false) :
  client_line (command_line w t) c =
  if (length t <? 256)%nat then
    Done true (Client (client_id c) (nostop c)
      (to_server c ++ [Msg k (client_id c) getpid (overwrite stack 0 (t ++ [0]))]) (screen c) false)
  else Undef UB_bounds.
Proof. by apply client_line_spec. Qed.

(** From the line to the screen: a client in use that reads the command
    to mirror a text of at most 255 bytes sends one message, the server answers
    it with one message at the client's queue, and what the client then shows
    is the text reversed. *)
Theorem mirror_end_to_end (t : list Z) (c : client) (s : srv) (cl : client_t) (server_pid : Z) (server_stack : list Z)
  (Hopen : closed c = false) (Ht : 10 ∉ t) (H0 : 0 ∉ t) (Hlen : (length t < 256)%nat)
  (Hst : length stack = 256%nat) (Hsst : length server_stack = 256%nat)
  (Hlive : live s (client_id c) cl) (Hsend : forall r, m_type r = client_id c -> send (cl_queue cl) r = true) :
  exists m r s' c',
    client_line (command_line (bytes "mirror") t) c =
      Done true (Client (client_id c) (nostop c) (to_server c ++ [m]) (screen c) false) /\
    server_msg server_pid server_stack garbage m s = Done tt s' /\
    trace s' = trace s ++ [Received MIRROR getpid; Sent (cl_queue cl) r] /\
    client_answer (Some r) c = Done tt c' /\
    screen c' = screen c ++ [Response (rev t)].
Proof.
  set (m := Msg MIRROR (client_id c) getpid (overwrite stack 0 (t ++ [0]))).
  assert (c_string (m_buf m) = Some t) as Ec by by apply c_string_overwrite.
  destruct (reply_spec sysv msgget mq_open send shell server_pid server_stack garbage m s cl (rev t))
    as (buf & Hl & Hb & Hs); try done.
  - simpl. rewrite length_overwrite0; rewrite ?length_app; simpl; lia.
  - by left.
  - unfold reply_text. change (m_type m =? MIRROR) with true. by rewrite Ec.
  - eexists m, _, _, _. split; [|split; [exact Hs|split; [|split]]].
    + rewrite (client_line_spec _ _ MIRROR); [|by apply (bool_decide_unpack _); vm_compute|done|done|done|done].
      destruct (Nat.ltb_spec (length t) 256); [done|lia].
    + cbn [trace]. rewrite <- app_assoc. unfold sent_event. by rewrite Hsend.
    + unfold client_answer. unfold mbind, cm_bind. cbn [m_buf]. rewrite Hb. done.
    + done.
Qed.

Context (server_pid : Z) (server_stack : list Z).
Local Abbreviation serve := (serve sysv msgget mq_open send shell server_pid server_stack garbage).

Lemma first_some_first (f : Z -> option Z) n i k r :
  i <= k < i + Z.of_nat n -> f k = Some r -> (forall j, i <= j < k -> f j = None) -> first_some f n i = Some r.
Proof.
  revert i. induction n as [|n IH]; intros i Hk Hf Hlt; [lia|]. simpl.
  destruct (decide (k = i)) as [->|]; [by rewrite Hf|]. rewrite Hlt by lia.
  apply IH; [lia|done|]. intros j Hj. apply Hlt. lia.
Qed.

(** The slot that a STOP frees is the next to be given away, when those below
    are in use. *)
Lemma free_after_stop m c s : table_ok s -> aget (clients s) (m_client m) = Some c ->
  (forall j, 0 <= j < m_client m -> is_free s j = None) ->
  free_slot (stopped_at sysv m c s) = Some (m_client m).
Proof.
  intros [Hl _] Hc Hlt. pose proof Hc as [Hr0 Hr1%lookup_lt_Some]%aget_Some.
  apply (first_some_first _ _ _ (m_client m)); [lia| |].
  - unfold is_free. cbn [stopped_at clients]. rewrite aget_insert by lia. by rewrite Z.eqb_refl.
  - intros j Hj. rewrite <- (Hlt j Hj). unfold is_free. cbn [stopped_at clients]. rewrite aget_insert by lia.
    destruct (Z.eqb_spec (m_client m) j); [lia|done].
Qed.

Lemma serve_cons m l s : serve (Arrives m :: l) s =
  (MsgQueue.server_msg sysv msgget mq_open send shell server_pid server_stack garbage m ;; serve l) s.
Proof. done. Qed.

Lemma stop_msg m c s : m_type m = STOP -> live s (m_client m) c ->
  MsgQueue.server_msg sysv msgget mq_open send shell server_pid server_stack garbage m s = Done tt (stopped_at sysv m c s).
Proof.
  intros Ht Hc. rewrite (guard_spec _ _ _ _ _ _ _ _ _ _ c) by (try done; by rewrite Ht).
  rewrite Ht. apply stop_spec. by destruct Hc.
Qed.

(** With POSIX queues the second clean-up frees the name of the queue again. *)
Theorem posix_interrupt_double_free (c : client) (Hsys : sysv = false) (Hopen : closed c = false) :
  sig_cleanup sysv getpid stack c = Undef UB_freed.
Proof.
  unfold sig_cleanup, at_exit, cleanup, send_to_server. rewrite Hsys. cm_step.
  destruct (nostop c) eqn:E; cm_step; rewrite ?E, ?Hopen; cm_step; rewrite ?E, ?Hopen; cm_step; by rewrite ?E.
Qed.

(** With System V queues an interrupted client can put out another one.
    On SIGINT the handler cleans up and then exits, which cleans up again: STOP is sent twice.  If a
    newcomer shakes hands in between, it is given the slot (when those below
    are in use), and the second STOP is for it: it is shut out without having
    stopped, and all it then sends is ignored. *)
Theorem interrupt_stops_another (c : client) (hs : msg_t) (s : srv) (cl : client_t) (oq : option Z)
  (Hsys : sysv = true) (Hnostop : nostop c = false) (Hopen : closed c = false) (Hok : table_ok s) (Hlive : live s (client_id c) cl)
  (Hbelow : forall j, 0 <= j < client_id c -> is_free s j = None)
  (Hhs : m_type hs = HANDSHAKE) (Hq : queue_of sysv msgget mq_open hs = Some oq) :
  exists stop1 stop2 s' cl',
    sig_cleanup sysv getpid stack c =
      Exited 0 (Client (client_id c) false (to_server c ++ [stop1; stop2]) (screen c) false) /\
    serve [Arrives stop1; Arrives hs; Arrives stop2] s = Done tt s' /\
    aget (clients s') (client_id c) = Some cl' /\ cl_pid cl' = m_from hs /\ stopped cl' = 1 /\
    forall m, m_client m = client_id c -> m_type m <> HANDSHAKE -> serve [Arrives m] s' = Done tt s'.
Proof.
  set (st := Msg STOP (client_id c) getpid stack). set (i := client_id c) in *.
  pose proof Hlive as [Hc Hs]. pose proof Hc as [Hr0 Hr1%lookup_lt_Some]%aget_Some. pose proof Hok as [Hl _].
  set (s1 := stopped_at sysv st cl s). set (s2 := shaken send server_pid server_stack garbage i hs oq s1).
  set (new := Cl (m_from hs) i 0 (default garbage oq)).
  assert (table_ok s1) as Hok1 by by apply table_stopped.
  assert (free_slot s1 = Some i) as Hf by by apply free_after_stop.
  assert (length (clients s1) = 256%nat) as Hl1 by apply Hok1.
  assert (live s2 i new) as Hnew.
  { split; [|done]. cbn [s2 shaken clients]. rewrite aget_insert by lia. by rewrite Z.eqb_refl. }
  assert (length (clients s2) = 256%nat) as Hl2 by (simpl; rewrite !length_insert; done).
  assert (aget (clients (stopped_at sysv st new s2)) i = Some (Cl (m_from hs) i 1 (default garbage oq))) as Hi.
  { cbn [stopped_at clients st m_client]. rewrite aget_insert by lia. by rewrite Z.eqb_refl. }
  exists st, st, (stopped_at sysv st new s2), (Cl (m_from hs) i 1 (default garbage oq)).
  split; [|split; [|split; [exact Hi|split; [done|split; [done|]]]]].
  - unfold sig_cleanup, at_exit, cleanup. rewrite Hsys. cm_step. rewrite Hnostop.
    unfold send_to_server. cm_step. rewrite Hopen. cm_step. rewrite Hnostop. cm_step.
    by rewrite <- app_assoc.
  - rewrite serve_cons. unfold mbind, cm_bind. rewrite (stop_msg st cl) by done. fold s1.
    rewrite serve_cons. unfold mbind, cm_bind.
    assert (MsgQueue.server_msg sysv msgget mq_open send shell server_pid server_stack garbage hs s1 = Done tt s2) as ->.
    { unfold MsgQueue.server_msg. rewrite Hhs. cbn [Z.eqb Pos.eqb HANDSHAKE].
      unfold mbind at 1, cm_bind at 1, mret at 1, cm_ret at 1. by rewrite (handshake_spec _ _ _ _ _ _ _ _ _ i), Hq. }
    rewrite serve_cons. unfold mbind, cm_bind. by rewrite (stop_msg st new).
  - intros m Hm Ht. rewrite serve_cons. unfold mbind, cm_bind.
    assert (MsgQueue.server_msg sysv msgget mq_open send shell server_pid server_stack garbage m (stopped_at sysv st new s2) =
      Done tt (stopped_at sysv st new s2)) as ->; [|done].
    unfold MsgQueue.server_msg, client_at. destruct (Z.eqb_spec (m_type m) HANDSHAKE); [done|].
    unfold mbind at 1, cm_bind at 1. unfold mbind at 1, cm_bind at 1. unfold mbind at 1, cm_bind at 1, get at 1.
    by rewrite Hm, Hi.
Qed.
End Client.

(** ** Witnesses: a server with one client, which is at slot 1 *)

Definition ex_open (k : Z) : option Z := Some (k + 100).
Definition ex_name (n : list Z) : option Z := Some 100.
Definition ex_send (q : Z) (r : msg_t) : bool := 0 <? m_type r.
Definition ex_shell (cmd : list Z) : option (list Z) := Some (bytes "42" ++ [10]).
Definition ex_stack : list Z := replicate 256 7.
Definition ex_srv : srv := Srv (<[0%nat := Cl 5 0 0 90]> (<[1%nat := Cl 6 1 0 91]> (clients server_start))) false [].
Definition ex_msg (t : Z) : msg_t := Msg t 1 6 (overwrite ex_stack 0 (bytes "1+1" ++ [0])).

Lemma ex_srv_ok : table_ok ex_srv.
Proof.
  split; [done|]. intros i c [[Hi Hc]%aget_Some Hs]. cbn [ex_srv clients] in Hc.
  destruct (Z.to_nat i) as [|[|n]] eqn:E; cbn in Hc; [injection Hc as <-; simpl; lia|injection Hc as <-; simpl; lia|].
  change (replicate 254 (Cl 0 0 1 0) !! n = Some c) in Hc. apply lookup_replicate in Hc as [-> _]. done.
Qed.

Lemma server_msg_isolated_witness :
  server_msg true ex_open ex_name ex_send ex_shell 9 ex_stack 0 (ex_msg STOP) ex_srv =
    Done tt (stopped_at true (ex_msg STOP) (Cl 6 1 0 91) ex_srv) /\
  exists i, table_ok (stopped_at true (ex_msg STOP) (Cl 6 1 0 91) ex_srv) /\ (m_type (ex_msg STOP) <> HANDSHAKE -> i = 1).
Proof.
  assert (E : server_msg true ex_open ex_name ex_send ex_shell 9 ex_stack 0 (ex_msg STOP) ex_srv =
    Done tt (stopped_at true (ex_msg STOP) (Cl 6 1 0 91) ex_srv)) by reflexivity.
  split; [exact E|].
  destruct (server_msg_isolated _ _ _ _ _ _ _ _ _ _ _ ex_srv_ok E) as (i & H1 & _ & H2 & _).
  exists i. split; [exact H1|exact H2].
Defined.

Lemma server_answers_witness :
  exists buf, length buf = 256%nat /\ c_string buf = Some (bytes "42") /\
  server_msg true ex_open ex_name ex_send ex_shell 9 ex_stack 0 (ex_msg CALC) ex_srv =
  Done tt (Srv (clients ex_srv) false [Received CALC 6; sent_event ex_send 91 (Msg 1 1 9 buf)]).
Proof.
  exact (server_answers true ex_open ex_name ex_send ex_shell 9 ex_stack 0 (ex_msg CALC) ex_srv (Cl 6 1 0 91) (bytes "42")
    eq_refl eq_refl (conj eq_refl eq_refl) (or_intror (or_introl eq_refl)) eq_refl).
Defined.

Lemma handshake_outcome_witness :
  server_msg true ex_open ex_name ex_send ex_shell 9 ex_stack 0 (ex_msg HANDSHAKE) ex_srv =
  Done tt (shaken ex_send 9 ex_stack 0 2 (ex_msg HANDSHAKE) (Some 3222421) ex_srv).
Proof.
  pose proof (handshake_outcome true ex_open ex_name ex_send ex_shell 9 ex_stack 0 (ex_msg HANDSHAKE) ex_srv ex_srv_ok eq_refl) as H.
  exact (proj2 (proj2 H)).
Defined.

Lemma server_drains_after_end_witness :
  exists s', serve true ex_open ex_name ex_send ex_shell 9 ex_stack 0
    (Arrives (ex_msg END) :: map Arrives [ex_msg STOP] ++ Empty :: [Broken]) ex_srv = Exited 0 s'.
Proof.
  eexists. refine (server_drains_after_end true ex_open ex_name ex_send ex_shell 9 ex_stack 0 (ex_msg END) [ex_msg STOP]
    [Broken] ex_srv _ (Cl 6 1 0 91) ex_srv_ok eq_refl (conj eq_refl eq_refl) _). reflexivity.
Defined.

Lemma sysv_first_client_unanswered_witness :
  exists s', serve true ex_open ex_name ex_send ex_shell 9 ex_stack 0 [Arrives (ex_msg HANDSHAKE)] server_start = Done tt s' /\
  forall k r, Sent k r ∈ trace s' -> 0 < m_client r.
Proof.
  destruct (serve true ex_open ex_name ex_send ex_shell 9 ex_stack 0 [Arrives (ex_msg HANDSHAKE)] server_start)
    as [[] s'| | |] eqn:E; try (vm_compute in E; discriminate).
  exists s'. split; [done|].
  refine (proj2 (sysv_first_client_unanswered true ex_open ex_name ex_send ex_shell 9 ex_stack 0 (ex_msg HANDSHAKE)
    3222421 [] s' eq_refl _ eq_refl eq_refl E)).
  intros q r Hr. unfold ex_send. destruct (Z.ltb_spec 0 (m_type r)); [lia|done].
Defined.

Lemma stray_client_id_witness :
  server_msg true ex_open ex_name ex_send ex_shell 9 ex_stack 0 (Msg STOP 300 6 ex_stack) ex_srv = Undef UB_bounds.
Proof.
  apply (stray_client_id true ex_open ex_name ex_send ex_shell 9 ex_stack 0 (Msg STOP 300 6 ex_stack) ex_srv ex_srv_ok).
  - discriminate.
  - right. discriminate.
Defined.

Definition ex_client : client := Client 1 false [] [] false.

Lemma bare_command_unrecognized_witness :
  client_line 6 ex_stack (bytes "time" ++ [10]) ex_client =
  Done false (Client 1 false [] [Unrecognized (bytes "time" ++ [10])] false).
Proof.
  apply (bare_command_unrecognized 6 ex_stack (bytes "time") ex_client). apply (bool_decide_unpack _). vm_compute. done.
Defined.

Lemma long_text_overflow_witness :
  client_line 6 ex_stack (command_line (bytes "mirror") (replicate 256 65)) ex_client = Undef UB_bounds.
Proof.
  apply (long_text_overflow 6 ex_stack (bytes "mirror") (replicate 256 65) MIRROR ex_client).
  - apply (bool_decide_unpack _). vm_compute. done.
  - apply (bool_decide_unpack _). vm_compute. done.
  - reflexivity.
  - discriminate.
  - reflexivity.
Defined.

Lemma mirror_end_to_end_witness :
  exists c', client_line 6 ex_stack (command_line (bytes "mirror") (bytes "abc")) ex_client =
    Done true (Client 1 false [Msg MIRROR 1 6 (overwrite ex_stack 0 (bytes "abc" ++ [0]))] [] false) /\
  screen c' = [Response (bytes "cba")].
Proof.
  destruct (mirror_end_to_end true ex_open ex_name ex_send ex_shell 6 ex_stack 0 (bytes "abc") ex_client ex_srv (Cl 6 1 0 91) 9
    ex_stack) as (m & r & s' & c' & H1 & _ & _ & _ & H2).
  - reflexivity.
  - apply (bool_decide_unpack _). vm_compute. done.
  - apply (bool_decide_unpack _). vm_compute. done.
  - simpl. lia.
  - reflexivity.
  - reflexivity.
  - split; reflexivity.
  - intros r Hr. unfold ex_send. by rewrite Hr.
  - exists c'. split; [reflexivity|exact H2].
Defined.

Lemma interrupt_stops_another_witness :
  exists stop1 stop2 s' cl', sig_cleanup true 6 ex_stack ex_client = Exited 0 (Client 1 false [stop1; stop2] [] false) /\
  serve true ex_open ex_name ex_send ex_shell 9 ex_stack 0 [Arrives stop1; Arrives (Msg HANDSHAKE 0 8 ex_stack); Arrives stop2]
    ex_srv = Done tt s' /\ aget (clients s') 1 = Some cl' /\ cl_pid cl' = 8 /\ stopped cl' = 1.
Proof.
  destruct (interrupt_stops_another true ex_open ex_name ex_send ex_shell 6 ex_stack 0 9 ex_stack ex_client
    (Msg HANDSHAKE 0 8 ex_stack) ex_srv (Cl 6 1 0 91) (Some 117901163)) as (s1 & s2 & s' & cl' & H1 & H2 & H3 & H4 & H5 & _).
  - reflexivity.
  - reflexivity.
  - reflexivity.
  - exact ex_srv_ok.
  - split; reflexivity.
  - intros j Hj. assert (j = 0) as -> by (change (0 <= j < 1) in Hj; lia). reflexivity.
  - reflexivity.
  - reflexivity.
  - exists s1, s2, s', cl'. split; [exact H1|split; [|split; [exact H3|split; [exact H4|exact H5]]]].
    exact H2.
Defined.
