(* ===== verification/MsgNet.v ===== *)
(** The server and its clients together: cw06/zad1/src/server.c and client.c
    as processes that are joined by their queues, with every interleaving of
    their steps.  A step of a process is a turn of its loop or the part of it
    up to the next message; what it does is the code of [MsgQueue].

    The system: the queue of the server, which holds [capacity] messages at
    most ([mq_send] waits for room), and a queue for each client; messages are
    taken in the order they came.  The queue a client names is its own.
    The queue of a client is not limited here; it never comes to hold more
    than one message.  Interrupts (SIGINT) are left out. *)
From S2P Require Import Prelude CString MsgQueue.
#[local] Open Scope Z_scope.

(** A client: its process, the name and the key of its queue, what its
    uninitialised locals hold, and its input. *)
Record config := Config {
  cf_pid : Z;
  cf_name : list Z;
  cf_key : Z;
  cf_stack : list Z;
  cf_garbage : Z;
  cf_lines : list (list Z);
}.

(** Where a client is. *)
Inductive place :=
  | Greet         (* about to send the handshake *)
  | AwaitId
  | Read          (* about to read a line *)
  | AwaitAnswer
  | Gone.

#[export] Instance place_eq_dec : EqDecision place.
Proof. solve_decision. Defined.

Record proc := Proc { at_place : place; cli : client; inbox : list msg_t; input : list (list Z) }.

(** [up]: the server has not ended. *)
Record net := Net { server : srv; up : bool; inq : list msg_t; procs : list proc }.

Section Net.
(** The build; what commands print; the server's process and what its locals
    hold; the clients; the capacity of the server's queue. *)
Context (sysv : bool) (shell : list Z -> option (list Z)) (server_pid : Z) (server_stack : list Z) (server_garbage : Z).
Context (cfgs : list config) (capacity : Z).

(** Opening a queue: descriptors are numbered as the clients. *)
Definition net_mq_open (name : list Z) : option Z :=
  (fun x : nat * config => Z.of_nat x.1) <$> list_find (fun c => cf_name c = name) cfgs.
Definition net_msgget (key : Z) : option Z :=
  (fun x : nat * config => Z.of_nat x.1) <$> list_find (fun c => s32 (cf_key c) = key) cfgs.

(** System V queues take no message whose type is not positive. *)
Definition net_send (q : Z) (m : msg_t) : bool := negb sysv || (0 <? m_type m).

(** What the server has sent arrives. *)
Definition arrive (r : msg_t) (p : proc) : proc := Proc (at_place p) (cli p) (inbox p ++ [r]) (input p).
Definition deliver (evs : list event) (ps : list proc) : list proc :=
  fold_left (fun ps e => match e with Sent q r => alter (arrive r) (Z.to_nat q) ps | _ => ps end) evs ps.

(** A turn of the server's loop. *)
Definition server_step (n : net) : sres net :=
  if negb (up n) then Blocked
  else
    match inq n with
    | [] => if ended (server n) then Step (Net (server n) false [] (procs n)) else Blocked
    | m :: rest =>
        match server_msg sysv net_msgget net_mq_open net_send shell server_pid server_stack server_garbage m (server n) with
        | Done _ s => Step (Net s true rest (deliver (drop (length (trace (server n))) (trace s)) (procs n)))
        | Exited _ s => Step (Net s false rest (procs n))
        | Undef u => Fault u
        | NoFuel => Blocked
        end
    end.

(** The messages client [i] has sent now are put into the server's queue, if
    it has room. *)
Definition settle (i : nat) (p : proc) (n : net) (pl : place) (c : client) (box : list msg_t) (ls : list (list Z)) : sres net :=
  let ms := drop (length (to_server (cli p))) (to_server c) in
  if bool_decide (ms = []) || (Z.of_nat (length (inq n ++ ms)) <=? capacity) then
    Step (Net (server n) (up n) (inq n ++ ms) (<[i := Proc pl c box ls]> (procs n)))
  else Blocked.

(** The outcome of a part of the client's code; a client that exits runs
    [cleanup]. *)
Definition client_goes {A} (cf : config) (o : outcome client A) (k : A -> client -> sres net) (gone : client -> sres net) : sres net :=
  match o with
  | Done a c => k a c
  | Exited _ c =>
      match cleanup sysv (cf_pid cf) (cf_stack cf) c with
      | Done _ c' | Exited _ c' => gone c'
      | Undef u => Fault u
      | NoFuel => Blocked
      end
  | Undef u => Fault u
  | NoFuel => Blocked
  end.

(** A step of client [i]. *)
Definition net_client_step (i : nat) (cf : config) (p : proc) (n : net) : sres net :=
  let go := settle i p n in
  let gone ls c := go Gone c (inbox p) ls in
  match at_place p with
  | Greet =>
      client_goes cf (handshake_send sysv (cf_pid cf) (cf_stack cf) (cf_garbage cf) (cf_name cf) (cf_key cf) (cli p))
        (fun _ c => go AwaitId c (inbox p) (input p)) (gone (input p))
  | AwaitId =>
      match inbox p with
      | [] => Blocked
      | m :: box => client_goes cf (handshake_receive (Some m) (cli p)) (fun _ c => go Read c box (input p)) (gone (input p))
      end
  | Read =>
      match input p with
      | [] => client_goes cf (@Exited client unit 0 (cli p)) (fun _ c => go Gone c (inbox p) []) (gone [])
      | l :: ls =>
          client_goes cf (client_line (cf_pid cf) (cf_stack cf) l (cli p))
            (fun w c => go (if w : bool then AwaitAnswer else Read) c (inbox p) ls) (gone ls)
      end
  | AwaitAnswer =>
      match inbox p with
      | [] => Blocked
      | m :: box => client_goes cf (client_answer (Some m) (cli p)) (fun _ c => go Read c box (input p)) (gone (input p))
      end
  | Gone => Blocked
  end.

Inductive net_label := NServer | NClient (i : nat).

Definition net_exec (l : net_label) (n : net) : sres net :=
  match l with
  | NServer => server_step n
  | NClient i =>
      match cfgs !! i, procs n !! i with
      | Some cf, Some p => net_client_step i cf p n
      | _, _ => Blocked
      end
  end.

(** Everyone starts: the globals of a client are zero. *)
Definition net_start : net :=
  Net server_start true [] (map (fun cf => Proc Greet (Client 0 false [] [] false) [] (cf_lines cf)) cfgs).
End Net.
