(* ===== verification/MsgNetSpec.v ===== *)
(** The server of cw06 and its clients together, in the POSIX build: in every
    interleaving each client is shown exactly the answers to its own commands,
    in their order, everything comes to an end, and the slots of the table are
    given back. *)
From S2P Require Import Prelude CString MsgQueue MsgQueueSpec MsgNet.
#[local] Open Scope Z_scope.

(** ** What a client should see *)

(** The request a line makes: the command and its text. *)
Definition ask (l : list Z) : option (Z * list Z) :=
  let '(w, t) := split_command l in k ← command_type w; Some (k, t).

Definition is_end (l : list Z) : bool := match ask l with Some (k, _) => k =? END | None => false end.

Section Spec.
Context (shell : list Z -> option (list Z)).

Definition reply (k : Z) (t : list Z) : option (list Z) :=
  if k =? MIRROR then Some (rev t)
  else (answer_text 255 <$> shell (if k =? CALC then ECHO ++ t ++ BC else bytes "date")).

(** What is shown for a line. *)
Definition output (l : list Z) : list said :=
  match ask l with
  | None => [Unrecognized (fst (split_command l))]
  | Some (k, t) => if k =? END then [] else match reply k t with Some a => [Response a] | None => [] end
  end.

(** The text fits into a message, and the command can be run. *)
Definition line_ok (l : list Z) : Prop :=
  (0 ∉ l) /\ forall k t, ask l = Some (k, t) -> k <> END -> (length t < 256)%nat /\ is_Some (reply k t).

Definition config_ok (cf : config) : Prop :=
  length (cf_stack cf) = 256%nat /\ (0 ∉ cf_name cf) /\ (length (cf_name cf) < 256)%nat /\ Forall line_ok (cf_lines cf).

Lemma to_space_sub l w r b : to_space l = (w, r) -> b ∈ r -> b ∈ l.
Proof.
  revert w r. induction l as [|x l IH]; simpl; [by intros w r [= <- <-]|]. intros w r. destruct (x =? 32); [by intros [= <- <-]|].
  destruct (to_space l) as [w' r'] eqn:E. intros [= <- <-] Hb. right. by eapply IH.
Qed.

Lemma to_nl_sub t b : b ∈ to_nl t -> b ∈ t.
Proof.
  induction t as [|x t IH]; simpl; [done|]. destruct (x =? 10); [by intros ?%elem_of_nil|].
  intros [->|H]%elem_of_cons; [by left|right; by apply IH].
Qed.

Lemma ask_text l k t : ask l = Some (k, t) -> 0 ∉ l -> 0 ∉ t.
Proof.
  unfold ask, split_command. destruct (to_space l) as [w r] eqn:E. destruct (command_type w); [|done]. simpl.
  intros [= _ <-] H0 Ht%to_nl_sub. apply H0. eapply to_space_sub; [done|]. destruct r; [done|by right].
Qed.

Lemma command_type_values w k : command_type w = Some k -> k = MIRROR \/ k = CALC \/ k = TIME \/ k = END.
Proof. unfold command_type. repeat case_bool_decide; intros [= <-]; auto. Qed.

(** A line, read by a client. *)
Lemma client_line_eq getpid stack l c : closed c = false ->
  client_line getpid stack l c =
  match ask l with
  | None => Done false (Client (client_id c) (nostop c) (to_server c) (screen c ++ output l) false)
  | Some (k, t) =>
      if k =? END then
        Exited 0 (Client (client_id c) true (to_server c ++ [Msg END (client_id c) getpid stack]) (screen c) false)
      else if Z.of_nat (length t) + 1 <=? MSG_BUF_SIZE then
        Done true (Client (client_id c) (nostop c) (to_server c ++ [Msg k (client_id c) getpid (overwrite stack 0 (t ++ [0]))]) (screen c) false)
      else Undef UB_bounds
  end.
Proof.
  intros Hc. unfold client_line, output, ask, mbind at 1, cm_bind at 1, get. destruct (split_command l) as [w t].
  destruct (command_type w) as [k|] eqn:Ek; cbn [mbind option_bind fst].
  - destruct (k =? END) eqn:Ee; [unfold send_to_server, modify, mbind, cm_bind, exit_; by rewrite Hc|].
    unfold strcpy_buf, send_to_server, check, modify, mbind, cm_bind.
    destruct (_ <=? _); unfold mret, cm_ret; cbn beta iota; by rewrite ?Hc.
  - unfold say, modify, mbind, cm_bind, mret, cm_ret. by rewrite Hc.
Qed.

(** Leaving, in the POSIX build. *)
Lemma cleanup_posix getpid stack c : closed c = false ->
  cleanup false getpid stack c =
  Done tt (Client (client_id c) (nostop c)
    (if nostop c then to_server c else to_server c ++ [Msg STOP (client_id c) getpid stack]) (screen c) true).
Proof.
  intros Hc. unfold cleanup, send_to_server, modify, check, mbind, cm_bind, get. destruct (nostop c) eqn:En;
    unfold mret, cm_ret; cbn; rewrite ?Hc; cbn; by rewrite ?Hc, ?En.
Qed.

(** ** Messages on their way *)

(** The message of a client that is in the server's queue, if any. *)
Fixpoint wait_of (pend : list (nat * msg_t)) (i : nat) : option msg_t :=
  match pend with
  | [] => None
  | (j, m) :: rest => if decide (i = j) then Some m else wait_of rest i
  end.

Lemma wait_of_in pend i m : wait_of pend i = Some m -> i ∈ map fst pend.
Proof.
  induction pend as [|[j x] pend IH]; simpl; [done|]. case_decide; [subst; left|right; by apply IH].
Qed.

Lemma wait_of_None pend i : wait_of pend i = None <-> i ∉ map fst pend.
Proof.
  induction pend as [|[j x] pend IH]; simpl; [split; [by intros _ ?%elem_of_nil|done]|].
  rewrite elem_of_cons. case_decide as E; [split; [done|intros H; destruct H; by left]|].
  rewrite IH. split; [by intros H [|]|intros H H'; apply H; by right].
Qed.

Lemma wait_of_snoc pend i m j : wait_of pend i = None ->
  wait_of (pend ++ [(i, m)]) j = if decide (j = i) then Some m else wait_of pend j.
Proof.
  induction pend as [|[k x] pend IH]; simpl; [done|]. destruct (decide (i = k)); [done|]. intros H.
  destruct (decide (j = k)) as [Hk|Hk]; [by rewrite decide_False by congruence|by apply IH].
Qed.

Lemma wait_of_tail pend i m j : NoDup (i :: map fst pend) ->
  wait_of pend j = if decide (j = i) then None else wait_of ((i, m) :: pend) j.
Proof.
  intros [Hi _]%NoDup_cons. simpl. case_decide as E; [subst; by apply wait_of_None|done].
Qed.
End Spec.

(** ** The invariant *)

(** Client [i] has slot [id] of the server's table. *)
Definition registered (s : srv) (i : nat) (id : Z) : Prop := exists c, live s id c /\ cl_queue c = Z.of_nat i.

Section Net.
Context (shell : list Z -> option (list Z)) (server_pid : Z) (server_stack : list Z) (server_garbage : Z).
Context (cfgs : list config) (capacity : Z).

Local Abbreviation net_exec := (net_exec false shell server_pid server_stack server_garbage cfgs capacity).
Local Abbreviation output := (output shell).
Local Abbreviation reply := (reply shell).

(** The client has seen its id, and what belongs to the lines of [seen]. *)
Definition told (c : client) (seen : list (list Z)) : Prop :=
  screen c = AssignedId (client_id c) :: concat (map output seen) /\ Forall (fun l => is_end l = false) seen.

(** Client [i], whose message [w] is in the server's queue ([None]: none is),
    at each place of its code. *)
Definition client_state (s : srv) (i : nat) (cf : config) (p : proc) (w : option msg_t) : Prop :=
  match at_place p with
  | Greet => w = None /\ inbox p = [] /\ input p = cf_lines cf /\ cli p = Client 0 false [] [] false
  | AwaitId =>
      input p = cf_lines cf /\ screen (cli p) = [] /\ nostop (cli p) = false /\ closed (cli p) = false /\
      match w with
      | Some m => inbox p = [] /\ m_type m = HANDSHAKE /\ c_string (m_buf m) = Some (cf_name cf)
      | None => exists m, inbox p = [m] /\ registered s i (m_client m)
      end
  | Read =>
      w = None /\ inbox p = [] /\ nostop (cli p) = false /\ closed (cli p) = false /\ registered s i (client_id (cli p)) /\
      exists seen, cf_lines cf = seen ++ input p /\ told (cli p) seen
  | AwaitAnswer =>
      nostop (cli p) = false /\ closed (cli p) = false /\ registered s i (client_id (cli p)) /\
      exists seen l k t, cf_lines cf = seen ++ l :: input p /\ told (cli p) seen /\ ask l = Some (k, t) /\ k <> END /\
      match w with
      | Some m => inbox p = [] /\ m_type m = k /\ m_client m = client_id (cli p) /\
          length (m_buf m) = 256%nat /\ c_string (m_buf m) = Some t
      | None => exists m, inbox p = [m] /\ c_string (m_buf m) = reply k t
      end
  | Gone =>
      inbox p = [] /\
      match w with
      | Some m => registered s i (client_id (cli p)) /\ m_client m = client_id (cli p) /\ m_type m = if nostop (cli p) then END else STOP
      | None => True
      end /\
      exists seen rest, cf_lines cf = seen ++ rest /\ told (cli p) seen /\
      if nostop (cli p) then exists l, rest = l :: input p /\ is_end l = true else rest = []
  end.

(** The clients that have a slot. *)
Definition has_slot (p : proc) (w : option msg_t) : Prop :=
  match at_place p with
  | Greet => False
  | AwaitId => w = None
  | Read | AwaitAnswer => True
  | Gone => w <> None \/ nostop (cli p) = true
  end.

Record good (n : net) (pend : list (nat * msg_t)) : Prop := {
  g_table : table_ok (server n);
  g_unique : forall id id' c c', live (server n) id c -> live (server n) id' c' -> cl_queue c = cl_queue c' -> id = id';
  g_owner : forall id c, live (server n) id c ->
    exists i p, cl_queue c = Z.of_nat i /\ procs n !! i = Some p /\ has_slot p (wait_of pend i);
  g_procs : length (procs n) = length cfgs;
  g_inq : inq n = map snd pend;
  g_pend : NoDup (map fst pend);
  g_range : forall i, i ∈ map fst pend -> (i < length cfgs)%nat;
  g_client : forall i cf p, cfgs !! i = Some cf -> procs n !! i = Some p -> client_state (server n) i cf p (wait_of pend i);
  g_end : ended (server n) = true \/ up n = false -> exists (i : nat) p, procs n !! i = Some p /\ nostop (cli p) = true;
}.

Lemma client_state_mono s s' i cf p w :
  (forall id, registered s i id -> registered s' i id) -> client_state s i cf p w -> client_state s' i cf p w.
Proof.
  intros H. unfold client_state. destruct (at_place p).
  - done.
  - destruct w; [done|]. intros (? & ? & ? & ? & m & ? & ?). repeat (split; [done|]). exists m. auto.
  - intros (? & ? & ? & ? & ? & ?). auto 10.
  - intros (? & ? & ? & ?). auto 10.
  - intros (? & Hw & ?). split; [done|split; [|done]]. destruct w; [|done]. destruct Hw. auto.
Qed.

(** *** The table *)

Lemma live_insert l e tr id c j d : 0 <= id < Z.of_nat (length l) ->
  live (Srv (<[Z.to_nat id := c]> l) e tr) j d <-> (j = id /\ d = c /\ stopped c = 0) \/ (j <> id /\ aget l j = Some d /\ stopped d = 0).
Proof.
  intros Hid. unfold live. cbn [clients]. rewrite MsgQueueSpec.aget_insert by done. destruct (Z.eqb_spec id j) as [->|Hj]; split.
  - intros [[= <-] ?]. auto.
  - intros [(_ & -> & ?)|(? & _)]; done.
  - intros [? ?]. auto.
  - intros [(-> & _)|(_ & ? & ?)]; done.
Qed.

(** A client without a slot finds one that is free. *)
Lemma free_exists n pend i p :
  good n pend -> (length cfgs <= 256)%nat -> procs n !! i = Some p -> ~ has_slot p (wait_of pend i) ->
  exists id, free_slot (server n) = Some id.
Proof.
  intros G Hfew Hi Hno. destruct (free_slot (server n)) as [id|] eqn:E; [by exists id|exfalso].
  destruct (g_table _ _ G) as [Hl _].
  assert (forall k : nat, (k < 256)%nat -> exists c, clients (server n) !! k = Some c /\ live (server n) (Z.of_nat k) c) as Hall.
  { intros k Hk. destruct (lookup_lt_is_Some_2 (clients (server n)) k) as [c Hc]; [lia|]. exists c. split; [done|].
    pose proof (free_slot_None _ (Z.of_nat k) E ltac:(lia)) as Hf. unfold is_free in Hf. unfold live. rewrite aget_nat, Hc in *.
    split; [done|]. destruct (Z.eqb_spec (stopped c) 0); [done|done]. }
  set (qs := map (fun c => Z.to_nat (cl_queue c)) (clients (server n))).
  assert (forall (k : nat) q, qs !! k = Some q -> exists c p', live (server n) (Z.of_nat k) c /\ cl_queue c = Z.of_nat q /\
    procs n !! q = Some p' /\ has_slot p' (wait_of pend q)) as Hqs.
  { intros k q. unfold qs. rewrite list_lookup_fmap. destruct (clients (server n) !! k) as [c|] eqn:Hc; [|done]. intros [= <-].
    destruct (Hall k) as (c' & Hc' & Hlive); [apply lookup_lt_Some in Hc; lia|]. assert (c' = c) as -> by congruence.
    destruct (g_owner _ _ G _ _ Hlive) as (q & p' & Hq & Hp & Hs). exists c, p'. rewrite Hq, Nat2Z.id. done. }
  assert (length (i :: qs) <= length (procs n))%nat as Hle.
  { apply nodup_bound.
    - constructor.
      + intros [k Hk]%list_elem_of_lookup. destruct (Hqs k i Hk) as (c & p' & _ & _ & Hp & Hs). congruence.
      + apply NoDup_alt. intros k k' q Hk Hk'. destruct (Hqs k q Hk) as (c & _ & Hc & Hq & _).
        destruct (Hqs k' q Hk') as (c' & _ & Hc' & Hq' & _). apply Nat2Z.inj. apply (g_unique _ _ G _ _ c c'); congruence.
    - intros x [->|[k Hk]%list_elem_of_lookup]%elem_of_cons; [by eapply lookup_lt_Some|].
      destruct (Hqs k x Hk) as (c & p' & _ & _ & Hp & _). by eapply lookup_lt_Some. }
  rewrite (g_procs _ _ G) in Hle. unfold qs in Hle. cbn [length] in Hle. rewrite length_map, Hl in Hle. lia.
Qed.

(** ** What keeps the invariant *)

(** A change that concerns client [i] only. *)
Lemma good_change n pend i cf p n' pend' p' :
  good n pend -> cfgs !! i = Some cf -> procs n !! i = Some p ->
  procs n' = <[i := p']> (procs n) -> table_ok (server n') ->
  (forall id c, cl_queue c <> Z.of_nat i -> live (server n') id c <-> live (server n) id c) ->
  (forall id c, cl_queue c = Z.of_nat i -> live (server n') id c ->
    has_slot p' (wait_of pend' i) /\ forall id' c', cl_queue c' = Z.of_nat i -> live (server n') id' c' -> id = id') ->
  client_state (server n') i cf p' (wait_of pend' i) ->
  (forall j, j <> i -> wait_of pend' j = wait_of pend j) ->
  inq n' = map snd pend' -> NoDup (map fst pend') ->
  (forall j, j ∈ map fst pend' -> j = i \/ j ∈ map fst pend) ->
  (nostop (cli p) = true -> nostop (cli p') = true) ->
  (ended (server n') = true \/ up n' = false -> (ended (server n) = true \/ up n = false) \/ nostop (cli p') = true) ->
  good n' pend'.
Proof.
  intros G Hcf Hp Hps Hok Hother Hown Hst Hwait Hinq Hnd Hrange Hstop Hend.
  pose proof (lookup_lt_Some _ _ _ Hp) as Hlt.
  assert (forall j q, j <> i -> procs n' !! j = Some q <-> procs n !! j = Some q) as Hoth.
  { intros j q Hj. by rewrite Hps, list_lookup_insert_ne. }
  assert (procs n' !! i = Some p') as Hi by (by rewrite Hps, list_lookup_insert_eq).
  constructor; [done| | | |done|done| | |].
  - intros id id' c c' Hc Hc' Hq. destruct (decide (cl_queue c = Z.of_nat i)) as [E|E].
    + apply (Hown id c E Hc) with c'; [congruence|done].
    + apply (g_unique _ _ G id id' c c'); [by apply Hother|apply Hother; [congruence|done]|done].
  - intros id c Hc. destruct (decide (cl_queue c = Z.of_nat i)) as [E|E].
    + exists i, p'. split; [done|split; [done|]]. by apply (Hown id c E Hc).
    + apply Hother in Hc; [|done]. destruct (g_owner _ _ G _ _ Hc) as (j & q & Hj & Hq & Hs). exists j, q.
      assert (j <> i) as Hne by (intros ->; done). split; [done|]. split; [by apply Hoth|by rewrite Hwait].
  - rewrite Hps, length_insert. apply (g_procs _ _ G).
  - intros j [->|Hj]%Hrange; [by eapply lookup_lt_Some|by apply (g_range _ _ G)].
  - intros j cf' q Hcf' Hq. destruct (decide (j = i)) as [->|Hne]; [by simplify_eq|].
    rewrite Hwait by done. apply Hoth in Hq; [|done].
    apply (client_state_mono (server n)); [|by apply (g_client _ _ G)].
    intros id (c & Hc & Hcq). exists c. split; [|done]. apply Hother; [|done]. rewrite Hcq. lia.
  - intros [H|H]%Hend; [|by exists i, p'].
    destruct (g_end _ _ G H) as (j & q & Hq & Hn). destruct (decide (j = i)) as [->|Hne].
    + exists i, p'. split; [done|]. apply Hstop. congruence.
    + exists j, q. split; [by apply Hoth|done].
Qed.

(** A step of client [i] that leaves no message, or one, in the server's
    queue. *)
Lemma good_moved n pend i cf p ms p' :
  good n pend -> cfgs !! i = Some cf -> procs n !! i = Some p ->
  let pend' := (pend ++ map (pair i) ms)%list in
  (ms = [] \/ (length ms = 1%nat /\ wait_of pend i = None)) ->
  (has_slot p (wait_of pend i) -> has_slot p' (wait_of pend' i)) ->
  client_state (server n) i cf p' (wait_of pend' i) ->
  (nostop (cli p) = true -> nostop (cli p') = true) ->
  good (Net (server n) (up n) (inq n ++ ms) (<[i := p']> (procs n))) pend'.
Proof.
  intros G Hcf Hp pend' Hms Hslot Hst Hstop. pose proof (g_pend _ _ G) as Hnd.
  apply (good_change n pend i cf p _ _ p'); try done; cbn [server up inq procs].
  - apply (g_table _ _ G).
  - intros id c Hq Hc. split; [|intros id' c' Hq' Hc'; apply (g_unique _ _ G _ _ c c'); congruence].
    apply Hslot. destruct (g_owner _ _ G _ _ Hc) as (j & q & Hj & Hq' & Hs). assert (j = i) as -> by lia. by simplify_eq.
  - intros j Hj. subst pend'. destruct Hms as [->|[Hl Hw]]; [cbn; by rewrite app_nil_r|].
    destruct ms as [|m [|]]; try done. cbn. rewrite wait_of_snoc by done. by rewrite decide_False.
  - subst pend'. rewrite (g_inq _ _ G), map_app, map_map. cbn. by rewrite map_id.
  - subst pend'. rewrite map_app, map_map. destruct Hms as [->|[Hl Hw]]; [cbn; by rewrite app_nil_r|].
    destruct ms as [|m [|]]; try done. cbn. apply NoDup_app. split; [done|]. split; [|apply NoDup_singleton].
    intros j Hj ->%list_elem_of_singleton. by apply wait_of_None in Hw.
  - subst pend'. intros j. rewrite map_app, map_map, elem_of_app. intros [|H]; [by right|left].
    apply list_elem_of_fmap in H as (x & -> & _). done.
  - by left.
Qed.

(** ** Everything comes to an end *)

(** The steps a client still takes, with one for the server per message. *)
Definition rank (p : proc) : nat :=
  (match at_place p with Greet => 5 | AwaitId => 3 | Read => 2 | AwaitAnswer => 3 | Gone => 0 end +
   match at_place p with Gone => 0 | _ => 3 * length (input p) end)%nat.

Definition weight (n : net) : nat := (list_sum (map rank (procs n)) + length (inq n) + (if up n then 1 else 0))%nat.

(** What a step leads to: the invariant, and less to do; or, if [wait] holds,
    nothing yet. *)
Definition goes_well (wait : Prop) (n : net) (r : sres net) : Prop :=
  match r with
  | Step n' => (exists pend, good n' pend) /\ (weight n' < weight n)%nat
  | Blocked => wait
  | Fault _ => False
  end.

Lemma goes_well_weaken (P Q : Prop) n r : (P -> Q) -> goes_well P n r -> goes_well Q n r.
Proof. intros H. destruct r; [done|exact H|done]. Qed.

(** Why a client may have to wait. *)
Definition may_wait (n : net) (p : proc) : Prop :=
  capacity <= Z.of_nat (length (inq n)) \/ inbox p = [] /\ (at_place p = AwaitId \/ at_place p = AwaitAnswer) \/ at_place p = Gone.

Lemma settle_well n pend i cf p ms pl c box ls :
  good n pend -> cfgs !! i = Some cf -> procs n !! i = Some p ->
  let p' := Proc pl c box ls in
  let pend' := (pend ++ map (pair i) ms)%list in
  to_server c = to_server (cli p) ++ ms ->
  (ms = [] \/ (length ms = 1%nat /\ wait_of pend i = None)) ->
  (has_slot p (wait_of pend i) -> has_slot p' (wait_of pend' i)) ->
  client_state (server n) i cf p' (wait_of pend' i) ->
  (nostop (cli p) = true -> nostop c = true) ->
  (rank p' + length ms < rank p)%nat ->
  goes_well (may_wait n p) n (settle capacity i p n pl c box ls).
Proof.
  intros G Hcf Hp p' pend' Hsent Hms Hslot Hst Hstop Hrank. unfold settle. rewrite Hsent, drop_app_length.
  destruct (_ || _) eqn:Eroom; cbn [goes_well].
  2: { left. apply orb_false_iff in Eroom as [E1%bool_decide_eq_false E2]. destruct Hms as [->|[Hl _]]; [done|].
       rewrite length_app, Hl in E2. apply Z.leb_gt in E2. clear -E2. lia. }
  split; [exists pend'; by eapply good_moved|].
  unfold weight. cbn [procs inq up]. rewrite length_app. pose proof (list_sum_insert rank _ _ _ p' Hp). subst p'. lia.
Qed.

Lemma told_more c seen l ns ts cl : told c seen -> is_end l = false ->
  told (Client (client_id c) ns ts (screen c ++ output l) cl) (seen ++ [l]).
Proof.
  intros [Hs Hf] Hl. split; [|apply Forall_app; split; [done|by constructor]].
  cbn [screen client_id]. rewrite Hs, map_app, concat_app. cbn. by rewrite app_nil_r.
Qed.

Lemma told_same c seen ns ts cl : told c seen -> told (Client (client_id c) ns ts (screen c) cl) seen.
Proof. by intros [Hs Hf]. Qed.

Context (Hcfgs : Forall (config_ok shell) cfgs).

Lemma config_of i cf : cfgs !! i = Some cf -> config_ok shell cf.
Proof. by apply Forall_lookup_1. Qed.

Local Abbreviation step := (net_client_step false capacity).

Lemma greet_well n pend i cf p : good n pend -> cfgs !! i = Some cf -> procs n !! i = Some p ->
  at_place p = Greet -> goes_well (may_wait n p) n (step i cf p n).
Proof.
  intros G Hcf Hp Hpl. pose proof (g_client _ _ G _ _ _ Hcf Hp) as Hc. unfold client_state in Hc. rewrite Hpl in Hc.
  destruct Hc as (Hw & Hb & Hin & Hcli). destruct (config_of _ _ Hcf) as (Hstk & H0 & Hlen & _).
  unfold net_client_step. rewrite Hpl. unfold handshake_send, strcpy_buf, send_to_server, check, modify, mbind, cm_bind.
  destruct (Z.leb_spec (Z.of_nat (length (cf_name cf)) + 1) MSG_BUF_SIZE); [|unfold MSG_BUF_SIZE in *; lia].
  rewrite Hcli. unfold mret, cm_ret. cbn [client_goes closed to_server client_id nostop screen].
  eapply (settle_well n pend i cf p [_]); try done.
  - by rewrite Hcli.
  - by right.
  - unfold has_slot. by rewrite Hpl.
  - cbn [map]. rewrite wait_of_snoc, decide_True by done. unfold client_state. cbn. repeat (split; [done|]). by apply c_string_overwrite.
  - by rewrite Hcli.
  - unfold rank. rewrite Hpl. cbn. lia.
Qed.

Lemma id_well n pend i cf p : good n pend -> cfgs !! i = Some cf -> procs n !! i = Some p ->
  at_place p = AwaitId -> goes_well (may_wait n p) n (step i cf p n).
Proof.
  intros G Hcf Hp Hpl. pose proof (g_client _ _ G _ _ _ Hcf Hp) as Hc. unfold client_state in Hc. rewrite Hpl in Hc.
  destruct Hc as (Hin & Hscr & Hns & Hcl & Hw). unfold net_client_step. rewrite Hpl.
  destruct (inbox p) as [|m box] eqn:Eb; [right; left; auto|]. destruct (wait_of pend i) eqn:Ew; [by destruct Hw|].
  destruct Hw as (m' & [= <- ->] & Hreg). cbn.
  eapply (settle_well n pend i cf p []); try done; cbn.
  - by rewrite app_nil_r.
  - by left.
  - rewrite app_nil_r, Ew. unfold client_state, told. cbn. rewrite Hscr. repeat (split; [done|]). by exists [].
  - unfold rank. rewrite Hpl. cbn. lia.
Qed.

(** A line of a client is one of its file. *)
Lemma line_of i cf seen l ls : cfgs !! i = Some cf -> cf_lines cf = seen ++ l :: ls -> line_ok shell l.
Proof.
  intros Hcf Hl. destruct (config_of _ _ Hcf) as (_ & _ & _ & Hf). rewrite Hl, Forall_app, Forall_cons in Hf. tauto.
Qed.

Lemma leave_well n pend i cf p : good n pend -> cfgs !! i = Some cf -> procs n !! i = Some p ->
  at_place p = Read -> input p = [] -> goes_well (may_wait n p) n (step i cf p n).
Proof.
  intros G Hcf Hp Hpl Hin. pose proof (g_client _ _ G _ _ _ Hcf Hp) as Hc. unfold client_state in Hc. rewrite Hpl in Hc.
  destruct Hc as (Hw & Hb & Hns & Hcl & Hreg & seen & Hl & Ht). unfold net_client_step. rewrite Hpl, Hin. cbn [client_goes].
  rewrite cleanup_posix, Hns by done.
  eapply (settle_well n pend i cf p [_]); try done.
  - by right.
  - intros _. cbn [map]. rewrite wait_of_snoc, decide_True by done. by left.
  - cbn [map]. rewrite wait_of_snoc, decide_True by done. unfold client_state. cbn. repeat (split; [done|]).
    exists seen, []. rewrite Hl, Hin, app_nil_r. split; [done|split; [by apply told_same|done]].
  - by rewrite Hns.
  - unfold rank. rewrite Hpl. cbn. lia.
Qed.

Lemma read_well n pend i cf p l ls : good n pend -> cfgs !! i = Some cf -> procs n !! i = Some p ->
  at_place p = Read -> input p = l :: ls -> goes_well (may_wait n p) n (step i cf p n).
Proof.
  intros G Hcf Hp Hpl Hin. pose proof (g_client _ _ G _ _ _ Hcf Hp) as Hc. unfold client_state in Hc. rewrite Hpl in Hc.
  destruct Hc as (Hw & Hb & Hns & Hcl & Hreg & seen & Hl & Ht). rewrite Hin in Hl.
  destruct (config_of _ _ Hcf) as (Hstk & _). destruct (line_of _ _ _ _ _ Hcf Hl) as [H0 Hok].
  unfold net_client_step. rewrite Hpl, Hin, (client_line_eq shell) by done.
  destruct (ask l) as [[k t]|] eqn:Ea.
  - destruct (Z.eqb_spec k END) as [->|Hk].
    + cbn [client_goes]. rewrite cleanup_posix by done. cbn [nostop client_id to_server screen].
      eapply (settle_well n pend i cf p [_]); try done.
      * by right.
      * intros _. by right.
      * cbn [map]. rewrite wait_of_snoc, decide_True by done. unfold client_state. cbn. repeat (split; [done|]).
        exists seen, (l :: ls). split; [done|split; [by apply told_same|]]. exists l. split; [done|]. unfold is_end. by rewrite Ea.
      * unfold rank. rewrite Hpl, Hin. cbn. lia.
    + destruct (Hok k t eq_refl Hk) as [Hlen _].
      destruct (Z.leb_spec (Z.of_nat (length t) + 1) MSG_BUF_SIZE); [|unfold MSG_BUF_SIZE in *; lia]. cbn [client_goes].
      eapply (settle_well n pend i cf p [_]); try done.
      * by right.
      * cbn [map]. rewrite wait_of_snoc, decide_True by done. unfold client_state. cbn. repeat (split; [done|]).
        exists seen, l, k, t. repeat (split; [done|]).
        split; [rewrite length_overwrite0; [done|]; rewrite length_app; cbn; lia|].
        apply c_string_overwrite. by eapply ask_text.
      * unfold rank. rewrite Hpl, Hin. cbn. lia.
  - cbn [client_goes]. eapply (settle_well n pend i cf p []); try done; cbn.
    + by rewrite app_nil_r.
    + by left.
    + rewrite app_nil_r. unfold client_state. cbn. repeat (split; [done|]).
      exists (seen ++ [l]). rewrite <- app_assoc. split; [done|]. apply told_more; [done|]. unfold is_end. by rewrite Ea.
    + unfold rank. rewrite Hpl, Hin. cbn. lia.
Qed.

Lemma answer_well n pend i cf p : good n pend -> cfgs !! i = Some cf -> procs n !! i = Some p ->
  at_place p = AwaitAnswer -> goes_well (may_wait n p) n (step i cf p n).
Proof.
  intros G Hcf Hp Hpl. pose proof (g_client _ _ G _ _ _ Hcf Hp) as Hc. unfold client_state in Hc. rewrite Hpl in Hc.
  destruct Hc as (Hns & Hcl & Hreg & seen & l & k & t & Hl & Ht & Ha & Hk & Hw). unfold net_client_step. rewrite Hpl.
  destruct (inbox p) as [|m box] eqn:Eb; [right; left; auto|]. destruct (wait_of pend i) eqn:Ew; [by destruct Hw|].
  destruct Hw as (m' & [= <- ->] & Hm). destruct (line_of _ _ _ _ _ Hcf Hl) as [_ Hok].
  destruct (Hok k t Ha Hk) as [_ [a Hr]]. unfold client_answer, say, modify, mbind, cm_bind. rewrite Hm, Hr.
  cbn [lift mret cm_ret client_goes].
  assert (output l = [Response a]) as Ho.
  { unfold MsgNetSpec.output. rewrite Ha. destruct (Z.eqb_spec k END); [done|]. by rewrite Hr. }
  eapply (settle_well n pend i cf p []); try done; cbn.
  - by rewrite app_nil_r.
  - by left.
  - rewrite app_nil_r, Ew. unfold client_state. cbn. repeat (split; [done|]).
    exists (seen ++ [l]). rewrite <- app_assoc. split; [done|]. rewrite <- Ho. apply told_more; [done|].
    unfold is_end. rewrite Ha. by apply Z.eqb_neq.
  - unfold rank. rewrite Hpl. cbn. lia.
Qed.

Lemma client_well n pend i cf p : good n pend -> cfgs !! i = Some cf -> procs n !! i = Some p ->
  goes_well (may_wait n p) n (step i cf p n).
Proof.
  intros G Hcf Hp. destruct (at_place p) eqn:Hpl.
  - by eapply greet_well.
  - by eapply id_well.
  - destruct (input p) eqn:E; [by eapply leave_well|by eapply read_well].
  - by eapply answer_well.
  - unfold net_client_step. rewrite Hpl. right. by right.
Qed.

(** ** Turns of the server *)

Local Abbreviation serve_one :=
  (server_msg false (net_msgget cfgs) (net_mq_open cfgs) (net_send false) shell server_pid server_stack server_garbage).
Local Abbreviation turn := (server_step false shell server_pid server_stack server_garbage cfgs).

Lemma alter_lookup {A} (f : A -> A) (l : list A) (i : nat) x : l !! i = Some x -> alter f i l = <[i := f x]> l.
Proof. revert i. induction l as [|y l IH]; intros [|i] H; simplify_eq/=; [done|]. by rewrite <- IH. Qed.

(** The message of client [i] is taken: what remains to be shown for the
    message at hand. *)
Lemma served_well n i m pend cf p s' evs p' :
  good n ((i, m) :: pend) -> up n = true -> cfgs !! i = Some cf -> procs n !! i = Some p ->
  serve_one m (server n) = Done tt s' -> trace s' = trace (server n) ++ evs ->
  deliver evs (procs n) = <[i := p']> (procs n) -> rank p' = rank p -> cli p' = cli p ->
  table_ok s' ->
  (forall id c, cl_queue c <> Z.of_nat i -> live s' id c <-> live (server n) id c) ->
  (forall id c, cl_queue c = Z.of_nat i -> live s' id c ->
    has_slot p' None /\ forall id' c', cl_queue c' = Z.of_nat i -> live s' id' c' -> id = id') ->
  client_state s' i cf p' None ->
  (ended s' = true -> ended (server n) = true \/ nostop (cli p) = true) ->
  goes_well False n (turn n).
Proof.
  intros G Hup Hcf Hp Hmsg Htr Hdel Hrk Hcli Hok Hother Hown Hst Hend. pose proof (g_pend _ _ G) as Hnd.
  pose proof (g_inq _ _ G) as Hinq. cbn in Hnd, Hinq.
  assert (forall j, wait_of pend j = if decide (j = i) then None else wait_of ((i, m) :: pend) j) as Hwait.
  { intros j. by apply wait_of_tail. }
  apply NoDup_cons in Hnd as [_ Hnd]. unfold server_step. rewrite Hup, Hinq, Hmsg, Htr, drop_app_length, Hdel. split.
  - exists pend. apply (good_change n ((i, m) :: pend) i cf p _ _ p'); try done; rewrite ?Hwait, ?decide_True by done; try done.
    + intros j Hj. by rewrite Hwait, decide_False.
    + intros j Hj. right. cbn. by right.
    + by rewrite Hcli.
    + cbn. rewrite Hcli. intros [H|H]; [apply Hend in H as [H|H]; auto|done].
  - unfold weight. cbn [procs inq up]. rewrite Hup, Hinq. cbn [length]. pose proof (list_sum_insert rank _ _ _ p' Hp). lia.
Qed.

Context (Hstack : length server_stack = 256%nat) (Hnames : NoDup (map cf_name cfgs)) (Hfew : (length cfgs <= 256)%nat).

Lemma open_name i cf : cfgs !! i = Some cf -> net_mq_open cfgs (cf_name cf) = Some (Z.of_nat i).
Proof.
  intros H. unfold net_mq_open. destruct (list_find (fun c => cf_name c = cf_name cf) cfgs) as [[j c]|] eqn:E.
  - apply list_find_Some in E as (Hj & Hc & _). cbn. do 2 f_equal.
    apply (proj1 (NoDup_alt (map cf_name cfgs)) Hnames j i (cf_name cf)); rewrite list_lookup_fmap; [by rewrite Hj, <- Hc|by rewrite H].
  - exfalso. apply list_find_None in E. by apply (Forall_lookup_1 _ _ _ _ E H).
Qed.

Lemma handshake_well n i m pend cf p : good n ((i, m) :: pend) -> up n = true -> cfgs !! i = Some cf -> procs n !! i = Some p ->
  at_place p = AwaitId -> goes_well False n (turn n).
Proof.
  intros G Hup Hcf Hp Hpl. pose proof (g_client _ _ G _ _ _ Hcf Hp) as Hc. unfold client_state in Hc. rewrite Hpl in Hc.
  cbn [wait_of] in Hc. rewrite decide_True in Hc by done. destruct Hc as (Hin & Hscr & Hns & Hcl & Hbox & Htype & Hname).
  pose proof (g_table _ _ G) as Hok. pose proof Hok as [Hlen _].
  destruct (free_exists _ _ i p G Hfew Hp) as [id Hid].
  { unfold has_slot. rewrite Hpl. cbn [wait_of]. by rewrite decide_True. }
  destruct (free_slot_Some _ _ Hid) as [(c0 & Hc0 & Hs0) _]. pose proof Hc0 as [Hr0 Hr1%lookup_lt_Some]%aget_Some.
  set (r := Msg id id server_pid server_stack).
  assert (serve_one m (server n) = Done tt (shaken (net_send false) server_pid server_stack server_garbage id m (Some (Z.of_nat i)) (server n))) as Hmsg.
  { unfold MsgQueue.server_msg. rewrite Htype. cbn [Z.eqb Pos.eqb HANDSHAKE].
    unfold mbind at 1, cm_bind at 1, mret at 1, cm_ret at 1. rewrite (handshake_spec _ _ _ _ _ _ _ _ _ id) by done.
    unfold queue_of. rewrite Hname. cbn [fmap option_fmap option_map]. by rewrite (open_name i). }
  assert (forall j c, live (shaken (net_send false) server_pid server_stack server_garbage id m (Some (Z.of_nat i)) (server n)) j c <->
    (j = id /\ c = Cl (m_from m) id 0 (Z.of_nat i)) \/ live (server n) j c) as Hlive.
  { intros j c. unfold shaken. rewrite live_insert by lia. unfold live. cbn. split.
    - intros [(-> & -> & _)|(_ & H)]; auto.
    - intros [(-> & ->)|[H1 H2]]; [by left|right]. split; [|done]. intros ->. congruence. }
  eapply (served_well n i m pend cf p _ [_; _; Sent (Z.of_nat i) r] (arrive r p)); try done.
  - cbn. rewrite Nat2Z.id. by apply alter_lookup.
  - apply table_shaken; [done|lia].
  - intros j c Hq. rewrite Hlive. split; [|by right]. by intros [(_ & ->)|].
  - intros j c Hq Hj%Hlive. assert (forall j c, live (server n) j c -> cl_queue c <> Z.of_nat i) as Hnone.
    { intros j' c' Hl' Hq'. destruct (g_owner _ _ G _ _ Hl') as (k & q & Hk & Hqk & Hsl). assert (k = i) as -> by lia.
      simplify_eq. unfold has_slot in Hsl. rewrite Hpl in Hsl. cbn [wait_of] in Hsl. by rewrite decide_True in Hsl. }
    split; [unfold has_slot; cbn; by rewrite Hpl|].
    destruct Hj as [(-> & _)|Hj]; [|by destruct (Hnone _ _ Hj)]. intros j' c' Hq' [(-> & _)|Hj']%Hlive; [done|by destruct (Hnone _ _ Hj')].
  - unfold client_state. cbn. rewrite Hpl, Hbox. repeat (split; [done|]). exists r. split; [done|].
    exists (Cl (m_from m) id 0 (Z.of_nat i)). split; [|done]. apply Hlive. by left.
  - by left.
Qed.

(** The table stays as it is. *)
Lemma same_table_well n i m pend cf p s' evs p' :
  good n ((i, m) :: pend) -> up n = true -> cfgs !! i = Some cf -> procs n !! i = Some p ->
  serve_one m (server n) = Done tt s' -> trace s' = trace (server n) ++ evs -> clients s' = clients (server n) ->
  deliver evs (procs n) = <[i := p']> (procs n) -> rank p' = rank p -> cli p' = cli p -> has_slot p' None ->
  client_state s' i cf p' None ->
  (ended s' = true -> ended (server n) = true \/ nostop (cli p) = true) ->
  goes_well False n (turn n).
Proof.
  intros G Hup Hcf Hp Hmsg Htr Hcl Hdel Hrk Hcli Hslot Hst Hend.
  assert (forall j c, live s' j c <-> live (server n) j c) as Hlive by (intros j c; unfold live; by rewrite Hcl).
  eapply (served_well n i m pend cf p s' evs p'); try done.
  - pose proof (g_table _ _ G) as [Hl Hid]. split; [by rewrite Hcl|]. intros j c Hj%Hlive. by apply Hid.
  - intros j c Hq Hj%Hlive. split; [done|]. intros j' c' Hq' Hj'%Hlive. apply (g_unique _ _ G _ _ c c'); congruence.
Qed.

Lemma registered_unique n pend i id c d : good n pend -> registered (server n) i id -> live (server n) d c -> cl_queue c = Z.of_nat i -> d = id.
Proof. intros G (c' & Hc' & Hq') Hc Hq. apply (g_unique _ _ G _ _ c c'); congruence. Qed.

Lemma request_well n i m pend cf p : good n ((i, m) :: pend) -> up n = true -> cfgs !! i = Some cf -> procs n !! i = Some p ->
  at_place p = AwaitAnswer -> goes_well False n (turn n).
Proof.
  intros G Hup Hcf Hp Hpl. pose proof (g_client _ _ G _ _ _ Hcf Hp) as Hc. unfold client_state in Hc. rewrite Hpl in Hc.
  cbn [wait_of] in Hc. rewrite decide_True in Hc by done.
  destruct Hc as (Hns & Hcl & Hreg & seen & l & k & t & Hl & Ht & Ha & Hk & Hbox & Htype & Hid & Hbl & Htext).
  destruct (line_of _ _ _ _ _ Hcf Hl) as [_ Hok]. destruct (Hok k t Ha Hk) as [_ [a Hr]].
  assert (m_type m = MIRROR \/ m_type m = CALC \/ m_type m = TIME) as Hkind.
  { rewrite Htype. unfold ask in Ha. destruct (split_command l) as [w t']. destruct (command_type w) as [k'|] eqn:Ew; [|done].
    cbn in Ha. injection Ha as -> ->. destruct (command_type_values _ _ Ew) as [|[|[|]]]; auto; done. }
  pose proof Hreg as (c & Hlive & Hq). rewrite <- Hid in Hlive.
  destruct (reply_spec false (net_msgget cfgs) (net_mq_open cfgs) (net_send false) shell server_pid server_stack server_garbage
    m (server n) c a Hstack Hbl Hlive Hkind) as (buf & Hlb & Hsb & Hmsg).
  { unfold reply_text. rewrite Htype, Htext. unfold MsgNetSpec.reply in Hr. rewrite <- Hr.
    destruct (k =? MIRROR); [done|]. by destruct (k =? CALC). }
  set (r := Msg (m_client m) (m_client m) server_pid buf).
  eapply (same_table_well n i m pend cf p _ [_; Sent (Z.of_nat i) r] (arrive r p)); try done.
  - cbn [trace]. rewrite <- app_assoc. unfold sent_event. by rewrite Hq.
  - cbn. rewrite Nat2Z.id. by apply alter_lookup.
  - unfold has_slot. cbn. by rewrite Hpl.
  - unfold client_state. cbn. rewrite Hpl, Hbox. split; [done|split; [done|split; [done|]]].
    exists seen, l, k, t. repeat (split; [done|]). exists r. split; [done|]. cbn. by rewrite Hsb, Hr.
  - by left.
Qed.

Lemma end_well n i m pend cf p : good n ((i, m) :: pend) -> up n = true -> cfgs !! i = Some cf -> procs n !! i = Some p ->
  at_place p = Gone -> nostop (cli p) = true -> goes_well False n (turn n).
Proof.
  intros G Hup Hcf Hp Hpl Hns. pose proof (g_client _ _ G _ _ _ Hcf Hp) as Hc. unfold client_state in Hc. rewrite Hpl in Hc.
  cbn [wait_of] in Hc. rewrite decide_True, Hns in Hc by done.
  destruct Hc as (Hbox & (Hreg & Hid & Htype) & Hseen). pose proof Hreg as (c & Hlive & Hq). rewrite <- Hid in Hlive.
  eapply (same_table_well n i m pend cf p (Srv (clients (server n)) true (trace (server n) ++ [Received END (m_from m)]))
    [Received END (m_from m)] p); try done.
  - rewrite (guard_spec _ _ _ _ _ _ _ _ m _ c); [|rewrite Htype; discriminate|done]. by rewrite Htype.
  - cbn. by rewrite list_insert_id.
  - unfold has_slot. rewrite Hpl. by right.
  - unfold client_state. rewrite Hpl, Hns. done.
  - by right.
Qed.

Lemma stop_well n i m pend cf p : good n ((i, m) :: pend) -> up n = true -> cfgs !! i = Some cf -> procs n !! i = Some p ->
  at_place p = Gone -> nostop (cli p) = false -> goes_well False n (turn n).
Proof.
  intros G Hup Hcf Hp Hpl Hns. pose proof (g_client _ _ G _ _ _ Hcf Hp) as Hc. unfold client_state in Hc. rewrite Hpl in Hc.
  cbn [wait_of] in Hc. rewrite decide_True, Hns in Hc by done.
  destruct Hc as (Hbox & (Hreg & Hid & Htype) & Hseen). pose proof Hreg as (c & Hlive & Hq). rewrite <- Hid in Hlive.
  pose proof Hlive as [Hat _]. pose proof Hat as [Hr0 Hr1%lookup_lt_Some]%aget_Some. pose proof (g_table _ _ G) as Hok.
  assert (forall j d, live (stopped_at false m c (server n)) j d <-> j <> m_client m /\ live (server n) j d) as Hleft.
  { intros j d. unfold stopped_at. rewrite live_insert by lia. split; [intros [(_ & _ & H)|H]; [done|exact H]|]. by right. }
  eapply (served_well n i m pend cf p (stopped_at false m c (server n)) [_; _] p); try done.
  - rewrite (guard_spec _ _ _ _ _ _ _ _ m _ c); [|rewrite Htype; discriminate|done]. rewrite Htype. by apply stop_spec.
  - cbn. by rewrite list_insert_id.
  - by apply table_stopped.
  - intros j d Hd. rewrite Hleft. split; [tauto|]. intros Hj. split; [|done]. intros ->. destruct Hj as [Hj _]. congruence.
  - intros j d Hd [Hj Hl]%Hleft. destruct Hj. rewrite Hid. by eapply registered_unique.
  - unfold client_state. by rewrite Hpl, Hns.
  - by left.
Qed.

Lemma down_well n pend : good n pend -> up n = true -> inq n = [] -> goes_well (inq n = [] /\ ended (server n) = false) n (turn n).
Proof.
  intros G Hup Hin. unfold server_step. rewrite Hup, Hin. cbn. destruct (ended (server n)) eqn:E; [|done]. split.
  - exists pend. destruct G as [? ? ? ? Hq ? ? ? He]. constructor; try done; [cbn; congruence|].
    intros _. apply He. by left.
  - unfold weight. cbn [procs inq up]. rewrite Hup, Hin. lia.
Qed.

Lemma server_well n pend : good n pend -> goes_well (up n = true -> inq n = [] /\ ended (server n) = false) n (turn n).
Proof.
  intros G. destruct (up n) eqn:Hup; [|unfold server_step; by rewrite Hup].
  pose proof (g_inq _ _ G) as Hq. destruct pend as [|[i m] pend]; [eapply goes_well_weaken; [|by eapply down_well]; done|].
  apply (goes_well_weaken False); [done|].
  assert (i < length cfgs)%nat as Hi by (apply (g_range _ _ G); left).
  destruct (lookup_lt_is_Some_2 cfgs i Hi) as [cf Hcf]. rewrite <- (g_procs _ _ G) in Hi.
  destruct (lookup_lt_is_Some_2 (procs n) i Hi) as [p Hp].
  pose proof (g_client _ _ G _ _ _ Hcf Hp) as Hc. unfold client_state in Hc. cbn [wait_of] in Hc. rewrite decide_True in Hc by done.
  destruct (at_place p) eqn:Hpl; [by destruct Hc|by eapply handshake_well|by destruct Hc|by eapply request_well|].
  destruct (nostop (cli p)) eqn:E; [by eapply end_well|by eapply stop_well].
Qed.

Lemma exec_well l n pend : good n pend -> goes_well True n (net_exec l n).
Proof.
  intros G. destruct l as [|i]; cbn; [by eapply goes_well_weaken; [|by eapply server_well]|].
  destruct (cfgs !! i) as [cf|] eqn:Hcf; [|done]. destruct (procs n !! i) as [p|] eqn:Hp; [|done].
  eapply goes_well_weaken; [|by eapply client_well]. done.
Qed.

Lemma good_start : good (net_start cfgs) [].
Proof.
  assert (forall id c, ~ live (server (net_start cfgs)) id c) as Hnone.
  { intros id c [Hc Hs]. apply aget_Some in Hc as [_ Hc]. apply lookup_replicate in Hc as [-> _]. done. }
  constructor; cbn [net_start server up inq procs].
  - apply server_start_ok.
  - intros id id' c c' H. by destruct (Hnone _ _ H).
  - intros id c H. by destruct (Hnone _ _ H).
  - apply length_map.
  - done.
  - constructor.
  - by intros i ?%elem_of_nil.
  - intros i cf p Hcf Hp. rewrite list_lookup_fmap, Hcf in Hp. injection Hp as <-. done.
  - by intros [|].
Qed.

Lemma run_well ls n pend n' : good n pend -> run net_exec ls n = Some n' ->
  (exists pend', good n' pend') /\ (length ls + weight n' <= weight n)%nat.
Proof.
  revert n pend. induction ls as [|l ls IH]; intros n pend G H; simplify_eq/=; [split; [by exists pend|lia]|].
  pose proof (exec_well l n pend G) as Hw. destruct (net_exec l n) as [n1| |]; try done.
  destruct Hw as [[pend1 G1] Hlt]. destruct (IH _ _ G1 H) as [? ?]. split; [done|lia].
Qed.
End Net.

(** ** Properties *)

(** The setting: at most 256 clients, whose queues have different names that
    fit into a message, and whose requests do. *)
Definition setting_ok (shell : list Z -> option (list Z)) (server_stack : list Z) (cfgs : list config) : Prop :=
  Forall (config_ok shell) cfgs /\ length server_stack = 256%nat /\ NoDup (map cf_name cfgs) /\ (length cfgs <= 256)%nat.

(** What a client has been shown when it has come to [p]. *)
Definition shown (shell : list Z -> option (list Z)) (cf : config) (p : proc) : Prop :=
  ((at_place p = Greet \/ at_place p = AwaitId) /\ screen (cli p) = []) \/
  exists seen rest, cf_lines cf = seen ++ rest /\
    screen (cli p) = AssignedId (client_id (cli p)) :: concat (map (output shell) seen) /\
    Forall (fun l => is_end l = false) seen /\
    (at_place p = Gone -> rest = [] \/ exists l rest', rest = l :: rest' /\ is_end l = true).

Definition talking (p : proc) : Prop := at_place p = Read \/ at_place p = AwaitAnswer.

Lemma state_shown shell s i cf p w : client_state shell s i cf p w -> shown shell cf p /\ (length (inbox p) <= 1)%nat.
Proof.
  unfold client_state, shown. destruct (at_place p).
  - intros (_ & -> & _ & ->). split; [by left; auto|simpl; lia].
  - intros (_ & Hs & _ & _ & Hw). split; [by left; auto|]. destruct w; [destruct Hw as (-> & _)|destruct Hw as (m & -> & _)]; simpl; lia.
  - intros (_ & -> & _ & _ & _ & seen & Hl & Hs & Hf). split; [|simpl; lia]. right. by exists seen, (input p).
  - intros (_ & _ & _ & seen & l & k & t & Hl & [Hs Hf] & _ & _ & Hw). split; [right; by exists seen, (l :: input p)|].
    destruct w; [destruct Hw as (-> & _)|destruct Hw as (m & -> & _)]; simpl; lia.
  - intros (-> & _ & seen & rest & Hl & [Hs Hf] & Hr). split; [|simpl; lia]. right. exists seen, rest. repeat (split; [done|]).
    intros _. destruct (nostop (cli p)); [right; destruct Hr as (l & -> & Hr); by exists l, (input p)|by left].
Qed.

Lemma talking_registered shell s i cf p w : client_state shell s i cf p w -> talking p -> registered s i (client_id (cli p)).
Proof. unfold client_state. intros H [E|E]; rewrite E in H; tauto. Qed.

Section Run.
Context (shell : list Z -> option (list Z)) (server_pid : Z) (server_stack : list Z) (server_garbage : Z).
Context (cfgs : list config) (capacity : Z) (Hset : setting_ok shell server_stack cfgs).

Local Abbreviation exec := (net_exec false shell server_pid server_stack server_garbage cfgs capacity).

Lemma run_good ls n : run exec ls (net_start cfgs) = Some n ->
  (exists pend, good shell cfgs n pend) /\ (length ls + weight n <= weight (net_start cfgs))%nat.
Proof. destruct Hset as (? & ? & ? & ?). apply (run_well _ _ _ _ _ _) with []; try done. by apply good_start. Qed.

Lemma reach_good n : reach exec (net_start cfgs) n -> exists pend, good shell cfgs n pend.
Proof.
  destruct Hset as (? & ? & ? & ?). apply (reach_inv exec (fun n => exists pend, good shell cfgs n pend)).
  - exists []. by apply good_start.
  - intros l s s' [pend G] He. pose proof (exec_well shell server_pid server_stack server_garbage cfgs capacity) as Hw.
    specialize (Hw ltac:(done) ltac:(done) ltac:(done) ltac:(done) l s pend G). rewrite He in Hw. apply Hw.
Qed.

Lemma good_safe n pend : good shell cfgs n pend -> safe exec n.
Proof.
  destruct Hset as (? & ? & ? & ?). intros G l u He.
  pose proof (exec_well shell server_pid server_stack server_garbage cfgs capacity) as Hw.
  specialize (Hw ltac:(done) ltac:(done) ltac:(done) ltac:(done) l n pend G). by rewrite He in Hw.
Qed.

Lemma net_weight_start : weight (net_start cfgs) = S (list_sum (map (fun cf => 5 + 3 * length (cf_lines cf))%nat cfgs)).
Proof. unfold weight, net_start. cbn [procs inq up length]. rewrite map_map. unfold rank. cbn [at_place input]. lia. Qed.

(** A client that only leaves when it has read everything. *)
Definition never_ends (cf : config) : Prop := Forall (fun l => is_end l = false) (cf_lines cf).

Lemma no_end n pend i cf p : good shell cfgs n pend -> cfgs !! i = Some cf -> never_ends cf -> procs n !! i = Some p ->
  nostop (cli p) = false.
Proof.
  intros G Hcf Hne Hp. pose proof (g_client _ _ _ _ G _ _ _ Hcf Hp) as Hc. unfold client_state in Hc.
  destruct (at_place p); [by destruct Hc as (_ & _ & _ & ->)|tauto..|].
  destruct Hc as (_ & _ & seen & rest & Hl & _ & Hr). destruct (nostop (cli p)); [|done].
  destruct Hr as (l & -> & He). unfold never_ends in Hne. rewrite Hl, Forall_app, Forall_cons in Hne.
  destruct Hne as (_ & Hne & _). congruence.
Qed.

Lemma proc_config n pend i p : good shell cfgs n pend -> procs n !! i = Some p -> exists cf, cfgs !! i = Some cf.
Proof.
  intros G Hp. apply lookup_lt_Some in Hp. rewrite (g_procs _ _ _ _ G) in Hp. destruct (lookup_lt_is_Some_2 cfgs i Hp) as [cf ?]. by exists cf.
Qed.

Lemma stuck_idle n pend : good shell cfgs n pend -> Forall never_ends cfgs -> stuck exec n -> pend = [] /\ inq n = [].
Proof.
  intros G Hne Hst. destruct Hset as (? & ? & ? & ?).
  assert (~ (ended (server n) = true \/ up n = false)) as Hup.
  { intros (i & p & Hp & Hn)%(g_end _ _ _ _ G). destruct (proc_config _ _ _ _ G Hp) as [cf Hcf].
    pose proof (no_end _ _ _ _ _ G Hcf (Forall_lookup_1 _ _ _ _ Hne Hcf) Hp). congruence. }
  pose proof (server_well shell server_pid server_stack server_garbage cfgs) as Hw.
  specialize (Hw ltac:(done) ltac:(done) ltac:(done) ltac:(done) n pend G). pose proof (Hst NServer) as E. cbn in E. rewrite E in Hw.
  destruct Hw as [Hq _]; [destruct (up n); [done|by destruct Hup; right]|]. split; [|done].
  pose proof (g_inq _ _ _ _ G) as Hi. rewrite Hq in Hi. by destruct pend.
Qed.

Lemma stuck_gone n pend i cf p : good shell cfgs n pend -> Forall never_ends cfgs -> 0 < capacity -> stuck exec n ->
  cfgs !! i = Some cf -> procs n !! i = Some p -> at_place p = Gone.
Proof.
  intros G Hne Hcap Hst Hcf Hp. destruct (stuck_idle _ _ G Hne Hst) as [-> Hq]. destruct Hset as (? & ? & ? & ?).
  pose proof (client_well shell cfgs capacity ltac:(done) n [] i cf p G Hcf Hp) as Hw.
  pose proof (Hst (NClient i)) as E. cbn in E. rewrite Hcf, Hp in E. rewrite E in Hw.
  destruct Hw as [Hw|[[Hb Hw]|Hw]]; [rewrite Hq in Hw; simpl in Hw; lia| |done].
  pose proof (g_client _ _ _ _ G _ _ _ Hcf Hp) as Hc. unfold client_state in Hc. cbn [wait_of] in Hc. rewrite Hb in Hc.
  destruct Hw as [Hw|Hw]; rewrite Hw in Hc.
  - destruct Hc as (_ & _ & _ & _ & m & Hm & _). done.
  - destruct Hc as (_ & _ & _ & seen & l & k & t & _ & _ & _ & _ & m & Hm & _). done.
Qed.
End Run.



(** ** Two clients *)

Definition ex_cfg (i : Z) (name : string) (lines : list (list Z)) : config :=
  Config (10 + i) (bytes name) i (replicate 256 7) 0 lines.

Definition ex_cfgs : list config :=
  [ex_cfg 0 "/oslab-1" [bytes "mirror abc" ++ [10]; bytes "hello" ++ [10]]; ex_cfg 1 "/oslab-2" [bytes "calc 6*7" ++ [10]]].

Definition ex_labels (l : list nat) : list net_label := map (fun i => match i with O => NServer | S i => NClient i end) l.

(** The calculation is asked first, and its client leaves last. *)
Definition ex_turns : list net_label := ex_labels [1; 2; 0; 0; 2; 1; 2; 1; 0; 0; 1; 1; 1; 2; 2; 0; 0]%nat.

Lemma ex_setting_ok : setting_ok ex_shell ex_stack ex_cfgs.
Proof.
  split; [|split; [done|split; [|simpl; lia]]].
  - assert (forall i name lines, (0 ∉ bytes name) -> (length (bytes name) < 256)%nat -> Forall (line_ok ex_shell) lines ->
      config_ok ex_shell (ex_cfg i name lines)) as H by by (intros; split; [|split; [|split]]).
    apply Forall_cons_2; [|apply Forall_cons_2; [|apply Forall_nil_2]].
    all: apply H; [by apply (bool_decide_unpack _); vm_compute|simpl; lia|].
    all: repeat (apply Forall_cons_2 || apply Forall_nil_2).
    all: split; [by apply (bool_decide_unpack _); vm_compute|].
    all: intros k t E; vm_compute in E; try discriminate E; injection E as <- <-; intros _; (split; [simpl; lia|]).
    all: eexists; reflexivity.
  - apply (bool_decide_unpack _). vm_compute. done.
Qed.



(** The first client asks the server to end and the second goes on. *)
Definition ending : list config :=
  [ex_cfg 0 "/oslab-1" [bytes "end "]; ex_cfg 1 "/oslab-2" [bytes "time " ++ [10]]].

(** A server that was told to end takes the messages that have come, and goes
    at the first moment its queue is empty, whoever is still there: a client
    that asks after that waits for its answer for good. *)
Theorem client_left_behind :
  exists n p, run (net_exec false ex_shell 9 ex_stack 0 ending 10) (ex_labels [1; 2; 0; 0; 1; 2; 1; 0; 0; 2]%nat) (net_start ending) = Some n /\
  stuck (net_exec false ex_shell 9 ex_stack 0 ending 10) n /\
  up n = false /\ procs n !! 1%nat = Some p /\ at_place p = AwaitAnswer /\ inq n <> [].
Proof.
  destruct (run (net_exec false ex_shell 9 ex_stack 0 ending 10) _ _) as [n|] eqn:E; [|vm_compute in E; discriminate].
  vm_compute in E. injection E as <-. eexists _, _. split; [reflexivity|]. split; [|repeat split; discriminate].
  intros [|[|[|i]]]; reflexivity.
Qed.
