(* ===== verification/QueueLife.v ===== *)
(** The queues of cw06, by their names: [prepare_queue] and [cleanup] of
    cw06/zad1/src/server.c, [prepare_queues] and [cleanup] of client.c, in both
    builds, and any sequence of servers and clients that start and end.  What
    is sent over the queues is in [MsgQueue].  [ftok] is taken to succeed: the
    home directory exists. *)
From S2P Require Import Prelude CString Scan.
From Stdlib Require Import Ascii String.
#[local] Open Scope string_scope.
#[local] Open Scope Z_scope.
Local Abbreviation get := Prelude.get.

(** The name of a POSIX queue, or the key of a System V one. *)
#[local] Abbreviation qname := (string + Z)%type.

Definition QUEUE_PREFIX : string := "/oslab-".
Definition QUEUE_NAME : string := QUEUE_PREFIX ++ "server".

Section Build.
(** The build; what [ftok] makes of the home directory: the low bits of its
    inode and device. *)
Context (sysv : bool) (home : Z).

(** [ftok(home_dir, proj)]: only eight bits of [proj] count. *)
Definition ftok (proj : Z) : Z := s32 (Z.lor (Z.shiftl (Z.land proj 255) 24) home).

Definition server_name : qname := if sysv then inr (ftok (chr "K")) else inl QUEUE_NAME.

(** Made of [rand() ^ getpid()]. *)
Definition client_name (n : Z) : qname := if sysv then inr (ftok n) else inl (QUEUE_PREFIX ++ print_int n).

(** [mq_open] and [msgget] with the flags to create a queue that does not
    exist yet. *)
Definition create (q : qname) : cm (gset qname) bool :=
  s ← get;
  if bool_decide (q ∈ s) then mret false else put ({[q]} ∪ s) ;; mret true.

(** The same calls without them. *)
Definition open (q : qname) : cm (gset qname) bool := gets (fun s => bool_decide (q ∈ s)).

(** [mq_unlink] and [msgctl(IPC_RMID)] *)
Definition remove (q : qname) : cm (gset qname) unit := modify (fun s => s ∖ {[q]}).

(** ** server.c: [atexit] is called after this *)

Definition prepare_queue : cm (gset qname) unit :=
  ok ← create server_name; if ok : bool then mret tt else exit_ 1.

Definition server_cleanup : cm (gset qname) unit := remove server_name.

(** ** client.c: likewise *)

Definition prepare_queues (n : Z) : cm (gset qname) qname :=
  ok ← create (client_name n);
  if negb (ok : bool) then exit_ 1
  else
    ok ← open server_name;
    if ok : bool then mret (client_name n) else exit_ 1.

Definition client_cleanup (queue : qname) : cm (gset qname) unit := remove queue.

(** ** Servers and clients that come and go *)

(** The names in use; whether a server is up; the queues of the clients that
    run; those of clients that ended without their [cleanup]. *)
Record office := Office { queues : gset qname; up : bool; live : list qname; left_over : list qname }.

Inductive label := ServerStarts | ServerEnds | ClientStarts (n : Z) | ClientEnds (i : nat).

Definition exec (l : label) (o : office) : sres office :=
  match l with
  | ServerStarts =>
      match prepare_queue (queues o) with
      | Done _ s => Step (Office s true (live o) (left_over o))
      | Exited _ s => Step (Office s (up o) (live o) (left_over o))
      | Undef u => Fault u
      | NoFuel => Blocked
      end
  | ServerEnds =>
      if up o then
        match server_cleanup (queues o) with
        | Done _ s | Exited _ s => Step (Office s false (live o) (left_over o))
        | Undef u => Fault u
        | NoFuel => Blocked
        end
      else Blocked
  | ClientStarts n =>
      match prepare_queues n (queues o) with
      | Done q s => Step (Office s (up o) (live o ++ [q])%list (left_over o))
      | Exited _ s =>
          Step (Office s (up o) (live o)
            (if bool_decide (s = queues o) then left_over o else left_over o ++ [client_name n])%list)
      | Undef u => Fault u
      | NoFuel => Blocked
      end
  | ClientEnds i =>
      match live o !! i with
      | Some q =>
          match client_cleanup q (queues o) with
          | Done _ s | Exited _ s => Step (Office s (up o) (delete i (live o)) (left_over o))
          | Undef u => Fault u
          | NoFuel => Blocked
          end
      | None => Blocked
      end
  end.

Definition closed : office := Office ∅ false [] [].

(** ** The names in use are those of the server, of the clients that run, and
    of those that left theirs. *)

Definition owners (o : office) : list qname := (if up o then [server_name] else []) ++ live o ++ left_over o.

Definition accounted (o : office) : Prop := queues o = list_to_set (owners o) /\ NoDup (owners o).

Lemma accounted_elem o q : accounted o -> q ∈ queues o <-> q ∈ owners o.
Proof. intros [-> _]. by rewrite elem_of_list_to_set. Qed.

(** One owner more, one fewer. *)
Lemma accounted_perm o o' q :
  accounted o -> q ∉ queues o -> queues o' = {[q]} ∪ queues o -> owners o' ≡ₚ q :: owners o -> accounted o'.
Proof.
  intros Ho Hq E Hp. rewrite (accounted_elem o q Ho) in Hq. destruct Ho as [Es Hn]. split.
  - rewrite E, Es. apply leibniz_equiv. by rewrite Hp.
  - rewrite Hp. by constructor.
Qed.

Lemma accounted_drop o o' q :
  accounted o -> queues o' = queues o ∖ {[q]} -> owners o ≡ₚ q :: owners o' -> accounted o'.
Proof.
  intros [Es Hn] E Hp. rewrite Hp in Hn. apply NoDup_cons in Hn as [Hq Hn]. split; [|done].
  rewrite E, Es. apply leibniz_equiv. rewrite Hp. rewrite <- (elem_of_list_to_set (C := gset qname)) in Hq.
  clear -Hq. intros x. rewrite list_to_set_cons, elem_of_difference, elem_of_union, elem_of_singleton.
  split; [tauto|]. intros Hx. split; [by right|]. by intros ->.
Qed.

Lemma create_eq q s : create q s = if bool_decide (q ∈ s) then Done false s else Done true ({[q]} ∪ s).
Proof. unfold create. eapply bind_eq; [done|]. by case_bool_decide. Qed.

Lemma prepare_queue_eq s :
  prepare_queue s = if bool_decide (server_name ∈ s) then Exited 1 s else Done tt ({[server_name]} ∪ s).
Proof. unfold prepare_queue, mbind, cm_bind. rewrite create_eq. by case_bool_decide. Qed.

Lemma prepare_queues_eq n s :
  prepare_queues n s =
  if bool_decide (client_name n ∈ s) then Exited 1 s
  else if bool_decide (server_name ∈ ({[client_name n]} ∪ s : gset qname)) then Done (client_name n) ({[client_name n]} ∪ s)
  else Exited 1 ({[client_name n]} ∪ s).
Proof.
  unfold prepare_queues, open, mbind, cm_bind. rewrite create_eq. case_bool_decide; [done|]. unfold gets. simpl.
  by case_bool_decide.
Qed.

Lemma up_server_name o : accounted o -> up o = true -> server_name ∈ queues o.
Proof. intros Ho Hu. rewrite accounted_elem by done. unfold owners. rewrite Hu. by left. Qed.

Lemma exec_accounted l o o' : accounted o -> exec l o = Step o' -> accounted o'.
Proof.
  intros Ho. destruct l as [| |n|i]; unfold exec.
  - rewrite prepare_queue_eq. case_bool_decide as Hin; intros [= <-]; [exact Ho|].
    eapply accounted_perm; [exact Ho|exact Hin|done|]. unfold owners. cbn [up live left_over].
    destruct (up o) eqn:Hu; [|done]. by destruct Hin; apply up_server_name.
  - destruct (up o) eqn:Hu; [|done]. unfold server_cleanup, remove, modify. intros [= <-].
    eapply accounted_drop; [exact Ho|done|]. unfold owners. cbn [up live left_over]. by rewrite Hu.
  - rewrite prepare_queues_eq. case_bool_decide as Hin.
    { intros [= <-]. rewrite bool_decide_true by done. exact Ho. }
    assert ({[client_name n]} ∪ queues o <> queues o) as Hne by (intros E; apply Hin; rewrite <- E; set_solver +).
    case_bool_decide; intros [= <-]; [|rewrite bool_decide_false by done];
      (eapply accounted_perm; [exact Ho|exact Hin|done|]); unfold owners; cbn [up live left_over].
    + rewrite <- app_assoc. cbn [app]. by rewrite <- !Permutation_middle.
    + by rewrite <- Permutation_cons_append, <- !Permutation_middle.
  - destruct (live o !! i) as [q|] eqn:Hi; [|done]. unfold client_cleanup, remove, modify. intros [= <-].
    eapply accounted_drop; [exact Ho|done|]. unfold owners. cbn [up live left_over].
    rewrite (delete_Permutation _ _ _ Hi) at 1. by rewrite Permutation_middle.
Qed.
End Build.

(** On POSIX no client takes the name of the server. *)
Lemma posix_names_apart home n : client_name false home n <> server_name false home.
Proof.
  unfold client_name, server_name, QUEUE_NAME. intros [= E]. unfold print_int in E.
  destruct (n <? 0); [done|]. destruct (dec_cons n) as (c & s & En & Hc). rewrite En in E. by injection E as -> _.
Qed.

(** ** Properties *)


Lemma left_over_stays sysv home q o o' :
  q ∈ left_over o -> reach (exec sysv home) o o' -> q ∈ left_over o'.
Proof.
  intros Hq. apply (reach_inv (exec sysv home) (fun o => q ∈ left_over o)); [done|]. clear.
  intros l o o' Hq E. destruct l as [| |n|i]; unfold exec in E.
  - destruct (prepare_queue _ _ _); [by injection E as <-..|done|done].
  - destruct (up o); [|done]. by injection E as <-.
  - destruct (prepare_queues _ _ _ _); [by injection E as <-| |done|done]. injection E as <-. simpl.
    case_bool_decide; [done|]. apply elem_of_app. by left.
  - destruct (live o !! i); [|done]. by injection E as <-.
Qed.

(** A client that starts too early. *)
Lemma early_client sysv home n o :
  server_name sysv home ∉ queues o -> client_name sysv home n ∉ queues o -> client_name sysv home n <> server_name sysv home ->
  exec sysv home (ClientStarts n) o =
  Step (Office ({[client_name sysv home n]} ∪ queues o) (up o) (live o) (left_over o ++ [client_name sysv home n])%list).
Proof.
  intros Hs Hn Hne. unfold exec. rewrite prepare_queues_eq, bool_decide_false by done.
  rewrite bool_decide_false by (intros [E%elem_of_singleton|]%elem_of_union; [by destruct Hne|done]). rewrite bool_decide_false; [done|].
  intros E. apply Hn. rewrite <- E. set_solver +.
Qed.

(** A client that starts before the server exits without its [cleanup],
    which is registered too late: on POSIX its queue then exists for good, and
    every client that is given the same name fails. *)
Theorem early_client_leaves_queue (home n : Z) (o : office)
  (Hr : reach (exec false home) closed o) (Hup : server_name false home ∉ queues o) (Hn : client_name false home n ∉ queues o) :
  exists o', exec false home (ClientStarts n) o = Step o' /\
    forall o2, reach (exec false home) o' o2 ->
      client_name false home n ∈ queues o2 /\ prepare_queues false home n (queues o2) = Exited 1 (queues o2).
Proof.
  pose proof (early_client false home n o Hup Hn (posix_names_apart home n)) as E.
  eexists. split; [exact E|]. intros o2 Hr2.
  assert (client_name false home n ∈ queues o2) as Hin; [|split; [done|by rewrite prepare_queues_eq, bool_decide_true]].
  apply (accounted_elem false home).
  - apply (reach_inv (exec false home) (accounted false home) closed o2); [by split; [|constructor]|intros l o1 o3; apply exec_accounted|].
    eapply reach_trans; [|exact Hr2]. by eapply reach_step.
  - unfold owners. rewrite !elem_of_app. right. right. eapply left_over_stays; [|exact Hr2].
    apply elem_of_app. right. by left.
Qed.

(** System V: one client in 256 makes its queue under the key of the server.
    If no server is up it is then connected to itself, and no server can start
    while it runs. *)
Theorem client_takes_server_key (home n : Z) (Hn : Z.land n 255 = chr "K") :
  exists o, exec true home (ClientStarts n) closed = Step o /\ live o = [server_name true home] /\ up o = false /\
    exec true home ServerStarts o = Step o.
Proof.
  assert (client_name true home n = server_name true home) as E.
  { unfold client_name, server_name, ftok. by rewrite Hn. }
  eexists. split.
  - unfold exec. rewrite prepare_queues_eq, E, bool_decide_false by set_solver.
    rewrite bool_decide_true by set_solver. reflexivity.
  - split; [done|]. split; [done|]. unfold exec. rewrite prepare_queue_eq, bool_decide_true by (simpl; set_solver). done.
Qed.

(** ** The properties at concrete inputs *)

(** A server, a client that meets it and ends, the server ends, a client too late. *)
Definition demo_day : list label := [ServerStarts; ClientStarts 7; ServerStarts; ClientEnds 0; ServerEnds; ClientStarts 9].


Lemma early_client_leaves_queue_witness :
  exists o, exec false 5 (ClientStarts 9) closed = Step o /\ client_name false 5 9 ∈ queues o.
Proof.
  destruct (early_client_leaves_queue 5 9 closed (reach_refl _ _) (not_elem_of_empty _) (not_elem_of_empty _)) as (o & E & H).
  exists o. split; [exact E|]. apply H. constructor.
Defined.

Lemma client_takes_server_key_witness :
  exists o, exec true 5 (ClientStarts 331) closed = Step o /\ live o = [server_name true 5].
Proof. destruct (client_takes_server_key 5 331 eq_refl) as (o & E & H & _). exists o. split; [exact E|exact H]. Defined.
