(* ===== verification/Pgm.v ===== *)
(** Grey-scale images and their text files: cw08/zad1/src/pgm.c and pgm.h. *)
From S2P Require Import Prelude CString Scan.
From Stdlib Require Import Ascii String SpecFloat.
#[local] Open Scope string_scope.
#[local] Open Scope Z_scope.

(** ** The C type [float]: binary32 values *)

Definition flt_of_Z (z : Z) : spec_float := binary_normalize 24 128 z 0 false.
Definition fmul : spec_float -> spec_float -> spec_float := SFmul 24 128.
Definition fdiv : spec_float -> spec_float -> spec_float := SFdiv 24 128.

(** The absolute value of a number, without its fraction. *)
Definition trunc_abs (m : positive) (e : Z) : Z :=
  if 0 <=? e then Zpos m * 2 ^ e else Zpos m / 2 ^ (- e).

(** Conversion to [unsigned char]: the fraction is discarded, and a value out
    of range is undefined. *)
Definition uchar_of_sf (f : spec_float) : option Z :=
  match f with
  | S754_zero _ => Some 0
  | S754_finite s m e =>
      let v := trunc_abs m e in
      if if s then v =? 0 else v <? 256 then Some v else None
  | _ => None
  end.

(** ** The image *)

(** [data] is what the block holds after the two fields. *)
Record pgm_image := Img { width : Z; height : Z; data : list Z }.

(** [y * img->width + x], in [size_t]. *)
Definition pixel_index (img : pgm_image) (x y : Z) : Z := u64 (u64 y * width img + u64 x).

Definition pgm_get_pixel {St} (img : pgm_image) (x y : Z) : cm St Z :=
  lift UB_bounds (aget (data img) (pixel_index img x y)).

Definition pgm_set_pixel {St} (img : pgm_image) (x y pix : Z) : cm St pgm_image :=
  d ← lift UB_bounds (aset (data img) (pixel_index img x y) pix);
  mret (Img (width img) (height img) d).

Section Files.
(** [malloc]: [None], or a block of indeterminate bytes with so many bytes
    beyond what was asked for (none, as far as the language goes). *)
Context (malloc : Z -> option nat) (garbage : Z).

Definition pgm_create {St} (w h : Z) : cm St (option pgm_image) :=
  mret (match malloc (u64 (16 + u64 (w * h))) with
        | None => None
        | Some slack => Some (Img w h (replicate (Z.to_nat (u64 (w * h)) + slack) garbage))
        end).

(** ** [pgm_save] *)

(** A row of pixels from [data[d]] on. *)
Fixpoint save_row {St} (img : pgm_image) (n : nat) (d : Z) : cm St string :=
  match n with
  | O => mret nl
  | S n' =>
      p ← lift UB_bounds (aget (data img) d);
      d' ← int_op (d + 1);
      r ← save_row img n' d';
      mret (dec p ++ " " ++ r)
  end.

Fixpoint save_rows {St} (img : pgm_image) (n : nat) (d : Z) : cm St string :=
  match n with
  | O => mret ""
  | S n' =>
      r ← save_row img (Z.to_nat (width img)) d;
      d' ← int_op (d + width img);
      rs ← save_rows img n' d';
      mret (r ++ rs)
  end.

(** The counter of rows is an [int]; with columns, the counter of pixels
    overflows first. *)
Definition rows_ok (w h : Z) : bool := (0 <? w) || (h <=? INT_MAX).

(** The text written, when the file can be opened and written to. *)
Definition pgm_save {St} (img : pgm_image) : cm St string :=
  check (rows_ok (width img) (height img)) UB_overflow ;;
  rs ← save_rows img (Z.to_nat (height img)) 0;
  mret ("P2" ++ nl ++ dec (width img) ++ " " ++ dec (height img) ++ nl ++ "255" ++ nl ++ rs).

(** ** [pgm_load] *)

(** ["P2 %zu %zu %zu "]: a number that does not fit is undefined. *)
Definition to_size (z : Z) : option Z := if Z.abs z <? 2 ^ 64 then Some (u64 z) else None.

Definition scan_header (s : string) : option (Z * Z * Z * string) :=
  match s with
  | String "P" (String "2" s1) =>
      '(w, s2) ← scan_num s1; '(h, s3) ← scan_num s2; '(m, s4) ← scan_num s3;
      Some (w, h, m, scan_ws s4)
  | _ => None
  end.

(** [fscanf] stores an [int] at the address of a pixel: four bytes. *)
Definition store_int {St} (d : list Z) (i v : Z) : cm St (list Z) :=
  check ((0 <=? i) && (i + 4 <=? Z.of_nat (Datatypes.length d))) UB_bounds ;;
  mret (overwrite d (Z.to_nat i) (le_bytes 4 v)).

(** [img->data[d] *= 255.f / max_val] *)
Definition scale (p max_val : Z) : option Z :=
  uchar_of_sf (fmul (flt_of_Z p) (fdiv (flt_of_Z 255) (flt_of_Z max_val))).

(** The pixels one after the other: [n] of them, row by row. *)
Fixpoint load_pixels {St} (n : nat) (d max_val : Z) (block : list Z) (s : string) : cm St (option (list Z)) :=
  match n with
  | O => mret (Some block)
  | S n' =>
      match scan_num s with
      | None => mret None
      | Some (v, s') =>
          check (is_int v) UB_overflow ;;
          block ← store_int block d v;
          p ← lift UB_bounds (aget block d);
          p ← lift UB_overflow (scale p max_val);
          block ← lift UB_bounds (aset block d p);
          d' ← int_op (d + 1);
          load_pixels n' d' max_val block (scan_ws s')
      end
  end.

(** [None]: -1 is returned. *)
Definition pgm_load {St} (s : string) : cm St (option pgm_image) :=
  match scan_header s with
  | None => mret None
  | Some (w, h, m, s') =>
      w ← lift UB_overflow (to_size w);
      h ← lift UB_overflow (to_size h);
      max_val ← lift UB_overflow (to_size m);
      o ← pgm_create w h;
      match o with
      | None => mret None
      | Some img =>
          check (rows_ok w h) UB_overflow ;;
          r ← load_pixels (Z.to_nat w * Z.to_nat h) 0 max_val (data img) s';
          mret (match r with None => None | Some block => Some (Img w h block) end)
      end
  end.
End Files.
