(* ===== verification/PgmSpec.v ===== *)
(** Saving an image of [Pgm.v] and loading it again. *)
From S2P Require Import Prelude CString Scan Pgm.
From Stdlib Require Import Ascii String SpecFloat.
#[local] Open Scope string_scope.
#[local] Open Scope Z_scope.
Local Abbreviation length := Datatypes.length.

(** ** The pixels of a text *)

(** The text starts with these numbers. *)
Fixpoint tokens (ps : list Z) (s : string) : Prop :=
  match ps with
  | [] => True
  | p :: ps' => exists s', scan_num s = Some (p, s') /\ tokens ps' (scan_ws s')
  end.

Lemma tokens_ws ps s : tokens ps (scan_ws s) <-> tokens ps s.
Proof. destruct ps; [done|]. simpl. by setoid_rewrite scan_num_ws. Qed.

Lemma tokens_dec p ps r : 0 <= p -> tokens ps r -> tokens (p :: ps) (dec p ++ " " ++ r).
Proof. intros Hp Hr. exists (" " ++ r). split; [by apply scan_dec|]. by apply tokens_ws in Hr. Qed.

Lemma tokens_nl ps r : tokens ps r -> tokens ps (nl ++ r).
Proof. intros H. apply tokens_ws. by apply tokens_ws in H. Qed.

Definition bytes_ok (l : list Z) : Prop := Forall (fun p => 0 <= p < 256) l.

Lemma save_row_spec {St} img n d (s : St) :
  0 <= d -> (Z.to_nat d + n <= length (data img))%nat -> d + Z.of_nat n <= INT_MAX ->
  exists r, save_row img n d s = Done r s /\
  forall ps rest, bytes_ok (data img) -> tokens ps rest ->
    tokens (take n (drop (Z.to_nat d) (data img)) ++ ps) (r ++ rest).
Proof.
  revert d. induction n as [|n IH]; intros d Hd Hn Hm.
  - exists nl. split; [done|]. intros ps rest _ H. by apply tokens_nl.
  - destruct (lookup_lt_is_Some_2 (data img) (Z.to_nat d)) as [p Hp]; [lia|].
    destruct (IH (d + 1)) as (r & Hr & Ht); [lia|lia|lia|].
    exists (dec p ++ " " ++ r). split.
    + cbn [save_row]. unfold mbind, cm_bind. rewrite (proj2 (aget_Some _ _ _)) by (split; [lia|exact Hp]).
      unfold lift, mret, cm_ret. rewrite int_op_ok by (unfold INT_MIN; lia). by rewrite Hr.
    + intros ps rest Hb H. rewrite (drop_S _ _ _ Hp). cbn [take app].
      rewrite str_app_assoc. rewrite (str_app_assoc " " r rest). apply tokens_dec.
      * by apply (Forall_lookup_1 _ _ _ _ Hb) in Hp as [? _].
      * replace (S (Z.to_nat d)) with (Z.to_nat (d + 1)) by lia. by apply Ht.
Qed.

Lemma save_rows_spec {St} img n d (s : St) :
  0 <= d -> 0 <= width img -> (Z.to_nat d + n * Z.to_nat (width img) <= length (data img))%nat ->
  d + Z.of_nat n * width img <= INT_MAX -> bytes_ok (data img) ->
  exists r, save_rows img n d s = Done r s /\
  tokens (take (n * Z.to_nat (width img)) (drop (Z.to_nat d) (data img))) r.
Proof.
  revert d. induction n as [|n IH]; intros d Hd Hw Hn Hm Hb; [by exists ""|].
  destruct (save_row_spec img (Z.to_nat (width img)) d s) as (r & Hr & Ht); [lia|lia|nia|].
  destruct (IH (d + width img)) as (rs & Hrs & Hts); [lia|lia|lia|nia|done|].
  exists (r ++ rs). split.
  - cbn [save_rows]. unfold mbind, cm_bind. rewrite Hr. rewrite int_op_ok by (unfold INT_MIN; nia). by rewrite Hrs.
  - replace (S n * Z.to_nat (width img))%nat with (Z.to_nat (width img) + n * Z.to_nat (width img))%nat by lia.
    rewrite <- take_take_drop, drop_drop.
    replace (Z.to_nat d + Z.to_nat (width img))%nat with (Z.to_nat (d + width img)) by lia. by apply Ht.
Qed.

(** ** Loading *)

Lemma scale_255 p : 0 <= p < 256 -> scale p 255 = Some p.
Proof.
  intros Hp. assert (forallb (fun n => match scale (Z.of_nat n) 255 with Some q => q =? Z.of_nat n | None => false end)
    (seq 0 256) = true) as H by (vm_compute; reflexivity).
  rewrite forallb_forall in H. specialize (H (Z.to_nat p)). rewrite Z2Nat.id in H by lia.
  destruct (scale p 255) as [q|]; [|discriminate H; apply in_seq; lia].
  f_equal. apply Z.eqb_eq, H, in_seq. lia.
Qed.

Lemma le_bytes4 p : le_bytes 4 p = p mod 256 :: le_bytes 3 (p / 256).
Proof. done. Qed.

(** What is done with a pixel that was read. *)
Definition put_pixel {St} (block : list Z) (d v max_val : Z) : cm St (list Z) :=
  block ← store_int block d v;
  p ← lift UB_bounds (aget block d);
  p ← lift UB_overflow (scale p max_val);
  lift UB_bounds (aset block d p).

Lemma load_pixels_S {St} n d m block s v s' (st : St) : scan_num s = Some (v, s') -> is_int v = true ->
  load_pixels (S n) d m block s st =
  (block ← put_pixel block d v m; d' ← int_op (d + 1); load_pixels n d' m block (scan_ws s')) st.
Proof.
  intros Hs Hv. cbn [load_pixels]. rewrite Hs, Hv. unfold put_pixel, check, mbind, cm_bind, mret, cm_ret.
  destruct (store_int block d v st) as [b st'| | |]; [|done..].
  destruct (lift UB_bounds (aget b d) st') as [p st2| | |]; [|done..].
  by destruct (lift UB_overflow (scale p m) st2) as [q st3| | |].
Qed.

(** Four bytes are written, and the first is then the pixel. *)
Lemma put_pixel_spec {St} (block : list Z) (d : nat) p (s : St) :
  (d + 4 <= length block)%nat -> 0 <= p < 256 ->
  exists b', put_pixel block (Z.of_nat d) p 255 s = Done b' s /\
  length b' = length block /\ take d b' = take d block /\ b' !! d = Some p.
Proof.
  intros Hl Hp. unfold put_pixel, store_int.
  assert ((0 <=? Z.of_nat d) && (Z.of_nat d + 4 <=? Z.of_nat (length block)) = true) as -> by lia.
  unfold check, mbind, cm_bind, mret, cm_ret. rewrite Nat2Z.id.
  set (b1 := overwrite block d (le_bytes 4 p)).
  assert (length b1 = length block) as Hl1 by (apply length_overwrite; rewrite length_le_bytes; lia).
  assert (b1 !! d = Some p) as Hd.
  { unfold b1, overwrite. rewrite lookup_app_r by (rewrite length_take; lia).
    rewrite length_take, Nat.min_l, Nat.sub_diag by lia. cbn [le_bytes app lookup list_lookup].
    by rewrite Z.mod_small by lia. }
  assert (take d b1 = take d block) as Ht.
  { unfold b1, overwrite. rewrite take_app_le by (rewrite length_take; lia). rewrite take_take. f_equal. lia. }
  clearbody b1. rewrite aget_nat, Hd. unfold lift. unfold mret, cm_ret. rewrite scale_255 by done.
  rewrite aset_ok by lia. rewrite Nat2Z.id. eexists. split; [reflexivity|].
  rewrite length_insert. split; [done|]. split; [by rewrite take_insert_ge|].
  apply list_lookup_insert_eq. lia.
Qed.

Lemma put_pixel_out {St} (block : list Z) (d p m : Z) (s : St) :
  Z.of_nat (length block) < d + 4 -> put_pixel block d p m s = Undef UB_bounds.
Proof.
  intros H. unfold put_pixel, store_int, check, mbind, cm_bind.
  assert ((0 <=? d) && (d + 4 <=? Z.of_nat (length block)) = false) as -> by lia. done.
Qed.

(** The pixels of a text are loaded if the block has three more bytes than
    they need; if not, the last ones are written across its end. *)
Lemma load_pixels_spec {St} ps (d k : nat) block s (st : St) :
  tokens ps s -> bytes_ok ps -> length block = (d + length ps + k)%nat ->
  Z.of_nat (d + length ps) <= INT_MAX ->
  if decide (ps = [] \/ (3 <= k)%nat) then
    exists b', load_pixels (length ps) (Z.of_nat d) 255 block s st = Done (Some b') st /\
    length b' = length block /\ take d b' = take d block /\ take (length ps) (drop d b') = ps
  else load_pixels (length ps) (Z.of_nat d) 255 block s st = Undef UB_bounds.
Proof.
  revert d block s. induction ps as [|p ps IH]; intros d block s Ht Hb Hl Hm.
  { rewrite decide_True by (by left). exists block. done. }
  destruct Ht as (s' & Hs & Ht). apply Forall_cons in Hb as [Hp Hb].
  assert (is_int p = true) as Hi by (unfold is_int, INT_MIN, INT_MAX; lia).
  cbn [Datatypes.length] in Hl, Hm.
  assert (forall b', put_pixel block (Z.of_nat d) p 255 st = Done b' st ->
    load_pixels (length (p :: ps)) (Z.of_nat d) 255 block s st =
    load_pixels (length ps) (Z.of_nat (S d)) 255 b' (scan_ws s') st) as Hstep.
  { intros b' E. cbn [Datatypes.length]. rewrite (load_pixels_S _ _ _ _ _ _ _ _ Hs Hi).
    unfold mbind, cm_bind. rewrite E. rewrite int_op_ok by (unfold INT_MIN; lia). do 2 f_equal. lia. }
  destruct (decide (d + 4 <= length block)%nat) as [H4|H4].
  - destruct (put_pixel_spec block d p st H4 Hp) as (b1 & E1 & L1 & T1 & P1). rewrite (Hstep _ E1).
    specialize (IH (S d) b1 (scan_ws s') Ht Hb ltac:(lia) ltac:(lia)).
    destruct (decide (ps = [] \/ (3 <= k)%nat)) as [Hk|Hk].
    + rewrite decide_True; [|destruct Hk as [->|Hk]; [simpl in *; right; lia|by right]].
      destruct IH as (b2 & E2 & L2 & T2 & P2). exists b2. split; [done|]. split; [lia|].
      assert (b2 !! d = Some p) as P3.
      { rewrite <- (lookup_take_lt b2 (S d) d) by lia. rewrite T2. by rewrite lookup_take_lt by lia. }
      split.
      * apply (f_equal (take d)) in T2. rewrite !take_take in T2. replace (d `min` S d)%nat with d in T2 by lia. congruence.
      * cbn [Datatypes.length]. rewrite (drop_S _ _ _ P3). simpl. by rewrite P2.
    + rewrite decide_False; [done|]. intros [?|?]; [done|]. apply Hk. by right.
  - rewrite decide_False by (intros [?|?]; [done|lia]). cbn [Datatypes.length].
    rewrite (load_pixels_S _ _ _ _ _ _ _ _ Hs Hi). unfold mbind, cm_bind. by rewrite put_pixel_out by lia.
Qed.

Definition img_ok (img : pgm_image) : Prop :=
  0 <= width img <= INT_MAX /\ 0 <= height img <= INT_MAX /\ width img * height img <= INT_MAX /\
  bytes_ok (data img) /\ width img * height img <= Z.of_nat (length (data img)).

(** The pixels of an image. *)
Definition pixels (img : pgm_image) : list Z := take (Z.to_nat (width img * height img)) (data img).

Lemma scan_header_spec w h rs : 0 <= w -> 0 <= h ->
  scan_header ("P2" ++ nl ++ dec w ++ " " ++ dec h ++ nl ++ "255" ++ nl ++ rs) = Some (w, h, 255, scan_ws rs).
Proof.
  intros Hw Hh.
  assert (forall s, scan_num (nl ++ s) = scan_num s) as Hnl by (intros s; by rewrite <- (scan_num_ws (nl ++ s)), <- (scan_num_ws s)).
  assert (forall s, scan_num (" " ++ s) = scan_num s) as Hsp by (intros s; by rewrite <- (scan_num_ws (" " ++ s)), <- (scan_num_ws s)).
  assert (forall s, scan_header ("P2" ++ s) =
    ('(w, s2) ← scan_num s; '(h, s3) ← scan_num s2; '(m, s4) ← scan_num s3; Some (w, h, m, scan_ws s4))) as -> by done.
  rewrite Hnl, scan_dec by done. cbn [mbind option_bind]. rewrite Hsp, scan_dec by done. cbn [mbind option_bind].
  rewrite Hnl. change "255" with (dec 255). rewrite scan_dec by done. cbn [mbind option_bind].
  do 2 f_equal.
Qed.

Lemma save_spec {St} img (s : St) : img_ok img ->
  exists rs, pgm_save img s =
    Done ("P2" ++ nl ++ dec (width img) ++ " " ++ dec (height img) ++ nl ++ "255" ++ nl ++ rs) s /\
  tokens (pixels img) rs.
Proof.
  intros (Hw & Hh & Hm & Hb & Hl).
  destruct (save_rows_spec img (Z.to_nat (height img)) 0 s) as (rs & E & Ht); [lia|lia|simpl; nia|nia|done|].
  exists rs. split.
  - unfold pgm_save, check, rows_ok. assert ((0 <? width img) || (height img <=? INT_MAX) = true) as -> by lia.
    unfold mbind, cm_bind, mret, cm_ret. by rewrite E.
  - change (Z.to_nat 0) with 0%nat in Ht. rewrite drop_0 in Ht. unfold pixels.
    rewrite Z2Nat.inj_mul by lia. by rewrite Nat.mul_comm.
Qed.

Lemma u64_small z : 0 <= z < 2 ^ 64 -> u64 z = z.
Proof. intros. by apply Z.mod_small. Qed.

Lemma to_size_ok z : 0 <= z <= INT_MAX -> to_size z = Some z.
Proof.
  intros Hz. unfold to_size. assert (z < 2 ^ 64) by (unfold INT_MAX in Hz; lia).
  destruct (Z.ltb_spec (Z.abs z) (2 ^ 64)); [|lia]. by rewrite u64_small by lia.
Qed.

(** Saving and loading, for every size of the block. *)
Lemma save_load {St} (malloc : Z -> option nat) (garbage : Z) (img : pgm_image) (slack : nat) (s : St)
  (Himg : img_ok img) (Hmalloc : malloc (16 + width img * height img) = Some slack) :
  exists text, pgm_save img s = Done text s /\
    if decide (pixels img = [] \/ (3 <= slack)%nat) then
      exists img', pgm_load malloc garbage text s = Done (Some img') s /\
        width img' = width img /\ height img' = height img /\ pixels img' = pixels img
    else pgm_load malloc garbage text s = Undef UB_bounds.
Proof.
  destruct (save_spec img s Himg) as (rs & Hs & Ht). eexists. split; [exact Hs|].
  destruct Himg as (Hw & Hh & Hm & Hb & Hl).
  assert (length (pixels img) = Z.to_nat (width img * height img)) as Hn
    by (unfold pixels; rewrite length_take; lia).
  assert (bytes_ok (pixels img)) as Hpb by by apply Forall_take.
  set (n := width img * height img) in *.
  assert (0 <= n) by (unfold n; lia).
  pose proof (load_pixels_spec (pixels img) 0 slack (replicate (Z.to_nat n + slack) garbage) (scan_ws rs) s
    ltac:(by apply tokens_ws) Hpb ltac:(rewrite length_replicate; lia) ltac:(simpl; lia)) as HL.
  assert (forall o, load_pixels (Z.to_nat (width img) * Z.to_nat (height img)) 0 255
      (replicate (Z.to_nat n + slack) garbage) (scan_ws rs) s = o ->
    pgm_load malloc garbage ("P2" ++ nl ++ dec (width img) ++ " " ++ dec (height img) ++ nl ++ "255" ++ nl ++ rs) s =
    match o with Done r s' => Done (match r with None => None | Some b => Some (Img (width img) (height img) b) end) s'
      | Exited c s' => Exited c s' | Undef u => Undef u | NoFuel => NoFuel end) as Hload.
  { intros o <-. unfold pgm_load. rewrite scan_header_spec by lia. rewrite !to_size_ok by (done || unfold INT_MAX; lia).
    unfold lift, mbind, cm_bind, mret, cm_ret, pgm_create, mret, cm_ret. fold n.
    rewrite (u64_small n) by (unfold INT_MAX in Hm; lia). rewrite u64_small by (unfold INT_MAX in Hm; lia).
    rewrite Hmalloc. unfold rows_ok, check.
    assert ((0 <? width img) || (height img <=? INT_MAX) = true) as -> by lia. done. }
  replace (Z.to_nat (width img) * Z.to_nat (height img))%nat with (length (pixels img)) in Hload by (rewrite Hn; unfold n; lia).
  change (Z.of_nat 0) with 0 in HL.
  destruct (decide _) as [Hk|Hk].
  - destruct HL as (b & E & Hlb & _ & Hp). rewrite (Hload _ E). eexists. split; [reflexivity|].
    split; [done|split; [done|]]. unfold pixels at 1. cbn [width height data]. fold n.
    rewrite drop_0, Hn in Hp. exact Hp.
  - exact (Hload _ HL).
Qed.

(** Everything in the block stays a byte. *)
Lemma uchar_range f p : uchar_of_sf f = Some p -> 0 <= p < 256.
Proof.
  assert (forall m e, 0 <= trunc_abs m e) as Ht.
  { intros m e. unfold trunc_abs. case_match; [apply Z.mul_nonneg_nonneg; [lia|apply Z.pow_nonneg; lia]|].
    apply Z.div_pos; [lia|]. apply Z.pow_pos_nonneg; lia. }
  destruct f as [| | |b m e]; try done; [intros [= <-]; lia|]. unfold uchar_of_sf. specialize (Ht m e).
  destruct b; case_match; try done; intros [= <-]; lia.
Qed.

Lemma le_bytes_ok n z : bytes_ok (le_bytes n z).
Proof. unfold bytes_ok. eapply Forall_impl; [apply le_bytes_byte|]. intros b H. unfold is_byte in H. simpl in H. lia. Qed.

Lemma overwrite_bytes block i l : bytes_ok block -> bytes_ok l -> bytes_ok (overwrite block i l).
Proof. intros Hb Hl. unfold overwrite. apply Forall_app_2; [by apply Forall_take|]. apply Forall_app_2; [done|by apply Forall_drop]. Qed.

Lemma load_pixels_bytes {St} n d m block s (st st' : St) b :
  bytes_ok block -> load_pixels n d m block s st = Done (Some b) st' -> bytes_ok b.
Proof.
  revert d block s st. induction n as [|n IH]; intros d block s st Hb H; [by injection H as <-|].
  cbn [load_pixels] in H. unfold store_int, check, lift, int_op, mbind, cm_bind, mret, cm_ret, undef in H.
  repeat (case_match; simplify_eq). eapply IH; [|exact H].
  match goal with H0 : aset _ _ _ = Some _ |- _ => apply aset_Some in H0 as [_ ->] end.
  apply Forall_insert; [apply overwrite_bytes; [done|exact (le_bytes_ok 4 z)]|]. by eapply uchar_range.
Qed.

Lemma load_bytes {St} malloc garbage s (st st' : St) img :
  0 <= garbage < 256 -> pgm_load malloc garbage s st = Done (Some img) st' -> bytes_ok (data img).
Proof.
  intros Hg H. unfold pgm_load, pgm_create, check, lift, mbind, cm_bind, mret, cm_ret, undef in H.
  repeat (case_match; simplify_eq/=). eapply load_pixels_bytes; [|eassumption].
  unfold bytes_ok. by apply Forall_replicate.
Qed.

(** ** Properties *)

(** C34.  An image that is saved is loaded back, pixel by pixel, if [malloc]
    happens to give at least three bytes more than it is asked for: [fscanf]
    stores an [int] at the address of each pixel, so that the last ones are
    written across the end of the block.  When it gives no more than that,
    loading any image that has a pixel is undefined. *)
Theorem pgm_round_trip {St} (malloc : Z -> option nat) (garbage : Z) (img : pgm_image) (slack : nat) (s : St)
  (Himg : img_ok img) (Hmalloc : malloc (16 + width img * height img) = Some slack) :
  exists text, pgm_save img s = Done text s /\
    if decide (pixels img = [] \/ (3 <= slack)%nat) then
      exists img', pgm_load malloc garbage text s = Done (Some img') s /\
        width img' = width img /\ height img' = height img /\ pixels img' = pixels img
    else pgm_load malloc garbage text s = Undef UB_bounds.
Proof. by apply save_load. Qed.

(** An image of one pixel, with what [malloc] is bound to give and with more. *)
Lemma pgm_round_trip_witness :
  (exists text, pgm_save (Img 1 1 [200]) tt = Done text tt /\
    pgm_load (fun _ => Some 0%nat) 9 text tt = Undef UB_bounds) /\
  exists text img', pgm_save (Img 1 1 [200]) tt = Done text tt /\
    pgm_load (fun _ => Some 8%nat) 9 text tt = Done (Some img') tt /\ pixels img' = [200].
Proof.
  assert (H : img_ok (Img 1 1 [200])).
  { unfold img_ok, INT_MAX, bytes_ok. simpl. repeat split; try lia. apply Forall_cons. split; [lia|by apply Forall_nil]. }
  split.
  - exact (pgm_round_trip (fun _ => Some 0%nat) 9 (Img 1 1 [200]) 0 tt H eq_refl).
  - destruct (pgm_round_trip (fun _ => Some 8%nat) 9 (Img 1 1 [200]) 8 tt H eq_refl) as (text & H1 & img' & H2 & _ & _ & H3).
    exists text, img'. split; [exact H1|split; [exact H2|exact H3]].
Defined.
