(* ===== verification/Filter.v ===== *)
(** Filtering an image with several threads: cw08/zad1/src/filter.c and main.c. *)
From S2P Require Import Prelude Pgm.
From Stdlib Require Import SpecFloat.
#[local] Open Scope Z_scope.

(** ** filter.c *)

(** The C type [double], as binary64 values. *)
Definition dbl_of_Z (z : Z) : spec_float := binary_normalize 53 1024 z 0 false.
(** A [float] as a [double], which is exact. *)
Definition dbl_of_flt (f : spec_float) : spec_float :=
  match f with
  | S754_finite s m e => binary_normalize 53 1024 (if s then Zneg m else Zpos m) e s
  | _ => f
  end.
Definition dbl_add : spec_float -> spec_float -> spec_float := SFadd 53 1024.
Definition dbl_mul : spec_float -> spec_float -> spec_float := SFmul 53 1024.

(** [round]: to the nearest integer, halves away from zero; then as a pixel,
    which is undefined out of the range of one. *)
Definition round_abs (m : positive) (e : Z) : Z :=
  if 0 <=? e then Zpos m * 2 ^ e else (Zpos m + 2 ^ (- e - 1)) / 2 ^ (- e).
Definition pix_of_dbl (f : spec_float) : option Z :=
  match f with
  | S754_zero _ => Some 0
  | S754_finite s m e =>
      let v := round_abs m e in
      if if s then v =? 0 else v <? 256 then Some v else None
  | _ => None
  end.

(** [struct filter_t]: [float]s. *)
Record filter_t := Filter { size : Z; fdata : list spec_float }.

(** [xp = fmaxl(0, xp); xp = fminl(from->width - 1, xp);] in [long double],
    where [width - 1] is a [size_t]. *)
Definition clamp (extent p : Z) : Z := Z.min (u64 (extent - 1)) (Z.max 0 p).

Section Apply.
Context {St : Type}.

(** The inner loop: [n] rounds from [j] on. *)
Fixpoint col_loop (f : filter_t) (from : pgm_image) (center_x center_y i : Z) (n : nat) (j : Z) (col_sum : spec_float)
    : cm St spec_float :=
  match n with
  | O => mret col_sum
  | S n' =>
      xp ← int_op (center_x + i);
      yp ← int_op (center_y + j);
      pix ← pgm_get_pixel from (clamp (width from) xp) (clamp (height from) yp);
      w ← lift UB_bounds (aget (fdata f) (u64 (j * size f + i)));
      col_loop f from center_x center_y i n' (j + 1) (dbl_add col_sum (dbl_mul (dbl_of_Z pix) (dbl_of_flt w)))
  end.

Fixpoint row_loop (f : filter_t) (from : pgm_image) (center_x center_y : Z) (n : nat) (i : Z) (sum : spec_float)
    : cm St spec_float :=
  match n with
  | O => mret sum
  | S n' =>
      col_sum ← col_loop f from center_x center_y i (Z.to_nat (size f)) 0 (S754_zero false);
      row_loop f from center_x center_y n' (i + 1) (dbl_add sum col_sum)
  end.

Definition apply_filter (f : filter_t) (from : pgm_image) (x y : Z) : cm St Z :=
  (* [ceil] is given what is already the integer quotient *)
  center_x ← int_op (x - size f / 2);
  center_y ← int_op (y - size f / 2);
  sum ← row_loop f from center_x center_y (Z.to_nat (size f)) 0 (S754_zero false);
  lift UB_overflow (pix_of_dbl sum).
End Apply.

(** ** The threads of main.c *)

(** Where a thread is in [thread_run]; [pixel] is the counter of its loop. *)
Inductive tpc :=
  | TLoop               (* the head of the loop, and the pixel *)
  | TTry                (* [processed > count + 5 && sem_trywait] *)
  | TRead               (* [pixels_processed += processed]: read *)
  | TWrite (v : Z)      (* and write *)
  | TPost               (* [sem_post], and on to the next pixel *)
  | TDone.

Record thread := Thread { t_pc : tpc; pixel : Z; processed : Z }.

(** The shared variables; [in_image] and [f] are not written any more. *)
Record state := State {
  out_image : pgm_image;
  pixels_processed : Z;
  pp_sem : Z;
  threads : list thread;
}.

Section Run.
Context (f : filter_t) (in_image : pgm_image) (pixel_count : Z) (count : Z).

Definition set_thread (i : nat) (t : thread) (s : state) : state :=
  State (out_image s) (pixels_processed s) (pp_sem s) (<[i := t]> (threads s)).

(** A pixel: read, filtered and written. *)
Definition do_pixel (p : Z) (out : pgm_image) : outcome unit pgm_image :=
  (let x := s32 (p mod width in_image) in
   let y := s32 (p / width in_image) in
   v ← apply_filter f in_image x y;
   pgm_set_pixel out x y v) tt.

Definition thread_step (i : nat) (t : thread) (s : state) : sres state :=
  let go pc := Step (set_thread i (Thread pc (pixel t) (processed t)) s) in
  let next pr := set_thread i (Thread TLoop (pixel t + count) pr) s in
  match t_pc t with
  | TLoop =>
      if pixel t <? pixel_count then
        match do_pixel (pixel t) (out_image s) with
        | Done out _ =>
            Step (State out (pixels_processed s) (pp_sem s)
              (<[i := Thread TTry (pixel t) (processed t + 1)]> (threads s)))
        | Undef u => Fault u
        | Exited _ _ | NoFuel => Blocked
        end
      else go TDone
  | TTry =>
      if negb (is_int (count + 5)) then Fault UB_overflow
      else if (count + 5 <? processed t) && (0 <? pp_sem s) then
        Step (State (out_image s) (pixels_processed s) (pp_sem s - 1)
          (<[i := Thread TRead (pixel t) (processed t)]> (threads s)))
      else Step (next (processed t))
  | TRead =>
      go (TWrite (pixels_processed s + processed t))
  | TWrite v =>
      (* [long], stored in an [int] *)
      Step (State (out_image s) (s32 v) (pp_sem s) (<[i := Thread TPost (pixel t) 0]> (threads s)))
  | TPost =>
      Step (State (out_image s) (pixels_processed s) (pp_sem s + 1)
        (<[i := Thread TLoop (pixel t + count) (processed t)]> (threads s)))
  | TDone => Blocked
  end.

Definition exec (i : nat) (s : state) : sres state :=
  match threads s !! i with Some t => thread_step i t s | None => Blocked end.

(** The threads are started; [out] is the image created for the result. *)
Definition run_threads (out : pgm_image) : state :=
  State out 0 1 (map (fun i => Thread TLoop (Z.of_nat i) 0) (seq 0 (Z.to_nat count))).

(** The same image filtered by one loop, in the order of the pixels. *)
Definition filter_image (out : pgm_image) : cm pgm_image unit :=
  put out ;;
  for_range (Z.to_nat pixel_count) 0 (fun p =>
    o ← get;
    match do_pixel p o with
    | Done out _ => put out
    | Undef u => undef u
    | Exited c _ => exit_ c
    | NoFuel => nofuel
    end).
End Run.
