(* ===== verification/FilterSpec.v ===== *)
(** What filtering does: the bounds of a filter, the filter that changes
    nothing, and the threads, which together do what one loop does. *)
From S2P Require Import Prelude Pgm PgmSpec Filter.
From Stdlib Require Import SpecFloat.
#[local] Open Scope Z_scope.

#[local] Arguments for_range : simpl never.

(** ** One pixel *)

Lemma clamp_range extent p : 0 < extent <= INT_MAX -> 0 <= clamp extent p < extent.
Proof. intros H. unfold clamp. rewrite u64_small by (unfold INT_MAX in H; lia). lia. Qed.

Lemma get_pixel_ok {St} img x y (s : St) : img_ok img -> 0 <= x < width img -> 0 <= y < height img ->
  exists p, pgm_get_pixel img x y s = Done p s /\ 0 <= p < 256 /\ data img !! Z.to_nat (y * width img + x) = Some p.
Proof.
  intros (Hw & Hh & Hm & Hb & Hl) Hx Hy.
  assert (0 <= y * width img + x < width img * height img) as Hr by nia.
  unfold pgm_get_pixel, pixel_index. unfold INT_MAX in *.
  rewrite (u64_small x), (u64_small y), u64_small by lia.
  destruct (aget_is_Some (data img) (y * width img + x)) as [p Hp]; [lia|].
  rewrite Hp. exists p. split; [done|]. apply aget_Some in Hp as [_ Hp].
  split; [by apply (Forall_lookup_1 _ _ _ _ Hb) in Hp|done].
Qed.

(** A filter has its [size * size] numbers. *)
Definition filter_ok (f : filter_t) : Prop :=
  0 <= size f < 2 ^ 30 /\ size f * size f <= Z.of_nat (length (fdata f)).

(** The centres from which no coordinate overflows. *)
Definition centre_ok (f : filter_t) (c : Z) : Prop := INT_MIN <= c /\ c + size f <= INT_MAX.

Lemma col_loop_ok {St} f img cx cy i n j acc (s : St) :
  img_ok img -> 0 < width img -> 0 < height img -> filter_ok f -> centre_ok f cx -> centre_ok f cy ->
  0 <= i < size f -> 0 <= j -> j + Z.of_nat n <= size f ->
  exists r, col_loop f img cx cy i n j acc s = Done r s.
Proof.
  intros Hi Hw Hh [Hf Hl] Hx Hy Hir. revert j acc. induction n as [|n IH]; intros j acc Hj Hn; [by eexists|].
  cbn [col_loop]. unfold mbind, cm_bind. unfold centre_ok in *.
  rewrite !int_op_ok by lia. pose proof Hi as (Hwm & Hhm & _).
  destruct (get_pixel_ok img (clamp (width img) (cx + i)) (clamp (height img) (cy + j)) s Hi) as (p & -> & _);
    [apply clamp_range; lia|apply clamp_range; lia|].
  rewrite u64_small by nia. destruct (aget_is_Some (fdata f) (j * size f + i)) as [w ->]; [nia|].
  unfold lift, mret, cm_ret. apply IH; lia.
Qed.

Lemma row_loop_ok {St} f img cx cy n i acc (s : St) :
  img_ok img -> 0 < width img -> 0 < height img -> filter_ok f -> centre_ok f cx -> centre_ok f cy ->
  0 <= i -> i + Z.of_nat n <= size f ->
  exists r, row_loop f img cx cy n i acc s = Done r s.
Proof.
  intros Hi Hw Hh Hf Hx Hy. revert i acc. induction n as [|n IH]; intros i acc Hr Hn; [by eexists|].
  cbn [row_loop]. unfold mbind, cm_bind. pose proof Hf as [Hf0 _].
  destruct (col_loop_ok f img cx cy i (Z.to_nat (size f)) 0 (S754_zero false) s) as [c ->]; try done; try lia.
  apply IH; lia.
Qed.

Lemma pix_of_dbl_range v p : pix_of_dbl v = Some p -> 0 <= p < 256.
Proof.
  destruct v as [| | |b m e]; try done; simpl; [intros [= <-]; lia|].
  assert (0 <= round_abs m e) as H.
  { unfold round_abs. case_match; [apply Z.mul_nonneg_nonneg; [lia|apply Z.pow_nonneg; lia]|].
    apply Z.div_pos; [|apply Z.pow_pos_nonneg; lia]. pose proof (Z.pow_nonneg 2 (- e - 1)). lia. }
  destruct b; case_match; try done; intros [= <-]; lia.
Qed.

Lemma apply_filter_ok {St} f img x y (s : St) :
  img_ok img -> filter_ok f -> 0 <= x < width img -> 0 <= y < height img ->
  x + size f <= INT_MAX -> y + size f <= INT_MAX ->
  (exists v, apply_filter f img x y s = Done v s /\ 0 <= v < 256) \/ apply_filter f img x y s = Undef UB_overflow.
Proof.
  intros Hi Hf Hx Hy Hxs Hys. pose proof Hf as [Hf0 _].
  pose proof (Z.div_pos (size f) 2) as D0. assert (size f / 2 <= size f) as D1 by (apply Z.div_le_upper_bound; lia).
  assert (forall a, 0 <= a -> a + size f <= INT_MAX -> centre_ok f (a - size f / 2)) as Hc
    by (intros a H0 H1; unfold centre_ok, INT_MIN, INT_MAX in *; lia).
  unfold apply_filter, mbind, cm_bind. rewrite !int_op_ok by (unfold INT_MIN, INT_MAX in *; lia).
  destruct (row_loop_ok f img (x - size f / 2) (y - size f / 2) (Z.to_nat (size f)) 0 (S754_zero false) s) as [r ->];
    try done; try lia; try (apply Hc; lia).
  destruct (pix_of_dbl r) as [v|] eqn:E; [left|by right]. exists v. split; [done|]. by eapply pix_of_dbl_range.
Qed.

(** ** The filter of one number, 1 *)

Lemma overwrite_start {A} (dst src : list A) : overwrite dst 0 src = src ++ drop (length src) dst.
Proof. done. Qed.

Definition identity_filter : filter_t := Filter 1 [flt_of_Z 1].

Lemma identity_pixel p : 0 <= p < 256 ->
  pix_of_dbl (dbl_add (S754_zero false)
    (dbl_add (S754_zero false) (dbl_mul (dbl_of_Z p) (dbl_of_flt (flt_of_Z 1))))) = Some p.
Proof.
  intros Hp. set (g := fun p => pix_of_dbl (dbl_add (S754_zero false)
    (dbl_add (S754_zero false) (dbl_mul (dbl_of_Z p) (dbl_of_flt (flt_of_Z 1)))))).
  assert (forallb (fun n => match g (Z.of_nat n) with Some q => q =? Z.of_nat n | None => false end) (seq 0 256) = true)
    as H by (vm_compute; reflexivity).
  rewrite forallb_forall in H. specialize (H (Z.to_nat p)). rewrite Z2Nat.id in H by lia. change (g p = Some p).
  destruct (g p) as [q|]; [|discriminate H; apply in_seq; lia]. f_equal. apply Z.eqb_eq, H, in_seq. lia.
Qed.

Lemma identity_apply {St} img x y (s : St) : img_ok img -> 0 <= x < width img -> 0 <= y < height img ->
  exists p, apply_filter identity_filter img x y s = Done p s /\ data img !! Z.to_nat (y * width img + x) = Some p.
Proof.
  intros Hi Hx Hy. destruct (get_pixel_ok img x y s Hi Hx Hy) as (p & Hg & Hp & Hd). exists p. split; [|done].
  pose proof Hi as (Hw & Hh & _).
  assert (clamp (width img) x = x /\ clamp (height img) y = y) as [Cx Cy].
  { unfold clamp, INT_MAX in *. rewrite !u64_small by lia. lia. }
  unfold apply_filter. change (size identity_filter / 2) with 0. rewrite !Z.sub_0_r.
  unfold mbind, cm_bind. rewrite !int_op_ok by (unfold INT_MIN, INT_MAX in *; lia).
  change (Z.to_nat (size identity_filter)) with 1%nat. cbn [row_loop]. unfold mbind, cm_bind.
  change (Z.to_nat (size identity_filter)) with 1%nat. cbn [col_loop]. unfold mbind, cm_bind.
  rewrite !Z.add_0_r, !int_op_ok by (unfold INT_MIN, INT_MAX in *; lia). rewrite Cx, Cy, Hg.
  change (u64 (0 * size identity_filter + 0)) with 0. change (aget (fdata identity_filter) 0) with (Some (flt_of_Z 1)).
  change (lift UB_overflow (pix_of_dbl (dbl_add (S754_zero false)
    (dbl_add (S754_zero false) (dbl_mul (dbl_of_Z p) (dbl_of_flt (flt_of_Z 1)))))) s = Done p s).
  by rewrite identity_pixel.
Qed.

(** ** Sums over the threads *)

(** [len * q + r]: every thread has [q] pixels, and the first [r] one more. *)
Definition extra (r i : Z) : Z := if i <? r then 1 else 0.

Lemma sumz_le {A} (w : A -> Z) q r l o :
  (forall (i : nat) t, l !! i = Some t -> w t <= q + extra r (o + Z.of_nat i)) ->
  sumz w l <= Z.of_nat (length l) * q + Z.max 0 (Z.min (Z.of_nat (length l)) (r - o)).
Proof.
  revert o. induction l as [|t l IH]; intros o H; simpl; [lia|].
  pose proof (H 0%nat t eq_refl) as H0. rewrite Z.add_0_r in H0. specialize (IH (o + 1)).
  assert (forall (i : nat) t, l !! i = Some t -> w t <= q + extra r (o + 1 + Z.of_nat i)) as Hl.
  { intros i u Hi. specialize (H (S i) u Hi). by replace (o + 1 + Z.of_nat i) with (o + Z.of_nat (S i)) by lia. }
  specialize (IH Hl). unfold extra in H0. destruct (Z.ltb_spec o r); nia.
Qed.

Lemma sumz_ge {A} (w : A -> Z) q r l o :
  (forall (i : nat) t, l !! i = Some t -> q + extra r (o + Z.of_nat i) <= w t) ->
  Z.of_nat (length l) * q + Z.max 0 (Z.min (Z.of_nat (length l)) (r - o)) <= sumz w l.
Proof.
  revert o. induction l as [|t l IH]; intros o H; simpl; [lia|].
  pose proof (H 0%nat t eq_refl) as H0. rewrite Z.add_0_r in H0. specialize (IH (o + 1)).
  assert (forall (i : nat) t, l !! i = Some t -> q + extra r (o + 1 + Z.of_nat i) <= w t) as Hl.
  { intros i u Hi. specialize (H (S i) u Hi). by replace (o + 1 + Z.of_nat i) with (o + Z.of_nat (S i)) by lia. }
  specialize (IH Hl). unfold extra in H0. destruct (Z.ltb_spec o r); nia.
Qed.

Lemma sumz_member {A} (w : A -> Z) l (i : nat) x :
  (forall (j : nat) y, l !! j = Some y -> 0 <= w y) -> l !! i = Some x -> 0 <= w x <= sumz w l.
Proof.
  revert i x. induction l as [|z l IH]; intros i x Hl Hi; [done|]. pose proof (Hl 0%nat z eq_refl) as Hz.
  assert (forall (j : nat) y, l !! j = Some y -> 0 <= w y) as Hl' by (intros j y Hj; by apply (Hl (S j))).
  assert (0 <= sumz w l) as Hs.
  { destruct l as [|y l]; [simpl; lia|]. specialize (IH 0%nat y Hl' eq_refl). lia. }
  destruct i as [|i]; simplify_eq/=; [lia|]. specialize (IH i x Hl' Hi). lia.
Qed.

(** ** The threads *)

Section Threads.
Context (f : filter_t) (img : pgm_image) (out0 : pgm_image) (count : Z).
Local Abbreviation n := (width img * height img).
Local Abbreviation exec := (exec f img n count).
Local Abbreviation do_pixel := (do_pixel f img).

(** What a pixel of the result should be. *)
Definition expected (p : Z) : outcome unit Z := apply_filter f img (p mod width img) (p / width img) tt.

Record setting : Prop := {
  set_img : img_ok img;
  set_filter : filter_ok f;
  set_width : width img + size f <= INT_MAX;
  set_height : height img + size f <= INT_MAX;
  set_count : 0 < count /\ count + 5 <= INT_MAX;
  set_size : n <= Z.of_nat (length (data out0));
  set_same : width out0 = width img /\ height out0 = height img;
}.

(** The result so far: an image of the size of the first. *)
Definition out_ok (out : pgm_image) : Prop :=
  width out = width img /\ height out = height img /\ length (data out) = length (data out0).

Context (Hset : setting).

Lemma expected_cases p : 0 <= p < n ->
  (exists v, expected p = Done v tt) \/ expected p = Undef UB_overflow.
Proof.
  destruct Hset as [Hi Hf Hw Hh _ _ _]. intros Hp.
  assert (0 < width img) by (destruct Hi as (H & _); nia).
  pose proof (Z.mod_pos_bound p (width img) ltac:(lia)) as Hm.
  assert (0 <= p / width img < height img) as Hd.
  { split; [apply Z.div_pos; lia|]. apply Z.div_lt_upper_bound; lia. }
  destruct (apply_filter_ok f img (p mod width img) (p / width img) tt Hi Hf) as [(v & Hv & _)|Hv]; [lia|lia|lia|lia| |].
  - left. by exists v.
  - by right.
Qed.

Lemma do_pixel_spec p out : 0 <= p < n -> out_ok out ->
  do_pixel p out =
  match expected p with
  | Done v _ => Done (Img (width out) (height out) (<[Z.to_nat p := v]> (data out))) tt
  | _ => Undef UB_overflow
  end.
Proof.
  intros Hp (Hw & Hh & Hl). pose proof Hset as [Hi _ _ _ _ Hs _]. pose proof Hi as (Hwm & Hhm & Hm & _).
  assert (0 < width img) by nia.
  pose proof (Z.mod_pos_bound p (width img) ltac:(lia)) as Hmb.
  assert (0 <= p / width img < height img) as Hd.
  { split; [apply Z.div_pos; lia|]. apply Z.div_lt_upper_bound; lia. }
  pose proof (Z.div_mod p (width img) ltac:(lia)) as Hdm.
  assert (forall z, 0 <= z <= INT_MAX -> s32 z = z) as Hs32.
  { intros z Hz. unfold s32, INT_MAX in *. apply swrap_small; lia. }
  unfold Filter.do_pixel. rewrite !Hs32 by lia.
  destruct (expected_cases p Hp) as [[v E]|E]; rewrite E; unfold expected in E; unfold mbind, cm_bind; rewrite E; [|done].
  unfold pgm_set_pixel, pixel_index. rewrite Hw. unfold INT_MAX in *.
  rewrite (u64_small (p / width img)), (u64_small (p mod width img)) by lia.
  replace (p / width img * width img + p mod width img) with p by lia. rewrite u64_small by lia.
  unfold mbind, cm_bind. rewrite aset_ok by lia. done.
Qed.

(** The first pixel of a thread that it has not written. *)
Definition mid (t : thread) : bool := match t_pc t with TLoop | TDone => false | _ => true end.
Definition written (t : thread) : Z := if mid t then pixel t + count else pixel t.
(** How many it has written. *)
Definition share (t : thread) : Z := written t / count.
Definition holds (t : thread) : bool := match t_pc t with TRead | TWrite _ | TPost => true | _ => false end.

Record thread_ok (i : nat) (t : thread) : Prop := {
  t_pixel : exists k, 0 <= k /\ pixel t = Z.of_nat i + k * count;
  t_processed : 0 <= processed t;
  t_mid : mid t = true -> pixel t < n;
  t_done : t_pc t = TDone -> n <= pixel t;
  t_last : pixel t < n + count;
}.

Record inv (s : state) : Prop := {
  i_out : out_ok (out_image s);
  i_threads : Z.of_nat (length (threads s)) = count;
  i_thread : forall i t, threads s !! i = Some t -> thread_ok i t;
  i_pixels : forall i t p, threads s !! i = Some t -> 0 <= p < n -> p mod count = Z.of_nat i -> p < written t ->
    exists v, expected p = Done v tt /\ data (out_image s) !! Z.to_nat p = Some v;
  i_rest : forall q, n <= Z.of_nat q -> data (out_image s) !! q = data out0 !! q;
  i_sum : pixels_processed s + sumz processed (threads s) = sumz share (threads s);
  i_sem : pp_sem s + Z.of_nat (countb holds (threads s)) = 1 /\ 0 <= pp_sem s;
  i_write : forall i t v, threads s !! i = Some t -> t_pc t = TWrite v -> v = pixels_processed s + processed t;
  i_pp : 0 <= pixels_processed s;
}.

Lemma share_le i t : thread_ok i t -> Z.of_nat i < count ->
  0 <= share t <= n / count + extra (n mod count) (Z.of_nat i).
Proof.
  destruct Hset as [_ _ _ _ [Hc _] _ _]. intros [(k & Hk & Hp) _ Hm _ Hl] Hi.
  assert (exists k', 0 <= k' /\ written t = Z.of_nat i + k' * count /\ written t < n + count) as (k' & Hk' & Hw & Hlt).
  { unfold written. destruct (mid t).
    - exists (k + 1). specialize (Hm eq_refl). lia.
    - exists k. lia. }
  assert (share t = k') as ->.
  { unfold share. rewrite Hw, Z.div_add by lia. rewrite Z.div_small by lia. lia. }
  pose proof (Z.div_mod n count ltac:(lia)) as Hd. pose proof (Z.mod_pos_bound n count Hc) as Hb.
  split; [done|]. unfold extra. destruct (Z.ltb_spec (Z.of_nat i) (n mod count)); nia.
Qed.

Lemma share_done i t : thread_ok i t -> Z.of_nat i < count -> t_pc t = TDone ->
  n / count + extra (n mod count) (Z.of_nat i) <= share t.
Proof.
  destruct Hset as [_ _ _ _ [Hc _] _ _]. intros [(k & Hk & Hp) _ _ Hd _] Hi Ht. specialize (Hd Ht).
  assert (share t = k) as ->.
  { unfold share, written, mid. rewrite Ht, Hp, Z.div_add by lia. rewrite Z.div_small by lia. lia. }
  pose proof (Z.div_mod n count ltac:(lia)) as Hdm. pose proof (Z.mod_pos_bound n count Hc) as Hb.
  unfold extra. destruct (Z.ltb_spec (Z.of_nat i) (n mod count)); nia.
Qed.

Lemma index_lt s i t : inv s -> threads s !! i = Some t -> Z.of_nat i < count.
Proof. intros Hinv Hi. apply lookup_lt_Some in Hi. pose proof (i_threads s Hinv). lia. Qed.

Lemma sum_share_le s : inv s -> sumz share (threads s) <= n.
Proof.
  intros Hinv. pose proof (i_threads s Hinv) as Hl. pose proof Hset as [Him _ _ _ [Hc _] _ _].
  assert (0 <= n) by (destruct Him; nia).
  pose proof (sumz_le share (n / count) (n mod count) (threads s) 0) as H1. rewrite Hl in H1.
  pose proof (Z.div_mod n count ltac:(lia)) as Hdm. pose proof (Z.mod_pos_bound n count Hc) as Hb.
  assert (sumz share (threads s) <= count * (n / count) + Z.max 0 (Z.min count (n mod count - 0))) as H2; [|lia].
  apply H1. intros i t Hi. rewrite Z.add_0_l. apply share_le; [by apply (i_thread s Hinv)|by apply (index_lt s i t)].
Qed.

Lemma sum_share_done s : inv s -> (forall i t, threads s !! i = Some t -> t_pc t = TDone) -> sumz share (threads s) = n.
Proof.
  intros Hinv Hd. pose proof (i_threads s Hinv) as Hl. pose proof Hset as [Him _ _ _ [Hc _] _ _].
  assert (0 <= n) by (destruct Him; nia).
  pose proof (sumz_ge share (n / count) (n mod count) (threads s) 0) as H1. rewrite Hl in H1.
  pose proof (Z.div_mod n count ltac:(lia)) as Hdm. pose proof (Z.mod_pos_bound n count Hc) as Hb.
  assert (count * (n / count) + Z.max 0 (Z.min count (n mod count - 0)) <= sumz share (threads s)) as H2.
  { apply H1. intros i t Hi. rewrite Z.add_0_l.
    apply share_done; [by apply (i_thread s Hinv)|by apply (index_lt s i t)|by apply (Hd i)]. }
  pose proof (sum_share_le s Hinv). lia.
Qed.

(** ** The steps *)

Definition h01 (t : thread) : Z := if holds t then 1 else 0.

Lemma holders_insert l (i : nat) t t' : l !! i = Some t ->
  Z.of_nat (countb holds (<[i := t']> l)) = Z.of_nat (countb holds l) - h01 t + h01 t'.
Proof. intros Hi. pose proof (countb_insert holds l i t t' Hi). unfold h01. destruct (holds t), (holds t'); lia. Qed.

Lemma one_holder s i j t u : inv s -> threads s !! i = Some t -> threads s !! j = Some u ->
  holds t = true -> holds u = true -> i = j.
Proof.
  intros Hinv Hi Hj Ht Hu. destruct (decide (i = j)) as [|Hne]; [done|exfalso].
  destruct (i_sem s Hinv) as [Hs Hs0].
  pose proof (holders_insert (threads s) i t (Thread TDone 0 0) Hi) as H. unfold h01 in H. rewrite Ht in H. simpl in H.
  pose proof (countb_pos holds (<[i := Thread TDone 0 0]> (threads s)) j u) as Hp.
  rewrite list_lookup_insert_ne in Hp by done. specialize (Hp Hj Hu). lia.
Qed.

Lemma inv_update s i t t' out' pp' sem' :
  inv s -> threads s !! i = Some t -> out_ok out' -> thread_ok i t' ->
  (forall q, n <= Z.of_nat q -> data out' !! q = data out0 !! q) ->
  (forall j u p, threads s !! j = Some u -> 0 <= p < n -> p mod count = Z.of_nat j -> p < written u ->
    data out' !! Z.to_nat p = data (out_image s) !! Z.to_nat p) ->
  (forall p, 0 <= p < n -> p mod count = Z.of_nat i -> p < written t' ->
    p < written t \/ exists v, expected p = Done v tt /\ data out' !! Z.to_nat p = Some v) ->
  pp' + processed t' - share t' = pixels_processed s + processed t - share t ->
  sem' + h01 t' = pp_sem s + h01 t -> 0 <= sem' ->
  (forall v, t_pc t' = TWrite v -> v = pp' + processed t') ->
  pp' = pixels_processed s \/ holds t = true -> 0 <= pp' ->
  inv (State out' pp' sem' (<[i := t']> (threads s))).
Proof.
  intros Hinv Hi Hout Ht' Hrest Hsame Hnew Hsum Hsem Hsem0 Hw Hpp Hpp0.
  assert (forall j u, <[i := t']> (threads s) !! j = Some u ->
    (j = i /\ u = t') \/ (j <> i /\ threads s !! j = Some u)) as Hcase.
  { intros j u Hj. apply list_lookup_insert_Some in Hj as [(-> & <- & _)|[? ?]]; [by left|right; done]. }
  pose proof Hinv as [_ I2 I3 I4 _ I6 [I7 _] I8 _]. split; try done; cbn [out_image pixels_processed pp_sem threads].
  - by rewrite length_insert.
  - intros j u Hj. destruct (Hcase j u Hj) as [[-> ->]|[_ Hj']]; [done|by apply I3].
  - intros j u p Hj Hp Hm Hlt. destruct (Hcase j u Hj) as [[-> ->]|[_ Hj']].
    + destruct (Hnew p Hp Hm Hlt) as [Hlt'|?]; [|done]. rewrite (Hsame i t p) by done. by apply (I4 i t p).
    + rewrite (Hsame j u p) by done. by apply (I4 j u p).
  - rewrite !(sumz_insert _ _ _ _ _ Hi). lia.
  - split; [|done]. rewrite (holders_insert _ _ _ _ Hi). lia.
  - intros j u v Hj Hv. destruct (Hcase j u Hj) as [[-> ->]|[Hne Hj']]; [by apply Hw|].
    rewrite (I8 j u v Hj' Hv). destruct Hpp as [->|Hh]; [done|]. destruct Hne.
    symmetry. apply (one_holder s i j t u Hinv); try done. unfold holds. by rewrite Hv.
Qed.

(** The part of a step that leaves the image alone. *)
Lemma inv_same_image s i t t' pp' sem' :
  inv s -> threads s !! i = Some t -> thread_ok i t' -> written t' = written t ->
  pp' + processed t' = pixels_processed s + processed t ->
  sem' + h01 t' = pp_sem s + h01 t -> 0 <= sem' ->
  (forall v, t_pc t' = TWrite v -> v = pp' + processed t') ->
  pp' = pixels_processed s \/ holds t = true -> 0 <= pp' ->
  inv (State (out_image s) pp' sem' (<[i := t']> (threads s))).
Proof.
  intros Hinv Hi Ht' Hw Hsum. intros. eapply inv_update; try done; try apply Hinv.
  - intros p _ _ Hlt. left. by rewrite <- Hw.
  - unfold share. rewrite Hw. lia.
Qed.

Lemma safe_thread s i t : inv s -> threads s !! i = Some t ->
  match thread_step f img n count i t s with
  | Step s' => inv s'
  | Blocked => t_pc t = TDone
  | Fault u => t_pc t = TLoop /\ expected (pixel t) = Undef u
  end.
Proof.
  intros Hinv Hi. pose proof (i_thread s Hinv i t Hi) as Hok. pose proof Hok as [(k & Hk & Hp) Hpr Hm Hd Hl].
  pose proof (index_lt s i t Hinv Hi) as Hlt. destruct Hset as [Him _ _ _ [Hc Hc5] Hsz _].
  destruct (i_sem s Hinv) as [Hsem Hsem0]. pose proof (i_pp s Hinv) as Hpp.
  assert (pixel t + count = Z.of_nat i + (k + 1) * count) by lia.
  unfold thread_step. destruct t as [pc px pr]; cbn [t_pc pixel processed] in *. destruct pc.
  - destruct (Z.ltb_spec px n) as [Hpx|Hpx].
    + rewrite do_pixel_spec by (try apply Hinv; lia).
      destruct (expected_cases px) as [[v E]|E]; [lia| |]; rewrite E; [|done].
      set (ou := out_image s). pose proof (i_out s Hinv) as (Ow & Oh & Ol).
      eapply inv_update; try done.
      * unfold out_ok. cbn [width height data]. by rewrite length_insert.
      * split; simpl; try done; try lia. exists k. lia.
      * intros q Hq. cbn [data]. rewrite list_lookup_insert_ne by lia. by apply Hinv.
      * intros j u p Hj Hpn Hpm Hpw. cbn [data]. apply list_lookup_insert_ne. intros E2.
        assert (p = px) as -> by lia. assert (j = i) as ->.
        { rewrite Hp, Z.mod_add, Z.mod_small in Hpm by lia. lia. }
        rewrite Hi in Hj. injection Hj as <-. unfold written in Hpw. simpl in Hpw. lia.
      * intros p Hpn Hpm Hpw. unfold written in *. simpl in *.
        destruct (decide (p = px)) as [->|Hne]; [|left].
        { right. exists v. split; [done|]. cbn [data]. apply list_lookup_insert_eq. unfold ou in *. lia. }
        pose proof (Z.div_mod p count ltac:(lia)) as Hdm. rewrite Hpm in Hdm.
        assert (p / count < k + 1) by nia. assert (p / count <> k) by (intros Ek; rewrite Ek in Hdm; lia). nia.
      * unfold share, written. simpl. replace (px + count) with (px + 1 * count) by lia. rewrite Z.div_add by lia. lia.
      * by left.
    + apply (inv_same_image s i (Thread TLoop px pr)); try done; try lia.
      split; simpl; try done; try lia. by exists k.
  - assert (is_int (count + 5) = true) as -> by (unfold is_int, INT_MIN in *; lia). simpl negb. cbv iota.
    specialize (Hm eq_refl). destruct ((count + 5 <? pr) && (0 <? pp_sem s)) eqn:E.
    + apply (inv_same_image s i (Thread TTry px pr)); try done; try (cbn; lia).
      split; simpl; try done; try lia. by exists k.
    + apply (inv_same_image s i (Thread TTry px pr)); try done; try (cbn; lia).
      split; simpl; try done; try lia. exists (k + 1). lia.
  - specialize (Hm eq_refl).
    apply (inv_same_image s i (Thread TRead px pr)); try done; try (cbn; lia).
    + split; simpl; try done; try lia. by exists k.
    + intros v [= <-]. done.
  - specialize (Hm eq_refl). pose proof (i_write s Hinv i _ v Hi eq_refl) as Hv. cbn [processed] in Hv.
    assert (0 <= v <= n) as Hvn.
    { split; [lia|]. pose proof (sum_share_le s Hinv). pose proof (i_sum s Hinv).
      pose proof (sumz_member processed (threads s) i _ (fun j u Hj => t_processed _ _ (i_thread s Hinv j u Hj)) Hi).
      simpl in *. lia. }
    assert (s32 v = v) as ->.
    { destruct Him as (_ & _ & Hn & _). unfold s32, INT_MAX in *. apply swrap_small; lia. }
    apply (inv_same_image s i (Thread (TWrite v) px pr)); try done; try (cbn; lia).
    split; simpl; try done; try lia. by exists k.
  - specialize (Hm eq_refl).
    apply (inv_same_image s i (Thread TPost px pr)); try done; try (cbn; lia).
    split; simpl; try done; try lia. exists (k + 1). lia.
  - done.
Qed.

Lemma inv_run : inv (run_threads count out0).
Proof.
  destruct Hset as [Him _ _ _ [Hc _] Hsz [Hw Hh]].
  assert (0 <= n) as Hn by (destruct Him as (H1 & H2 & _); nia).
  assert (forall i t, threads (run_threads count out0) !! i = Some t ->
    t = Thread TLoop (Z.of_nat i) 0 /\ Z.of_nat i < count) as Ht.
  { intros i t Hi. simpl in Hi. rewrite list_lookup_fmap in Hi.
    destruct (seq 0 (Z.to_nat count) !! i) as [j|] eqn:E; [|done]. apply lookup_seq in E as [-> Hlt].
    injection Hi as <-. split; [done|lia]. }
  assert (forall w : thread -> Z, (forall i, Z.of_nat i < count -> w (Thread TLoop (Z.of_nat i) 0) = 0) ->
    sumz w (threads (run_threads count out0)) = 0) as Hsum.
  { intros w Hw0.
    assert (forall l, (forall i t, l !! i = Some t -> w t = 0) -> sumz w l = 0) as Hz.
    { induction l as [|x l IH]; intros H; [done|]. simpl. rewrite IH by (intros j y Hj; by apply (H (S j))).
      specialize (H 0%nat x eq_refl). lia. }
    apply Hz. intros i t Hi. destruct (Ht i t Hi) as [-> Hlt]. by apply Hw0. }
  split; try done.
  - simpl. rewrite length_map, length_seq. lia.
  - intros i t Hi. destruct (Ht i t Hi) as [-> Hlt]. split; simpl; try done; try lia. exists 0. lia.
  - intros i t p Hi Hp Hm Hlt. destruct (Ht i t Hi) as [-> Hic]. unfold written in Hlt. simpl in Hlt.
    pose proof (Z.mod_le p count ltac:(lia) ltac:(lia)). lia.
  - rewrite !Hsum; [done| |done]. intros i Hi. unfold share, written. simpl. by rewrite Z.div_small by lia.
  - split; [|done]. simpl. rewrite countb_zero; [done|]. intros i t Hi. by destruct (Ht i t Hi) as [-> _].
  - intros i t v Hi. by destruct (Ht i t Hi) as [-> _].
Qed.

Lemma reach_inv_threads s : reach exec (run_threads count out0) s -> inv s.
Proof.
  apply reach_inv; [apply inv_run|]. intros i s1 s2 H E. unfold Filter.exec in E.
  destruct (threads s1 !! i) as [t|] eqn:Hi; [|done]. pose proof (safe_thread s1 i t H Hi) as Hs. by rewrite E in Hs.
Qed.

(** How many steps a thread has made, at least. *)
Definition rank (t : thread) : Z :=
  match t_pc t with TLoop => 0 | TTry => 4 | TRead => 3 | TWrite _ => 2 | TPost => 1 | TDone => -1 end.
Definition progress (t : thread) : Z := 5 * share t - rank t.

Lemma share_next t t' : pixel t' = pixel t -> mid t' = mid t -> share t' = share t.
Proof. unfold share, written. by intros -> ->. Qed.

Lemma step_progress s i t s' : threads s !! i = Some t -> thread_step f img n count i t s = Step s' ->
  exists t', threads s' = <[i := t']> (threads s) /\ progress t < progress t'.
Proof.
  destruct Hset as [_ _ _ _ [Hc _] _ _]. intros Hi.
  assert (forall p, (p + count) / count = p / count + 1) as Hdiv.
  { intros p. replace (p + count) with (p + 1 * count) by lia. by rewrite Z.div_add by lia. }
  destruct t as [pc px pr]. unfold thread_step, set_thread; cbn [t_pc pixel processed]. destruct pc.
  - case_match; [destruct (do_pixel px (out_image s)); try done|]; intros [= <-];
      eexists; (split; [reflexivity|]); unfold progress, share, written, rank; simpl; rewrite ?Hdiv; lia.
  - case_match; [done|]. case_match; intros [= <-]; eexists; (split; [reflexivity|]);
      unfold progress, share, written, rank; simpl; rewrite ?Hdiv; lia.
  - intros [= <-]; eexists; (split; [reflexivity|]); unfold progress, share, written, rank; simpl; lia.
  - intros [= <-]; eexists; (split; [reflexivity|]); unfold progress, share, written, rank; simpl; lia.
  - intros [= <-]; eexists; (split; [reflexivity|]); unfold progress, share, written, rank; simpl; lia.
  - done.
Qed.

Lemma run_progress ls s s' : run exec ls s = Some s' ->
  Z.of_nat (length ls) + sumz progress (threads s) <= sumz progress (threads s').
Proof.
  revert s. induction ls as [|i ls IH]; intros s Hr; [injection Hr as <-; simpl; lia|].
  simpl in Hr. destruct (exec i s) as [s1| |] eqn:E; [|done..]. specialize (IH s1 Hr).
  unfold Filter.exec in E. destruct (threads s !! i) as [t|] eqn:Hi; [|done].
  destruct (step_progress s i t s1 Hi E) as (t' & Ht & Hp). rewrite Ht, (sumz_insert _ _ _ _ _ Hi) in IH.
  cbn [Datatypes.length]. lia.
Qed.

Lemma progress_bound l : sumz progress l <= 5 * sumz share l + Z.of_nat (length l).
Proof.
  induction l as [|t l IH]; simpl; [lia|]. assert (-1 <= rank t) by (unfold rank; case_match; lia).
  unfold progress at 1. lia.
Qed.

Lemma progress_start : sumz progress (threads (run_threads count out0)) = 0.
Proof.
  destruct Hset as [_ _ _ _ [Hc _] _ _]. simpl.
  assert (forall k o, Z.of_nat (o + k) <= count ->
    sumz progress (map (fun i => Thread TLoop (Z.of_nat i) 0) (seq o k)) = 0) as H; [|apply H; lia].
  induction k as [|k IH]; intros o Ho; [done|]. simpl. rewrite IH by lia.
  unfold progress, share, written, rank. simpl. rewrite Z.div_small by lia. lia.
Qed.

(** What the sequential loop leaves, when every pixel is defined. *)
Lemma filter_image_spec out : out_ok out ->
  (forall q, n <= Z.of_nat q -> data out !! q = data out0 !! q) ->
  (forall p, 0 <= p < n -> exists v, expected p = Done v tt /\ data out !! Z.to_nat p = Some v) ->
  filter_image f img n out0 out0 = Done tt out.
Proof.
  intros Hok Hrest Hall. destruct Hset as [Him _ _ _ _ Hsz [Hw Hh]].
  assert (0 <= n) as Hn by (destruct Him as (H1 & H2 & _); nia).
  apply wp_unit_eq. unfold filter_image. apply wp_bind. change (wp (put out0) ?Q ?E out0) with (Q tt out0). cbv beta.
  eapply wp_mono; [apply (wp_for_range_idx (fun k o => out_ok o /\
    (forall p, 0 <= p < k -> data o !! Z.to_nat p = data out !! Z.to_nat p) /\
    (forall q, k <= Z.of_nat q -> data o !! q = data out0 !! q)) (fun _ _ => False))| |done].
  - intros k o Hk (Ho & Hlo & Hhi). cbv beta. apply wp_bind. change (wp get ?Q ?E o) with (Q o o). cbv beta.
    destruct (Hall k) as (v & E & Hv); [lia|]. rewrite do_pixel_spec, E by (try done; lia).
    change (wp (put ?x) ?Q ?E o) with (Q tt x). cbv beta. destruct Ho as (Ow & Oh & Ol). destruct Hok as (_ & _ & Ol').
    split; [|split]; cbn [data].
    + split; [done|split; [done|]]. cbn [data]. by rewrite length_insert.
    + intros p Hp. destruct (decide (p = k)) as [->|Hne].
      * rewrite Hv. apply list_lookup_insert_eq. lia.
      * rewrite list_lookup_insert_ne by lia. apply Hlo. lia.
    + intros q Hq. rewrite list_lookup_insert_ne by lia. apply Hhi. lia.
  - split; [done|]. split; [intros p Hp; lia|done].
  - intros [] o (Ho & Hlo & Hhi). destruct Hok as (Hw1 & Hh1 & Hl1), Ho as (Hw2 & Hh2 & Hl2).
    assert (data o = data out) as Hd.
    { apply list_eq. intros q. destruct (Z.ltb_spec (Z.of_nat q) n).
      - specialize (Hlo (Z.of_nat q)). rewrite Nat2Z.id in Hlo. apply Hlo. lia.
      - rewrite Hrest by lia. apply Hhi. lia. }
    destruct o as [w h d], out as [w' h' d']; simpl in *. congruence.
Qed.

(** When the threads have all stopped, every pixel is what it should be. *)
Lemma stuck_pixels s : inv s -> stuck exec s ->
  (forall i t, threads s !! i = Some t -> t_pc t = TDone) /\
  forall p, 0 <= p < n -> exists v, expected p = Done v tt /\ data (out_image s) !! Z.to_nat p = Some v.
Proof.
  intros Hinv Hst. assert (forall i t, threads s !! i = Some t -> t_pc t = TDone) as Hd.
  { intros i t Hi. pose proof (safe_thread s i t Hinv Hi) as H.
    specialize (Hst i). unfold Filter.exec in Hst. rewrite Hi in Hst. by rewrite Hst in H. }
  split; [done|]. intros p Hp. destruct Hset as [_ _ _ _ [Hc _] _ _]. pose proof (Z.mod_pos_bound p count Hc) as Hm.
  destruct (lookup_lt_is_Some_2 (threads s) (Z.to_nat (p mod count))) as [t Ht].
  { pose proof (i_threads s Hinv). lia. }
  apply (i_pixels s Hinv _ t p Ht); [done|lia|].
  pose proof (t_done _ _ (i_thread s Hinv _ t Ht) (Hd _ t Ht)).
  unfold written, mid. rewrite (Hd _ t Ht). lia.
Qed.

(** All that can go wrong is that a value is no pixel. *)
Lemma thread_fault s i u : inv s -> exec i s = Fault u -> exists p, 0 <= p < n /\ expected p = Undef u.
Proof.
  intros Hinv E. unfold Filter.exec in E. destruct (threads s !! i) as [t|] eqn:Hi; [|done].
  pose proof (safe_thread s i t Hinv Hi) as H. rewrite E in H.
  destruct H as [Hpc H]. exists (pixel t). split; [|done].
  destruct (i_thread s Hinv i t Hi) as [(k & Hk & Hp) _ _ _ _].
  unfold thread_step in E. rewrite Hpc in E. destruct (Z.ltb_spec (pixel t) n); [|done].
  destruct Hset as [_ _ _ _ [Hc _] _ _]. nia.
Qed.

End Threads.

(** ** Properties *)

(** C3.  However many threads there are and however they take turns, filtering
    is what one loop over the pixels does: no access is out of bounds and
    nothing overflows, except that a filtered value may not be a pixel, which
    is then so for the loop as well; the progress never exceeds the number of
    pixels; the threads only stop when all are done; and then the image is the
    one the loop leaves, and every pixel has been counted once. *)
Theorem threads_filter_image (f : filter_t) (img out0 : pgm_image) (count : Z) (s : state)
  (Hset : setting f img out0 count)
  (Hs : reach (exec f img (width img * height img) count) (run_threads count out0) s) :
  let n := width img * height img in
  (forall i u, exec f img n count i s = Fault u -> exists p, 0 <= p < n /\ expected f img p = Undef u) /\
  0 <= pixels_processed s <= n /\
  (stuck (exec f img n count) s ->
    filter_image f img n out0 out0 = Done tt (out_image s) /\
    pixels_processed s + sumz processed (threads s) = n).
Proof.
  intros n. pose proof (reach_inv_threads f img out0 count Hset s Hs) as Hinv.
  split; [|split].
  - intros i u E. by apply (thread_fault f img out0 count Hset s i).
  - split; [apply Hinv|]. pose proof (sum_share_le f img out0 count Hset s Hinv) as Hle.
    pose proof (i_sum _ _ _ _ s Hinv) as Hsum.
    assert (0 <= sumz processed (threads s)); [|unfold n; lia].
    destruct (threads s) as [|t l] eqn:El; [done|]. rewrite <- El.
    enough (0 <= processed t <= sumz processed (threads s)) by lia.
    apply (sumz_member processed (threads s) 0 t); [|by rewrite El].
    intros j u Hj. apply (t_processed _ _ _ _ (i_thread _ _ _ _ s Hinv j u Hj)).
  - intros Hst. destruct (stuck_pixels f img out0 count Hset s Hinv Hst) as [Hd Hp].
    rewrite (i_sum _ _ _ _ s Hinv). split; [|by apply (sum_share_done f img out0 count Hset s Hinv)].
    by apply (filter_image_spec f img out0 count Hset); [apply Hinv|apply Hinv|].
Qed.

(** The threads come to an end: whatever their order, together they take
    at most five steps for each pixel and one for each thread. *)
Theorem threads_terminate (f : filter_t) (img out0 : pgm_image) (count : Z) (ls : list nat) (s : state)
  (Hset : setting f img out0 count)
  (Hrun : run (exec f img (width img * height img) count) ls (run_threads count out0) = Some s) :
  Z.of_nat (length ls) <= 5 * (width img * height img) + count.
Proof.
  pose proof (reach_inv_threads f img out0 count Hset s (run_reachable _ _ ls s Hrun)) as Hinv.
  pose proof (run_progress f img out0 count Hset ls _ s Hrun) as H.
  rewrite (progress_start f img out0 count Hset) in H.
  pose proof (progress_bound count (threads s)). pose proof (sum_share_le f img out0 count Hset s Hinv).
  pose proof (i_threads _ _ _ _ s Hinv). lia.
Qed.

(** Wherever a pixel is and whatever size the filter has, filtering only
    reads pixels of the image and numbers of the filter: at the edges the
    coordinates are clamped to it.  All that can go wrong is that the sum is
    not in the range of a pixel. *)
Theorem apply_filter_in_bounds {St} (f : filter_t) (img : pgm_image) (x y : Z) (s : St)
  (Himg : img_ok img) (Hf : filter_ok f) (Hx : 0 <= x < width img) (Hy : 0 <= y < height img)
  (Hxs : x + size f <= INT_MAX) (Hys : y + size f <= INT_MAX) :
  (exists v, apply_filter f img x y s = Done v s /\ 0 <= v < 256) \/ apply_filter f img x y s = Undef UB_overflow.
Proof. by apply apply_filter_ok. Qed.

(** The filter of the single number 1 changes no image: the arithmetic in
    [double] gives back every pixel, and the loop copies them all. *)
Theorem identity_filter_copies (img out0 : pgm_image)
  (Hset : setting identity_filter img out0 1) :
  exists out, filter_image identity_filter img (width img * height img) out0 out0 = Done tt out /\
    pixels out = pixels img.
Proof.
  pose proof Hset as [Him _ _ _ _ Hsz [Hw Hh]]. pose proof Him as (Hwm & Hhm & Hm & Hb & Hl).
  set (n := width img * height img) in *. assert (0 <= n) by (unfold n; nia).
  set (out := Img (width out0) (height out0) (overwrite (data out0) 0 (pixels img))).
  assert (length (pixels img) = Z.to_nat n) as Hpl by (unfold pixels; rewrite length_take; fold n; lia).
  exists out. split.
  - apply (filter_image_spec identity_filter img out0 1 Hset).
    + split; [done|split; [done|]]. simpl. apply length_overwrite. lia.
    + intros q Hq. simpl. rewrite overwrite_start. fold n in Hq.
      rewrite lookup_app_r by lia. rewrite lookup_drop. f_equal. lia.
    + intros p Hp. fold n in Hp. assert (0 < width img) by (unfold n in Hp; nia).
      pose proof (Z.mod_pos_bound p (width img) ltac:(lia)).
      assert (0 <= p / width img < height img).
      { split; [apply Z.div_pos; lia|]. apply Z.div_lt_upper_bound; unfold n in Hp; lia. }
      destruct (identity_apply img (p mod width img) (p / width img) tt Him) as (v & E & Hv); [lia|lia|].
      exists v. split; [exact E|]. pose proof (Z.div_mod p (width img) ltac:(lia)).
      replace (p / width img * width img + p mod width img) with p in Hv by lia.
      simpl. rewrite overwrite_start. rewrite lookup_app_l by lia.
      unfold pixels. fold n. by rewrite lookup_take_lt by lia.
  - unfold pixels at 1. simpl. rewrite Hw, Hh. fold n. rewrite overwrite_start.
    rewrite take_app_le by lia. apply take_ge. lia.
Qed.

(** ** Witnesses: an image of six pixels and two threads *)

Definition ex_img : pgm_image := Img 3 2 [10; 20; 30; 253; 254; 255].
Definition ex_out : pgm_image := Img 3 2 (replicate 6 7).
Definition ex_filter : filter_t := Filter 3 (replicate 9 (fdiv (flt_of_Z 1) (flt_of_Z 9))).

Lemma ex_img_ok : img_ok ex_img.
Proof.
  unfold img_ok, INT_MAX, bytes_ok. simpl. repeat split; try lia.
  rewrite !Forall_cons, Forall_nil. lia.
Qed.

Lemma ex_setting : setting ex_filter ex_img ex_out 2.
Proof. split; unfold filter_ok, INT_MAX; simpl; try lia. exact ex_img_ok. Qed.

(** One thread runs to its end, then the other. *)
Definition ex_schedule : list nat := replicate 7 0%nat ++ replicate 7 1%nat.

Lemma threads_filter_image_witness :
  exists s, reach (exec ex_filter ex_img 6 2) (run_threads 2 ex_out) s /\
    filter_image ex_filter ex_img 6 ex_out ex_out = Done tt (out_image s) /\
    data (out_image s) = [93; 98; 103; 173; 176; 179].
Proof.
  destruct (run (exec ex_filter ex_img 6 2) ex_schedule (run_threads 2 ex_out)) as [s|] eqn:E; [|vm_compute in E; discriminate].
  assert (Hr : reach (exec ex_filter ex_img 6 2) (run_threads 2 ex_out) s) by (eauto with model).
  exists s. split; [exact Hr|].
  pose proof (threads_filter_image ex_filter ex_img ex_out 2 s ex_setting Hr) as (_ & _ & H).
  assert (stuck (exec ex_filter ex_img 6 2) s /\ data (out_image s) = [93; 98; 103; 173; 176; 179]) as [Hst Hd].
  { vm_compute in E. injection E as <-. split; [|reflexivity]. intros [|[|[|i]]]; reflexivity. }
  split; [exact (proj1 (H Hst))|exact Hd].
Defined.

Lemma threads_terminate_witness :
  exists s, run (exec ex_filter ex_img 6 2) ex_schedule (run_threads 2 ex_out) = Some s /\
    Z.of_nat (length ex_schedule) <= 5 * (3 * 2) + 2.
Proof.
  destruct (run (exec ex_filter ex_img 6 2) ex_schedule (run_threads 2 ex_out)) as [s|] eqn:E; [|vm_compute in E; discriminate].
  exists s. split; [reflexivity|]. exact (threads_terminate ex_filter ex_img ex_out 2 ex_schedule s ex_setting E).
Defined.

Lemma apply_filter_in_bounds_witness :
  apply_filter ex_filter ex_img 2 0 tt = Done 103 tt /\
  ((exists v, apply_filter ex_filter ex_img 2 0 tt = Done v tt /\ 0 <= v < 256) \/
   apply_filter ex_filter ex_img 2 0 tt = Undef UB_overflow).
Proof.
  split; [vm_compute; reflexivity|].
  apply (apply_filter_in_bounds ex_filter ex_img 2 0 tt ex_img_ok); unfold filter_ok, INT_MAX; simpl; lia.
Defined.

Lemma identity_filter_copies_witness :
  exists out, filter_image identity_filter ex_img 6 ex_out ex_out = Done tt out /\ pixels out = pixels ex_img.
Proof.
  apply (identity_filter_copies ex_img ex_out).
  split; unfold filter_ok, INT_MAX; simpl; try lia. exact ex_img_ok.
Defined.
