(* ===== verification/FilterFile.v ===== *)
(** The filters of cw08/zad1 as files and from random numbers (filter.c), and
    the command line (main.c).

    A file is its text; [fopen] and what can be written are parameters, and so
    are [malloc] and [rand].  A text that breaks off within an exponent is read
    up to there.  The progress display and the times are left out. *)
From S2P Require Import Prelude CString Scan Float64 Pgm Filter.
From Stdlib Require Import Ascii String SpecFloat.
#[local] Open Scope string_scope.
#[local] Open Scope Z_scope.
Local Abbreviation length := Datatypes.length.
Local Abbreviation get := Prelude.get.

(** ** [float] as text *)

(** The float nearest to [m * 2^e] and to [m * 10^e], for [m >= 0]. *)
Definition flt_of_bin (neg : bool) (m e : Z) : spec_float :=
  if m =? 0 then S754_zero neg
  else binary_normalize 24 128 (if neg then - m else m) e neg.
Definition flt_of_dec (neg : bool) (m e : Z) : spec_float :=
  if m =? 0 then S754_zero neg
  else if 100 <? e then S754_infinity neg
  else if e + Z.log2 m <? -400 then S754_zero neg
  else if 0 <=? e then flt_of_bin neg (m * 10 ^ e) 0
  else
    let '(mz, ez, lz) := SFdiv_core_binary 24 128 m 0 (10 ^ (- e)) 0 in
    binary_round_aux 24 128 neg mz ez lz.

(** [%f] of scanf. *)
Definition scan_f (s : string) : option (spec_float * string) :=
  let s0 := scan_ws s in
  let '(neg, s1) :=
    match s0 with String "-" t => (true, t) | String "+" t => (false, t) | _ => (false, s0) end in
  match special neg s1 with
  | Some r => Some r
  | None =>
      match (t ← prefix_ci "0x" s1; '(ip, fp, r) ← mantissa isxdigit t; Some (ip, fp, r)) with
      | Some (ip, fp, r) =>
          let '(e, r') := exponent "p" r in
          Some (flt_of_bin neg (hex_val (ip ++ fp) 0) (e - 4 * strlen fp), r')
      | None =>
          '(ip, fp, r) ← mantissa isdigit s1;
          let '(e, r') := exponent "e" r in
          Some (flt_of_dec neg (digits_val (ip ++ fp) 0) (e - strlen fp), r')
      end
  end.

(** [n] digits of a number, with zeros in front. *)
Fixpoint fixed (n : nat) (z : Z) : string :=
  match n with
  | O => ""
  | S n' => fixed n' (z / 10) ++ String (ascii_of_N (Z.to_N (48 + z mod 10))) ""
  end.

(** [m * 2^e], in millionths, rounded to the nearest, halves to even. *)
Definition micros (m : positive) (e : Z) : Z :=
  if 0 <=? e then Zpos m * 10 ^ 6 * 2 ^ e
  else
    let d := 2 ^ (- e) in
    let q := (Zpos m * 10 ^ 6) / d in
    let r := (Zpos m * 10 ^ 6) mod d in
    if 2 * r <? d then q else if d <? 2 * r then q + 1 else if Z.even q then q else q + 1.

(** [%f] of printf, of a number that is not negative or of any. *)
Definition print_micros (n : Z) : string := dec (n / 10 ^ 6) ++ "." ++ fixed 6 (n mod 10 ^ 6).
Definition print_f (f : spec_float) : string :=
  let sign (s : bool) := if s then "-" else "" in
  match f with
  | S754_zero s => sign s ++ print_micros 0
  | S754_infinity s => sign s ++ "inf"
  | S754_nan => "nan"
  | S754_finite s m e => sign s ++ print_micros (micros m e)
  end.

(** ** filter.c *)

Definition flt_of_dbl (f : spec_float) : spec_float :=
  match f with
  | S754_finite s m e => binary_normalize 24 128 (if s then Zneg m else Zpos m) e s
  | _ => f
  end.
Definition dbl_div : spec_float -> spec_float -> spec_float := SFdiv 53 1024.

Definition RAND_MAX : Z := 2147483647.

Section FilterFile.
(** [malloc]: [None], or a block with so many bytes beyond what was asked for;
    what it holds; and the numbers of [rand]. *)
Context (malloc : Z -> option nat) (garbage : spec_float) (rand : nat -> Z).

(** The argument is an [int], the field a [size_t]. *)
Definition create_filter (size : Z) : option filter_t :=
  let bytes := u64 (8 + u64 (u64 (4 * u64 size) * u64 size)) in
  match malloc bytes with
  | None => None
  | Some slack => Some (Filter (u64 size) (replicate (Z.to_nat ((bytes + Z.of_nat slack - 8) / 4)) garbage))
  end.

(** The numbers made so far: the filter, how often [rand] was called, and the
    sum. *)
Record rnd := Rnd { r_data : list spec_float; r_used : nat; r_sum : spec_float }.

(** Two nested loops over the filter; [filter->data[j * filter->size + i]]. *)
Definition for_filter (sz : Z) (body : Z -> cm rnd unit) : cm rnd unit :=
  for_range (Z.to_nat sz) 0 (fun i => for_range (Z.to_nat sz) 0 (fun j => body (u64 (u64 (j * sz) + i)))).

Definition random_filter (f : filter_t) : outcome rnd unit :=
  let norm := fdiv (fdiv (flt_of_Z 2) (flt_of_Z (size f))) (flt_of_Z (size f)) in
  (for_filter (size f) (fun k =>
     s ← get;
     let val := fmul (fdiv (flt_of_Z (rand (r_used s))) (flt_of_Z RAND_MAX)) norm in
     d ← lift UB_bounds (aset (r_data s) k val);
     put (Rnd d (S (r_used s)) (dbl_add (r_sum s) (dbl_of_flt val)))) ;;
   s ← get;
   let sum := r_sum s in
   put (Rnd (r_data s) (r_used s) (S754_zero false)) ;;
   for_filter (size f) (fun k =>
     s ← get;
     x ← lift UB_bounds (aget (r_data s) k);
     let y := flt_of_dbl (dbl_div (dbl_of_flt x) sum) in
     d ← lift UB_bounds (aset (r_data s) k y);
     put (Rnd d (r_used s) (dbl_add (r_sum s) (dbl_of_flt y)))))
  (Rnd (fdata f) 0 (S754_zero false)).

(** The text of a filter: [n] numbers from [data[d]] on. *)
Fixpoint write_numbers {St} (f : filter_t) (n : nat) (d : Z) : cm St string :=
  match n with
  | O => mret ""
  | S n' =>
      x ← lift UB_bounds (aget (fdata f) d);
      d' ← int_op (d + 1);
      rest ← write_numbers f n' d';
      mret (print_f x ++ " " ++ rest)
  end.
Definition write_filter {St} (f : filter_t) : cm St string :=
  rest ← write_numbers f (Z.to_nat (u64 (size f * size f))) 0;
  mret (dec (size f) ++ nl ++ rest).

(** [d < size * size]: each number takes something off the text ([fuel]). *)
Fixpoint read_numbers {St} (fuel : nat) (n d : Z) (data : list spec_float) (s : string) :
    cm St (option (list spec_float)) :=
  match fuel with
  | O => nofuel
  | S fuel' =>
      if d <? n then
        match scan_f s with
        | None => mret None
        | Some (x, s') =>
            data ← lift UB_bounds (aset data d x);
            d' ← int_op (d + 1);
            read_numbers fuel' n d' data (scan_ws s')
        end
      else mret (Some data)
  end.

(** [None]: -1 is returned. *)
Definition read_filter {St} (s : string) : cm St (option filter_t) :=
  match scan_num s with
  | None => mret None
  | Some (z, s1) =>
      sz ← lift UB_overflow (to_size z);
      match create_filter (s32 sz) with
      | None => mret None
      | Some f =>
          let s2 := scan_ws s1 in
          r ← read_numbers (S (String.length s2)) (u64 (sz * sz)) 0 (fdata f) s2;
          mret (match r with None => None | Some data => Some (Filter (size f) data) end)
      end
  end.
End FilterFile.

(** ** main.c *)

(** The files that can be read and written, and what was written. *)
Record world := World { files : string -> option string; writable : string -> bool; written_files : list (string * string) }.

Definition write_file (name text : string) : cm world bool :=
  w ← get;
  if writable w name then
    put (World (files w) (writable w) (written_files w ++ [(name, text)])%list) ;; mret true
  else mret false.

(** What the threads are started with. *)
Record job := Job { j_filter : filter_t; j_in : pgm_image; j_out : pgm_image; j_count : Z; j_output : string }.

Section Main.
Context (malloc : Z -> option nat) (fgarbage : spec_float) (pgarbage : Z) (rand : nat -> Z).

Definition main_gen (sz file : string) : cm world Z :=
  n ← atoi sz;
  match create_filter malloc fgarbage n with
  | None => undef UB_null   (* random_filter(NULL) *)
  | Some f =>
      match random_filter rand f with
      | Done _ r =>
          text ← write_filter (Filter (size f) (r_data r));
          ok ← write_file file text;
          mret (if (ok : bool) then 0 else 1)
      | Undef u => undef u
      | Exited c _ => exit_ c
      | NoFuel => nofuel
      end
  end.

(** [main]: an exit code, or the threads to run. *)
Definition main (argv : list string) : cm world (Z + job) :=
  match argv with
  | _ :: a1 :: a2 :: a3 :: rest =>
      if streq a1 "gen" then
        match rest with
        | [] => r ← main_gen a2 a3; mret (inl r)
        | _ => mret (inl 1)
        end
      else
        match rest with
        | [output] =>
            thread_count ← atoi a1;
            if thread_count <=? 0 then mret (inl 1)
            else
              w ← get;
              f ← match files w a3 with None => mret None | Some t => read_filter malloc fgarbage t end;
              match f with
              | None => exit_ 1
              | Some f =>
                  img ← match files w a2 with None => mret None | Some t => pgm_load malloc pgarbage t end;
                  match img with
                  | None => exit_ 1
                  | Some img =>
                      out ← pgm_create malloc pgarbage (width img) (height img);
                      match out with
                      | None => exit_ 1
                      | Some out => mret (inr (Job f img out thread_count output))
                      end
                  end
              end
        | _ => mret (inl 1)
        end
  | _ => mret (inl 1)
  end.

(** The threads of a job, and what follows when they are joined. *)
Definition job_threads (j : job) : state := run_threads (j_count j) (j_out j).
Definition job_pixels (j : job) : Z := s64 (u64 (height (j_in j) * width (j_in j))).
Definition main_end (j : job) (out : pgm_image) : cm world Z :=
  text ← pgm_save out;
  ok ← write_file (j_output j) text;
  if (ok : bool) then mret 0 else exit_ 1.
End Main.
