(* ===== verification/FilterFileSpec.v ===== *)
(** Filters and their files: the numbers survive the trip to six decimals, a
    random filter is filled within its bounds, and a size that does not fit an
    [int] makes the reader overrun the filter. *)
From S2P Require Import Prelude CString Scan Float64 Pgm PgmSpec Filter FilterFile.
From Stdlib Require Import Ascii String SpecFloat.
#[local] Open Scope string_scope.
#[local] Open Scope Z_scope.
Local Abbreviation length := Datatypes.length.
Local Abbreviation get := Prelude.get.

(** ** Numbers *)

Lemma fixed_digits n z : str_all isdigit (fixed n z) = true.
Proof.
  revert z. induction n as [|n IH]; intros z; [done|]. cbn [fixed].
  assert (forall a b, str_all isdigit a = true -> str_all isdigit b = true -> str_all isdigit (a ++ b) = true) as Happ.
  { induction a as [|c a IHa]; [done|]. simpl. intros b [H1 H2]%andb_true_iff Hb. by rewrite H1, IHa. }
  apply Happ; [apply IH|]. simpl. rewrite andb_true_r. pose proof (Z.mod_pos_bound z 10).
  assert (exists k, (k < 10)%nat /\ Z.to_N (48 + z mod 10) = N.of_nat (48 + k)) as (k & Hk & ->)
    by (exists (Z.to_nat (z mod 10)); lia).
  do 10 (destruct k as [|k]; [done|]). lia.
Qed.

Lemma digits_val_app a b acc : str_all isdigit a = true -> digits_val (a ++ b) acc = digits_val b (digits_val a acc).
Proof.
  revert acc. induction a as [|c a IH]; intros acc; [done|]. simpl. intros [Hc Ha]%andb_true_iff. rewrite Hc. by apply IH.
Qed.

Lemma digit_last k acc : 0 <= k < 10 -> digits_val (String (ascii_of_N (Z.to_N (48 + k))) "") acc = 10 * acc + k.
Proof.
  intros Hk. assert (k = 0 \/ k = 1 \/ k = 2 \/ k = 3 \/ k = 4 \/ k = 5 \/ k = 6 \/ k = 7 \/ k = 8 \/ k = 9) as H by lia.
  by repeat destruct H as [->|H]; [..|subst k].
Qed.

Lemma fixed_val n z acc : 0 <= z < 10 ^ Z.of_nat n -> digits_val (fixed n z) acc = acc * 10 ^ Z.of_nat n + z.
Proof.
  revert z acc. induction n as [|n IH]; intros z acc Hz.
  { simpl in *. lia. }
  cbn [fixed]. rewrite digits_val_app by apply fixed_digits. replace (Z.of_nat (S n)) with (Z.of_nat n + 1) in * by lia.
  rewrite Z.pow_add_r in * by lia. pose proof (Z.div_mod z 10). pose proof (Z.mod_pos_bound z 10).
  rewrite IH by (split; [apply Z.div_pos; lia|apply Z.div_lt_upper_bound; lia]).
  rewrite digit_last by lia. lia.
Qed.

Lemma fixed_length n z : String.length (fixed n z) = n.
Proof.
  revert z. induction n as [|n IH]; intros z; [done|]. cbn [fixed].
  assert (forall a b, String.length (a ++ b) = (String.length a + String.length b)%nat) as Happ.
  { induction a as [|c a IHa]; [done|]. intros b. simpl. by rewrite IHa. }
  rewrite Happ, IH. simpl. lia.
Qed.

Lemma prefix_0x_none c s : isdigit c = true -> starts (fun d => negb (Ascii.eqb "x" (lower d))) s = true ->
  prefix_ci "0x" (String c s) = None.
Proof.
  intros Hc Hs. change (prefix_ci "0x" (String c s)) with (if Ascii.eqb "0" (lower c) then prefix_ci "x" s else None).
  destruct (Ascii.eqb "0" (lower c)); [|done]. destruct s as [|d s]; [done|].
  change (prefix_ci "x" (String d s)) with (if Ascii.eqb "x" (lower d) then Some s else None).
  change (negb (Ascii.eqb "x" (lower d)) = true) in Hs. by destruct (Ascii.eqb "x" (lower d)).
Qed.

Lemma special_digit neg c s : isdigit c = true -> special neg (String c s) = None.
Proof. intros Hc. unfold special. by digit_case c Hc. Qed.

(** Digits, a point, digits and a blank. *)
Lemma mantissa_point a b r : str_all isdigit a = true -> str_all isdigit b = true -> a <> "" ->
  mantissa isdigit (a ++ "." ++ b ++ " " ++ r) = Some (a, b, " " ++ r).
Proof.
  intros Ha Hb Hn. assert (forall x, str_all isdigit x = true -> str_all (fun c => negb (negb (isdigit c))) x = true) as Hm.
  { intros x. apply str_all_mono. by intros c ->. }
  assert (break_at (fun c => negb (isdigit c)) (b ++ " " ++ r) = (b, " " ++ r)) as Eb by (apply break_at_app; [by auto|done]).
  unfold mantissa, span. rewrite break_at_app by (by auto).
  change ("." ++ b ++ " " ++ r) with (String "." (b ++ " " ++ r)). cbv iota beta. rewrite Eb. by destruct a.
Qed.

Lemma scan_print_micros (neg : bool) n r : 0 <= n ->
  scan_f ((if neg then "-" else "") ++ print_micros n ++ " " ++ r) = Some (flt_of_dec neg n (-6), " " ++ r).
Proof.
  intros Hn. set (q := n / 10 ^ 6). set (m := n mod 10 ^ 6).
  assert (0 <= q /\ 0 <= m < 10 ^ 6 /\ n = q * 10 ^ 6 + m) as (Hq & Hm & En).
  { unfold q, m. pose proof (Z.div_mod n (10 ^ 6)). pose proof (Z.mod_pos_bound n (10 ^ 6)).
    pose proof (Z.div_pos n (10 ^ 6)). lia. }
  set (t := print_micros n ++ " " ++ r).
  assert (t = dec q ++ "." ++ fixed 6 m ++ " " ++ r) as Et by (unfold t, print_micros; by rewrite !str_app_assoc).
  destruct (dec_cons q) as (c & s & Edec & Hc).
  assert (mantissa isdigit t = Some (dec q, fixed 6 m, " " ++ r)) as Hmant.
  { rewrite Et. apply mantissa_point; [apply dec_digits|apply fixed_digits|by rewrite Edec]. }
  assert (exists s', t = String c s' /\ starts (fun d => negb (Ascii.eqb "x" (lower d))) s' = true) as (s' & Ets & Hs').
  { rewrite Et, Edec. eexists. split; [done|]. pose proof (dec_digits q) as Hd. rewrite Edec in Hd. simpl in Hd.
    apply andb_true_iff in Hd as [_ Hd]. destruct s as [|d s]; [done|]. cbn [str_all] in Hd. apply andb_true_iff in Hd as [Hd _].
    exact (f_equal negb (digit_not_x d Hd)). }
  assert (special neg t = None) as Hsp by (rewrite Ets; by apply special_digit).
  assert (prefix_ci "0x" t = None) as Hx by (rewrite Ets; by apply prefix_0x_none).
  assert (digits_val (dec q ++ fixed 6 m) 0 = n) as Hval.
  { rewrite digits_val_app by apply dec_digits. rewrite dec_val by done. rewrite fixed_val by done. done. }
  assert (scan_f ((if neg then "-" else "") ++ t) = match special neg t with
    | Some r => Some r
    | None => match (t' ← prefix_ci "0x" t; '(ip, fp, r) ← mantissa isxdigit t'; Some (ip, fp, r)) with
      | Some (ip, fp, r) => let '(e, r') := exponent "p" r in
          Some (flt_of_bin neg (hex_val (ip ++ fp) 0) (e - 4 * strlen fp), r')
      | None => '(ip, fp, r) ← mantissa isdigit t; let '(e, r') := exponent "e" r in
          Some (flt_of_dec neg (digits_val (ip ++ fp) 0) (e - strlen fp), r')
      end end) as ->.
  { unfold scan_f. destruct neg; [done|]. cbn [append]. rewrite Ets. unfold scan_ws. simpl. rewrite (digit_not_space c Hc).
    by digit_case c Hc. }
  rewrite Hsp, Hx, Hmant. unfold mbind, option_bind. cbv beta iota.
  change (exponent "e" (" " ++ r)) with (0, " " ++ r). cbv iota beta. rewrite Hval.
  unfold strlen. by rewrite fixed_length.
Qed.

(** A number after the trip through a file. *)
Definition reread (f : spec_float) : spec_float :=
  match f with
  | S754_zero s => flt_of_dec s 0 (-6)
  | S754_finite s m e => flt_of_dec s (micros m e) (-6)
  | _ => f
  end.
Definition is_finite (f : spec_float) : bool := match f with S754_zero _ | S754_finite _ _ _ => true | _ => false end.

Lemma micros_nonneg m e : 0 <= micros m e.
Proof.
  unfold micros. destruct (Z.leb_spec 0 e) as [H|H].
  - apply Z.mul_nonneg_nonneg; [lia|]. apply Z.pow_nonneg. lia.
  - assert (0 < 2 ^ (- e)) as Hd by (apply Z.pow_pos_nonneg; lia).
    pose proof (Z.div_pos (Zpos m * 10 ^ 6) (2 ^ (- e)) ltac:(lia) Hd). repeat case_match; lia.
Qed.

(** What is printed is off by half a millionth at most. *)
Lemma micros_near m e :
  if 0 <=? e then micros m e = Zpos m * 2 ^ e * 10 ^ 6
  else 2 * Z.abs (micros m e * 2 ^ (- e) - Zpos m * 10 ^ 6) <= 2 ^ (- e).
Proof.
  unfold micros. destruct (Z.leb_spec 0 e) as [H|H]; [lia|]. set (d := 2 ^ (- e)).
  assert (0 < d) as Hd by (apply Z.pow_pos_nonneg; lia).
  set (x := Zpos m * 10 ^ 6). pose proof (Z.div_mod x d ltac:(lia)) as E. pose proof (Z.mod_pos_bound x d Hd) as Hr.
  set (q := x / d) in *. set (r := x mod d) in *.
  assert (q * d - x = - r /\ (q + 1) * d - x = d - r) as [E1 E2] by lia.
  destruct (Z.ltb_spec (2 * r) d); [rewrite E1; lia|]. destruct (Z.ltb_spec d (2 * r)); [rewrite E2; lia|].
  destruct (Z.even q); [rewrite E1|rewrite E2]; lia.
Qed.

Lemma scan_print f r : is_finite f = true -> scan_f (print_f f ++ " " ++ r) = Some (reread f, " " ++ r).
Proof.
  destruct f as [s|s| |s m e]; try done; intros _; cbn [print_f reread]; rewrite !str_app_assoc.
  - by apply (scan_print_micros s 0).
  - apply (scan_print_micros s (micros m e)), micros_nonneg.
Qed.

(** ** Files *)

Fixpoint numbers_text (l : list spec_float) : string :=
  match l with [] => "" | x :: l' => print_f x ++ " " ++ numbers_text l' end.

Lemma write_numbers_spec {St} f n d (s : St) : 0 <= d -> d + Z.of_nat n <= Z.of_nat (length (fdata f)) ->
  d + Z.of_nat n <= INT_MAX ->
  write_numbers f n d s = Done (numbers_text (take n (drop (Z.to_nat d) (fdata f)))) s.
Proof.
  revert d. induction n as [|n IH]; intros d Hd Hl Hi; [done|]. cbn [write_numbers].
  destruct (aget_is_Some (fdata f) d) as [x Hx]; [lia|]. unfold mbind, cm_bind. rewrite Hx. unfold lift, mret, cm_ret.
  rewrite int_op_ok by (unfold INT_MIN; lia). rewrite IH by lia.
  apply aget_Some in Hx as [_ Hx]. rewrite (drop_S (fdata f) x (Z.to_nat d) Hx).
  replace (Z.to_nat (d + 1)) with (S (Z.to_nat d)) by lia. done.
Qed.

(** A text with a character that is not white space is read from there. *)
Lemma print_f_cons f : is_finite f = true -> exists c t, print_f f = String c t /\ isspace c = false.
Proof.
  assert (forall (s : bool) n, exists c t, (if s then "-" else "") ++ print_micros n = String c t /\ isspace c = false) as H.
  { intros [] n; [by exists "-"%char, (print_micros n)|]. unfold print_micros.
    destruct (dec_cons (n / 10 ^ 6)) as (c & t & E & Hc). rewrite E. eexists c, _. split; [done|]. by apply digit_not_space. }
  destruct f as [s|s| |s m e]; try done; intros _; apply H.
Qed.

Lemma numbers_text_ws l : forallb is_finite l = true -> scan_ws (numbers_text l) = numbers_text l.
Proof.
  destruct l as [|x l]; [done|]. simpl. intros [Hx _]%andb_true_iff. destruct (print_f_cons x Hx) as (c & t & E & Hc).
  rewrite E. unfold scan_ws. simpl. by rewrite Hc.
Qed.

Lemma overwrite_insert {A} (l : list A) (i : nat) y r : (i < length l)%nat ->
  overwrite (<[i := y]> l) (S i) r = overwrite l i (y :: r).
Proof.
  intros Hi. unfold overwrite. cbn [length]. rewrite (take_S_r _ _ y) by (by apply list_lookup_insert_eq).
  rewrite take_insert_ge by lia. rewrite drop_insert_lt by lia. rewrite <- app_assoc.
  by replace (S i + length r)%nat with (i + S (length r))%nat by lia.
Qed.

Lemma read_numbers_spec {St} l : forall fuel d data (s : St),
  forallb is_finite l = true -> 0 <= d -> d + Z.of_nat (length l) <= Z.of_nat (length data) ->
  d + Z.of_nat (length l) <= INT_MAX -> (length l < fuel)%nat ->
  read_numbers fuel (d + Z.of_nat (length l)) d data (numbers_text l) s =
  Done (Some (overwrite data (Z.to_nat d) (map reread l))) s.
Proof.
  induction l as [|x l IH]; intros fuel d data s Hf Hd Hl Hi Hfuel.
  - destruct fuel as [|fuel]; [simpl in Hfuel; lia|]. cbn [read_numbers length]. rewrite Z.add_0_r, Z.ltb_irrefl.
    unfold overwrite. simpl. rewrite Nat.add_0_r, take_drop. done.
  - destruct fuel as [|fuel]; [simpl in Hfuel; lia|]. cbn [read_numbers length] in *.
    simpl in Hf. apply andb_true_iff in Hf as [Hx Hf].
    destruct (Z.ltb_spec d (d + Z.of_nat (S (length l)))); [|lia].
    cbn [numbers_text]. rewrite scan_print by done. unfold mbind, cm_bind.
    rewrite aset_ok by lia. unfold lift, mret, cm_ret. rewrite int_op_ok by (unfold INT_MIN; lia).
    change (scan_ws (" " ++ numbers_text l)) with (scan_ws (numbers_text l)). rewrite numbers_text_ws by done.
    replace (d + Z.of_nat (S (length l))) with (d + 1 + Z.of_nat (length l)) by lia.
    rewrite IH; [|done|lia|rewrite length_insert; lia|lia|lia].
    replace (Z.to_nat (d + 1)) with (S (Z.to_nat d)) by lia. cbn [map]. rewrite overwrite_insert; [done|lia].
Qed.

Lemma text_length l : (length l <= String.length (numbers_text l))%nat.
Proof.
  assert (forall a b, String.length (a ++ b) = (String.length a + String.length b)%nat) as Happ.
  { induction a as [|c a IHa]; [done|]. intros b. simpl. by rewrite IHa. }
  induction l as [|x l IH]; [done|]. cbn [numbers_text length]. rewrite !Happ. simpl. lia.
Qed.

(** Writing a filter and reading it back. *)
Lemma write_read {St} malloc garbage f slack (s : St)
  (Hsize : 0 <= size f < 2 ^ 15) (Hlen : Z.of_nat (length (fdata f)) = size f * size f)
  (Hfin : forallb is_finite (fdata f) = true)
  (Hmalloc : malloc (8 + 4 * (size f * size f)) = Some slack) :
  exists text rest, write_filter f s = Done text s /\
    read_filter malloc garbage text s = Done (Some (Filter (size f) (map reread (fdata f) ++ rest))) s /\
    forall m e, if 0 <=? e then micros m e = Zpos m * 2 ^ e * 10 ^ 6
      else 2 * Z.abs (micros m e * 2 ^ (- e) - Zpos m * 10 ^ 6) <= 2 ^ (- e).
Proof.
  set (n := size f) in *. assert (0 <= n * n < 2 ^ 30) as Hn by nia.
  assert (n * n <= INT_MAX) as Hi by (unfold INT_MAX; lia).
  assert (write_filter f s = Done (dec n ++ nl ++ numbers_text (fdata f)) s) as Ew.
  { unfold write_filter. unfold mbind, cm_bind. fold n. rewrite u64_small by lia.
    rewrite write_numbers_spec by lia. rewrite drop_0, take_ge by lia. done. }
  eexists _, (drop (length (fdata f)) (replicate (Z.to_nat ((8 + 4 * (n * n) + Z.of_nat slack - 8) / 4)) garbage)).
  split; [exact Ew|]. split; [|intros m e; apply micros_near].
  unfold read_filter. rewrite scan_dec by (done || lia).
  rewrite to_size_ok by (unfold INT_MAX; lia). unfold mbind, cm_bind, lift, mret, cm_ret.
  unfold create_filter. unfold s32. rewrite swrap_small by lia.
  rewrite !(u64_small n), (u64_small (4 * n)), (u64_small (4 * n * n)) by lia.
  rewrite u64_small by lia. replace (8 + 4 * n * n) with (8 + 4 * (n * n)) by lia. rewrite Hmalloc.
  change (scan_ws (nl ++ numbers_text (fdata f))) with (scan_ws (numbers_text (fdata f))).
  rewrite numbers_text_ws by done. rewrite u64_small by lia. cbn [fdata size].
  set (data := replicate _ garbage).
  assert (length (fdata f) <= length data)%nat as Hld.
  { unfold data. rewrite length_replicate. assert (n * n <= (8 + 4 * (n * n) + Z.of_nat slack - 8) / 4); [|lia].
    apply Z.div_le_lower_bound; lia. }
  pose proof (read_numbers_spec (fdata f) (S (String.length (numbers_text (fdata f)))) 0 data s Hfin) as Hr.
  rewrite Z.add_0_l, Hlen in Hr. rewrite Hr; [|lia..|]; [|pose proof (text_length (fdata f)); lia].
  unfold overwrite. simpl. by rewrite length_map.
Qed.

(** ** Properties *)

(** C35.  A filter survives its file up to six decimals: what [write_filter] writes
    of a filter of finite numbers, [read_filter] reads back with the same size and
    with each number the float nearest to the decimal printed, which is off by
    half a millionth at most. *)
Theorem filter_round_trip {St} malloc garbage f slack (s : St)
  (Hsize : 0 <= size f < 2 ^ 15) (Hlen : Z.of_nat (length (fdata f)) = size f * size f)
  (Hfin : forallb is_finite (fdata f) = true)
  (Hmalloc : malloc (8 + 4 * (size f * size f)) = Some slack) :
  exists text rest, write_filter f s = Done text s /\
    read_filter malloc garbage text s = Done (Some (Filter (size f) (map reread (fdata f) ++ rest))) s /\
    forall m e, if 0 <=? e then micros m e = Zpos m * 2 ^ e * 10 ^ 6
      else 2 * Z.abs (micros m e * 2 ^ (- e) - Zpos m * 10 ^ 6) <= 2 ^ (- e).
Proof. by apply (write_read _ _ _ slack). Qed.

(** A loop over a filter calls its body with indices inside, in [size * size]
    turns. *)
Lemma wp_for_filter (P : Z -> rnd -> Prop) sz body s : 0 <= sz < 2 ^ 15 ->
  (forall n k s, 0 <= k < sz * sz -> P n s -> wp (body k) (fun _ => P (n + 1)) (fun _ _ => False) s) ->
  P 0 s -> wp (for_filter sz body) (fun _ => P (sz * sz)) (fun _ _ => False) s.
Proof.
  intros Hsz Hb H0. unfold for_filter.
  assert (0 + Z.of_nat (Z.to_nat sz) = sz) as Es by lia.
  pose proof (wp_for_range_idx (fun i => P (i * sz)) (fun _ _ => False)
    (fun i => for_range (Z.to_nat sz) 0 (fun j => body (u64 (u64 (j * sz) + i)))) (Z.to_nat sz) 0 s) as H.
  rewrite Es in H. apply H; [|done]. intros i s1 Hi H1.
  pose proof (wp_for_range_idx (fun j => P (i * sz + j)) (fun _ _ => False)
    (fun j => body (u64 (u64 (j * sz) + i))) (Z.to_nat sz) 0 s1) as Hj.
  rewrite Es in Hj. replace ((i + 1) * sz) with (i * sz + sz) by lia. apply Hj; [|by rewrite Z.add_0_r].
  intros j s2 Hjr H2. rewrite Z.add_assoc. apply Hb; [|done].
  rewrite (u64_small (j * sz)), u64_small by nia. nia.
Qed.

(** A random filter is made within its bounds: for every size below 2^15
    and whatever [rand] gives, [random_filter] stays inside the numbers of the
    filter, keeps their count, and calls [rand] once for each. *)
Theorem random_filter_in_bounds rand f
  (Hsize : 0 <= size f < 2 ^ 15) (Hlen : size f * size f <= Z.of_nat (length (fdata f))) :
  exists r, random_filter rand f = Done tt r /\ length (r_data r) = length (fdata f) /\
    Z.of_nat (r_used r) = size f * size f.
Proof.
  set (L := length (fdata f)) in *. set (n := size f) in *.
  assert (wp (fun s => random_filter rand f) (fun (_ : unit) r => length (r_data r) = L /\ Z.of_nat (r_used r) = n * n)
    (fun _ _ => False) (Rnd (fdata f) 0 (S754_zero false))) as H.
  { unfold random_filter. fold n. unfold wp. change (match ?m ?x with Done a s => ?q | Exited c t => False | _ => False end)
      with (wp m (fun (_ : unit) r => length (r_data r) = L /\ Z.of_nat (r_used r) = n * n) (fun _ _ => False) x).
    apply wp_bind. eapply wp_mono; [apply (wp_for_filter (fun k r => length (r_data r) = L /\ Z.of_nat (r_used r) = k));
      [done| |done]| |done].
    - intros m k s Hk [Hl Hu]. unfold wp, mbind, cm_bind, get. rewrite aset_ok by lia. simpl. rewrite length_insert. lia.
    - intros _ s [Hl Hu]. unfold wp, mbind at 1, cm_bind at 1, get. unfold mbind at 1, cm_bind at 1, put.
      change (wp (for_filter n (fun k => s0 ← get; x ← lift UB_bounds (aget (r_data s0) k);
          let y := flt_of_dbl (dbl_div (dbl_of_flt x) (r_sum s)) in
          d ← lift UB_bounds (aset (r_data s0) k y); put (Rnd d (r_used s0) (dbl_add (r_sum s0) (dbl_of_flt y)))))
        (fun _ r => length (r_data r) = L /\ Z.of_nat (r_used r) = n * n) (fun _ _ => False)
        (Rnd (r_data s) (r_used s) (S754_zero false))).
      apply (wp_for_filter (fun _ r => length (r_data r) = L /\ Z.of_nat (r_used r) = n * n)); [done| |done].
      intros m k s1 Hk [Hl1 Hu1]. unfold wp, mbind, cm_bind, get.
      destruct (aget_is_Some (r_data s1) k) as [x ->]; [lia|]. unfold lift at 1. unfold mret, cm_ret.
      rewrite aset_ok by lia. simpl. by rewrite length_insert. }
  unfold wp in H. destruct (random_filter rand f) as [[] r| | |]; try done. by exists r.
Qed.

(** A header that does not fit an [int] overruns the filter: the block is
    made for the [int], here 1, and the loop stores as many numbers as the
    [size_t] says.  Whatever the block holds, the second number is outside. *)
Theorem filter_size_overflow garbage :
  read_filter (fun _ => Some 0%nat) garbage ("4294967297" ++ nl ++ "0.5 0.5 ") () = Undef UB_bounds.
Proof. by vm_compute. Qed.

Definition demo_filter : filter_t := Filter 2 [flt_of_Z 1; S754_zero false; fdiv (flt_of_Z 1) (flt_of_Z 3); flt_of_Z (-2)].

Lemma filter_round_trip_witness :
  exists text rest, write_filter demo_filter () = Done text () /\
    read_filter (fun _ => Some 0%nat) S754_nan text () = Done (Some (Filter 2 (map reread (fdata demo_filter) ++ rest))) ().
Proof.
  destruct (filter_round_trip (fun _ => Some 0%nat) S754_nan demo_filter 0 () ltac:(by vm_compute) ltac:(by vm_compute)
    ltac:(by vm_compute) ltac:(done)) as (text & rest & E1 & E2 & _).
  by exists text, rest.
Defined.

Lemma random_filter_in_bounds_witness :
  exists r, random_filter (fun k => 7 * Z.of_nat k) (Filter 2 (replicate 4 S754_nan)) = Done tt r /\ r_used r = 4%nat.
Proof.
  destruct (random_filter_in_bounds (fun k => 7 * Z.of_nat k) (Filter 2 (replicate 4 S754_nan)) ltac:(by vm_compute)
    ltac:(by vm_compute)) as (r & E1 & _ & E2).
  exists r. split; [exact E1|]. simpl in E2. lia.
Defined.
