(* ===== verification/FilterMain.v ===== *)
(** The filtering program from its command line to the file it writes:
    cw08/zad1/src/main.c over [Pgm], [Filter] and [FilterFile], with every
    interleaving of its threads in between. *)
From S2P Require Import Prelude CString Scan Pgm PgmSpec Filter FilterSpec FilterFile FilterFileSpec.
From Stdlib Require Import Ascii String SpecFloat.
#[local] Open Scope string_scope.
#[local] Open Scope Z_scope.
Local Abbreviation length := Datatypes.length.
Local Abbreviation get := Prelude.get.

Section Run.
Context (malloc : Z -> option nat) (fgarbage : spec_float) (pgarbage : Z) (rand : nat -> Z).

(** The states of the threads of a job. *)
Definition job_reach (j : job) (s : state) : Prop :=
  reach (exec (j_filter j) (j_in j) (job_pixels j) (j_count j)) (job_threads j) s.
Definition job_stuck (j : job) (s : state) : Prop :=
  stuck (exec (j_filter j) (j_in j) (job_pixels j) (j_count j)) s.

(** What pixel [p] of the result should be. *)
Definition filtered (j : job) (p : Z) : outcome unit Z := expected (j_filter j) (j_in j) p.

(** ** Lemmas *)

Section Job.
Context (f0 : filter_t) (img0 : pgm_image) (count : Z) (fslack slack : nat).
Context (Hsize : 0 <= size f0 < 2 ^ 15) (Hnums : Z.of_nat (length (fdata f0)) = size f0 * size f0).
Context (Hfinite : forallb is_finite (fdata f0) = true).
Context (Himg : img_ok img0) (Hw : width img0 + size f0 <= INT_MAX) (Hh : height img0 + size f0 <= INT_MAX).
Context (Hcount : 0 < count /\ count + 5 <= INT_MAX).
Context (Hfmalloc : malloc (8 + 4 * (size f0 * size f0)) = Some fslack).
Context (Hmalloc : malloc (16 + width img0 * height img0) = Some slack) (Hslack : (3 <= slack)%nat).
Context (Hgarbage : 0 <= pgarbage < 256).

(** The image that is loaded back is sound. *)
Lemma loaded_ok {St} text img (s s' : St) :
  pgm_load malloc pgarbage text s = Done (Some img) s' -> width img = width img0 -> height img = height img0 ->
  pixels img = pixels img0 -> img_ok img.
Proof.
  intros Hl Ew Eh Ep. destruct Himg as (H1 & H2 & H3 & H4 & H5).
  split; [by rewrite Ew|]. split; [by rewrite Eh|]. split; [by rewrite Ew, Eh|].
  split; [by eapply load_bytes|]. apply (f_equal length) in Ep. unfold pixels in Ep.
  rewrite !length_take, Ew, Eh in Ep. rewrite Ew, Eh. nia.
Qed.

(** The image created for the result. *)
Lemma create_out {St} (s : St) :
  pgm_create malloc pgarbage (width img0) (height img0) s =
  Done (Some (Img (width img0) (height img0) (replicate (Z.to_nat (width img0 * height img0) + slack) pgarbage))) s.
Proof.
  destruct Himg as (H1 & H2 & H3 & _). unfold pgm_create, mret, cm_ret. unfold INT_MAX in *.
  rewrite (u64_small (width img0 * height img0)) by nia. rewrite u64_small by nia. by rewrite Hmalloc.
Qed.

Lemma job_pixels_eq f img out o : width img = width img0 -> height img = height img0 ->
  job_pixels (Job f img out count o) = width img * height img.
Proof.
  clear -Himg. intros Ew Eh. destruct Himg as (H1 & H2 & H3 & _). unfold job_pixels, s64, INT_MAX in *. cbn [j_in].
  rewrite Ew, Eh, Z.mul_comm, u64_small by nia. apply swrap_small; nia.
Qed.

(** The job [main] makes of the two files. *)
Definition job_of (j : job) (o : string) : Prop :=
  setting (j_filter j) (j_in j) (j_out j) count /\ bytes_ok (data (j_out j)) /\ j_count j = count /\ j_output j = o /\
  (exists rest, j_filter j = Filter (size f0) (map reread (fdata f0) ++ rest)) /\
  width (j_in j) = width img0 /\ height (j_in j) = height img0 /\ pixels (j_in j) = pixels img0.

Lemma main_job prog threads input filter output (w : world) :
  atoi_val threads = count -> threads <> "gen" ->
  (exists text, files w input = Some text /\ pgm_save img0 w = Done text w) ->
  (exists text, files w filter = Some text /\ write_filter f0 w = Done text w) ->
  exists j, main malloc fgarbage pgarbage rand [prog; threads; input; filter; output] w = Done (inr j) w /\ job_of j output.
Proof.
  intros Hat Hgen (itext & Hi & Hsave) (ftext & Hf & Hwrite).
  destruct (write_read malloc fgarbage f0 fslack w Hsize Hnums Hfinite Hfmalloc) as (ftext' & rest & Ew & Er & _).
  rewrite Ew in Hwrite. injection Hwrite as ->.
  destruct (save_load malloc pgarbage img0 slack w Himg Hmalloc) as (itext' & Es & El).
  rewrite Es in Hsave. injection Hsave as ->. rewrite decide_True in El by by right.
  destruct El as (img & El & Hiw & Hih & Hip). pose proof (loaded_ok _ _ _ _ El Hiw Hih Hip) as Hok.
  eexists. split.
  - unfold main, streq. rewrite (proj2 (String.eqb_neq _ _) Hgen).
    eapply bind_eq; [unfold atoi; apply int_op_ok; unfold INT_MIN, INT_MAX in *; lia|]. rewrite Hat.
    destruct (Z.leb_spec count 0); [lia|]. eapply bind_eq; [done|]. rewrite Hf, Hi.
    eapply bind_eq; [exact Er|]. eapply bind_eq; [exact El|]. cbn beta iota. rewrite Hiw, Hih.
    eapply bind_eq; [apply create_out|]. done.
  - assert (length (map reread (fdata f0) ++ rest) = (length (fdata f0) + length rest)%nat) as Hlen by by rewrite length_app, length_map.
    split; [|split; [|split; [|split; [|split; [|split; [|split]]]]]]; try done.
    + split; cbn [j_filter j_in j_out size fdata width height data]; rewrite ?Hiw, ?Hih; try done.
      * unfold filter_ok. cbn [size fdata]. lia.
      * rewrite length_replicate. destruct Himg as (? & ? & _). nia.
    + cbn [j_out data]. unfold bytes_ok. by apply Forall_replicate.
    + by exists rest.
Qed.

(** The pixels of the result are bytes. *)
Lemma expected_range f img p v : img_ok img -> filter_ok f -> 0 <= p < width img * height img ->
  width img + size f <= INT_MAX -> height img + size f <= INT_MAX -> expected f img p = Done v tt -> 0 <= v < 256.
Proof.
  intros Hi Hf Hp Hwi Hhe E. pose proof Hi as ([H1 _] & [H2 _] & _). assert (0 < width img) by nia.
  pose proof (Z.mod_pos_bound p (width img) ltac:(lia)) as Hm.
  assert (0 <= p / width img < height img) as Hd.
  { split; [apply Z.div_pos; lia|]. apply Z.div_lt_upper_bound; lia. }
  destruct (apply_filter_ok f img (p mod width img) (p / width img) tt Hi Hf) as [(v' & Hv & Hr)|Hv]; [lia..| |];
    unfold expected in E; rewrite Hv in E; [|done]. by injection E as <-.
Qed.
(** The image the threads leave when they have stopped. *)
Lemma job_out_ok j o s : job_of j o -> job_reach j s -> job_stuck j s ->
  img_ok (out_image s) /\ width (out_image s) = width img0 /\ height (out_image s) = height img0 /\
  forall p, 0 <= p < width img0 * height img0 ->
    exists v, filtered j p = Done v tt /\ data (out_image s) !! Z.to_nat p = Some v.
Proof.
  intros (Hset & Hb & Hc & _ & _ & Ew & Eh & _) Hr Hst. unfold job_reach, job_stuck, job_threads in *.
  destruct j as [f img out c out_name]. cbn [j_filter j_in j_out j_count] in *. subst c.
  rewrite job_pixels_eq in Hr, Hst by done.
  pose proof (reach_inv_threads f img out count Hset s Hr) as Hinv.
  destruct (stuck_pixels f img out count Hset s Hinv Hst) as [_ Hp].
  pose proof Hset as [Hi Hf Hwi Hhe _ Hsz _]. destruct (i_out _ _ _ _ s Hinv) as (Hw1 & Hh1 & Hl1).
  rewrite Ew, Eh in Hp. split; [|split; [congruence|split; [congruence|exact Hp]]].
  destruct Himg as (H1 & H2 & H3 & _). unfold img_ok. rewrite Hw1, Hh1, Hl1, Ew, Eh. rewrite Ew, Eh in Hsz.
  split; [done|]. split; [done|]. split; [done|]. split; [|done].
  apply Forall_lookup. intros q v Hq. destruct (Z.ltb_spec (Z.of_nat q) (width img0 * height img0)) as [Hlt|Hge].
  - destruct (Hp (Z.of_nat q)) as (v' & E & Hv); [lia|]. rewrite Nat2Z.id, Hq in Hv. injection Hv as <-.
    eapply (expected_range f img (Z.of_nat q)); try done. rewrite Ew, Eh. lia.
  - rewrite (i_rest _ _ _ _ s Hinv) in Hq by (rewrite Ew, Eh; lia). by apply (Forall_lookup_1 _ _ _ _ Hb) in Hq.
Qed.

(** Saving that image. *)
Lemma job_end j o s (w : world) : job_of j o -> job_reach j s -> job_stuck j s -> writable w o = true ->
  exists text out, main_end j (out_image s) w = Done 0 (World (files w) (writable w) (written_files w ++ [(o, text)])) /\
    pgm_load malloc pgarbage text w = Done (Some out) w /\
    width out = width img0 /\ height out = height img0 /\
    forall p, 0 <= p < width img0 * height img0 -> exists v, filtered j p = Done v tt /\ pixels out !! Z.to_nat p = Some v.
Proof.
  intros Hj Hr Hst Hwr. destruct (job_out_ok j o s Hj Hr Hst) as (Hok & Ew & Eh & Hp).
  destruct Hj as (_ & _ & _ & Ho & _).
  destruct (save_load malloc pgarbage (out_image s) slack w Hok) as (text & Es & El); [by rewrite Ew, Eh|].
  rewrite decide_True in El by by right. destruct El as (out & El & Ow & Oh & Op).
  exists text, out. split; [|split; [exact El|split; [congruence|split; [congruence|]]]].
  - unfold main_end. eapply bind_eq; [exact Es|].
    unfold write_file. rewrite Ho. eapply bind_eq; [eapply bind_eq; [done|]; by rewrite Hwr|done].
  - intros p Hpr. destruct (Hp p Hpr) as (v & E & Hv). exists v. split; [done|]. rewrite Op. unfold pixels.
    rewrite Ew, Eh, lookup_take_lt by lia. done.
Qed.
End Job.
End Run.

(** ** Properties *)


(** ** The property at a concrete input *)

Definition demo_text (o : outcome unit string) : option string := match o with Done t _ => Some t | _ => None end.

Definition demo_world : world :=
  World (fun name => if String.eqb name "in.pgm" then demo_text (pgm_save ex_img tt)
                     else if String.eqb name "f" then demo_text (write_filter ex_filter tt) else None) (fun _ => true) [].

